(** * The Supervisor's application class (framework/c/src/supervisor/app.c)

    A shallow embedding of [app.c]: the application object, its process
    objects, and the functions that create, start, stop and monitor an
    application.  The code talks to many collaborators that live in other
    files of the framework (the process launcher [proc.c], the cgroup
    freezer, the sandbox, the resource limits, SMACK, the user database, the
    timer and memory services).  Their answers are inputs of the model: an
    interface [Collaborators] gives, for an arbitrary state [Ext] of the
    outside world, the answer of every call and the state after it.  What
    [app.c] itself decides (the control flow, the fields it writes, the calls
    it makes and their order) is translated function by function. *)

From Stdlib Require Import ZArith String Ascii List Bool Lia.
From stdpp Require Import base list gmap strings.
Import ListNotations.

Local Open Scope string_scope.
Local Open Scope list_scope.

(** ** Basic types of [legato.h] and of the collaborators' headers *)

(** [le_result_t]: the result codes this file tests or returns. *)
Inductive le_result_t :=
  LE_OK | LE_NOT_FOUND | LE_OVERFLOW | LE_FAULT | LE_BUSY | LE_DUPLICATE.

Definition le_result_eqb (a b : le_result_t) : bool :=
  match a, b with
  | LE_OK, LE_OK | LE_NOT_FOUND, LE_NOT_FOUND | LE_OVERFLOW, LE_OVERFLOW
  | LE_FAULT, LE_FAULT | LE_BUSY, LE_BUSY | LE_DUPLICATE, LE_DUPLICATE => true
  | _, _ => false
  end.

Abbreviation pid_t := Z (only parsing).
Abbreviation uid_t := Z (only parsing).
Abbreviation gid_t := Z (only parsing).
Abbreviation time_t := Z (only parsing).

(** Handles on objects owned by other modules. *)
Abbreviation proc_Ref_t := nat (only parsing).
Abbreviation le_timer_Ref_t := nat (only parsing).

(** [app_State_t] (app.h). *)
Inductive app_State_t := APP_STATE_STOPPED | APP_STATE_RUNNING.

(** [app_ProcState_t] (app.h). *)
Inductive app_ProcState_t :=
  APP_PROC_STATE_STOPPED | APP_PROC_STATE_RUNNING | APP_PROC_STATE_PAUSED.

(** [app_FaultAction_t] (app.h): what the Supervisor must do for the app. *)
Inductive app_FaultAction_t :=
  | APP_FAULT_ACTION_IGNORE
  | APP_FAULT_ACTION_RESTART_APP
  | APP_FAULT_ACTION_STOP_APP
  | APP_FAULT_ACTION_REBOOT.

(** [proc_State_t] (proc.h). *)
Inductive proc_State_t :=
  PROC_STATE_STOPPED | PROC_STATE_RUNNING | PROC_STATE_PAUSED.

(** [proc_FaultAction_t] (proc.h): how the launcher classifies an exit. *)
Inductive proc_FaultAction_t :=
  | PROC_FAULT_ACTION_NO_FAULT
  | PROC_FAULT_ACTION_IGNORE
  | PROC_FAULT_ACTION_RESTART
  | PROC_FAULT_ACTION_RESTART_APP
  | PROC_FAULT_ACTION_STOP_APP
  | PROC_FAULT_ACTION_REBOOT.

(** [wdog_action_WatchdogAction_t] (watchdogAction.h). *)
Inductive wdog_action_WatchdogAction_t :=
  | WATCHDOG_ACTION_NOT_FOUND
  | WATCHDOG_ACTION_IGNORE
  | WATCHDOG_ACTION_RESTART
  | WATCHDOG_ACTION_STOP
  | WATCHDOG_ACTION_RESTART_APP
  | WATCHDOG_ACTION_STOP_APP
  | WATCHDOG_ACTION_REBOOT
  | WATCHDOG_ACTION_ERROR
  | WATCHDOG_ACTION_HANDLED.

(** [cgrp_FreezeState_t] as [KillAppProcs] reads it: frozen, not (yet)
    frozen, or the value that compares equal to [LE_FAULT]. *)
Inductive cgrp_FreezeState_t := CGRP_FROZEN | CGRP_THAWED | CGRP_FREEZE_FAULT.

(** The [ssize_t] that [cgrp_SendSig] returns: [LE_FAULT], or the number of
    processes that were sent the signal. *)
Inductive cgrp_SendSig_t := SENDSIG_FAULT | SENDSIG_COUNT (numProcs : Z).

Inductive signal_t := SIGTERM | SIGKILL.

(** [KillType_t]. *)
Inductive KillType_t := KILL_SOFT | KILL_HARD.

(** [ProcStopHandler_t]: a function pointer.  The only function this file
    ever stores in the slot is [StartProc]. *)
Inductive ProcStopHandler_t := Handler_StartProc.

(** [ProcObj_t]; the link field is the position in the list [procs]. *)
Record ProcObj_t := mkProcObj {
  procRef : proc_Ref_t;
  stopHandler : option ProcStopHandler_t
}.

(** [App_t]. *)
Record App_t := mkApp {
  name : string;
  cfgPathRoot : string;
  sandboxed : bool;
  installPath : string;
  sandboxPath : string;
  uid : uid_t;
  gid : gid_t;
  supplementGids : list gid_t;
  numSupplementGids : nat;
  state : app_State_t;
  procs : list ProcObj_t;
  killTimer : option le_timer_Ref_t
}.

Definition set_name v a := mkApp v (cfgPathRoot a) (sandboxed a) (installPath a) (sandboxPath a) (uid a) (gid a) (supplementGids a) (numSupplementGids a) (state a) (procs a) (killTimer a).
Definition set_cfgPathRoot v a := mkApp (name a) v (sandboxed a) (installPath a) (sandboxPath a) (uid a) (gid a) (supplementGids a) (numSupplementGids a) (state a) (procs a) (killTimer a).
Definition set_sandboxed v a := mkApp (name a) (cfgPathRoot a) v (installPath a) (sandboxPath a) (uid a) (gid a) (supplementGids a) (numSupplementGids a) (state a) (procs a) (killTimer a).
Definition set_installPath v a := mkApp (name a) (cfgPathRoot a) (sandboxed a) v (sandboxPath a) (uid a) (gid a) (supplementGids a) (numSupplementGids a) (state a) (procs a) (killTimer a).
Definition set_sandboxPath v a := mkApp (name a) (cfgPathRoot a) (sandboxed a) (installPath a) v (uid a) (gid a) (supplementGids a) (numSupplementGids a) (state a) (procs a) (killTimer a).
Definition set_uid v a := mkApp (name a) (cfgPathRoot a) (sandboxed a) (installPath a) (sandboxPath a) v (gid a) (supplementGids a) (numSupplementGids a) (state a) (procs a) (killTimer a).
Definition set_gid v a := mkApp (name a) (cfgPathRoot a) (sandboxed a) (installPath a) (sandboxPath a) (uid a) v (supplementGids a) (numSupplementGids a) (state a) (procs a) (killTimer a).
Definition set_supplementGids v a := mkApp (name a) (cfgPathRoot a) (sandboxed a) (installPath a) (sandboxPath a) (uid a) (gid a) v (numSupplementGids a) (state a) (procs a) (killTimer a).
Definition set_numSupplementGids v a := mkApp (name a) (cfgPathRoot a) (sandboxed a) (installPath a) (sandboxPath a) (uid a) (gid a) (supplementGids a) v (state a) (procs a) (killTimer a).
Definition set_state v a := mkApp (name a) (cfgPathRoot a) (sandboxed a) (installPath a) (sandboxPath a) (uid a) (gid a) (supplementGids a) (numSupplementGids a) v (procs a) (killTimer a).
Definition set_procs v a := mkApp (name a) (cfgPathRoot a) (sandboxed a) (installPath a) (sandboxPath a) (uid a) (gid a) (supplementGids a) (numSupplementGids a) (state a) v (killTimer a).
Definition set_killTimer v a := mkApp (name a) (cfgPathRoot a) (sandboxed a) (installPath a) (sandboxPath a) (uid a) (gid a) (supplementGids a) (numSupplementGids a) (state a) (procs a) v.

(** ** Constants of [limit.h]

    The header is not part of the translated sources; the buffer sizes and
    the size of the supplementary-groups array are parameters.  [TIME_T_BITS]
    is the width of the platform's signed [time_t]. *)
Class Limits := {
  LIMIT_MAX_PATH_BYTES : nat;
  LIMIT_MAX_NUM_SUPPLEMENTARY_GROUPS : nat;
  LIMIT_MAX_USER_NAME_BYTES : nat;
  LIMIT_MAX_APP_NAME_BYTES : nat;
  LIMIT_MAX_FAULT_ACTION_NAME_BYTES : nat;
  TIME_T_BITS : Z
}.

(** Constants defined in [app.c] itself. *)
Definition APPS_INSTALL_DIR := "/opt/legato/apps".
Definition CFG_NODE_SANDBOXED := "sandboxed".
Definition CFG_NODE_GROUPS := "groups".
Definition CFG_NODE_PROC_LIST := "procs".
Definition CFG_NODE_BINDINGS := "bindings".
Definition REBOOT_FAULT_RECORD := "/opt/legato/appRebootFault".

(** [le_clk_Time_t]. *)
Record le_clk_Time_t := mkTime { sec : Z; usec : Z }.

Definition KillTimeout : le_clk_Time_t := {| sec := 0; usec := 300000 |}.

Definition FAULT_LIMIT_INTERVAL_RESTART : Z := 10.
Definition FAULT_LIMIT_INTERVAL_RESTART_APP : Z := 10.
Definition FAULT_LIMIT_INTERVAL_REBOOT : Z := 120.

(** Time is counted in microseconds on the event loop's clock. *)
Definition usecs (t : le_clk_Time_t) : Z := (sec t * 1000000 + usec t)%Z.

(** ** C strings *)

Definition NUL : ascii := Ascii.zero.

(** The C string held in a byte buffer: the bytes before the first NUL. *)
Fixpoint cstr (buf : string) : string :=
  match buf with
  | EmptyString => EmptyString
  | String c rest => if Ascii.eqb c NUL then EmptyString else String c (cstr rest)
  end.

(** [strcmp(a, b) == 0]. *)
Definition strcmp_eq (a b : string) : bool := String.eqb (cstr a) (cstr b).

(** [strstr(s, needle) != NULL]. *)
Fixpoint strstr (s needle : string) : bool :=
  if String.prefix needle s then true
  else match s with
       | EmptyString => false
       | String _ rest => strstr rest needle
       end.

(** The first [n] bytes of a buffer. *)
Definition take_bytes (n : nat) (s : string) : string := String.substring 0 n s.

(** [snprintf(buf, size, "%s/%s", a, b)]: the text that is formatted, whose
    length is the value returned. *)
Definition fmt_slash (a b : string) : string := a ++ "/" ++ b.

(** Copying a C string into a buffer of [size] bytes, as the [le_]
    functions with a buffer and its size do: the string must fit together
    with its terminating NUL. *)
Definition copy_to_buf (s : string) (size : nat) : le_result_t * string :=
  if (String.length s <? size)%nat then (LE_OK, s)
  else (LE_OVERFLOW, take_bytes (size - 1) s).

(** ** The config tree

    Modelled from the spec: the [le_cfg] API is declared in
    [le_cfg_interface.h], outside the translated sources.  The tree is a
    hierarchical string-keyed store read through iterators: a node is empty
    (or absent), holds a value, or is a stem with an ordered list of named
    children. *)
#[warnings="-register-all"]
Inductive cfg_node :=
  | CfgEmpty
  | CfgBool (b : bool)
  | CfgString (s : string)
  | CfgStem (children : list (string * cfg_node)).

(** [le_cfg_IteratorRef_t]: the node the iterator points at, the path of its
    parent, its name, and the siblings that follow it. *)
Record le_cfg_Iterator := mkIter {
  it_parent : string;
  it_name : string;
  it_node : cfg_node;
  it_siblings : list (string * cfg_node)
}.

(** The path of the child [child] of the node at [parent]; the root of a
    transaction has no name. *)
Definition cfg_child_path (parent child : string) : string :=
  if String.eqb child "" then parent else parent ++ "/" ++ child.

Definition it_path (it : le_cfg_Iterator) : string :=
  cfg_child_path (it_parent it) (it_name it).

Fixpoint find_child (sub : string) (children : list (string * cfg_node))
  : option (cfg_node * list (string * cfg_node)) :=
  match children with
  | [] => None
  | (n, c) :: rest => if String.eqb n sub then Some (c, rest) else find_child sub rest
  end.

Definition child_node (sub : string) (node : cfg_node) : cfg_node :=
  match node with
  | CfgStem children =>
      match find_child sub children with Some (c, _) => c | None => CfgEmpty end
  | _ => CfgEmpty
  end.

Definition le_cfg_GoToNode (it : le_cfg_Iterator) (sub : string) : le_cfg_Iterator :=
  match it_node it with
  | CfgStem children =>
      match find_child sub children with
      | Some (c, rest) => mkIter (it_path it) sub c rest
      | None => mkIter (it_path it) sub CfgEmpty []
      end
  | _ => mkIter (it_path it) sub CfgEmpty []
  end.

Definition le_cfg_GoToFirstChild (it : le_cfg_Iterator) : le_result_t * le_cfg_Iterator :=
  match it_node it with
  | CfgStem ((n, c) :: rest) => (LE_OK, mkIter (it_path it) n c rest)
  | _ => (LE_NOT_FOUND, it)
  end.

Definition le_cfg_GoToNextSibling (it : le_cfg_Iterator) : le_result_t * le_cfg_Iterator :=
  match it_siblings it with
  | (n, c) :: rest => (LE_OK, mkIter (it_parent it) n c rest)
  | [] => (LE_NOT_FOUND, it)
  end.

(** [le_cfg_GetNodeName(it, "", buf, size)]. *)
Definition le_cfg_GetNodeName (it : le_cfg_Iterator) (size : nat) : le_result_t * string :=
  copy_to_buf (it_name it) size.

(** [le_cfg_GetPath(it, "", buf, size)]. *)
Definition le_cfg_GetPath (it : le_cfg_Iterator) (size : nat) : le_result_t * string :=
  copy_to_buf (it_path it) size.

(** [le_cfg_GetString(it, sub, buf, size, default)]. *)
Definition le_cfg_GetString (it : le_cfg_Iterator) (sub : string) (size : nat)
    (default : string) : le_result_t * string :=
  match child_node sub (it_node it) with
  | CfgString s => copy_to_buf s size
  | _ => copy_to_buf default size
  end.

(** [le_cfg_GetBool(it, sub, default)]. *)
Definition le_cfg_GetBool (it : le_cfg_Iterator) (sub : string) (default : bool) : bool :=
  match child_node sub (it_node it) with
  | CfgBool b => b
  | _ => default
  end.

(** ** Calls to the collaborators

    Every call that acts on, or reads a changing part of, the outside world.
    The index is the type of the answer. *)
Inductive call : Type -> Type :=
  (* memory pools *)
  | LeMemForceAlloc_App : call App_t
  | LeMemRelease_App (block : App_t) : call unit
  (* proc.h *)
  | ProcInit : call unit
  | ProcCreate (cfgPath appName : string) : call (option proc_Ref_t)
  | ProcDelete (p : proc_Ref_t) : call unit
  | ProcStart (p : proc_Ref_t) (installDir : string) : call le_result_t
  | ProcStartInSandbox (p : proc_Ref_t) (workingDir : string) (u : uid_t) (g : gid_t)
      (gids : list gid_t) (numGids : nat) (sandboxDir : string) : call le_result_t
  | ProcStopping (p : proc_Ref_t) : call unit
  | ProcSigChildHandler (p : proc_Ref_t) (procExitStatus : Z) : call proc_FaultAction_t
  (* cgroups.h *)
  | CgrpFrzFreeze (appName : string) : call le_result_t
  | CgrpFrzGetState (appName : string) : call cgrp_FreezeState_t
  | CgrpFrzThaw (appName : string) : call le_result_t
  | CgrpSendSig (appName : string) (sig : signal_t) : call cgrp_SendSig_t
  (* sandbox.h, resourceLimits.h *)
  | SandboxSetup (appName : string) : call le_result_t
  | SandboxRemove (appName : string) : call le_result_t
  | ResLimSetAppLimits (appName : string) : call le_result_t
  | ResLimCleanupApp (appName : string) : call unit
  (* smack.h *)
  | SmackSetRule (subject permission object : string) : call unit
  | SmackRevokeSubject (label : string) : call unit
  (* user.h *)
  | UserGetIDs (username : string) : call (le_result_t * uid_t * gid_t)
  | UserCreateGroup (groupName : string) : call (le_result_t * gid_t)
  (* killProc.h *)
  | KillHard (pid : pid_t) : call unit.

(** A call that was made, as recorded in the trace. *)
Inductive event := Ev (R : Type) (c : call R).

Arguments Ev {R} c.

(** The operating-system calls on the reboot fault record that can fail. *)
Inductive os_call := OS_flock_Create | OS_flock_Open | OS_read | OS_write | OS_unlink.

(** The collaborators: for a state [Ext] of the outside world, the queries
    that read it, the pure helpers, and the answer and effect of each call. *)
Class Collaborators (Ext : Type) := {
  (* proc.h: read the launcher's record of a process *)
  proc_GetPID : Ext -> proc_Ref_t -> pid_t;
  proc_GetName : Ext -> proc_Ref_t -> string;
  proc_GetFaultTime : Ext -> proc_Ref_t -> time_t;
  proc_GetState : Ext -> proc_Ref_t -> proc_State_t;
  proc_GetWatchdogAction : Ext -> proc_Ref_t -> wdog_action_WatchdogAction_t;
  (* cgroups.h *)
  cgrp_IsEmpty : Ext -> string -> bool;
  (* smack.h *)
  appSmack_GetLabel : string -> string;
  appSmack_GetAccessLabel : string -> Z -> string;
  APPSMACK_ACCESS_FLAG_READ : Z;
  APPSMACK_ACCESS_FLAG_WRITE : Z;
  APPSMACK_ACCESS_FLAG_EXECUTE : Z;
  (* user.h, sandbox.h, le_path.h, le_utf8.h: string helpers with a buffer size *)
  user_AppNameToUserName : string -> nat -> le_result_t * string;
  sandbox_GetPath : string -> nat -> le_result_t * string;
  le_path_GetBasenamePtr : string -> string -> string;
  le_path_Concat : string -> nat -> list string -> le_result_t * string;
  (* watchdogAction.h *)
  wdog_action_GetConfigNode : string;
  wdog_action_EnumFromString : string -> wdog_action_WatchdogAction_t;
  (* the answer to a call and the outside world after it *)
  perform : forall R, call R -> Ext -> R * Ext
}.

Arguments perform {_ _ _} _ _.

(** ** Timers

    Modelled from the spec: the timer service ([le_timer.h]) is outside the
    translated sources.  Timers are one-shot; a timer is running while it
    has an expiry time; setting the handler, the interval or the context, or
    starting, is refused with [LE_BUSY] on a running timer, so starting a
    running timer does not rearm it. *)
Inductive timer_handler := Timer_RebootFaultTimerHandler | Timer_HardKillApp.

Record le_timer := mkTimer {
  tm_name : string;
  tm_handler : option timer_handler;
  tm_interval : Z;
  tm_context : option string;
  tm_expiry : option Z
}.

Definition tm_running (t : le_timer) : bool :=
  match tm_expiry t with Some _ => true | None => false end.

(** ** The world the code runs in

    [ext] is the state of the collaborators; [trace] the calls made to them,
    oldest first; [entered] the functions of this file that were entered (a
    record kept by the model); [cfgTree] the config tree, by absolute path;
    [rebootFaultRecord] the content of the file [REBOOT_FAULT_RECORD] when it
    exists; [os_faults] tells which operating-system calls on that file
    fail; [timers] the timers that exist; [clock] the event loop's clock. *)
Record World (Ext : Type) := mkWorld {
  ext : Ext;
  trace : list event;
  entered : list string;
  cfgTree : string -> cfg_node;
  rebootFaultRecord : option string;
  os_faults : os_call -> bool;
  timers : gmap nat le_timer;
  timerCount : nat;
  clock : Z
}.

Arguments mkWorld {Ext} _ _ _ _ _ _ _ _ _.
Arguments ext {Ext} _.
Arguments trace {Ext} _.
Arguments entered {Ext} _.
Arguments cfgTree {Ext} _.
Arguments rebootFaultRecord {Ext} _.
Arguments os_faults {Ext} _.
Arguments timers {Ext} _.
Arguments timerCount {Ext} _.
Arguments clock {Ext} _.

(** How a function of the supervisor ends: it returns, the process is killed
    by a failed [LE_ASSERT] or an [LE_FATAL], or a wait loop is cut off. *)
Inductive outcome (A : Type) := Ret (a : A) | Fatal | OutOfFuel.

Arguments Ret {A} a.
Arguments Fatal {A}.
Arguments OutOfFuel {A}.

Section Supervisor.

Context {Ext : Type} `{Collab : Collaborators Ext} `{Lim : Limits}.

Definition set_ext (e : Ext) (w : World Ext) : World Ext :=
  mkWorld e (trace w) (entered w) (cfgTree w) (rebootFaultRecord w) (os_faults w)
          (timers w) (timerCount w) (clock w).
Definition set_trace (t : list event) (w : World Ext) : World Ext :=
  mkWorld (ext w) t (entered w) (cfgTree w) (rebootFaultRecord w) (os_faults w)
          (timers w) (timerCount w) (clock w).
Definition set_entered (l : list string) (w : World Ext) : World Ext :=
  mkWorld (ext w) (trace w) l (cfgTree w) (rebootFaultRecord w) (os_faults w)
          (timers w) (timerCount w) (clock w).
Definition set_rebootFaultRecord (f : option string) (w : World Ext) : World Ext :=
  mkWorld (ext w) (trace w) (entered w) (cfgTree w) f (os_faults w)
          (timers w) (timerCount w) (clock w).
Definition set_timers (t : gmap nat le_timer) (w : World Ext) : World Ext :=
  mkWorld (ext w) (trace w) (entered w) (cfgTree w) (rebootFaultRecord w) (os_faults w)
          t (timerCount w) (clock w).
Definition set_timerCount (n : nat) (w : World Ext) : World Ext :=
  mkWorld (ext w) (trace w) (entered w) (cfgTree w) (rebootFaultRecord w) (os_faults w)
          (timers w) n (clock w).
Definition set_clock (c : Z) (w : World Ext) : World Ext :=
  mkWorld (ext w) (trace w) (entered w) (cfgTree w) (rebootFaultRecord w) (os_faults w)
          (timers w) (timerCount w) c.

(** *** The monad of the supervisor's code: state passing over the world *)
Definition M (A : Type) : Type := World Ext -> outcome (A * World Ext).

Definition ret {A} (a : A) : M A := fun w => Ret (a, w).

Definition bind {A B} (m : M A) (k : A -> M B) : M B :=
  fun w => match m w with
           | Ret (a, w') => k a w'
           | Fatal => Fatal
           | OutOfFuel => OutOfFuel
           end.

Notation "x <- c1 ;; c2" := (bind c1 (fun x => c2))
  (at level 100, c1 at next level, right associativity).
Notation "c1 ;;; c2" := (bind c1 (fun _ => c2))
  (at level 100, right associativity).

Definition get_world : M (World Ext) := fun w => Ret (w, w).
Definition fatal {A} : M A := fun _ => Fatal.
Definition out_of_fuel {A} : M A := fun _ => OutOfFuel.

(** [LE_ASSERT(cond)]. *)
Definition LE_ASSERT (cond : bool) : M unit := if cond then ret tt else fatal.

(** A call to a collaborator: the answer comes from the outside world, which
    changes, and the call is appended to the trace. *)
Definition do_call {R} (c : call R) : M R :=
  fun w => let '(r, e') := perform c (ext w) in
           Ret (r, set_trace (trace w ++ [Ev c]) (set_ext e' w)).

(** The world after a call answered with the outside state [e']. *)
Definition after_call {R} (c : call R) (e' : Ext) (w : World Ext) : World Ext :=
  set_trace (trace w ++ [Ev c]) (set_ext e' w).

(** Reading the outside world. *)
Definition query {A} (f : Ext -> A) : M A := fun w => Ret (f (ext w), w).

(** Entering a function of this file. *)
Definition enter (fn : string) : M unit :=
  fun w => Ret (tt, set_entered (entered w ++ [fn]) w).

(** *** The timer service (see [le_timer] above) *)

Definition le_timer_Create (nameStr : string) : M le_timer_Ref_t :=
  fun w =>
    let r := timerCount w in
    Ret (r, set_timerCount (S r)
              (set_timers (<[r := mkTimer nameStr None 0 None None]> (timers w)) w)).

Definition with_stopped_timer (r : le_timer_Ref_t) (f : le_timer -> le_timer)
  : M le_result_t :=
  fun w => match timers w !! r with
           | None => Fatal
           | Some t => if tm_running t then Ret (LE_BUSY, w)
                       else Ret (LE_OK, set_timers (<[r := f t]> (timers w)) w)
           end.

Definition le_timer_SetHandler (r : le_timer_Ref_t) (h : timer_handler) : M le_result_t :=
  with_stopped_timer r (fun t =>
    mkTimer (tm_name t) (Some h) (tm_interval t) (tm_context t) (tm_expiry t)).

Definition le_timer_SetInterval (r : le_timer_Ref_t) (i : le_clk_Time_t) : M le_result_t :=
  with_stopped_timer r (fun t =>
    mkTimer (tm_name t) (tm_handler t) (usecs i) (tm_context t) (tm_expiry t)).

Definition le_timer_SetContextPtr (r : le_timer_Ref_t) (ctx : string) : M le_result_t :=
  with_stopped_timer r (fun t =>
    mkTimer (tm_name t) (tm_handler t) (tm_interval t) (Some ctx) (tm_expiry t)).

Definition le_timer_Start (r : le_timer_Ref_t) : M le_result_t :=
  fun w => with_stopped_timer r (fun t =>
    mkTimer (tm_name t) (tm_handler t) (tm_interval t) (tm_context t)
            (Some (clock w + tm_interval t)%Z)) w.

Definition le_timer_Stop (r : le_timer_Ref_t) : M le_result_t :=
  fun w => match timers w !! r with
           | None => Fatal
           | Some t =>
               if tm_running t
               then Ret (LE_OK, set_timers (<[r := mkTimer (tm_name t) (tm_handler t)
                           (tm_interval t) (tm_context t) None]> (timers w)) w)
               else Ret (LE_FAULT, w)
           end.

Definition le_timer_Delete (r : le_timer_Ref_t) : M unit :=
  fun w => Ret (tt, set_timers (delete r (timers w)) w).

(** *** The reboot fault record file

    The file itself is part of the world; whether an operating-system call
    on it fails is decided by [os_faults]. *)
Inductive flock_fd := FD_NOT_FOUND | FD_FAULT | FD_OPEN.

(** [le_flock_Open(REBOOT_FAULT_RECORD, LE_FLOCK_READ)]. *)
Definition le_flock_Open : M flock_fd :=
  fun w => if os_faults w OS_flock_Open then Ret (FD_FAULT, w)
           else match rebootFaultRecord w with
                | None => Ret (FD_NOT_FOUND, w)
                | Some _ => Ret (FD_OPEN, w)
                end.

(** [le_flock_Create(REBOOT_FAULT_RECORD, LE_FLOCK_WRITE,
    LE_FLOCK_REPLACE_IF_EXIST, S_IRWXU)]: [true] when a descriptor is
    returned; the file then exists and is empty. *)
Definition le_flock_Create : M bool :=
  fun w => if os_faults w OS_flock_Create then Ret (false, w)
           else Ret (true, set_rebootFaultRecord (Some "") w).

(** [read(fd, buf, size)]: the count ([-1] on error) and the bytes read. *)
Definition sys_read (size : nat) : M (Z * string) :=
  fun w => if os_faults w OS_read then Ret ((-1)%Z, "", w)
           else match rebootFaultRecord w with
                | None => Ret ((-1)%Z, "", w)
                | Some content =>
                    let data := take_bytes size content in
                    Ret (Z.of_nat (String.length data), data, w)
                end.

(** [write(fd, buf, count)] of the bytes [data]: the count written, or [-1]. *)
Definition sys_write (data : string) : M Z :=
  fun w => if os_faults w OS_write then Ret ((-1)%Z, w)
           else match rebootFaultRecord w with
                | None => Ret ((-1)%Z, w)
                | Some content =>
                    Ret (Z.of_nat (String.length data),
                         set_rebootFaultRecord (Some (content ++ data)%string) w)
                end.

(** [unlink(REBOOT_FAULT_RECORD)]: [LE_OK] for 0, [LE_NOT_FOUND] for -1 with
    [errno == ENOENT], [LE_FAULT] for -1 with another [errno]. *)
Definition sys_unlink : M le_result_t :=
  fun w => if os_faults w OS_unlink then Ret (LE_FAULT, w)
           else match rebootFaultRecord w with
                | None => Ret (LE_NOT_FOUND, w)
                | Some _ => Ret (LE_OK, set_rebootFaultRecord None w)
                end.

(** [le_cfg_CreateReadTxn(path)]: an iterator on the node at [path].
    ([le_cfg_CancelTxn] only gives the iterator back and is left out.) *)
Definition le_cfg_CreateReadTxn (path : string) : M le_cfg_Iterator :=
  fun w => Ret (mkIter path "" (cfgTree w path) [], w).

(** ** The functions of [app.c]

    Log messages ([LE_DEBUG], [LE_INFO], [LE_WARN], [LE_ERROR], [LE_CRIT],
    [LE_EMERG]) have no effect on the state and are left out. *)

(** Subtraction of two [time_t] values, on [TIME_T_BITS] signed bits. *)
Definition time_t_wrap (z : Z) : time_t :=
  ((z + 2 ^ (TIME_T_BITS - 1)) mod 2 ^ TIME_T_BITS - 2 ^ (TIME_T_BITS - 1))%Z.

Definition time_t_sub (a b : time_t) : time_t := time_t_wrap (a - b).

(** [RebootFaultTimerHandler]. *)
Definition RebootFaultTimerHandler (timerRef : le_timer_Ref_t) : M unit :=
  _ <- sys_unlink ;;
  le_timer_Delete timerRef.

(** [app_Init].  The two memory pools are part of the outside world. *)
Definition app_Init : M unit :=
  rebootFaultTimer <- le_timer_Create "RebootFault" ;;
  let rebootFaultInterval := {| sec := FAULT_LIMIT_INTERVAL_REBOOT; usec := 0 |} in
  r1 <- le_timer_SetHandler rebootFaultTimer Timer_RebootFaultTimerHandler ;;
  (if le_result_eqb r1 LE_OK
   then r2 <- le_timer_SetInterval rebootFaultTimer rebootFaultInterval ;;
        if le_result_eqb r2 LE_OK
        then _ <- le_timer_Start rebootFaultTimer ;; ret tt
        else ret tt
   else ret tt) ;;;
  do_call ProcInit.

(** The [for] loop of [CreateSupplementaryGroups]; [n] is the number of
    iterations the loop condition [i < LIMIT_MAX_NUM_SUPPLEMENTARY_GROUPS]
    still allows.  [inl r]: the function returned [r] from inside the loop;
    [inr i]: the loop was left, by [break] or by its condition, with this
    value of [i]. *)
Fixpoint groups_loop (n i : nat) (cfgIter : le_cfg_Iterator) (appRef : App_t)
  : M ((le_result_t + nat) * App_t) :=
  match n with
  | O => ret (inr i, appRef)
  | S n' =>
      let '(res, groupName) := le_cfg_GetNodeName cfgIter LIMIT_MAX_USER_NAME_BYTES in
      if negb (le_result_eqb res LE_OK) then ret (inl LE_FAULT, appRef)
      else
        created <- do_call (UserCreateGroup groupName) ;;
        let '(cres, gid) := created in
        if le_result_eqb cres LE_FAULT then ret (inl LE_FAULT, appRef)
        else
          let appRef := set_supplementGids (<[i := gid]> (supplementGids appRef)) appRef in
          let '(nres, cfgIter') := le_cfg_GoToNextSibling cfgIter in
          if negb (le_result_eqb nres LE_OK) then ret (inr i, appRef)
          else if (LIMIT_MAX_NUM_SUPPLEMENTARY_GROUPS - 1 <=? i)%nat
               then ret (inl LE_FAULT, appRef)
               else groups_loop n' (S i) cfgIter' appRef
  end.

(** [CreateSupplementaryGroups]. *)
Definition CreateSupplementaryGroups (appRef : App_t) : M (le_result_t * App_t) :=
  cfgIter <- le_cfg_CreateReadTxn (cfgPathRoot appRef) ;;
  let cfgIter := le_cfg_GoToNode cfgIter CFG_NODE_GROUPS in
  let '(fres, cfgIter) := le_cfg_GoToFirstChild cfgIter in
  if negb (le_result_eqb fres LE_OK) then ret (LE_OK, appRef)
  else
    looped <- groups_loop LIMIT_MAX_NUM_SUPPLEMENTARY_GROUPS 0 cfgIter appRef ;;
    match looped with
    | (inl r, appRef) => ret (r, appRef)
    | (inr i, appRef) => ret (LE_OK, set_numSupplementGids (i + 1) appRef)
    end.

(** [CreateUserAndGroups]. *)
Definition CreateUserAndGroups (appRef : App_t) : M (le_result_t * App_t) :=
  if sandboxed appRef then
    let '(ures, username) := user_AppNameToUserName (name appRef) LIMIT_MAX_USER_NAME_BYTES in
    if negb (le_result_eqb ures LE_OK) then ret (LE_FAULT, appRef)
    else
      ids <- do_call (UserGetIDs username) ;;
      let '(ires, u, g) := ids in
      if negb (le_result_eqb ires LE_OK) then ret (LE_FAULT, appRef)
      else CreateSupplementaryGroups (set_gid g (set_uid u appRef))
  else
    ret (LE_OK, set_gid 0%Z (set_uid 0%Z appRef)).

(** The loop of [app_Delete] that pops and frees the process objects. *)
Fixpoint delete_procs (l : list ProcObj_t) : M unit :=
  match l with
  | [] => ret tt
  | procPtr :: rest => do_call (ProcDelete (procRef procPtr)) ;;; delete_procs rest
  end.

(** [app_Delete]. *)
Definition app_Delete (appRef : App_t) : M unit :=
  delete_procs (procs appRef) ;;;
  (match killTimer appRef with
   | Some t => le_timer_Delete t
   | None => ret tt
   end) ;;;
  do_call (LeMemRelease_App (set_procs [] appRef)).

(** Stripping the trailing ['/'] of a path, as [app_Create] does on the
    buffer it got from [le_cfg_GetPath]. *)
Fixpoint strip_trailing_slash (path : string) : string :=
  match path with
  | EmptyString => EmptyString
  | String c EmptyString => if Ascii.eqb c "/"%char then EmptyString else path
  | String c rest => String c (strip_trailing_slash rest)
  end.

(** The [do ... while] loop of [app_Create] over the children of [procs];
    [n] bounds the number of siblings that are left.  [None]: the loop
    deleted the application and [app_Create] returns [NULL]. *)
Fixpoint create_procs (n : nat) (cfgIterator : le_cfg_Iterator) (appPtr : App_t)
  : M (option App_t) :=
  match n with
  | O => out_of_fuel
  | S n' =>
      let '(pres, procCfgPath) := le_cfg_GetPath cfgIterator LIMIT_MAX_PATH_BYTES in
      if le_result_eqb pres LE_OVERFLOW then app_Delete appPtr ;;; ret None
      else
        let procCfgPath := strip_trailing_slash procCfgPath in
        created <- do_call (ProcCreate procCfgPath (name appPtr)) ;;
        match created with
        | None => app_Delete appPtr ;;; ret None
        | Some procPtr =>
            let appPtr := set_procs (procs appPtr ++ [mkProcObj procPtr None]) appPtr in
            let '(nres, cfgIterator') := le_cfg_GoToNextSibling cfgIterator in
            if le_result_eqb nres LE_OK then create_procs n' cfgIterator' appPtr
            else ret (Some appPtr)
        end
  end.

(** The last part of [app_Create], after the user and the groups: the
    install path, the sandbox path and the process objects. *)
Definition create_paths_and_procs (cfgIterator : le_cfg_Iterator) (appPtr : App_t)
  : M (option App_t) :=
  let '(ires, path) :=
    le_path_Concat "/" LIMIT_MAX_PATH_BYTES [APPS_INSTALL_DIR; name appPtr] in
  let appPtr := set_installPath path appPtr in
  if negb (le_result_eqb ires LE_OK) then do_call (LeMemRelease_App appPtr) ;;; ret None
  else
    let '(sres, appPtr) :=
      if sandboxed appPtr
      then let '(r, path) := sandbox_GetPath (name appPtr) LIMIT_MAX_PATH_BYTES in
           (r, set_sandboxPath path appPtr)
      else (LE_OK, set_sandboxPath "" appPtr) in
    if negb (le_result_eqb sres LE_OK) then do_call (LeMemRelease_App appPtr) ;;; ret None
    else
      let cfgIterator := le_cfg_GoToNode cfgIterator CFG_NODE_PROC_LIST in
      let '(fres, cfgIterator) := le_cfg_GoToFirstChild cfgIterator in
      if le_result_eqb fres LE_OK
      then create_procs (S (length (it_siblings cfgIterator))) cfgIterator appPtr
      else ret (Some appPtr).

(** The application object after the first assignments of [app_Create]:
    the config path, the name, the empty process list, the state and the
    kill timer.  The other fields still hold what the block held. *)
Definition create_init (block : App_t) (cfgPathRootPtr : string) : App_t :=
  let appPtr := set_cfgPathRoot cfgPathRootPtr block in
  let appPtr := set_name (le_path_GetBasenamePtr (cfgPathRoot appPtr) "/") appPtr in
  let appPtr := set_procs [] appPtr in
  let appPtr := set_state APP_STATE_STOPPED appPtr in
  set_killTimer None appPtr.

(** [app_Create].  The block that [le_mem_ForceAlloc] hands out holds
    whatever the pool left in it; the function writes the fields one by
    one.  [None] is [NULL]. *)
Definition app_Create (cfgPathRootPtr : string) : M (option App_t) :=
  appPtr <- do_call LeMemForceAlloc_App ;;
  let '(cres, copied) := copy_to_buf cfgPathRootPtr LIMIT_MAX_PATH_BYTES in
  if negb (le_result_eqb cres LE_OK)
  then do_call (LeMemRelease_App (set_cfgPathRoot copied appPtr)) ;;; ret None
  else
    let appPtr := create_init appPtr copied in
    cfgIterator <- le_cfg_CreateReadTxn (cfgPathRoot appPtr) ;;
    let appPtr := set_sandboxed (le_cfg_GetBool cfgIterator CFG_NODE_SANDBOXED true) appPtr in
    created <- CreateUserAndGroups appPtr ;;
    let '(ures, appPtr) := created in
    if negb (le_result_eqb ures LE_OK) then do_call (LeMemRelease_App appPtr) ;;; ret None
    else create_paths_and_procs cfgIterator appPtr.

(** The [do ... while] loop of [SetSmackRulesForBindings]; [n] bounds the
    number of siblings that are left. *)
Fixpoint bindings_loop (n : nat) (bindCfg : le_cfg_Iterator) (appLabelPtr : string)
  : M unit :=
  match n with
  | O => out_of_fuel
  | S n' =>
      let '(gres, serverName) :=
        le_cfg_GetString bindCfg "app" LIMIT_MAX_APP_NAME_BYTES "" in
      (if le_result_eqb gres LE_OK && negb (strcmp_eq serverName "")
       then
         let serverLabel := appSmack_GetLabel serverName in
         do_call (SmackSetRule appLabelPtr "rw" serverLabel) ;;;
         do_call (SmackSetRule serverLabel "rw" appLabelPtr)
       else ret tt) ;;;
      let '(nres, bindCfg') := le_cfg_GoToNextSibling bindCfg in
      if le_result_eqb nres LE_OK then bindings_loop n' bindCfg' appLabelPtr
      else ret tt
  end.

(** [SetSmackRulesForBindings]. *)
Definition SetSmackRulesForBindings (appRef : App_t) (appLabelPtr : string)
  : M le_result_t :=
  bindCfg <- le_cfg_CreateReadTxn (cfgPathRoot appRef) ;;
  let bindCfg := le_cfg_GoToNode bindCfg CFG_NODE_BINDINGS in
  let '(fres, bindCfg) := le_cfg_GoToFirstChild bindCfg in
  if negb (le_result_eqb fres LE_OK) then ret LE_OK
  else
    bindings_loop (S (length (it_siblings bindCfg))) bindCfg appLabelPtr ;;;
    ret LE_OK.

Definition NUM_PERMISSONS : nat := 7.

Definition permissionStr : list string := ["x"; "w"; "wx"; "r"; "rx"; "rw"; "rwx"].

(** The access mode that [SetDefaultSmackRules] builds from a permission
    string. *)
Definition mode_of_permission (perm : string) : Z :=
  let mode := 0%Z in
  let mode := if strstr perm "r" then Z.lor mode APPSMACK_ACCESS_FLAG_READ else mode in
  let mode := if strstr perm "w" then Z.lor mode APPSMACK_ACCESS_FLAG_WRITE else mode in
  let mode := if strstr perm "x" then Z.lor mode APPSMACK_ACCESS_FLAG_EXECUTE else mode in
  mode.

(** The [for] loop of [SetDefaultSmackRules] over [permissionStr]. *)
Fixpoint default_rules_loop (perms : list string) (appNamePtr appLabelPtr : string)
  : M unit :=
  match perms with
  | [] => ret tt
  | perm :: rest =>
      let mode := mode_of_permission perm in
      let dirLabel := appSmack_GetAccessLabel appNamePtr mode in
      do_call (SmackSetRule appLabelPtr perm dirLabel) ;;;
      default_rules_loop rest appNamePtr appLabelPtr
  end.

(** [SetDefaultSmackRules]. *)
Definition SetDefaultSmackRules (appNamePtr appLabelPtr : string) : M le_result_t :=
  default_rules_loop (firstn NUM_PERMISSONS permissionStr) appNamePtr appLabelPtr ;;;
  do_call (SmackSetRule "framework" "w" appLabelPtr) ;;;
  do_call (SmackSetRule appLabelPtr "rw" "framework") ;;;
  ret LE_OK.

(** [SetSmackRules]. *)
Definition SetSmackRules (appRef : App_t) : M le_result_t :=
  let appLabel := appSmack_GetLabel (name appRef) in
  r <- SetDefaultSmackRules (name appRef) appLabel ;;
  if negb (le_result_eqb r LE_OK) then ret LE_FAULT
  else SetSmackRulesForBindings appRef appLabel.

(** [StartProc]. *)
Definition StartProc (appRef : App_t) (p : proc_Ref_t) : M le_result_t :=
  enter "StartProc" ;;;
  if sandboxed appRef
  then do_call (ProcStartInSandbox p "/" (uid appRef) (gid appRef)
                  (supplementGids appRef) (numSupplementGids appRef)
                  (sandboxPath appRef))
  else do_call (ProcStart p (installPath appRef)).

(** The wait loop of [KillAppProcs]: poll the freezer until it reports the
    cgroup frozen, or a fault.  The C loop has no bound; [fuel] is the
    number of polls the model allows. *)
Fixpoint wait_frozen (fuel : nat) (appName : string) : M unit :=
  match fuel with
  | O => out_of_fuel
  | S fuel' =>
      freezeState <- do_call (CgrpFrzGetState appName) ;;
      match freezeState with
      | CGRP_FROZEN => ret tt
      | CGRP_FREEZE_FAULT => ret tt
      | CGRP_THAWED => wait_frozen fuel' appName
      end
  end.

(** The loop of [KillAppProcs] that tells the process objects they are going
    to be killed; it returns the process list with the slots it cleared. *)
Fixpoint notify_procs (l : list ProcObj_t) : M (list ProcObj_t) :=
  match l with
  | [] => ret []
  | procObjPtr :: rest =>
      st <- query (fun e => proc_GetState e (procRef procObjPtr)) ;;
      procObjPtr' <-
        (match st with
         | PROC_STATE_STOPPED => ret procObjPtr
         | _ => do_call (ProcStopping (procRef procObjPtr)) ;;;
                ret (mkProcObj (procRef procObjPtr) None)
         end) ;;
      rest' <- notify_procs rest ;;
      ret (procObjPtr' :: rest')
  end.

(** [KillAppProcs]. *)
Definition KillAppProcs (fuel : nat) (appRef : App_t) (killType : KillType_t)
  : M (le_result_t * App_t) :=
  enter "KillAppProcs" ;;;
  fr <- do_call (CgrpFrzFreeze (name appRef)) ;;
  (if le_result_eqb fr LE_OK then wait_frozen fuel (name appRef) else ret tt) ;;;
  procs' <- notify_procs (procs appRef) ;;
  let appRef := set_procs procs' appRef in
  let killSig := match killType with KILL_SOFT => SIGTERM | KILL_HARD => SIGKILL end in
  numProcs <- do_call (CgrpSendSig (name appRef) killSig) ;;
  match numProcs with
  | SENDSIG_FAULT => ret (LE_NOT_FOUND, appRef)
  | SENDSIG_COUNT n =>
      if (n =? 0)%Z then ret (LE_NOT_FOUND, appRef)
      else _ <- do_call (CgrpFrzThaw (name appRef)) ;; ret (LE_OK, appRef)
  end.

(** [CleanupApp]. *)
Definition CleanupApp (appRef : App_t) : M unit :=
  enter "CleanupApp" ;;;
  let appLabel := appSmack_GetLabel (name appRef) in
  do_call (SmackRevokeSubject appLabel) ;;;
  (if sandboxed appRef
   then _ <- do_call (SandboxRemove (name appRef)) ;; ret tt
   else ret tt) ;;;
  do_call (ResLimCleanupApp (name appRef)).

(** [HardKillApp]; [appRef] is the application the timer's context points
    to. *)
Definition HardKillApp (fuel : nat) (appRef : App_t) : M App_t :=
  enter "HardKillApp" ;;;
  killed <- KillAppProcs fuel appRef KILL_HARD ;;
  ret (snd killed).

(** [app_Stop]. *)
Definition app_Stop (fuel : nat) (appRef : App_t) : M App_t :=
  enter "app_Stop" ;;;
  match state appRef with
  | APP_STATE_STOPPED => ret appRef
  | APP_STATE_RUNNING =>
      killed <- KillAppProcs fuel appRef KILL_SOFT ;;
      let '(kres, appRef) := killed in
      if le_result_eqb kres LE_NOT_FOUND
      then CleanupApp appRef ;;;
           ret (set_state APP_STATE_STOPPED appRef)
      else
        appRef <-
          (match killTimer appRef with
           | None =>
               let timerName :=
                 take_bytes (LIMIT_MAX_PATH_BYTES - 1) (name appRef ++ "_Killer") in
               t <- le_timer_Create timerName ;;
               r1 <- le_timer_SetInterval t KillTimeout ;;
               LE_ASSERT (le_result_eqb r1 LE_OK) ;;;
               r2 <- le_timer_SetContextPtr t (name appRef) ;;
               LE_ASSERT (le_result_eqb r2 LE_OK) ;;;
               r3 <- le_timer_SetHandler t Timer_HardKillApp ;;
               LE_ASSERT (le_result_eqb r3 LE_OK) ;;;
               ret (set_killTimer (Some t) appRef)
           | Some _ => ret appRef
           end) ;;
        match killTimer appRef with
        | Some t => _ <- le_timer_Start t ;; ret appRef
        | None => ret appRef
        end
  end.

(** The loop of [app_Start] over the processes.  [Some a]: a process could
    not be started, [app_Stop] was called and [app_Start] returns
    [LE_FAULT]; [None]: every process was started. *)
Fixpoint start_procs (fuel : nat) (appRef : App_t) (l : list ProcObj_t)
  : M (option App_t) :=
  match l with
  | [] => ret None
  | procPtr :: rest =>
      result <- StartProc appRef (procRef procPtr) ;;
      if negb (le_result_eqb result LE_OK)
      then appRef' <- app_Stop fuel appRef ;; ret (Some appRef')
      else start_procs fuel appRef rest
  end.

(** [app_Start]. *)
Definition app_Start (fuel : nat) (appRef : App_t) : M (le_result_t * App_t) :=
  enter "app_Start" ;;;
  match state appRef with
  | APP_STATE_RUNNING => ret (LE_FAULT, appRef)
  | APP_STATE_STOPPED =>
      sres <- (if sandboxed appRef then do_call (SandboxSetup (name appRef)) else ret LE_OK) ;;
      if negb (le_result_eqb sres LE_OK) then ret (LE_FAULT, appRef)
      else
        lres <- do_call (ResLimSetAppLimits (name appRef)) ;;
        if negb (le_result_eqb lres LE_OK) then ret (LE_FAULT, appRef)
        else
          mres <- SetSmackRules appRef ;;
          if negb (le_result_eqb mres LE_OK) then ret (LE_FAULT, appRef)
          else
            started <- start_procs fuel appRef (procs appRef) ;;
            match started with
            | Some appRef' => ret (LE_FAULT, appRef')
            | None => ret (LE_OK, set_state APP_STATE_RUNNING appRef)
            end
  end.

(** [app_GetState]. *)
Definition app_GetState (appRef : App_t) : app_State_t := state appRef.

(** The search loop of [app_GetProcState]. *)
Fixpoint find_proc_state (e : Ext) (l : list ProcObj_t) (procName : string)
  : app_ProcState_t :=
  match l with
  | [] => APP_PROC_STATE_STOPPED
  | procObjPtr :: rest =>
      if strcmp_eq procName (proc_GetName e (procRef procObjPtr))
      then match proc_GetState e (procRef procObjPtr) with
           | PROC_STATE_STOPPED => APP_PROC_STATE_STOPPED
           | PROC_STATE_RUNNING => APP_PROC_STATE_RUNNING
           | PROC_STATE_PAUSED => APP_PROC_STATE_PAUSED
           end
      else find_proc_state e rest procName
  end.

(** [app_GetProcState]. *)
Definition app_GetProcState (appRef : App_t) (procName : string) : M app_ProcState_t :=
  match state appRef with
  | APP_STATE_RUNNING => query (fun e => find_proc_state e (procs appRef) procName)
  | APP_STATE_STOPPED => ret APP_PROC_STATE_STOPPED
  end.

(** The search loop of [FindProcObjectRef]: the position in the list of the
    first process object whose process has the given pid. *)
Fixpoint find_pid (e : Ext) (l : list ProcObj_t) (pid : pid_t) (i : nat) : option nat :=
  match l with
  | [] => None
  | procObjPtr :: rest =>
      if (proc_GetPID e (procRef procObjPtr) =? pid)%Z then Some i
      else find_pid e rest pid (S i)
  end.

(** [FindProcObjectRef]: the process object is designated by its position
    in [procs]; [None] is [NULL]. *)
Definition FindProcObjectRef (appRef : App_t) (pid : pid_t) : M (option nat) :=
  query (fun e => find_pid e (procs appRef) pid 0).

(** [WriteRebootFaultRec].  The [write] is retried while it fails with
    [EINTR]; a failure of the model is one with another [errno]. *)
Definition WriteRebootFaultRec (appRef : App_t) (p : proc_Ref_t) : M unit :=
  fd <- le_flock_Create ;;
  if negb fd then ret tt
  else
    procName <- query (fun e => proc_GetName e p) ;;
    let faultStr := fmt_slash (name appRef) procName in
    let faultStrSize := (String.length faultStr + 1)%nat in
    LE_ASSERT (faultStrSize <=? LIMIT_MAX_PATH_BYTES)%nat ;;;
    _ <- sys_write (faultStr ++ String NUL "")%string ;;
    ret tt.

(** [isRebootFaultRecFor]. *)
Definition isRebootFaultRecFor (appRef : App_t) (p : proc_Ref_t) : M bool :=
  fd <- le_flock_Open ;;
  match fd with
  | FD_NOT_FOUND => ret false
  | FD_FAULT => ret false
  | FD_OPEN =>
      rd <- sys_read LIMIT_MAX_PATH_BYTES ;;
      let '(count, faultRec) := rd in
      if (count =? -1)%Z then ret false
      else if (Z.of_nat LIMIT_MAX_PATH_BYTES <=? count)%Z then ret false
      else
        procName <- query (fun e => proc_GetName e p) ;;
        let faultStr := fmt_slash (name appRef) procName in
        LE_ASSERT (String.length faultStr <? LIMIT_MAX_PATH_BYTES)%nat ;;;
        if strcmp_eq faultRec faultStr then ret true else ret false
  end.

(** [ReachedFaultLimit]. *)
Definition ReachedFaultLimit (appRef : App_t) (p : proc_Ref_t)
    (currFaultAction : proc_FaultAction_t) (prevFaultTime : time_t) : M bool :=
  match currFaultAction with
  | PROC_FAULT_ACTION_RESTART =>
      faultTime <- query (fun e => proc_GetFaultTime e p) ;;
      if negb (faultTime =? 0)%Z
         && (time_t_sub faultTime prevFaultTime <=? FAULT_LIMIT_INTERVAL_RESTART)%Z
      then ret true else ret false
  | PROC_FAULT_ACTION_RESTART_APP =>
      faultTime <- query (fun e => proc_GetFaultTime e p) ;;
      if negb (faultTime =? 0)%Z
         && (time_t_sub faultTime prevFaultTime <=? FAULT_LIMIT_INTERVAL_RESTART_APP)%Z
      then ret true else ret false
  | PROC_FAULT_ACTION_REBOOT => isRebootFaultRecFor appRef p
  | _ => ret false
  end.

(** [HasRunningProc]. *)
Definition HasRunningProc (appRef : App_t) : M bool :=
  query (fun e => negb (cgrp_IsEmpty e (name appRef))).

(** [StopProc]. *)
Definition StopProc (p : proc_Ref_t) : M unit :=
  enter "StopProc" ;;;
  do_call (ProcStopping p) ;;;
  pid <- query (fun e => proc_GetPID e p) ;;
  do_call (KillHard pid).

(** Writing the [stopHandler] slot of the process object at position [i]. *)
Definition set_stopHandler (i : nat) (h : option ProcStopHandler_t) (appRef : App_t)
  : App_t :=
  match procs appRef !! i with
  | Some procObj =>
      set_procs (<[i := mkProcObj (procRef procObj) h]> (procs appRef)) appRef
  | None => appRef
  end.

(** The first part of [app_WatchdogTimeoutHandler]: the watchdog action of
    the process, or the one of the application when the process has none
    or an unreadable one. *)
Definition resolve_watchdog_action (appRef : App_t) (p : proc_Ref_t)
  : M wdog_action_WatchdogAction_t :=
  watchdogAction <- query (fun e => proc_GetWatchdogAction e p) ;;
  match watchdogAction with
  | WATCHDOG_ACTION_NOT_FOUND | WATCHDOG_ACTION_ERROR =>
      appCfg <- le_cfg_CreateReadTxn (cfgPathRoot appRef) ;;
      let '(result, watchdogActionStr) :=
        le_cfg_GetString appCfg wdog_action_GetConfigNode
                         LIMIT_MAX_FAULT_ACTION_NAME_BYTES "" in
      if le_result_eqb result LE_OK
      then ret (wdog_action_EnumFromString watchdogActionStr)
      else ret WATCHDOG_ACTION_ERROR
  | other => ret other
  end.

(** The [switch] of [app_WatchdogTimeoutHandler] for the process object at
    position [i]: what [*watchdogActionPtr] holds afterwards, and the
    application object. *)
Definition watchdog_switch (appRef : App_t) (i : nat) (p : proc_Ref_t)
    (watchdogAction : wdog_action_WatchdogAction_t)
  : M (wdog_action_WatchdogAction_t * App_t) :=
  match watchdogAction with
  | WATCHDOG_ACTION_NOT_FOUND =>
      let appRef := set_stopHandler i (Some Handler_StartProc) appRef in
      StopProc p ;;;
      ret (WATCHDOG_ACTION_HANDLED, appRef)
  | WATCHDOG_ACTION_IGNORE =>
      ret (WATCHDOG_ACTION_HANDLED, appRef)
  | WATCHDOG_ACTION_STOP =>
      StopProc p ;;;
      ret (WATCHDOG_ACTION_HANDLED, appRef)
  | WATCHDOG_ACTION_RESTART =>
      let appRef := set_stopHandler i (Some Handler_StartProc) appRef in
      StopProc p ;;;
      ret (WATCHDOG_ACTION_HANDLED, appRef)
  | WATCHDOG_ACTION_RESTART_APP => ret (watchdogAction, appRef)
  | WATCHDOG_ACTION_STOP_APP => ret (watchdogAction, appRef)
  | WATCHDOG_ACTION_REBOOT => ret (watchdogAction, appRef)
  | WATCHDOG_ACTION_ERROR => ret (WATCHDOG_ACTION_HANDLED, appRef)
  | WATCHDOG_ACTION_HANDLED => ret (watchdogAction, appRef)
  end.

(** [app_WatchdogTimeoutHandler].  [actionOut] is what [*watchdogActionPtr]
    holds on entry; the second component of the result is what it holds on
    return. *)
Definition app_WatchdogTimeoutHandler (appRef : App_t) (procPid : pid_t)
    (actionOut : wdog_action_WatchdogAction_t)
  : M (le_result_t * wdog_action_WatchdogAction_t * App_t) :=
  enter "app_WatchdogTimeoutHandler" ;;;
  found <- FindProcObjectRef appRef procPid ;;
  match found with
  | None => ret (LE_NOT_FOUND, actionOut, appRef)
  | Some i =>
      match procs appRef !! i with
      | None => fatal
      | Some procObjectRef =>
          let p := procRef procObjectRef in
          watchdogAction <- resolve_watchdog_action appRef p ;;
          switched <- watchdog_switch appRef i p watchdogAction ;;
          ret (LE_OK, fst switched, snd switched)
      end
  end.

(** The string stored under the application's watchdog action key, when
    there is one. *)
Definition app_watchdog_key (appRef : App_t) (w : World Ext) : option string :=
  match child_node wdog_action_GetConfigNode (cfgTree w (cfgPathRoot appRef)) with
  | CfgString s => Some s
  | _ => None
  end.

(** Calling the function a [stopHandler] slot points to. *)
Definition call_stopHandler (h : ProcStopHandler_t) (appRef : App_t) (p : proc_Ref_t)
  : M le_result_t :=
  match h with
  | Handler_StartProc => StartProc appRef p
  end.

(** The part of [app_SigChildHandler] that runs when the pid belongs to a
    process object: it returns what [*faultActionPtr] holds afterwards. *)
Definition handle_exit (appRef : App_t) (procObjRef : ProcObj_t) (procExitStatus : Z)
    (faultAction : app_FaultAction_t) : M app_FaultAction_t :=
  let p := procRef procObjRef in
  prevFaultTime <- query (fun e => proc_GetFaultTime e p) ;;
  procFaultAction <- do_call (ProcSigChildHandler p procExitStatus) ;;
  reached <- ReachedFaultLimit appRef p procFaultAction prevFaultTime ;;
  if reached then ret APP_FAULT_ACTION_STOP_APP
  else
    match procFaultAction with
    | PROC_FAULT_ACTION_NO_FAULT =>
        match stopHandler procObjRef with
        | Some h =>
            r <- call_stopHandler h appRef p ;;
            if negb (le_result_eqb r LE_OK) then ret APP_FAULT_ACTION_STOP_APP
            else ret faultAction
        | None => ret faultAction
        end
    | PROC_FAULT_ACTION_IGNORE => ret faultAction
    | PROC_FAULT_ACTION_RESTART =>
        r <- StartProc appRef p ;;
        if negb (le_result_eqb r LE_OK) then ret APP_FAULT_ACTION_STOP_APP
        else ret faultAction
    | PROC_FAULT_ACTION_RESTART_APP => ret APP_FAULT_ACTION_RESTART_APP
    | PROC_FAULT_ACTION_STOP_APP => ret APP_FAULT_ACTION_STOP_APP
    | PROC_FAULT_ACTION_REBOOT =>
        WriteRebootFaultRec appRef p ;;;
        ret APP_FAULT_ACTION_REBOOT
    end.

(** The first part of [app_SigChildHandler]: [*faultActionPtr] is set to
    Ignore, the process object is looked up, and its exit is handled when
    there is one. *)
Definition exit_dispatch (appRef : App_t) (procPid : pid_t) (procExitStatus : Z)
  : M app_FaultAction_t :=
  let faultAction := APP_FAULT_ACTION_IGNORE in
  found <- FindProcObjectRef appRef procPid ;;
  match found with
  | Some i =>
      match procs appRef !! i with
      | Some procObjRef => handle_exit appRef procObjRef procExitStatus faultAction
      | None => fatal
      end
  | None => ret faultAction
  end.

(** The end of [app_SigChildHandler]: when no process of the application
    is left, the application has stopped. *)
Definition check_stopped (appRef : App_t) : M App_t :=
  running <- HasRunningProc appRef ;;
  if negb running
  then
    (match killTimer appRef with
     | Some t => _ <- le_timer_Stop t ;; ret tt
     | None => ret tt
     end) ;;;
    CleanupApp appRef ;;;
    ret (set_state APP_STATE_STOPPED appRef)
  else ret appRef.

(** [app_SigChildHandler]: the value left in [*faultActionPtr] and the
    application object afterwards. *)
Definition app_SigChildHandler (appRef : App_t) (procPid : pid_t) (procExitStatus : Z)
  : M (app_FaultAction_t * App_t) :=
  enter "app_SigChildHandler" ;;;
  faultAction <- exit_dispatch appRef procPid procExitStatus ;;
  appRef <- check_stopped appRef ;;
  ret (faultAction, appRef).

(** Two worlds that differ at most in the outside state, the trace and the
    record of functions entered. *)
Definition same_store (w w' : World Ext) : Prop :=
  cfgTree w' = cfgTree w /\ rebootFaultRecord w' = rebootFaultRecord w
  /\ os_faults w' = os_faults w /\ timers w' = timers w
  /\ timerCount w' = timerCount w /\ clock w' = clock w.

(** The kill timer an application object refers to exists. *)
Definition kill_timer_valid (appRef : App_t) (w : World Ext) : Prop :=
  match killTimer appRef with
  | Some t => is_Some (timers w !! t)
  | None => True
  end.

(** A clock reading that fits the signed [time_t]. *)
Definition fits_time_t (x : time_t) : Prop := (0 <= x < 2 ^ (TIME_T_BITS - 1))%Z.

(** ** The event loop

    Modelled from the spec: the Supervisor's event loop and the timer
    service are outside the translated sources.  The loop is
    single-threaded; when a one-shot timer is due it stops and its handler
    is called.  [le_timer_Expire r] is what the loop does for timer [r];
    [event_loop_Advance dt] lets [dt] microseconds pass and then serves
    every timer that is due, in the order of their creation.  The
    application is the one the kill timer's context points to. *)
Definition le_timer_Expire (fuel : nat) (r : le_timer_Ref_t) (appRef : App_t) : M App_t :=
  fun w =>
    match timers w !! r with
    | None => Ret (appRef, w)
    | Some t =>
        match tm_expiry t with
        | None => Ret (appRef, w)
        | Some expiry =>
            if (expiry <=? clock w)%Z
            then
              let stopped :=
                mkTimer (tm_name t) (tm_handler t) (tm_interval t) (tm_context t) None in
              let w := set_timers (<[r := stopped]> (timers w)) w in
              match tm_handler t with
              | None => Ret (appRef, w)
              | Some Timer_RebootFaultTimerHandler =>
                  (RebootFaultTimerHandler r ;;; ret appRef) w
              | Some Timer_HardKillApp => HardKillApp fuel appRef w
              end
            else Ret (appRef, w)
        end
    end.

Fixpoint expire_timers (fuel : nat) (refs : list le_timer_Ref_t) (appRef : App_t)
  : M App_t :=
  match refs with
  | [] => ret appRef
  | r :: rest =>
      appRef <- le_timer_Expire fuel r appRef ;;
      expire_timers fuel rest appRef
  end.

Definition event_loop_Advance (fuel : nat) (dt : Z) (appRef : App_t) : M App_t :=
  fun w =>
    let w := set_clock (clock w + dt)%Z w in
    expire_timers fuel (seq 0 (timerCount w)) appRef w.

(** ** What is observed of a run *)

(** The SMACK rules set by the calls of a trace, in order. *)
Definition smack_rule_of (ev : event) : option (string * string * string) :=
  match ev with
  | Ev (SmackSetRule s p o) => Some (s, p, o)
  | _ => None
  end.

Definition smack_rules_set (tr : list event) : list (string * string * string) :=
  omap smack_rule_of tr.

(** The signals sent to the application's cgroup. *)
Definition group_signal_of (ev : event) : option signal_t :=
  match ev with
  | Ev (CgrpSendSig _ sig) => Some sig
  | _ => None
  end.

Definition group_signals (tr : list event) : list signal_t := omap group_signal_of tr.

(** The pids that were sent SIGKILL by [kill_Hard]. *)
Definition hard_kill_of (ev : event) : option pid_t :=
  match ev with
  | Ev (KillHard pid) => Some pid
  | _ => None
  end.

Definition hard_kills (tr : list event) : list pid_t := omap hard_kill_of tr.

(** The processes the launcher was told are being stopped. *)
Definition stopping_of (ev : event) : option proc_Ref_t :=
  match ev with
  | Ev (ProcStopping p) => Some p
  | _ => None
  end.

Definition procs_marked_stopping (tr : list event) : list proc_Ref_t :=
  omap stopping_of tr.

(** The calls [CleanupApp] makes for an application. *)
Definition cleanup_calls (appRef : App_t) : list event :=
  [Ev (SmackRevokeSubject (appSmack_GetLabel (name appRef)))]
  ++ (if sandboxed appRef then [Ev (SandboxRemove (name appRef))] else [])
  ++ [Ev (ResLimCleanupApp (name appRef))].

(** The [stopHandler] slot of the process object at position [i]. *)
Definition stopHandler_at (appRef : App_t) (i : nat) : option ProcStopHandler_t :=
  match procs appRef !! i with
  | Some procObj => stopHandler procObj
  | None => None
  end.

(** The supplementary groups of an application: the first
    [numSupplementGids] entries of the array. *)
Definition supplementary_gids (appRef : App_t) : list gid_t :=
  firstn (numSupplementGids appRef) (supplementGids appRef).

(** What the Restart arm of the switch does to the process object at
    position [i]: its slot holds [StartProc], the launcher is told the
    process is stopping, the process is sent SIGKILL, and the action
    reported is Handled. *)
Definition restart_on_stop (a : App_t) (procPid : pid_t) (actionOut : wdog_action_WatchdogAction_t)
    (i : nat) (p : proc_Ref_t) (w : World Ext) : Prop :=
  exists w',
    app_WatchdogTimeoutHandler a procPid actionOut w
    = Ret (LE_OK, WATCHDOG_ACTION_HANDLED, set_stopHandler i (Some Handler_StartProc) a, w')
    /\ stopHandler_at (set_stopHandler i (Some Handler_StartProc) a) i = Some Handler_StartProc
    /\ trace w' = trace w ++ [Ev (ProcStopping p);
                              Ev (KillHard (proc_GetPID (snd (perform (ProcStopping p) (ext w))) p))].

(** ** The SMACK rules of an application, as the specification lists them

    For the label [L] of the application: one rule from [L] to the access
    label of each non-empty subset of [{r, w, x}]; the pair of rules with
    the framework; and, for each child of [bindings] whose [app] field names
    a server, one rule in each direction between [L] and the server's
    label. *)

(** A subset of [{r, w, x}]. *)
Record perm_subset := mkPerm { perm_r : bool; perm_w : bool; perm_x : bool }.

Definition nonempty_subsets : list perm_subset :=
  [ mkPerm false false true; mkPerm false true false; mkPerm false true true;
    mkPerm true false false; mkPerm true false true; mkPerm true true false;
    mkPerm true true true ].

Definition perm_string (s : perm_subset) : string :=
  ((if perm_r s then "r" else "") ++ (if perm_w s then "w" else "")
   ++ (if perm_x s then "x" else ""))%string.

Definition perm_mode (s : perm_subset) : Z :=
  Z.lor (Z.lor (if perm_r s then APPSMACK_ACCESS_FLAG_READ else 0%Z)
               (if perm_w s then APPSMACK_ACCESS_FLAG_WRITE else 0%Z))
        (if perm_x s then APPSMACK_ACCESS_FLAG_EXECUTE else 0%Z).

Definition self_permission_rules (appName : string) : list (string * string * string) :=
  map (fun s => (appSmack_GetLabel appName, perm_string s,
                 appSmack_GetAccessLabel appName (perm_mode s)))
      nonempty_subsets.

Definition framework_rules (appName : string) : list (string * string * string) :=
  [ ("framework", "w", appSmack_GetLabel appName);
    (appSmack_GetLabel appName, "rw", "framework") ].

(** The children of the application's [bindings] node. *)
Definition bindings_children (appRef : App_t) (w : World Ext) : list (string * cfg_node) :=
  match child_node CFG_NODE_BINDINGS (cfgTree w (cfgPathRoot appRef)) with
  | CfgStem children => children
  | _ => []
  end.

(** The server a binding names: its [app] field, when it is a string that
    is not empty (as a C string). *)
Definition binding_server (binding : string * cfg_node) : option string :=
  match child_node "app" (snd binding) with
  | CfgString s => if String.eqb (cstr s) "" then None else Some s
  | _ => None
  end.

Definition binding_rules (appName : string) (bindings : list (string * cfg_node))
  : list (string * string * string) :=
  flat_map (fun binding =>
              match binding_server binding with
              | Some server =>
                  [ (appSmack_GetLabel appName, "rw", appSmack_GetLabel server);
                    (appSmack_GetLabel server, "rw", appSmack_GetLabel appName) ]
              | None => []
              end) bindings.

(** Every server named by a binding has a name that fits an application
    name buffer. *)
Definition servers_are_app_names (bindings : list (string * cfg_node)) : Prop :=
  Forall (fun binding => forall s, binding_server binding = Some s ->
                                   (String.length s < LIMIT_MAX_APP_NAME_BYTES)%nat)
         bindings.

(** The calls that set a list of rules. *)
Definition rule_events (rules : list (string * string * string)) : list event :=
  map (fun rule => match rule with (s, p, o) => Ev (SmackSetRule s p o) end) rules.

(** [w'] is [w] after the calls [evs] and after entering the functions
    [fns]; nothing else of the world changed but the outside state. *)
Definition extends (w w' : World Ext) (evs : list event) (fns : list string) : Prop :=
  trace w' = trace w ++ evs /\ entered w' = entered w ++ fns /\ same_store w w'.

(** The answer of [sandbox_Setup] in [app_Start] ([LE_OK] when the
    application is not sandboxed and the call is not made), and the outside
    state after this step. *)
Definition sandbox_step (appRef : App_t) (e : Ext) : le_result_t * Ext :=
  if sandboxed appRef then perform (SandboxSetup (name appRef)) e else (LE_OK, e).

(** The SMACK rules the specification lists for an application. *)
Definition spec_smack_rules (appRef : App_t) (w : World Ext)
  : list (string * string * string) :=
  self_permission_rules (name appRef) ++ framework_rules (name appRef)
  ++ binding_rules (name appRef) (bindings_children appRef w).

(** ** What an application's configuration says *)

(** Whether the configuration at [path] asks for a sandbox (the default). *)
Definition config_sandboxed (path : string) (w : World Ext) : bool :=
  match child_node CFG_NODE_SANDBOXED (cfgTree w path) with
  | CfgBool b => b
  | _ => true
  end.

(** The children of the [groups] node of the configuration at [path]. *)
Definition config_groups (path : string) (w : World Ext) : list (string * cfg_node) :=
  match child_node CFG_NODE_GROUPS (cfgTree w path) with
  | CfgStem children => children
  | _ => []
  end.

(** The children of the [procs] node of the configuration at [path]. *)
Definition config_procs (path : string) (w : World Ext) : list (string * cfg_node) :=
  match child_node CFG_NODE_PROC_LIST (cfgTree w path) with
  | CfgStem children => children
  | _ => []
  end.

(** The names of the groups fit a user name buffer. *)
Definition group_names_fit (groups : list (string * cfg_node)) : Prop :=
  Forall (fun g => (String.length (fst g) < LIMIT_MAX_USER_NAME_BYTES)%nat) groups.

(** Creating a group never fails. *)
Definition group_creation_succeeds : Prop :=
  forall (e : Ext) (groupName : string),
    fst (fst (perform (UserCreateGroup groupName) e)) <> LE_FAULT.

(** The other steps of the construction of the application at [path]
    succeed: the path and the paths of its processes fit their buffers, the
    user name, the user's ids, the install path and the sandbox path are
    obtained, and the launcher creates every process. *)
Definition other_steps_succeed (path : string) (w : World Ext) : Prop :=
  let appName := le_path_GetBasenamePtr path "/" in
  (String.length path < LIMIT_MAX_PATH_BYTES)%nat
  /\ Forall (fun p => (String.length
                         (cfg_child_path (cfg_child_path path CFG_NODE_PROC_LIST) (fst p))
                       < LIMIT_MAX_PATH_BYTES)%nat) (config_procs path w)
  /\ fst (user_AppNameToUserName appName LIMIT_MAX_USER_NAME_BYTES) = LE_OK
  /\ (forall (e : Ext) (username : string),
        fst (fst (fst (perform (UserGetIDs username) e))) = LE_OK)
  /\ fst (le_path_Concat "/" LIMIT_MAX_PATH_BYTES [APPS_INSTALL_DIR; appName]) = LE_OK
  /\ fst (sandbox_GetPath appName LIMIT_MAX_PATH_BYTES) = LE_OK
  /\ (forall (e : Ext) (cfgPath app : string),
        fst (perform (ProcCreate cfgPath app) e) <> None).

(** Two application objects that differ at most in the content of the
    supplementary groups array. *)
Definition same_but_gids (a a' : App_t) : Prop :=
  a' = set_supplementGids (supplementGids a') a.

(** ** Killing the processes of an application *)

(** The outside state in which [KillAppProcs] asks the launcher for the
    state of each process of the list, when the loop starts in state [e]:
    the launcher has by then been told about the processes before it that
    were not stopped. *)
Fixpoint states_when_asked (e : Ext) (l : list ProcObj_t) : list Ext :=
  match l with
  | [] => []
  | procObjPtr :: rest =>
      e :: states_when_asked
             (match proc_GetState e (procRef procObjPtr) with
              | PROC_STATE_STOPPED => e
              | _ => snd (perform (ProcStopping (procRef procObjPtr)) e)
              end) rest
  end.

(** The freezer reports the cgroup frozen, or a fault, within [n] polls. *)
Fixpoint frozen_within (n : nat) (appName : string) (e : Ext) : Prop :=
  match n with
  | O => False
  | S n' =>
      match fst (perform (CgrpFrzGetState appName) e) with
      | CGRP_THAWED => frozen_within n' appName (snd (perform (CgrpFrzGetState appName) e))
      | _ => True
      end
  end.

(** The wait loop of [KillAppProcs] ends: the freeze is refused, or the
    freezer answers within [fuel] polls. *)
Definition freeze_ends (fuel : nat) (appRef : App_t) (w : World Ext) : Prop :=
  fst (perform (CgrpFrzFreeze (name appRef)) (ext w)) = LE_OK ->
  frozen_within fuel (name appRef) (snd (perform (CgrpFrzFreeze (name appRef)) (ext w))).

Definition kill_signal (killType : KillType_t) : signal_t :=
  match killType with KILL_SOFT => SIGTERM | KILL_HARD => SIGKILL end.

(** ** The reboot fault timer *)

(** The interval of the reboot fault timer, in microseconds. *)
Definition reboot_grace_usecs : Z :=
  usecs {| sec := FAULT_LIMIT_INTERVAL_REBOOT; usec := 0 |}.

(** Timer [r] is the pending reboot fault timer, due at [expiry]. *)
Definition reboot_timer_pending (r : le_timer_Ref_t) (expiry : Z) (w : World Ext) : Prop :=
  exists tm, timers w !! r = Some tm
             /\ tm_handler tm = Some Timer_RebootFaultTimerHandler
             /\ tm_expiry tm = Some expiry.

(** Timer [r] has expired and the record is gone. *)
Definition reboot_timer_done (r : le_timer_Ref_t) (w : World Ext) : Prop :=
  rebootFaultRecord w = None /\ timers w !! r = None.


(** ** The getters of [app.c] *)

(** [app_GetName]. *)
Definition app_GetName (appRef : App_t) : string := name appRef.

(** [app_GetUid]. *)
Definition app_GetUid (appRef : App_t) : uid_t := uid appRef.

(** [app_GetGid]. *)
Definition app_GetGid (appRef : App_t) : gid_t := gid appRef.

(** [app_GetIsSandboxed]. *)
Definition app_GetIsSandboxed (appRef : App_t) : bool := sandboxed appRef.

(** [app_GetInstallDirPath]. *)
Definition app_GetInstallDirPath (appRef : App_t) : string := installPath appRef.

(** [app_GetSandboxPath]. *)
Definition app_GetSandboxPath (appRef : App_t) : string := sandboxPath appRef.

(** [app_GetConfigPath]. *)
Definition app_GetConfigPath (appRef : App_t) : string := cfgPathRoot appRef.

(** ** More of what is observed of a run *)

(** The state [app_GetProcState] reports for a state of the launcher. *)
Definition app_ProcState_of (s : proc_State_t) : app_ProcState_t :=
  match s with
  | PROC_STATE_STOPPED => APP_PROC_STATE_STOPPED
  | PROC_STATE_RUNNING => APP_PROC_STATE_RUNNING
  | PROC_STATE_PAUSED => APP_PROC_STATE_PAUSED
  end.

(** The name of process [p] is [procName], as [strcmp] compares them. *)
Definition proc_named (e : Ext) (procName : string) (procObj : ProcObj_t) : Prop :=
  cstr procName = cstr (proc_GetName e (procRef procObj)).

(** Process [p] has the pid [pid]. *)
Definition proc_has_pid (e : Ext) (pid : pid_t) (procObj : ProcObj_t) : Prop :=
  proc_GetPID e (procRef procObj) = pid.

(** The text of the reboot fault record of a process: the name of the
    application, a slash, and the name of the process. *)
Definition fault_record_text (appRef : App_t) (p : proc_Ref_t) (e : Ext) : string :=
  fmt_slash (name appRef) (proc_GetName e p).

(** The bytes [WriteRebootFaultRec] writes: the text and its NUL. *)
Definition fault_record_bytes (appRef : App_t) (p : proc_Ref_t) (e : Ext) : string :=
  (fault_record_text appRef p e ++ String NUL "")%string.


(** The call [StartProc] makes to the launcher for process [p] of the
    application. *)
Definition launch_call (appRef : App_t) (p : proc_Ref_t) : call le_result_t :=
  if sandboxed appRef
  then ProcStartInSandbox p "/" (uid appRef) (gid appRef) (supplementGids appRef)
                          (numSupplementGids appRef) (sandboxPath appRef)
  else ProcStart p (installPath appRef).

(** The calls of a trace that start a process. *)
Definition is_launch (ev : event) : bool :=
  match ev with
  | Ev (ProcStart _ _) => true
  | Ev (ProcStartInSandbox _ _ _ _ _ _ _) => true
  | _ => false
  end.

Definition launches (tr : list event) : list event := List.filter is_launch tr.

(** The application fault action after a restart of the process that the
    launcher answered with [r]. *)
Definition restart_outcome (r : le_result_t) : app_FaultAction_t :=
  if le_result_eqb r LE_OK then APP_FAULT_ACTION_IGNORE else APP_FAULT_ACTION_STOP_APP.

(** The calls by which [KillAppProcs] tells the launcher which processes
    are going to be killed, when the loop starts in the outside state [e]:
    one for each process that is not stopped when its turn comes. *)
Fixpoint notify_events (e : Ext) (l : list ProcObj_t) : list event :=
  match l with
  | [] => []
  | procObjPtr :: rest =>
      match proc_GetState e (procRef procObjPtr) with
      | PROC_STATE_STOPPED => notify_events e rest
      | _ => Ev (ProcStopping (procRef procObjPtr))
             :: notify_events (snd (perform (ProcStopping (procRef procObjPtr)) e)) rest
      end
  end.

(** A poll of the freezer. *)
Definition is_freeze_poll (appName : string) (ev : event) : Prop :=
  ev = Ev (CgrpFrzGetState appName).

(** The processes deleted by the calls of a trace. *)
Definition proc_delete_of (ev : event) : option proc_Ref_t :=
  match ev with
  | Ev (ProcDelete p) => Some p
  | _ => None
  end.

Definition proc_deletes (tr : list event) : list proc_Ref_t := omap proc_delete_of tr.

(** The blocks given back to the application pool by the calls of a
    trace. *)
Definition release_of (ev : event) : option App_t :=
  match ev with
  | Ev (LeMemRelease_App block) => Some block
  | _ => None
  end.

Definition releases (tr : list event) : list App_t := omap release_of tr.

(** The processes the launcher created for the calls [evs], made from the
    outside state [e] on: the answers of [proc_Create] that are not
    [NULL]. *)
Definition created_by {R} (c : call R) : R -> list proc_Ref_t :=
  match c in call R return R -> list proc_Ref_t with
  | ProcCreate _ _ => fun r => match r with Some p => [p] | None => [] end
  | _ => fun _ => []
  end.

Fixpoint created_refs (e : Ext) (evs : list event) : list proc_Ref_t :=
  match evs with
  | [] => []
  | Ev c :: rest =>
      created_by c (fst (perform c e)) ++ created_refs (snd (perform c e)) rest
  end.

(** The outside state after the calls [evs] made from the state [e] on. *)
Fixpoint ext_after (e : Ext) (evs : list event) : Ext :=
  match evs with
  | [] => e
  | Ev c :: rest => ext_after (snd (perform c e)) rest
  end.

(** The gids [user_CreateGroup] answers for the groups [names], created in
    this order from the outside state [e] on. *)
Fixpoint created_gids (e : Ext) (names : list string) : list gid_t :=
  match names with
  | [] => []
  | groupName :: rest =>
      snd (fst (perform (UserCreateGroup groupName) e))
      :: created_gids (snd (perform (UserCreateGroup groupName) e)) rest
  end.


(** What [app_WatchdogTimeoutHandler] does for the process object at
    position [i], whose process is [p], once the watchdog action is
    resolved to [act].  Ignore and Error: nothing, and the action reported
    is Handled.  RestartApp, StopApp, Reboot and Handled: nothing, and the
    action is reported as it is, for the caller to act on.  Stop: the
    process is killed and the application object is left as it is, the
    action reported is Handled.  Restart and NotFound: the process is
    killed after its [stopHandler] is set. *)
Definition watchdog_outcome (a : App_t) (procPid : pid_t)
    (actionOut : wdog_action_WatchdogAction_t) (i : nat) (p : proc_Ref_t) (w : World Ext)
    (act : wdog_action_WatchdogAction_t) : Prop :=
  let w0 := set_entered (entered w ++ ["app_WatchdogTimeoutHandler"]) w in
  match act with
  | WATCHDOG_ACTION_IGNORE | WATCHDOG_ACTION_ERROR =>
      app_WatchdogTimeoutHandler a procPid actionOut w
      = Ret (LE_OK, WATCHDOG_ACTION_HANDLED, a, w0)
  | WATCHDOG_ACTION_RESTART_APP | WATCHDOG_ACTION_STOP_APP | WATCHDOG_ACTION_REBOOT
  | WATCHDOG_ACTION_HANDLED =>
      app_WatchdogTimeoutHandler a procPid actionOut w = Ret (LE_OK, act, a, w0)
  | WATCHDOG_ACTION_STOP =>
      exists w',
        app_WatchdogTimeoutHandler a procPid actionOut w
        = Ret (LE_OK, WATCHDOG_ACTION_HANDLED, a, w')
        /\ trace w' = trace w ++ [Ev (ProcStopping p);
                                  Ev (KillHard (proc_GetPID
                                                  (snd (perform (ProcStopping p) (ext w))) p))]
  | WATCHDOG_ACTION_RESTART | WATCHDOG_ACTION_NOT_FOUND =>
      restart_on_stop a procPid actionOut i p w
  end.


(** [w'] is [w] after the calls [evs], made in this order and answered by
    the outside world: the launcher created the processes [created] for
    them, and they delete the processes [deleted] and give back the blocks
    [released]. *)
Definition accounts (w w' : World Ext) (evs : list event)
    (created deleted : list proc_Ref_t) (released : list App_t) : Prop :=
  trace w' = trace w ++ evs
  /\ ext w' = ext_after (ext w) evs
  /\ created_refs (ext w) evs = created
  /\ proc_deletes evs = deleted
  /\ releases evs = released.


(** The groups [names] are created one after the other from the outside
    state [e] on: each name fits a user-name buffer and
    [user_CreateGroup] does not answer [LE_FAULT] for it. *)
Fixpoint groups_created (e : Ext) (names : list string) : Prop :=
  match names with
  | [] => True
  | groupName :: rest =>
      (String.length groupName < LIMIT_MAX_USER_NAME_BYTES)%nat
      /\ fst (fst (perform (UserCreateGroup groupName) e)) <> LE_FAULT
      /\ groups_created (snd (perform (UserCreateGroup groupName) e)) rest
  end.

(** A group [CreateSupplementaryGroups] cannot take: its name does not fit
    a user-name buffer, or [user_CreateGroup] answers [LE_FAULT] for it
    whatever the state of the outside world. *)
Definition group_refused (groupName : string) : Prop :=
  (LIMIT_MAX_USER_NAME_BYTES <= String.length groupName)%nat
  \/ forall e : Ext, fst (fst (perform (UserCreateGroup groupName) e)) = LE_FAULT.


(** The kill timer an application refers to exists and is a timer for
    [HardKillApp]. *)
Definition kill_timer_ok (appRef : App_t) (w : World Ext) : Prop :=
  match killTimer appRef with
  | Some t => exists tm, timers w !! t = Some tm /\ tm_handler tm = Some Timer_HardKillApp
  | None => True
  end.

(** From [w] to [w'] no timer for [HardKillApp] was deleted or given
    another handler. *)
Definition kill_timers_kept (w w' : World Ext) : Prop :=
  forall t tm,
    timers w !! t = Some tm -> tm_handler tm = Some Timer_HardKillApp ->
    exists tm', timers w' !! t = Some tm' /\ tm_handler tm' = Some Timer_HardKillApp.

(** One step of the life of an application, from the application object
    [a] in the world [w] to [a'] in [w']: a start, a stop, the handling of
    an exit or of a watchdog expiry, the hard kill, or some time passing on
    the event loop. *)
Definition lifecycle_step (fuel : nat) (a : App_t) (w : World Ext) (a' : App_t)
    (w' : World Ext) : Prop :=
  (exists r, app_Start fuel a w = Ret (r, a', w'))
  \/ app_Stop fuel a w = Ret (a', w')
  \/ (exists procPid st fa, app_SigChildHandler a procPid st w = Ret (fa, a', w'))
  \/ (exists procPid actionOut r act,
        app_WatchdogTimeoutHandler a procPid actionOut w = Ret (r, act, a', w'))
  \/ HardKillApp fuel a w = Ret (a', w')
  \/ (exists dt, event_loop_Advance fuel dt a w = Ret (a', w')).

(** What a kill of type [killType], started on the application [a] in the
    world [w], has done when it leaves [a'] and [w']: after the request to
    freeze the cgroup and the polls of the freezer, the launcher was asked
    for the state of each process in turn and told about those not stopped;
    then the signal was sent.  The slot of every process that was not
    stopped when the launcher was asked is null, and the slot of every
    other process is as it was. *)
Definition kill_clears_slots (a : App_t) (w : World Ext) (killType : KillType_t)
    (a' : App_t) (w' : World Ext) : Prop :=
  exists polls rest,
    Forall (is_freeze_poll (name a)) polls
    /\ let frozen := [Ev (CgrpFrzFreeze (name a))] ++ polls in
       let e0 := ext_after (ext w) frozen in
       trace w' = trace w ++ frozen ++ notify_events e0 (procs a)
                  ++ [Ev (CgrpSendSig (name a) (kill_signal killType))] ++ rest
       /\ length (procs a') = length (procs a)
       /\ forall i po e,
            procs a !! i = Some po ->
            states_when_asked e0 (procs a) !! i = Some e ->
            (proc_GetState e (procRef po) <> PROC_STATE_STOPPED -> stopHandler_at a' i = None)
            /\ (proc_GetState e (procRef po) = PROC_STATE_STOPPED ->
                stopHandler_at a' i = stopHandler po).

End Supervisor.

(** ** A simulated platform

    A small, executable stand-in for the collaborators, used to run the
    code on concrete inputs.  The launcher keeps one record per process;
    the freezer counts the processes of the application's cgroup; the
    memory pool hands out the block that was released last, with the
    content it had. *)
Module Sim.

Record Proc := mkProc {
  pid : pid_t;
  pname : string;
  faultTime : time_t;
  pstate : proc_State_t;
  watchdogAction : wdog_action_WatchdogAction_t;
  cmdKill : bool
}.

Record t := mk {
  sprocs : list Proc;              (* the launcher's process records *)
  block : App_t;                   (* the free block of the application pool *)
  nextPid : pid_t;                 (* the pid the next fork gets *)
  now : time_t;                    (* the wall clock, in seconds *)
  faultAction : proc_FaultAction_t;(* the configured fault action of the processes *)
  startResult : le_result_t;       (* whether the launcher can start processes *)
  alive : Z;                       (* processes in the application's cgroup *)
  thawedPolls : nat;               (* polls answered "not frozen yet" *)
  sandboxResult : le_result_t;     (* result of sandbox_Setup *)
  resLimResult : le_result_t;      (* result of resLim_SetAppLimits *)
  nextGid : gid_t                  (* the gid the next created group gets *)
}.

Definition set_sprocs v s := mk v (block s) (nextPid s) (now s) (faultAction s) (startResult s) (alive s) (thawedPolls s) (sandboxResult s) (resLimResult s) (nextGid s).
Definition set_block v s := mk (sprocs s) v (nextPid s) (now s) (faultAction s) (startResult s) (alive s) (thawedPolls s) (sandboxResult s) (resLimResult s) (nextGid s).
Definition set_nextPid v s := mk (sprocs s) (block s) v (now s) (faultAction s) (startResult s) (alive s) (thawedPolls s) (sandboxResult s) (resLimResult s) (nextGid s).
Definition set_alive v s := mk (sprocs s) (block s) (nextPid s) (now s) (faultAction s) (startResult s) v (thawedPolls s) (sandboxResult s) (resLimResult s) (nextGid s).
Definition set_thawedPolls v s := mk (sprocs s) (block s) (nextPid s) (now s) (faultAction s) (startResult s) (alive s) v (sandboxResult s) (resLimResult s) (nextGid s).
Definition set_nextGid v s := mk (sprocs s) (block s) (nextPid s) (now s) (faultAction s) (startResult s) (alive s) (thawedPolls s) (sandboxResult s) (resLimResult s) v.
Definition set_now v s := mk (sprocs s) (block s) (nextPid s) v (faultAction s) (startResult s) (alive s) (thawedPolls s) (sandboxResult s) (resLimResult s) (nextGid s).

Definition noProc : Proc := mkProc (-1) "" 0 PROC_STATE_STOPPED WATCHDOG_ACTION_NOT_FOUND false.

Definition proc_of (s : t) (p : proc_Ref_t) : Proc := nth p (sprocs s) noProc.

Definition update_proc (p : proc_Ref_t) (f : Proc -> Proc) (s : t) : t :=
  set_sprocs (<[p := f (proc_of s p)]> (sprocs s)) s.

(** The part of a path after its last ['/']. *)
Fixpoint basename_aux (path acc : string) : string :=
  match path with
  | EmptyString => acc
  | String c rest =>
      if Ascii.eqb c "/"%char then basename_aux rest EmptyString
      else basename_aux rest (acc ++ String c EmptyString)
  end.

Definition basename (path : string) : string := basename_aux path EmptyString.

Fixpoint join (sep : string) (segments : list string) : string :=
  match segments with
  | [] => EmptyString
  | [x] => x
  | x :: rest => x ++ sep ++ join sep rest
  end.

Definition permission_suffix (mode : Z) : string :=
  ((if Z.testbit mode 0 then "r" else "") ++
   (if Z.testbit mode 1 then "w" else "") ++
   (if Z.testbit mode 2 then "x" else ""))%string.

Definition enumFromString (s : string) : wdog_action_WatchdogAction_t :=
  if String.eqb s "" then WATCHDOG_ACTION_NOT_FOUND
  else if String.eqb s "ignore" then WATCHDOG_ACTION_IGNORE
  else if String.eqb s "restart" then WATCHDOG_ACTION_RESTART
  else if String.eqb s "stop" then WATCHDOG_ACTION_STOP
  else if String.eqb s "restartApp" then WATCHDOG_ACTION_RESTART_APP
  else if String.eqb s "stopApp" then WATCHDOG_ACTION_STOP_APP
  else if String.eqb s "reboot" then WATCHDOG_ACTION_REBOOT
  else WATCHDOG_ACTION_ERROR.

(** Starting a process: when the launcher can, the process gets a fresh
    pid, runs, and joins the cgroup. *)
Definition start (p : proc_Ref_t) (s : t) : le_result_t * t :=
  match startResult s with
  | LE_OK =>
      (LE_OK,
       set_alive (alive s + 1)%Z
         (set_nextPid (nextPid s + 1)%Z
            (update_proc p (fun r => mkProc (nextPid s) (pname r) (faultTime r)
                                       PROC_STATE_RUNNING (watchdogAction r) false) s)))
  | r => (r, s)
  end.

(** The launcher's classification of an exit: an exit the supervisor asked
    for, or one with status 0, is no fault; any other exit is a fault, gets
    the configured action, and is stamped with the current time. *)
Definition sigChild (p : proc_Ref_t) (status : Z) (s : t) : proc_FaultAction_t * t :=
  let r := proc_of s p in
  let s' := set_alive (alive s - 1)%Z s in
  if cmdKill r || (status =? 0)%Z
  then (PROC_FAULT_ACTION_NO_FAULT,
        update_proc p (fun r => mkProc (pid r) (pname r) (faultTime r)
                                  PROC_STATE_STOPPED (watchdogAction r) false) s')
  else (faultAction s,
        update_proc p (fun r => mkProc (pid r) (pname r) (now s)
                                  PROC_STATE_STOPPED (watchdogAction r) false) s').

Definition answer (R : Type) (c : call R) (s : t) : R * t :=
  match c in call R return R * t with
  | LeMemForceAlloc_App => (block s, s)
  | LeMemRelease_App b => (tt, set_block b s)
  | ProcInit => (tt, s)
  | ProcCreate cfgPath _ =>
      (Some (length (sprocs s)),
       set_sprocs (sprocs s ++ [mkProc (-1) (basename cfgPath) 0 PROC_STATE_STOPPED
                                  WATCHDOG_ACTION_NOT_FOUND false]) s)
  | ProcDelete _ => (tt, s)
  | ProcStart p _ => start p s
  | ProcStartInSandbox p _ _ _ _ _ _ => start p s
  | ProcStopping p =>
      (tt, update_proc p (fun r => mkProc (pid r) (pname r) (faultTime r) (pstate r)
                                     (watchdogAction r) true) s)
  | ProcSigChildHandler p status => sigChild p status s
  | CgrpFrzFreeze _ => (LE_OK, s)
  | CgrpFrzGetState _ =>
      match thawedPolls s with
      | O => (CGRP_FROZEN, s)
      | S n => (CGRP_THAWED, set_thawedPolls n s)
      end
  | CgrpFrzThaw _ => (LE_OK, s)
  | CgrpSendSig _ _ => (SENDSIG_COUNT (alive s), s)
  | SandboxSetup _ => (sandboxResult s, s)
  | SandboxRemove _ => (LE_OK, s)
  | ResLimSetAppLimits _ => (resLimResult s, s)
  | ResLimCleanupApp _ => (tt, s)
  | SmackSetRule _ _ _ => (tt, s)
  | SmackRevokeSubject _ => (tt, s)
  | UserGetIDs _ => ((LE_OK, 1001%Z, 1001%Z), s)
  | UserCreateGroup _ => ((LE_OK, nextGid s), set_nextGid (nextGid s + 1)%Z s)
  | KillHard _ => (tt, s)
  end.

#[global] Instance collaborators : Collaborators t := {|
  proc_GetPID s p := pid (proc_of s p);
  proc_GetName s p := pname (proc_of s p);
  proc_GetFaultTime s p := faultTime (proc_of s p);
  proc_GetState s p := pstate (proc_of s p);
  proc_GetWatchdogAction s p := watchdogAction (proc_of s p);
  cgrp_IsEmpty s _ := (alive s <=? 0)%Z;
  appSmack_GetLabel n := ("app." ++ n)%string;
  appSmack_GetAccessLabel n mode := ("app." ++ n ++ permission_suffix mode)%string;
  APPSMACK_ACCESS_FLAG_READ := 1%Z;
  APPSMACK_ACCESS_FLAG_WRITE := 2%Z;
  APPSMACK_ACCESS_FLAG_EXECUTE := 4%Z;
  user_AppNameToUserName n size := copy_to_buf ("app" ++ n) size;
  sandbox_GetPath n size := copy_to_buf ("/tmp/legato/sandboxes/" ++ n) size;
  le_path_GetBasenamePtr path _ := basename path;
  le_path_Concat sep size segments := copy_to_buf (join sep segments) size;
  wdog_action_GetConfigNode := "watchdogAction";
  wdog_action_EnumFromString := enumFromString;
  perform := answer
|}.

(** The limits of a usual target. *)
#[global] Instance limits : Limits := {|
  LIMIT_MAX_PATH_BYTES := 512;
  LIMIT_MAX_NUM_SUPPLEMENTARY_GROUPS := 8;
  LIMIT_MAX_USER_NAME_BYTES := 32;
  LIMIT_MAX_APP_NAME_BYTES := 48;
  LIMIT_MAX_FAULT_ACTION_NAME_BYTES := 32;
  TIME_T_BITS := 32
|}.

End Sim.

(** ** Scenarios on the simulated platform *)
Module Scenario.

(** A block of the application pool as a deleted sandboxed application with
    three supplementary groups left it. *)
Definition stale_block : App_t :=
  mkApp "old" "/apps/old" true "/opt/legato/apps/old" "/tmp/legato/sandboxes/old"
        1001 1001 [2000; 2001; 2002; 0; 0; 0; 0; 0]%Z 3 APP_STATE_STOPPED [] None.

Definition platform : Sim.t :=
  Sim.mk [] stale_block 100 1000 PROC_FAULT_ACTION_RESTART LE_OK 0 0 LE_OK LE_OK 2000.

Definition groups_node (n : nat) : cfg_node :=
  CfgStem (map (fun i => (String (ascii_of_nat (97 + i)) "", CfgEmpty)) (seq 0 n)).

(** The config tree: application [A] is not sandboxed, has one process [P]
    and is bound to a service of application [B]; [B] is sandboxed and has
    no group; [G8] and [G9] are sandboxed and have eight and nine groups;
    [U9] is not sandboxed and lists nine groups. *)
Definition config (path : string) : cfg_node :=
  if String.eqb path "/apps/A" then
    CfgStem [ ("sandboxed", CfgBool false);
              ("procs", CfgStem [("P", CfgStem [])]);
              ("bindings", CfgStem [("svc1", CfgStem [("app", CfgString "B")])]) ]
  else if String.eqb path "/apps/B" then
    CfgStem [ ("procs", CfgStem [("Q", CfgStem [])]) ]
  else if String.eqb path "/apps/G8" then
    CfgStem [ ("groups", groups_node 8); ("procs", CfgStem [("P", CfgStem [])]) ]
  else if String.eqb path "/apps/G9" then
    CfgStem [ ("groups", groups_node 9); ("procs", CfgStem [("P", CfgStem [])]) ]
  else if String.eqb path "/apps/U9" then
    CfgStem [ ("sandboxed", CfgBool false); ("groups", groups_node 9);
              ("procs", CfgStem [("P", CfgStem [])]) ]
  else CfgEmpty.

Definition world_of (s : Sim.t) : World Sim.t :=
  mkWorld s [] [] config None (fun _ => false) ∅ 0 0.

Definition world : World Sim.t := world_of platform.

(** Application [A], stopped, as [app_Create] builds it on a zeroed
    block. *)
Definition app_A : App_t :=
  mkApp "A" "/apps/A" false "/opt/legato/apps/A" "" 0 0 [0; 0; 0; 0; 0; 0; 0; 0]%Z 0
        APP_STATE_STOPPED [mkProcObj 0 None] None.

(** The launcher's record of process [P], running with pid 100, whose last
    fault was at time [lastFault]. *)
Definition proc_P (lastFault : time_t) : Sim.Proc :=
  Sim.mkProc 100 "P" lastFault PROC_STATE_RUNNING WATCHDOG_ACTION_NOT_FOUND false.

(** [A] is running, with its process [P] alive; the processes are
    configured with the fault action [action]. *)
Definition running_platform (action : proc_FaultAction_t) (lastFault : time_t) : Sim.t :=
  Sim.mk [proc_P lastFault] stale_block 101 1000 action LE_OK 1 0 LE_OK LE_OK 2000.

Definition running_A : App_t := set_state APP_STATE_RUNNING app_A.

Definition running_world (action : proc_FaultAction_t) (lastFault : time_t)
  : World Sim.t :=
  world_of (running_platform action lastFault).

(** What a computation returned, when it returned. *)
Definition returned {A} (o : outcome (A * World Sim.t)) : option A :=
  match o with Ret (a, _) => Some a | _ => None end.

Definition world_after {A} (o : outcome (A * World Sim.t)) : option (World Sim.t) :=
  match o with Ret (_, w) => Some w | _ => None end.

(** A block of the application pool that was never used. *)
Definition zero_block : App_t :=
  mkApp "" "" false "" "" 0 0 [0; 0; 0; 0; 0; 0; 0; 0]%Z 0 APP_STATE_STOPPED [] None.

Definition fresh_world : World Sim.t :=
  world_of (Sim.mk [] zero_block 100 1000 PROC_FAULT_ACTION_RESTART LE_OK 0 0
                   LE_OK LE_OK 2000).

(** Create the application [G8], which has eight groups, delete it, and
    create the application at [path] on the block that was given back. *)
Definition create_after_G8 (path : string) : outcome (option App_t * World Sim.t) :=
  bind (app_Create "/apps/G8")
       (fun created =>
          match created with
          | Some g8 => bind (app_Delete g8) (fun _ => app_Create path)
          | None => ret None
          end) fresh_world.

(** Application [B], stopped, on a platform whose sandbox cannot be set
    up. *)
Definition app_B : App_t :=
  mkApp "B" "/apps/B" true "/opt/legato/apps/B" "/tmp/legato/sandboxes/B" 1001 1001
        [0; 0; 0; 0; 0; 0; 0; 0]%Z 0 APP_STATE_STOPPED [mkProcObj 0 None] None.

Definition proc_Q : Sim.Proc :=
  Sim.mkProc (-1) "Q" 0 PROC_STATE_STOPPED WATCHDOG_ACTION_NOT_FOUND false.

Definition no_sandbox_world : World Sim.t :=
  world_of (Sim.mk [proc_Q] zero_block 100 1000 PROC_FAULT_ACTION_RESTART LE_OK 0 0
                   LE_FAULT LE_OK 2000).

(** The same platform with a working sandbox, and one on which the
    launcher cannot start a process. *)
Definition stopped_world : World Sim.t :=
  world_of (Sim.mk [proc_Q] zero_block 100 1000 PROC_FAULT_ACTION_RESTART LE_OK 0 0
                   LE_OK LE_OK 2000).

Definition no_launch_world : World Sim.t :=
  world_of (Sim.mk [proc_Q] zero_block 100 1000 PROC_FAULT_ACTION_RESTART LE_FAULT 0 0
                   LE_OK LE_OK 2000).

(** The watchdog of process [P] of the running application [A] expires,
    the process is killed, and its exit is handled. *)
Definition watchdog_then_exit : outcome (app_FaultAction_t * App_t * World Sim.t) :=
  bind (app_WatchdogTimeoutHandler running_A 100 WATCHDOG_ACTION_ERROR)
       (fun handled => app_SigChildHandler (snd handled) 100 9)
       (running_world PROC_FAULT_ACTION_RESTART 0).

(** [app_Stop] once, and twice, on the running application [A]. *)
Definition stop_once : outcome (App_t * World Sim.t) :=
  app_Stop 1 running_A (running_world PROC_FAULT_ACTION_RESTART 0).

Definition stop_twice : outcome (App_t * World Sim.t) :=
  bind (app_Stop 1 running_A) (fun a => app_Stop 1 a)
       (running_world PROC_FAULT_ACTION_RESTART 0).

(** The supervisor starts; the 120 seconds of the reboot fault timer pass;
    then process [P], configured to reboot the system on a fault, faults. *)
Definition fault_after_grace_run
  : World Sim.t -> outcome (app_FaultAction_t * App_t * World Sim.t) :=
  bind app_Init
       (fun _ => bind (event_loop_Advance 1 reboot_grace_usecs running_A)
                      (fun a => app_SigChildHandler a 100 1)).

Definition fault_after_grace : outcome (app_FaultAction_t * App_t * World Sim.t) :=
  fault_after_grace_run (running_world PROC_FAULT_ACTION_REBOOT 0).

(** ... and 120 more seconds pass without a reboot. *)
Definition grace_after_fault : outcome (App_t * World Sim.t) :=
  bind fault_after_grace_run
       (fun handled => event_loop_Advance 1 reboot_grace_usecs (snd handled))
       (running_world PROC_FAULT_ACTION_REBOOT 0).

(** The result and the world of a computation that returned ([d] and the
    initial world otherwise). *)
Definition run {A} (o : outcome (A * World Sim.t)) (d : A) : A * World Sim.t :=
  match o with Ret x => x | _ => (d, world) end.

(** The reboot fault record of process [P] of application [A]. *)
Definition record_A_P : string := "A/P" ++ String NUL "".

(** [A] running with [P], configured to reboot on a fault, while the
    record of an earlier reboot fault of [P] exists. *)
Definition recorded_world : World Sim.t :=
  set_rebootFaultRecord (Some record_A_P) (running_world PROC_FAULT_ACTION_REBOOT 0).

(** [A] and the world after the watchdog of [P] expired: the slot of [P]
    holds [StartProc] and [P] has been killed. *)
Definition watched_A : App_t :=
  snd (fst (run (app_WatchdogTimeoutHandler running_A 100 WATCHDOG_ACTION_ERROR
                   (running_world PROC_FAULT_ACTION_RESTART 0))
                (LE_FAULT, WATCHDOG_ACTION_ERROR, running_A))).

Definition watched_world : World Sim.t :=
  snd (run (app_WatchdogTimeoutHandler running_A 100 WATCHDOG_ACTION_ERROR
              (running_world PROC_FAULT_ACTION_RESTART 0))
           (LE_FAULT, WATCHDOG_ACTION_ERROR, running_A)).

(** [A] and the world after a first [app_Stop]: the soft kill is pending. *)
Definition stopping_A : App_t := fst (run stop_once running_A).
Definition stopping_world : World Sim.t := snd (run stop_once running_A).

(** The supervisor starts, half of the 120 seconds pass, and [P],
    configured to reboot on a fault, faults: the record is written while
    the reboot fault timer is pending. *)
Definition fault_within_grace : outcome (app_FaultAction_t * App_t * World Sim.t) :=
  bind app_Init
       (fun _ => bind (event_loop_Advance 1 60000000 running_A)
                      (fun a => app_SigChildHandler a 100 1))
       (running_world PROC_FAULT_ACTION_REBOOT 0).

Definition faulted_A : App_t :=
  snd (fst (run fault_within_grace (APP_FAULT_ACTION_IGNORE, running_A))).
Definition faulted_world : World Sim.t :=
  snd (run fault_within_grace (APP_FAULT_ACTION_IGNORE, running_A)).


(** A name of [n] characters. *)
Definition long_name (n : nat) : string := string_of_list_ascii (repeat "a"%char n).

(** The running application [A] under a name of [n] characters. *)
Definition long_A (n : nat) : App_t := set_name (long_name n) running_A.

(** [B] and the world after a successful [app_Start]. *)
Definition started_B : App_t :=
  snd (fst (run (app_Start 1 app_B stopped_world) (LE_FAULT, app_B))).
Definition started_world : World Sim.t :=
  snd (run (app_Start 1 app_B stopped_world) (LE_FAULT, app_B)).

(** The application at [path] and the world after [app_Create] on a pool
    that was never used. *)
Definition created_app (path : string) : App_t :=
  match fst (run (app_Create path fresh_world) None) with
  | Some a => a
  | None => zero_block
  end.
Definition created_world (path : string) : World Sim.t :=
  snd (run (app_Create path fresh_world) None).

(** A config tree in which the sandboxed application [L] lists two groups,
    the second under a name of 32 characters. *)
Definition long_group_config (path : string) : cfg_node :=
  if String.eqb path "/apps/L" then
    CfgStem [ ("groups", CfgStem [("g", CfgEmpty); (long_name 32, CfgEmpty)]);
              ("procs", CfgStem [("P", CfgStem [])]) ]
  else CfgEmpty.

Definition long_group_world : World Sim.t :=
  mkWorld platform [] [] long_group_config None (fun _ => false) ∅ 0 0.

(** The running application [A] on a file system that cannot write, and on
    one that cannot read. *)
Definition no_write_world : World Sim.t :=
  mkWorld (running_platform PROC_FAULT_ACTION_REBOOT 0) [] [] config (Some record_A_P)
          (fun c => match c with OS_write => true | _ => false end) ∅ 0 0.

Definition no_read_world : World Sim.t :=
  mkWorld (running_platform PROC_FAULT_ACTION_REBOOT 0) [] [] config (Some record_A_P)
          (fun c => match c with OS_read => true | _ => false end) ∅ 0 0.

End Scenario.

(** * Properties *)

Lemma le_result_eqb_eq a b : le_result_eqb a b = true <-> a = b.
Proof. destruct a, b; simpl; split; intros H; try reflexivity; discriminate H. Qed.

Lemma take_bytes_all (s : string) (n : nat) :
  (String.length s <= n)%nat -> take_bytes n s = s.
Proof.
  unfold take_bytes. revert n.
  induction s as [|c s IH]; intros n Hn.
  - destruct n; reflexivity.
  - destruct n; simpl in *; [lia|]. rewrite IH by lia. reflexivity.
Qed.

(** Case analysis on the condition of the first [if] of the goal. *)
Ltac break_if :=
  match goal with
  | |- context [if ?b then _ else _] => destruct b eqn:?
  end.

Section Properties.

Context {Ext : Type} `{Collab : Collaborators Ext} `{Lim : Limits}.

Notation "x <- c1 ;; c2" := (bind c1 (fun x => c2))
  (at level 100, c1 at next level, right associativity).

Lemma do_call_eq {R} (c : call R) (w : World Ext) r e' :
  perform c (ext w) = (r, e') -> do_call c w = Ret (r, after_call c e' w).
Proof. intros H. unfold do_call. rewrite H. reflexivity. Qed.

(** Subtracting two clock readings that fit [time_t] does not wrap. *)
Lemma time_t_sub_exact (a b : Z) :
  (0 < TIME_T_BITS)%Z ->
  (0 <= a < 2 ^ (TIME_T_BITS - 1))%Z ->
  (0 <= b < 2 ^ (TIME_T_BITS - 1))%Z ->
  time_t_sub a b = (a - b)%Z.
Proof.
  intros Hbits Ha Hb. unfold time_t_sub, time_t_wrap.
  assert (Hpow : (2 ^ TIME_T_BITS = 2 * 2 ^ (TIME_T_BITS - 1))%Z).
  { replace TIME_T_BITS with (Z.succ (TIME_T_BITS - 1)) at 1 by lia.
    rewrite Z.pow_succ_r by lia. reflexivity. }
  rewrite Hpow. rewrite Z.mod_small by lia. lia.
Qed.

(** *** Fault-limit accounting *)

Lemma ReachedFaultLimit_restart (a : App_t) (p : proc_Ref_t) (act : proc_FaultAction_t)
    (prev : time_t) (w : World Ext) :
  act = PROC_FAULT_ACTION_RESTART \/ act = PROC_FAULT_ACTION_RESTART_APP ->
  ReachedFaultLimit a p act prev w =
    Ret (negb (proc_GetFaultTime (ext w) p =? 0)%Z
         && (time_t_sub (proc_GetFaultTime (ext w) p) prev <=? 10)%Z, w).
Proof.
  intros [-> | ->]; unfold ReachedFaultLimit, bind, query, ret; simpl;
    destruct (negb _ && _); reflexivity.
Qed.

Lemma ReachedFaultLimit_other (a : App_t) (p : proc_Ref_t) (act : proc_FaultAction_t)
    (prev : time_t) (w : World Ext) :
  act = PROC_FAULT_ACTION_NO_FAULT \/ act = PROC_FAULT_ACTION_IGNORE
  \/ act = PROC_FAULT_ACTION_STOP_APP ->
  ReachedFaultLimit a p act prev w = Ret (false, w).
Proof. intros [-> | [-> | ->]]; reflexivity. Qed.

Lemma isRebootFaultRecFor_absent (a : App_t) (p : proc_Ref_t) (w : World Ext) :
  os_faults w OS_flock_Open = false ->
  rebootFaultRecord w = None ->
  isRebootFaultRecFor a p w = Ret (false, w).
Proof.
  intros Ho Hr. unfold isRebootFaultRecFor, bind, le_flock_Open. rewrite Ho, Hr. reflexivity.
Qed.

Lemma isRebootFaultRecFor_present (a : App_t) (p : proc_Ref_t) (w : World Ext) (c : string) :
  os_faults w OS_flock_Open = false ->
  os_faults w OS_read = false ->
  rebootFaultRecord w = Some c ->
  (String.length c < LIMIT_MAX_PATH_BYTES)%nat ->
  (String.length (fmt_slash (name a) (proc_GetName (ext w) p)) < LIMIT_MAX_PATH_BYTES)%nat ->
  isRebootFaultRecFor a p w =
    Ret (strcmp_eq c (fmt_slash (name a) (proc_GetName (ext w) p)), w).
Proof.
  intros Ho Hrd Hr Hc Hf.
  unfold isRebootFaultRecFor, bind, le_flock_Open, sys_read. rewrite Ho, Hr.
  cbv beta iota. rewrite Hrd, Hr. rewrite take_bytes_all by lia.
  replace (Z.of_nat (String.length c) =? -1)%Z with false by (symmetry; apply Z.eqb_neq; lia).
  replace (Z.of_nat LIMIT_MAX_PATH_BYTES <=? Z.of_nat (String.length c))%Z with false
    by (symmetry; apply Z.leb_gt; lia).
  unfold query, LE_ASSERT, ret.
  apply Nat.ltb_lt in Hf. rewrite Hf.
  destruct (strcmp_eq _ _); reflexivity.
Qed.

Lemma strcmp_eq_true (x y : string) : strcmp_eq x y = true <-> cstr x = cstr y.
Proof. unfold strcmp_eq. apply String.eqb_eq. Qed.

Lemma isRebootFaultRecFor_world (a : App_t) (p : proc_Ref_t) (w w' : World Ext) (r : bool) :
  isRebootFaultRecFor a p w = Ret (r, w') -> w' = w.
Proof.
  unfold isRebootFaultRecFor, bind, le_flock_Open, sys_read, query, LE_ASSERT, ret, fatal.
  destruct (os_faults w OS_flock_Open); [intros [= _ <-]; reflexivity|].
  destruct (rebootFaultRecord w) as [c|] eqn:Hr; [|intros [= _ <-]; reflexivity].
  destruct (os_faults w OS_read); cbv beta iota.
  - simpl. intros [= _ <-]; reflexivity.
  - rewrite Hr. cbv beta iota.
    break_if; [intros [= _ <-]; reflexivity|].
    break_if; [intros [= _ <-]; reflexivity|].
    break_if; [|discriminate].
    break_if; intros [= _ <-]; reflexivity.
Qed.

Lemma ReachedFaultLimit_world (a : App_t) (p : proc_Ref_t) (act : proc_FaultAction_t)
    (prev : time_t) (w w' : World Ext) (r : bool) :
  ReachedFaultLimit a p act prev w = Ret (r, w') -> w' = w.
Proof.
  destruct act; simpl; unfold bind, query, ret;
    try (intros [= _ <-]; reflexivity);
    try (destruct (negb _ && _); intros [= _ <-]; reflexivity).
  apply isRebootFaultRecFor_world.
Qed.

(** Cleaning up always returns, and only talks to the collaborators. *)
Lemma CleanupApp_returns (a : App_t) (w : World Ext) :
  exists w', CleanupApp a w = Ret (tt, w')
             /\ trace w' = trace w ++ cleanup_calls a
             /\ entered w' = entered w ++ ["CleanupApp"]
             /\ same_store w w'.
Proof.
  unfold CleanupApp, cleanup_calls, bind, enter, do_call, ret.
  destruct (perform (SmackRevokeSubject _) _) as [[] e1]; cbv beta iota.
  destruct (sandboxed a); cbv beta iota.
  - cbn [ext set_trace set_ext set_entered].
    destruct (perform (SandboxRemove _) _) as [r2 e2]; cbv beta iota.
    cbn [ext set_trace set_ext set_entered].
    destruct (perform (ResLimCleanupApp _) _) as [[] e3].
    eexists; split; [reflexivity|]. cbn. rewrite <- !app_assoc.
    repeat split; reflexivity.
  - cbn [ext set_trace set_ext set_entered].
    destruct (perform (ResLimCleanupApp _) _) as [[] e3].
    eexists; split; [reflexivity|]. cbn. rewrite <- !app_assoc.
    repeat split; reflexivity.
Qed.

Lemma check_stopped_returns (a : App_t) (w : World Ext) :
  kill_timer_valid a w ->
  exists a' w', check_stopped a w = Ret (a', w').
Proof.
  intros Hk. unfold check_stopped, bind, HasRunningProc, query.
  destruct (negb (negb _)); [|eexists _, _; reflexivity].
  unfold kill_timer_valid in Hk.
  destruct (killTimer a) as [t|].
  - destruct Hk as [tm Htm]. unfold le_timer_Stop. rewrite Htm.
    destruct (tm_running tm); unfold ret; cbv beta iota;
      match goal with |- context [CleanupApp a ?w0] =>
        destruct (CleanupApp_returns a w0) as (w' & -> & _) end;
      eexists _, _; reflexivity.
  - unfold ret; cbv beta iota.
    match goal with |- context [CleanupApp a ?w0] =>
      destruct (CleanupApp_returns a w0) as (w' & -> & _) end.
    eexists _, _; reflexivity.
Qed.

(** *** The final check of [app_SigChildHandler] *)

Lemma check_stopped_empty (a : App_t) (w : World Ext) :
  kill_timer_valid a w ->
  cgrp_IsEmpty (ext w) (name a) = true ->
  exists w', check_stopped a w = Ret (set_state APP_STATE_STOPPED a, w')
             /\ trace w' = trace w ++ cleanup_calls a
             /\ entered w' = entered w ++ ["CleanupApp"]
             /\ (forall t, killTimer a = Some t ->
                   exists tm, timers w' !! t = Some tm /\ tm_running tm = false).
Proof.
  intros Hk He. unfold check_stopped, bind, HasRunningProc, query. rewrite He.
  cbn [negb]. unfold kill_timer_valid in Hk.
  destruct (killTimer a) as [t|] eqn:Hkt.
  - destruct Hk as [tm Htm]. unfold le_timer_Stop. rewrite Htm.
    destruct (tm_running tm) eqn:Hrun; unfold ret; cbv beta iota;
      match goal with |- context [CleanupApp a ?w0] =>
        destruct (CleanupApp_returns a w0) as (w' & -> & Htr & Hen & Hst) end;
      exists w'; (split; [reflexivity|]); (split; [exact Htr|]); (split; [exact Hen|]);
      intros t' [= <-]; destruct Hst as (_ & _ & _ & -> & _); cbn [timers set_timers].
    + eexists. rewrite lookup_insert_eq. split; reflexivity.
    + exists tm. split; assumption.
  - unfold ret; cbv beta iota.
    match goal with |- context [CleanupApp a ?w0] =>
      destruct (CleanupApp_returns a w0) as (w' & -> & Htr & Hen & Hst) end.
    exists w'. repeat split; try assumption. intros t' Ht'. discriminate Ht'.
Qed.

Lemma check_stopped_running (a : App_t) (w : World Ext) :
  cgrp_IsEmpty (ext w) (name a) = false -> check_stopped a w = Ret (a, w).
Proof.
  intros He. unfold check_stopped, bind, HasRunningProc, query. rewrite He. reflexivity.
Qed.

(** C10.  Every call of [app_SigChildHandler] ends with the check of the
    freezer, whatever the dispatch of the exit did and returned ([fa], in the
    world [wd]): if the application's cgroup is empty then, the kill timer
    (if there is one) is stopped, [CleanupApp] runs (SMACK subject revoked,
    sandbox removed for a sandboxed application, resource limits cleaned up)
    and the state is set to Stopped; if it is not empty nothing more is
    done.  A pid that matches no process of the application leaves the fault
    action at Ignore and still goes through this check, so it can complete
    the transition to Stopped. *)
Theorem C10_sigchild_final_check (a : App_t) (w : World Ext)
    (procPid procExitStatus : Z) :
  let w0 := set_entered (entered w ++ ["app_SigChildHandler"]) w in
  (forall fa wd,
     exit_dispatch a procPid procExitStatus w0 = Ret (fa, wd) ->
     kill_timer_valid a wd ->
     (cgrp_IsEmpty (ext wd) (name a) = true ->
      exists w', app_SigChildHandler a procPid procExitStatus w
                 = Ret (fa, set_state APP_STATE_STOPPED a, w')
                 /\ trace w' = trace wd ++ cleanup_calls a
                 /\ (forall t, killTimer a = Some t ->
                       exists tm, timers w' !! t = Some tm /\ tm_running tm = false))
     /\ (cgrp_IsEmpty (ext wd) (name a) = false ->
         app_SigChildHandler a procPid procExitStatus w = Ret (fa, a, wd)))
  /\ (find_pid (ext w) (procs a) procPid 0 = None ->
      kill_timer_valid a w ->
      cgrp_IsEmpty (ext w) (name a) = true ->
      exists w', app_SigChildHandler a procPid procExitStatus w
                 = Ret (APP_FAULT_ACTION_IGNORE, set_state APP_STATE_STOPPED a, w')
                 /\ trace w' = trace w ++ cleanup_calls a
                 /\ (forall t, killTimer a = Some t ->
                       exists tm, timers w' !! t = Some tm /\ tm_running tm = false)).
Proof.
  intros w0.
  assert (Hgen : forall fa wd,
     exit_dispatch a procPid procExitStatus w0 = Ret (fa, wd) ->
     kill_timer_valid a wd ->
     (cgrp_IsEmpty (ext wd) (name a) = true ->
      exists w', app_SigChildHandler a procPid procExitStatus w
                 = Ret (fa, set_state APP_STATE_STOPPED a, w')
                 /\ trace w' = trace wd ++ cleanup_calls a
                 /\ (forall t, killTimer a = Some t ->
                       exists tm, timers w' !! t = Some tm /\ tm_running tm = false))
     /\ (cgrp_IsEmpty (ext wd) (name a) = false ->
         app_SigChildHandler a procPid procExitStatus w = Ret (fa, a, wd))).
  { intros fa wd Hd Hk. split; intros He.
    - destruct (check_stopped_empty a wd Hk He) as (w' & Hcs & Htr & _ & Htm).
      exists w'. split; [|split; assumption].
      unfold app_SigChildHandler, bind, enter. fold w0. rewrite Hd, Hcs. reflexivity.
    - unfold app_SigChildHandler, bind, enter. fold w0.
      rewrite Hd, (check_stopped_running a wd He). reflexivity. }
  split; [exact Hgen|].
  intros Hnone Hk He.
  assert (Hd : exit_dispatch a procPid procExitStatus w0 = Ret (APP_FAULT_ACTION_IGNORE, w0)).
  { unfold exit_dispatch, bind, FindProcObjectRef, query. cbn [ext w0 set_entered].
    rewrite Hnone. reflexivity. }
  destruct (Hgen _ _ Hd Hk) as [Hempty _]. apply Hempty. exact He.
Qed.

(** *** Watchdog timeouts *)

Lemma StopProc_spec (p : proc_Ref_t) (w : World Ext) :
  exists w', StopProc p w = Ret (tt, w')
    /\ trace w' = trace w ++ [Ev (ProcStopping p);
                              Ev (KillHard (proc_GetPID (snd (perform (ProcStopping p) (ext w))) p))]
    /\ entered w' = entered w ++ ["StopProc"]
    /\ same_store w w'.
Proof.
  unfold StopProc, bind, enter, do_call, query. cbn [ext set_entered].
  destruct (perform (ProcStopping p) (ext w)) as [[] e1]. cbn [ext set_trace set_ext snd].
  destruct (perform (KillHard _) e1) as [[] e2].
  eexists; split; [reflexivity|]. cbn. rewrite <- app_assoc.
  repeat split; reflexivity.
Qed.

Lemma resolve_watchdog_action_spec (a : App_t) (p : proc_Ref_t) (w : World Ext) :
  (0 < LIMIT_MAX_FAULT_ACTION_NAME_BYTES)%nat ->
  let procAction := proc_GetWatchdogAction (ext w) p in
  exists resolved,
    resolve_watchdog_action a p w = Ret (resolved, w)
    /\ (procAction <> WATCHDOG_ACTION_NOT_FOUND -> procAction <> WATCHDOG_ACTION_ERROR ->
        resolved = procAction)
    /\ (procAction = WATCHDOG_ACTION_NOT_FOUND \/ procAction = WATCHDOG_ACTION_ERROR ->
        (forall s, app_watchdog_key a w = Some s ->
                   (String.length s < LIMIT_MAX_FAULT_ACTION_NAME_BYTES)%nat ->
                   resolved = wdog_action_EnumFromString s)
        /\ (app_watchdog_key a w = None -> resolved = wdog_action_EnumFromString "")).
Proof.
  intros Hlim procAction.
  unfold resolve_watchdog_action, bind, query. fold procAction.
  assert (Hfallback : exists resolved,
    (appCfg <- le_cfg_CreateReadTxn (cfgPathRoot a) ;;
     let '(result, watchdogActionStr) :=
       le_cfg_GetString appCfg wdog_action_GetConfigNode
                        LIMIT_MAX_FAULT_ACTION_NAME_BYTES "" in
     if le_result_eqb result LE_OK
     then ret (wdog_action_EnumFromString watchdogActionStr)
     else ret WATCHDOG_ACTION_ERROR) w = Ret (resolved, w)
    /\ (forall s, app_watchdog_key a w = Some s ->
                  (String.length s < LIMIT_MAX_FAULT_ACTION_NAME_BYTES)%nat ->
                  resolved = wdog_action_EnumFromString s)
    /\ (app_watchdog_key a w = None -> resolved = wdog_action_EnumFromString "")).
  { unfold bind, le_cfg_CreateReadTxn, le_cfg_GetString, app_watchdog_key. cbn [it_node].
    assert (Hempty : copy_to_buf "" LIMIT_MAX_FAULT_ACTION_NAME_BYTES = (LE_OK, "")).
    { unfold copy_to_buf. cbn [String.length].
      apply Nat.ltb_lt in Hlim. rewrite Hlim. reflexivity. }
    destruct (child_node _ _) as [| b | s | ch]; rewrite ?Hempty; cbn;
      try (eexists; split; [reflexivity|]; split; [discriminate|reflexivity]).
    unfold copy_to_buf. destruct (_ <? _)%nat eqn:Hfit; cbn.
    - eexists; split; [reflexivity|]. split; [|discriminate].
      intros s' [= <-] _. reflexivity.
    - eexists; split; [reflexivity|]. split; [|discriminate].
      intros s' [= <-] Hs. apply Nat.ltb_lt in Hs. congruence. }
  destruct Hfallback as (resolved & Hres & Hkey & Hnone).
  destruct procAction eqn:Hpa;
    try (eexists; split; [reflexivity|]; split; [reflexivity|];
         intros [H | H]; discriminate H).
  - exists resolved. split; [exact Hres|]. split; [congruence|]. intros _. split; assumption.
  - exists resolved. split; [exact Hres|]. split; [congruence|]. intros _. split; assumption.
Qed.

Lemma watchdog_handler_found (a : App_t) (w : World Ext) (procPid : Z)
    (actionOut : wdog_action_WatchdogAction_t) (i : nat) (po : ProcObj_t)
    (resolved : wdog_action_WatchdogAction_t) :
  let w0 := set_entered (entered w ++ ["app_WatchdogTimeoutHandler"]) w in
  find_pid (ext w) (procs a) procPid 0 = Some i ->
  procs a !! i = Some po ->
  resolve_watchdog_action a (procRef po) w0 = Ret (resolved, w0) ->
  app_WatchdogTimeoutHandler a procPid actionOut w
  = (switched <- watchdog_switch a i (procRef po) resolved ;;
     ret (LE_OK, fst switched, snd switched)) w0.
Proof.
  intros w0 Hfind Hpo Hres.
  unfold app_WatchdogTimeoutHandler, enter, FindProcObjectRef, query.
  unfold bind at 1 2. cbn [ext set_entered]. rewrite Hfind, Hpo.
  unfold bind at 1. fold w0. rewrite Hres. reflexivity.
Qed.

Lemma watchdog_restart_arm (a : App_t) (w : World Ext) (procPid : Z)
    (actionOut : wdog_action_WatchdogAction_t) (i : nat) (po : ProcObj_t)
    (resolved : wdog_action_WatchdogAction_t) :
  let w0 := set_entered (entered w ++ ["app_WatchdogTimeoutHandler"]) w in
  find_pid (ext w) (procs a) procPid 0 = Some i ->
  procs a !! i = Some po ->
  resolve_watchdog_action a (procRef po) w0 = Ret (resolved, w0) ->
  resolved = WATCHDOG_ACTION_RESTART \/ resolved = WATCHDOG_ACTION_NOT_FOUND ->
  restart_on_stop a procPid actionOut i (procRef po) w.
Proof.
  intros w0 Hfind Hpo Hres Hr. unfold restart_on_stop.
  rewrite (watchdog_handler_found a w procPid actionOut i po resolved Hfind Hpo Hres).
  destruct (StopProc_spec (procRef po) w0) as (w' & Hstop & Htr & _).
  exists w'. split; [|split].
  - unfold bind. destruct Hr as [-> | ->]; cbn [watchdog_switch]; unfold bind;
      fold w0; rewrite Hstop; reflexivity.
  - unfold stopHandler_at, set_stopHandler. rewrite Hpo. cbn [procs set_procs].
    rewrite list_lookup_insert_eq by (eapply lookup_lt_Some; exact Hpo). reflexivity.
  - exact Htr.
Qed.

(** C7.  A watchdog expiry for a pid that matches no process of the
    application returns NotFound.  For a pid of the application, the handler
    acts on the process's own watchdog action unless it is NotFound or
    Error; then it falls back to the string under the application's key,
    and when that key is missing too (the string read is empty, which the
    watchdog module maps to NotFound) it restarts by default.  When the
    action so resolved is Restart, from the process, from the application,
    or by default, the handler stores [StartProc] in the process's
    [stopHandler] slot, tells the launcher the process is stopping, sends
    the process SIGKILL, and reports Handled. *)
Theorem C7_watchdog_timeout (a : App_t) (w : World Ext) (procPid : Z)
    (actionOut : wdog_action_WatchdogAction_t) :
  (0 < LIMIT_MAX_FAULT_ACTION_NAME_BYTES)%nat ->
  let w0 := set_entered (entered w ++ ["app_WatchdogTimeoutHandler"]) w in
  (find_pid (ext w) (procs a) procPid 0 = None ->
   app_WatchdogTimeoutHandler a procPid actionOut w = Ret (LE_NOT_FOUND, actionOut, a, w0))
  /\ (forall i po,
        find_pid (ext w) (procs a) procPid 0 = Some i ->
        procs a !! i = Some po ->
        let p := procRef po in
        let procAction := proc_GetWatchdogAction (ext w) p in
        (exists resolved,
           app_WatchdogTimeoutHandler a procPid actionOut w
           = (switched <- watchdog_switch a i p resolved ;;
              ret (LE_OK, fst switched, snd switched)) w0
           /\ (procAction <> WATCHDOG_ACTION_NOT_FOUND ->
               procAction <> WATCHDOG_ACTION_ERROR -> resolved = procAction)
           /\ (procAction = WATCHDOG_ACTION_NOT_FOUND \/ procAction = WATCHDOG_ACTION_ERROR ->
               forall s, app_watchdog_key a w = Some s ->
                         (String.length s < LIMIT_MAX_FAULT_ACTION_NAME_BYTES)%nat ->
                         resolved = wdog_action_EnumFromString s))
        /\ (procAction = WATCHDOG_ACTION_RESTART ->
            restart_on_stop a procPid actionOut i p w)
        /\ (procAction = WATCHDOG_ACTION_NOT_FOUND \/ procAction = WATCHDOG_ACTION_ERROR ->
            forall s, app_watchdog_key a w = Some s ->
                      (String.length s < LIMIT_MAX_FAULT_ACTION_NAME_BYTES)%nat ->
                      wdog_action_EnumFromString s = WATCHDOG_ACTION_RESTART ->
                      restart_on_stop a procPid actionOut i p w)
        /\ (procAction = WATCHDOG_ACTION_NOT_FOUND \/ procAction = WATCHDOG_ACTION_ERROR ->
            app_watchdog_key a w = None ->
            wdog_action_EnumFromString "" = WATCHDOG_ACTION_NOT_FOUND ->
            restart_on_stop a procPid actionOut i p w)).
Proof.
  intros Hlim w0. split.
  - intros Hnone. unfold app_WatchdogTimeoutHandler, bind, enter, FindProcObjectRef, query.
    cbn [ext set_entered]. rewrite Hnone. reflexivity.
  - intros i po Hfind Hpo p procAction.
    destruct (resolve_watchdog_action_spec a p w0 Hlim)
      as (resolved & Hres & Hown & Hfall).
    change (proc_GetWatchdogAction (ext w0) p) with procAction in Hown, Hfall.
    change (app_watchdog_key a w0) with (app_watchdog_key a w) in Hfall.
    split; [|split; [|split]].
    + exists resolved. split; [|split].
      * apply watchdog_handler_found; assumption.
      * exact Hown.
      * intros Hpa. apply (proj1 (Hfall Hpa)).
    + intros Hpa. apply (watchdog_restart_arm a w procPid actionOut i po resolved Hfind Hpo Hres).
      left. rewrite <- Hpa. apply Hown; fold procAction; rewrite Hpa; discriminate.
    + intros Hpa s Hkey Hfit Henum.
      apply (watchdog_restart_arm a w procPid actionOut i po resolved Hfind Hpo Hres).
      left. rewrite <- Henum. apply (proj1 (Hfall Hpa)); assumption.
    + intros Hpa Hkey Henum.
      apply (watchdog_restart_arm a w procPid actionOut i po resolved Hfind Hpo Hres).
      right. rewrite <- Henum. apply (proj2 (Hfall Hpa)); assumption.
Qed.

(** *** Bookkeeping of traces *)

Lemma same_store_refl (w : World Ext) : same_store w w.
Proof. repeat split. Qed.

Lemma same_store_trans (w1 w2 w3 : World Ext) :
  same_store w1 w2 -> same_store w2 w3 -> same_store w1 w3.
Proof.
  unfold same_store. intros (?&?&?&?&?&?) (?&?&?&?&?&?).
  repeat split; etransitivity; eassumption.
Qed.

Lemma extends_refl (w : World Ext) : extends w w [] [].
Proof. unfold extends. rewrite !app_nil_r. repeat split. Qed.

Lemma extends_trans (w1 w2 w3 : World Ext) evs1 evs2 fns1 fns2 :
  extends w1 w2 evs1 fns1 -> extends w2 w3 evs2 fns2 ->
  extends w1 w3 (evs1 ++ evs2) (fns1 ++ fns2).
Proof.
  intros (Ht1 & He1 & Hs1) (Ht2 & He2 & Hs2). unfold extends.
  rewrite Ht2, Ht1, He2, He1, !app_assoc.
  split; [reflexivity|]. split; [reflexivity|]. eapply same_store_trans; eassumption.
Qed.

Lemma do_call_extends {R} (c : call R) (w : World Ext) :
  exists r w', do_call c w = Ret (r, w') /\ extends w w' [Ev c] []
               /\ perform c (ext w) = (r, ext w').
Proof.
  unfold do_call. destruct (perform c (ext w)) as [r e'] eqn:Hp.
  exists r, (set_trace (trace w ++ [Ev c]) (set_ext e' w)).
  split; [reflexivity|]. split; [|reflexivity].
  unfold extends. cbn. rewrite app_nil_r. repeat split.
Qed.

Lemma enter_extends (fn : string) (w : World Ext) :
  exists w', enter fn w = Ret (tt, w') /\ extends w w' [] [fn] /\ ext w' = ext w.
Proof.
  eexists. split; [reflexivity|]. unfold extends. cbn. rewrite app_nil_r. repeat split.
Qed.

Lemma smack_rules_set_app (t1 t2 : list event) :
  smack_rules_set (t1 ++ t2) = smack_rules_set t1 ++ smack_rules_set t2.
Proof. apply omap_app. Qed.

Lemma smack_rules_set_rule_events (rules : list (string * string * string)) :
  smack_rules_set (rule_events rules) = rules.
Proof.
  induction rules as [|[[s p] o] rules IH]; [reflexivity|].
  change (smack_rules_set (rule_events ((s, p, o) :: rules)))
    with ((s, p, o) :: smack_rules_set (rule_events rules)).
  rewrite IH. reflexivity.
Qed.

(** *** SMACK rules *)

(** The table [permissionStr] of the code lists the non-empty subsets of
    [{r, w, x}], with the access mode of each. *)
Lemma permissionStr_subsets :
  map (fun perm => (perm, mode_of_permission perm)) (firstn NUM_PERMISSONS permissionStr)
  = map (fun s => (perm_string s, perm_mode s)) nonempty_subsets.
Proof.
  unfold mode_of_permission, perm_mode. cbn.
  rewrite ?Z.lor_0_r. reflexivity.
Qed.

Lemma nonempty_subsets_complete (s : perm_subset) :
  In s nonempty_subsets <-> perm_r s || perm_w s || perm_x s = true.
Proof.
  destruct s as [[] [] []]; cbn; split; intros H; try reflexivity; try discriminate H;
    try tauto.
  repeat destruct H as [H | H]; try discriminate H. destruct H.
Qed.

Lemma nonempty_subsets_NoDup : List.NoDup nonempty_subsets.
Proof.
  unfold nonempty_subsets.
  repeat (constructor; [cbn; intros H; repeat destruct H as [H | H]; try discriminate H; exact H|]).
  constructor.
Qed.

Lemma default_rules_loop_spec (perms : list string) (appName L : string) (w : World Ext) :
  exists w',
    default_rules_loop perms appName L w = Ret (tt, w')
    /\ extends w w'
         (rule_events (map (fun perm => (L, perm,
                              appSmack_GetAccessLabel appName (mode_of_permission perm))) perms))
         [].
Proof.
  revert w. induction perms as [|perm perms IH]; intros w.
  - exists w. split; [reflexivity|]. apply extends_refl.
  - cbn [default_rules_loop]. unfold bind.
    destruct (do_call_extends (SmackSetRule L perm
                (appSmack_GetAccessLabel appName (mode_of_permission perm))) w)
      as ([] & w1 & -> & Hext1 & _).
    destruct (IH w1) as (w' & -> & Hext2).
    exists w'. split; [reflexivity|].
    exact (extends_trans _ _ _ _ _ _ _ Hext1 Hext2).
Qed.

Lemma SetDefaultSmackRules_spec (appName : string) (w : World Ext) :
  exists w',
    SetDefaultSmackRules appName (appSmack_GetLabel appName) w = Ret (LE_OK, w')
    /\ extends w w'
         (rule_events (self_permission_rules appName ++ framework_rules appName)) [].
Proof.
  unfold SetDefaultSmackRules, bind.
  destruct (default_rules_loop_spec (firstn NUM_PERMISSONS permissionStr) appName
              (appSmack_GetLabel appName) w) as (w1 & -> & Hext1).
  destruct (do_call_extends (SmackSetRule "framework" "w" (appSmack_GetLabel appName)) w1)
    as ([] & w2 & -> & Hext2 & _).
  destruct (do_call_extends (SmackSetRule (appSmack_GetLabel appName) "rw" "framework") w2)
    as ([] & w3 & -> & Hext3 & _).
  exists w3. split; [reflexivity|].
  pose proof (extends_trans _ _ _ _ _ _ _ (extends_trans _ _ _ _ _ _ _ Hext1 Hext2) Hext3)
    as Hext.
  replace (rule_events (self_permission_rules appName ++ framework_rules appName))
    with ((rule_events (map (fun perm => (appSmack_GetLabel appName, perm,
                 appSmack_GetAccessLabel appName (mode_of_permission perm)))
               (firstn NUM_PERMISSONS permissionStr))
           ++ [Ev (SmackSetRule "framework" "w" (appSmack_GetLabel appName))])
          ++ [Ev (SmackSetRule (appSmack_GetLabel appName) "rw" "framework")]).
  { exact Hext. }
  unfold rule_events. rewrite map_app, <- app_assoc. f_equal.
  unfold self_permission_rules.
  pose proof permissionStr_subsets as Htab.
  apply (f_equal (map (fun pm : string * Z =>
           Ev (SmackSetRule (appSmack_GetLabel appName) (fst pm)
                            (appSmack_GetAccessLabel appName (snd pm)))))) in Htab.
  rewrite !map_map in Htab. rewrite !map_map. exact Htab.
Qed.

Lemma le_cfg_GoToNode_node (it : le_cfg_Iterator) (sub : string) :
  it_node (le_cfg_GoToNode it sub) = child_node sub (it_node it).
Proof.
  unfold le_cfg_GoToNode, child_node.
  destruct (it_node it) as [| | |children]; try reflexivity.
  destruct (find_child sub children) as [[c rest]|]; reflexivity.
Qed.

Lemma binding_step (appName : string) (binding : string * cfg_node) (parent : string)
    (rest : list (string * cfg_node)) (w : World Ext) :
  (forall s, binding_server binding = Some s ->
             (String.length s < LIMIT_MAX_APP_NAME_BYTES)%nat) ->
  exists w',
    (let '(gres, serverName) :=
       le_cfg_GetString (mkIter parent (fst binding) (snd binding) rest) "app"
                        LIMIT_MAX_APP_NAME_BYTES "" in
     if le_result_eqb gres LE_OK && negb (strcmp_eq serverName "")
     then (_ <- do_call (SmackSetRule (appSmack_GetLabel appName) "rw"
                                     (appSmack_GetLabel serverName)) ;;
           do_call (SmackSetRule (appSmack_GetLabel serverName) "rw"
                                 (appSmack_GetLabel appName)))
     else ret tt) w = Ret (tt, w')
    /\ extends w w' (rule_events (binding_rules appName [binding])) [].
Proof.
  intros Hfit. unfold le_cfg_GetString, binding_rules, binding_server in *.
  cbn [it_node flat_map]. rewrite app_nil_r.
  assert (Hnone : forall buf : le_result_t * string,
            snd buf = "" \/ fst buf <> LE_OK ->
            exists w', (let '(gres, serverName) := buf in
                        if le_result_eqb gres LE_OK && negb (strcmp_eq serverName "")
                        then (_ <- do_call (SmackSetRule (appSmack_GetLabel appName) "rw"
                                              (appSmack_GetLabel serverName)) ;;
                              do_call (SmackSetRule (appSmack_GetLabel serverName) "rw"
                                         (appSmack_GetLabel appName)))
                        else ret tt) w = Ret (tt, w')
                       /\ extends w w' (rule_events []) []).
  { intros [gres serverName] [Hs | Hr]; cbn in *.
    - subst serverName. rewrite andb_false_r. exists w. split; [reflexivity|apply extends_refl].
    - destruct gres; try congruence; exists w; (split; [reflexivity|apply extends_refl]). }
  assert (Hdefault : snd (copy_to_buf "" LIMIT_MAX_APP_NAME_BYTES) = ""
                     \/ fst (copy_to_buf "" LIMIT_MAX_APP_NAME_BYTES) <> LE_OK).
  { unfold copy_to_buf. destruct (_ <? _)%nat; [left; reflexivity|right; discriminate]. }
  destruct (child_node "app" (snd binding)) as [| b | s | ch];
    try (apply Hnone; exact Hdefault).
  destruct (String.eqb (cstr s) "") eqn:Hempty.
  - unfold copy_to_buf. destruct (_ <? _)%nat; cbn [le_result_eqb andb].
    + unfold strcmp_eq. cbn [cstr]. rewrite Hempty. cbn.
      exists w. split; [reflexivity|apply extends_refl].
    + exists w. split; [reflexivity|apply extends_refl].
  - specialize (Hfit s eq_refl). unfold copy_to_buf.
    apply Nat.ltb_lt in Hfit. rewrite Hfit. cbn [le_result_eqb andb].
    unfold strcmp_eq. cbn [cstr]. rewrite Hempty. cbn [negb]. unfold bind.
    destruct (do_call_extends (SmackSetRule (appSmack_GetLabel appName) "rw"
                (appSmack_GetLabel s)) w) as ([] & w1 & -> & Hext1 & _).
    destruct (do_call_extends (SmackSetRule (appSmack_GetLabel s) "rw"
                (appSmack_GetLabel appName)) w1) as ([] & w2 & -> & Hext2 & _).
    exists w2. split; [reflexivity|].
    exact (extends_trans _ _ _ _ _ _ _ Hext1 Hext2).
Qed.

Lemma binding_rules_cons (appName : string) (binding : string * cfg_node)
    (rest : list (string * cfg_node)) :
  binding_rules appName (binding :: rest)
  = binding_rules appName [binding] ++ binding_rules appName rest.
Proof. unfold binding_rules. cbn [flat_map]. rewrite app_nil_r. reflexivity. Qed.

Lemma rule_events_app (r1 r2 : list (string * string * string)) :
  rule_events (r1 ++ r2) = rule_events r1 ++ rule_events r2.
Proof. apply map_app. Qed.

Lemma bindings_loop_spec (appName : string) (rest : list (string * cfg_node)) :
  forall (n : nat) (parent : string) (binding : string * cfg_node) (w : World Ext),
    (length rest < n)%nat ->
    servers_are_app_names (binding :: rest) ->
    exists w',
      bindings_loop n (mkIter parent (fst binding) (snd binding) rest)
                    (appSmack_GetLabel appName) w = Ret (tt, w')
      /\ extends w w' (rule_events (binding_rules appName (binding :: rest))) [].
Proof.
  induction rest as [|next rest IH]; intros n parent binding w Hn Hfit;
    (destruct n as [|n]; [cbn in Hn; lia|]);
    apply Forall_cons in Hfit as [Hfit1 Hfit2];
    cbn [bindings_loop]; unfold bind at 1;
    [destruct (binding_step appName binding parent [] w Hfit1) as (w1 & Hstep & Hext1)
    |destruct (binding_step appName binding parent (next :: rest) w Hfit1)
       as (w1 & Hstep & Hext1)];
    match type of Hstep with context [le_cfg_GetString ?it ?sub ?size ?d] =>
      destruct (le_cfg_GetString it sub size d) as [gres serverName] end;
    cbv beta iota; rewrite Hstep; rewrite binding_rules_cons, rule_events_app.
  - exists w1. split; [reflexivity|].
    change (@nil string) with (@nil string ++ @nil string).
    eapply extends_trans; [exact Hext1|apply extends_refl].
  - destruct next as [nn nc].
    destruct (IH n parent (nn, nc) w1) as (w' & Hloop & Hext2).
    { cbn in Hn. lia. }
    { exact Hfit2. }
    cbn [fst snd] in Hloop.
    cbn [le_cfg_GoToNextSibling it_siblings le_result_eqb it_parent]. rewrite Hloop.
    exists w'. split; [reflexivity|].
    change (@nil string) with (@nil string ++ @nil string).
    eapply extends_trans; eassumption.
Qed.

Lemma SetSmackRules_spec (a : App_t) (w : World Ext) :
  servers_are_app_names (bindings_children a w) ->
  exists w',
    SetSmackRules a w = Ret (LE_OK, w')
    /\ extends w w'
         (rule_events (self_permission_rules (name a) ++ framework_rules (name a)
                       ++ binding_rules (name a) (bindings_children a w))) [].
Proof.
  intros Hfit. unfold SetSmackRules. unfold bind at 1.
  destruct (SetDefaultSmackRules_spec (name a) w) as (w1 & -> & Hext1).
  cbn [le_result_eqb negb].
  assert (Hcfg : cfgTree w1 = cfgTree w) by apply Hext1.
  unfold SetSmackRulesForBindings, le_cfg_CreateReadTxn. unfold bind at 1.
  unfold le_cfg_GoToFirstChild. rewrite le_cfg_GoToNode_node. cbn [it_node].
  unfold bindings_children in Hfit |- *. rewrite Hcfg.
  rewrite app_assoc, rule_events_app.
  change (@nil string) with (@nil string ++ @nil string).
  destruct (child_node CFG_NODE_BINDINGS (cfgTree w (cfgPathRoot a)))
    as [| b | s | [|[bn bc] rest]];
    try (exists w1; split; [reflexivity|];
         eapply extends_trans; [exact Hext1|apply extends_refl]).
  cbn [le_result_eqb negb it_siblings]. unfold bind.
  match goal with |- context [bindings_loop _ (mkIter ?parent _ _ _)] =>
    destruct (bindings_loop_spec (name a) rest (S (length rest)) parent (bn, bc) w1)
      as (w' & Hloop & Hext2); [lia|exact Hfit|] end.
  cbn [fst snd] in Hloop. rewrite Hloop.
  exists w'. split; [reflexivity|]. eapply extends_trans; eassumption.
Qed.

(** *** Starting an application *)

Lemma bindings_loop_returns (L : string) (rest : list (string * cfg_node)) :
  forall (n : nat) (parent bn : string) (bc : cfg_node) (w : World Ext),
    (length rest < n)%nat ->
    exists w' rules,
      bindings_loop n (mkIter parent bn bc rest) L w = Ret (tt, w')
      /\ extends w w' (rule_events rules) [].
Proof.
  induction rest as [|[nn nc] rest IH]; intros n parent bn bc w Hn;
    (destruct n as [|n]; [cbn in Hn; lia|]);
    cbn [bindings_loop];
    match goal with |- context [le_cfg_GetString ?it ?sub ?size ?d] =>
      destruct (le_cfg_GetString it sub size d) as [gres serverName] end;
    cbv beta iota; unfold bind at 1;
    assert (Hstep : exists w1 rules1,
      (if le_result_eqb gres LE_OK && negb (strcmp_eq serverName "")
       then (_ <- do_call (SmackSetRule L "rw" (appSmack_GetLabel serverName)) ;;
             do_call (SmackSetRule (appSmack_GetLabel serverName) "rw" L))
       else ret tt) w = Ret (tt, w1) /\ extends w w1 (rule_events rules1) [])
    by (destruct (_ && _);
        [ unfold bind;
          destruct (do_call_extends (SmackSetRule L "rw" (appSmack_GetLabel serverName)) w)
            as ([] & w1 & -> & Hext1 & _);
          destruct (do_call_extends (SmackSetRule (appSmack_GetLabel serverName) "rw" L) w1)
            as ([] & w2 & -> & Hext2 & _);
          exists w2, [(L, "rw", appSmack_GetLabel serverName);
                      (appSmack_GetLabel serverName, "rw", L)];
          split; [reflexivity|];
          exact (extends_trans _ _ _ _ _ _ _ Hext1 Hext2)
        | exists w, []; split; [reflexivity|apply extends_refl] ]);
    destruct Hstep as (w1 & rules1 & -> & Hext1).
  - exists w1, rules1. split; [reflexivity|exact Hext1].
  - cbn [le_cfg_GoToNextSibling it_siblings le_result_eqb it_parent].
    destruct (IH n parent nn nc w1) as (w' & rules2 & -> & Hext2); [cbn in Hn; lia|].
    exists w', (rules1 ++ rules2). split; [reflexivity|].
    rewrite rule_events_app. change (@nil string) with (@nil string ++ @nil string).
    eapply extends_trans; eassumption.
Qed.

Lemma SetSmackRules_returns (a : App_t) (w : World Ext) :
  exists w' rules,
    SetSmackRules a w = Ret (LE_OK, w') /\ extends w w' (rule_events rules) [].
Proof.
  unfold SetSmackRules. unfold bind at 1.
  destruct (SetDefaultSmackRules_spec (name a) w) as (w1 & -> & Hext1).
  cbn [le_result_eqb negb].
  unfold SetSmackRulesForBindings, le_cfg_CreateReadTxn. unfold bind at 1.
  unfold le_cfg_GoToFirstChild. rewrite le_cfg_GoToNode_node. cbn [it_node].
  destruct (child_node CFG_NODE_BINDINGS (cfgTree w1 (cfgPathRoot a)))
    as [| b | s | [|[bn bc] rest]];
    try (eexists w1, _; split; [reflexivity|exact Hext1]).
  cbn [le_result_eqb negb it_siblings]. unfold bind.
  match goal with |- context [bindings_loop _ (mkIter ?parent _ _ _)] =>
    destruct (bindings_loop_returns (appSmack_GetLabel (name a)) rest
                (S (length rest)) parent bn bc w1)
      as (w' & rules & -> & Hext2); [lia|] end.
  eexists w', _. split; [reflexivity|].
  rewrite rule_events_app. change (@nil string) with (@nil string ++ @nil string).
  eapply extends_trans; eassumption.
Qed.

Lemma StartProc_returns (a : App_t) (p : proc_Ref_t) (w : World Ext) :
  exists r w' ev,
    StartProc a p w = Ret (r, w') /\ extends w w' [ev] ["StartProc"]
    /\ smack_rule_of ev = None.
Proof.
  unfold StartProc, bind.
  destruct (enter_extends "StartProc" w) as (w0 & -> & Hext0 & _).
  destruct (sandboxed a);
    match goal with |- context [do_call ?c ?w0] =>
      destruct (do_call_extends c w0) as (r & w' & -> & Hext & _);
      exists r, w', (Ev c) end;
    (split; [reflexivity|]); (split; [|reflexivity]);
    exact (extends_trans _ _ _ _ _ _ _ Hext0 Hext).
Qed.

Lemma app_Stop_stopped (fuel : nat) (a : App_t) (w : World Ext) :
  state a = APP_STATE_STOPPED ->
  app_Stop fuel a w = Ret (a, set_entered (entered w ++ ["app_Stop"]) w).
Proof. intros Hs. unfold app_Stop, bind, enter. rewrite Hs. reflexivity. Qed.

(** The loop over the processes, for an application that is not running:
    either every process is started, or some launch fails and [app_Stop] is
    called, which finds the application stopped. *)
Lemma start_procs_spec (fuel : nat) (a : App_t) (l : list ProcObj_t) :
  state a = APP_STATE_STOPPED ->
  forall w : World Ext,
    exists res w' evs fns,
      start_procs fuel a l w = Ret (res, w')
      /\ extends w w' evs fns
      /\ smack_rules_set evs = []
      /\ (res = None /\ ~ In "app_Stop" fns
          \/ res = Some a /\ In "app_Stop" fns /\ In "StartProc" fns).
Proof.
  intros Hs. induction l as [|po l IH]; intros w.
  - exists None, w, [], []. split; [reflexivity|]. split; [apply extends_refl|].
    split; [reflexivity|]. left. split; [reflexivity|]. intros [].
  - cbn [start_procs]. unfold bind at 1.
    destruct (StartProc_returns a (procRef po) w) as (r & w1 & ev & -> & Hext1 & Hev).
    destruct (le_result_eqb r LE_OK); cbn [negb].
    + destruct (IH w1) as (res & w' & evs & fns & -> & Hext2 & Hsm & Hres).
      exists res, w', ([ev] ++ evs), (["StartProc"] ++ fns).
      split; [reflexivity|]. split; [eapply extends_trans; eassumption|].
      split.
      { rewrite smack_rules_set_app, Hsm. cbn. unfold smack_rules_set. cbn.
        rewrite Hev. reflexivity. }
      destruct Hres as [[-> Hno] | (-> & Hstop & Hstart)].
      * left. split; [reflexivity|]. cbn. intros [H | H]; [discriminate H|]. exact (Hno H).
      * right. split; [reflexivity|]. split; [right; exact Hstop|left; reflexivity].
    + unfold bind. rewrite (app_Stop_stopped fuel a w1 Hs).
      exists (Some a), (set_entered (entered w1 ++ ["app_Stop"]) w1), [ev],
             ["StartProc"; "app_Stop"].
      split; [reflexivity|]. split.
      { destruct Hext1 as (Ht & He & Hst). unfold extends. cbn.
        rewrite Ht, He, <- app_assoc. repeat split; apply Hst. }
      split.
      { unfold smack_rules_set. cbn. rewrite Hev. reflexivity. }
      right. split; [reflexivity|]. split; [right; left; reflexivity|left; reflexivity].
Qed.

(** What [app_Start] does on an application that is not running: it always
    returns, and it fails at the sandbox, at the resource limits, or at a
    process launch, or succeeds. *)
Lemma app_Start_spec (fuel : nat) (a : App_t) (w : World Ext) :
  state a = APP_STATE_STOPPED ->
  let sres := fst (sandbox_step a (ext w)) in
  let e1 := snd (sandbox_step a (ext w)) in
  let lres := fst (perform (ResLimSetAppLimits (name a)) e1) in
  exists r a' w' evs fns,
    app_Start fuel a w = Ret (r, a', w')
    /\ extends w w' evs fns
    /\ (sres <> LE_OK /\ r = LE_FAULT /\ a' = a /\ fns = ["app_Start"]
        \/ sres = LE_OK /\ lres <> LE_OK /\ r = LE_FAULT /\ a' = a /\ fns = ["app_Start"]
        \/ sres = LE_OK /\ lres = LE_OK /\ r = LE_FAULT /\ a' = a
           /\ In "app_Stop" fns /\ In "StartProc" fns
        \/ sres = LE_OK /\ lres = LE_OK /\ r = LE_OK /\ a' = set_state APP_STATE_RUNNING a
           /\ ~ In "app_Stop" fns
           /\ (servers_are_app_names (bindings_children a w) ->
               smack_rules_set evs = spec_smack_rules a w)).
Proof.
  intros Hs sres e1 lres. unfold app_Start. unfold bind at 1.
  destruct (enter_extends "app_Start" w) as (w0 & -> & Hext0 & He0).
  rewrite Hs. unfold bind at 1.
  assert (Hsand : exists wa evsa,
            (if sandboxed a then do_call (SandboxSetup (name a)) else ret LE_OK) w0
            = Ret (sres, wa)
            /\ extends w0 wa evsa [] /\ smack_rules_set evsa = [] /\ ext wa = e1).
  { unfold sres, e1, sandbox_step. rewrite <- He0. destruct (sandboxed a).
    - destruct (do_call_extends (SandboxSetup (name a)) w0) as (r & wa & -> & Hext & Hp).
      rewrite Hp. exists wa, [Ev (SandboxSetup (name a))]. repeat split; apply Hext.
    - exists w0, []. split; [reflexivity|]. split; [apply extends_refl|]. split; reflexivity. }
  destruct Hsand as (wa & evsa & -> & Hexta & Hsma & Hea).
  destruct (le_result_eqb sres LE_OK) eqn:Hsres; cbn [negb].
  2:{ exists LE_FAULT, a, wa, evsa, ["app_Start"]. split; [reflexivity|].
      split; [exact (extends_trans _ _ _ _ _ _ _ Hext0 Hexta)|].
      left. split; [|repeat split].
      intros H. apply le_result_eqb_eq in H. congruence. }
  apply le_result_eqb_eq in Hsres. unfold bind at 1.
  destruct (do_call_extends (ResLimSetAppLimits (name a)) wa) as (r2 & wb & -> & Hextb & Hpb).
  assert (Hlres : r2 = lres). { unfold lres. rewrite <- Hea, Hpb. reflexivity. }
  subst r2.
  pose proof (extends_trans _ _ _ _ _ _ _
                (extends_trans _ _ _ _ _ _ _ Hext0 Hexta) Hextb) as Hext_b.
  destruct (le_result_eqb lres LE_OK) eqn:Hlr; cbn [negb].
  2:{ exists LE_FAULT, a, wb, (([] ++ evsa) ++ [Ev (ResLimSetAppLimits (name a))]),
             ["app_Start"].
      split; [reflexivity|]. split; [exact Hext_b|].
      right; left. split; [exact Hsres|]. split; [|repeat split].
      intros H. apply le_result_eqb_eq in H. congruence. }
  apply le_result_eqb_eq in Hlr. unfold bind at 1.
  destruct (SetSmackRules_returns a wb) as (wc & rules & Hsmack & Hextc).
  rewrite Hsmack. cbn [le_result_eqb negb]. unfold bind at 1.
  destruct (start_procs_spec fuel a (procs a) Hs wc)
    as (res & wd & evsd & fnsd & -> & Hextd & Hsmd & Hres).
  pose proof (extends_trans _ _ _ _ _ _ _
                (extends_trans _ _ _ _ _ _ _ Hext_b Hextc) Hextd) as Hext_d.
  cbn [app] in Hext_d.
  destruct Hres as [[-> Hno] | (-> & Hstop & Hstart)].
  - eexists LE_OK, (set_state APP_STATE_RUNNING a), wd, _, _.
    split; [reflexivity|]. split; [exact Hext_d|].
    right; right; right. split; [exact Hsres|]. split; [exact Hlr|].
    split; [reflexivity|]. split; [reflexivity|]. split.
    + cbn. intros [H | H]; [discriminate H|exact (Hno H)].
    + intros Hfit.
      assert (Hcfg : cfgTree wb = cfgTree w) by apply Hext_b.
      assert (Hfitb : servers_are_app_names (bindings_children a wb)).
      { unfold bindings_children. rewrite Hcfg. exact Hfit. }
      destruct (SetSmackRules_spec a wb Hfitb) as (wc' & Hsmack' & Hextc').
      rewrite Hsmack in Hsmack'. injection Hsmack' as <-.
      assert (Hrules : rule_events rules
                       = rule_events (self_permission_rules (name a) ++ framework_rules (name a)
                           ++ binding_rules (name a) (bindings_children a wb))).
      { destruct Hextc as (Ht1 & _). destruct Hextc' as (Ht2 & _).
        rewrite Ht1 in Ht2. apply app_inv_head in Ht2. exact Ht2. }
      rewrite !smack_rules_set_app, Hsma, Hsmd, Hrules, smack_rules_set_rule_events.
      cbn. rewrite app_nil_r. unfold spec_smack_rules, bindings_children.
      rewrite Hcfg. reflexivity.
  - eexists LE_FAULT, a, wd, _, _.
    split; [reflexivity|]. split; [exact Hext_d|].
    right; right; left. split; [exact Hsres|]. split; [exact Hlr|].
    split; [reflexivity|]. split; [reflexivity|]. split.
    + cbn. right. exact Hstop.
    + cbn. right. exact Hstart.
Qed.

(** C3 (amended).  [app_Start] on an application that is not running
    always returns.  When it fails at a process launch it calls [app_Stop]
    before it returns; when it fails at the sandbox setup or at the resource
    limits it returns at once, without calling [app_Stop] (and installing
    the SMACK rules never fails).  In every failure the application object
    is left as it was, in state Stopped; on success the state is set to
    Running. *)
Theorem C3_start_failure (fuel : nat) (a : App_t) (w : World Ext) :
  state a = APP_STATE_STOPPED ->
  let sres := fst (sandbox_step a (ext w)) in
  let lres := fst (perform (ResLimSetAppLimits (name a)) (snd (sandbox_step a (ext w)))) in
  exists r a' w' fns,
    app_Start fuel a w = Ret (r, a', w')
    /\ entered w' = entered w ++ fns
    /\ (r = LE_OK \/ r = LE_FAULT)
    /\ (r = LE_OK -> a' = set_state APP_STATE_RUNNING a /\ state a' = APP_STATE_RUNNING)
    /\ (r = LE_FAULT ->
        a' = a /\ state a' = APP_STATE_STOPPED
        /\ (In "app_Stop" fns <-> In "StartProc" fns))
    /\ (sres <> LE_OK -> r = LE_FAULT /\ fns = ["app_Start"])
    /\ (sres = LE_OK -> lres <> LE_OK -> r = LE_FAULT /\ fns = ["app_Start"])
    /\ (sres = LE_OK -> lres = LE_OK -> r = LE_FAULT ->
        In "StartProc" fns /\ In "app_Stop" fns).
Proof.
  intros Hs sres lres.
  destruct (app_Start_spec fuel a w Hs) as (r & a' & w' & evs & fns & Hrun & Hext & Hcases).
  fold sres lres in Hcases.
  exists r, a', w', fns. split; [exact Hrun|]. split; [apply Hext|].
  assert (Hnone : ~ In "app_Stop" ["app_Start"] /\ ~ In "StartProc" ["app_Start"]).
  { split; intros [H | []]; discriminate H. }
  destruct Hcases as [(H1 & -> & -> & ->) | [(H1 & H2 & -> & -> & ->)
                     | [(H1 & H2 & -> & -> & Hstop & Hstart)
                     | (H1 & H2 & -> & -> & Hno & _)]]].
  - split; [right; reflexivity|]. split; [discriminate|].
    split; [intros _; split; [reflexivity|]; split; [exact Hs|]; tauto|].
    split; [intros _; split; reflexivity|].
    split; [intros H; contradiction|]. intros H; contradiction.
  - split; [right; reflexivity|]. split; [discriminate|].
    split; [intros _; split; [reflexivity|]; split; [exact Hs|]; tauto|].
    split; [intros H; contradiction|].
    split; [intros _ _; split; reflexivity|]. intros _ H; contradiction.
  - split; [right; reflexivity|]. split; [discriminate|].
    split; [intros _; split; [reflexivity|]; split; [exact Hs|]; tauto|].
    split; [intros H; contradiction|].
    split; [intros _ H; contradiction|]. intros _ _ _. split; assumption.
  - split; [left; reflexivity|].
    split; [intros _; split; reflexivity|].
    split; [discriminate|].
    split; [intros H; contradiction|].
    split; [intros _ H; contradiction|]. discriminate.
Qed.

(** C8.  When [app_Start] succeeds, the SMACK rules it has set are exactly,
    for the label [L] of the application: the rule from [L] to the access
    label of each of the seven non-empty subsets of [{r, w, x}], with that
    subset as permission; the rule "framework w L" and the rule
    "L rw framework"; and for each child of [bindings] whose [app] field
    names a server [B], the rules "L rw label(B)" and "label(B) rw L".  (A
    server's name fits an application name buffer.) *)
Theorem C8_smack_rules (fuel : nat) (a a' : App_t) (w w' : World Ext) :
  app_Start fuel a w = Ret (LE_OK, a', w') ->
  servers_are_app_names (bindings_children a w) ->
  smack_rules_set (trace w')
  = smack_rules_set (trace w)
    ++ self_permission_rules (name a) ++ framework_rules (name a)
    ++ binding_rules (name a) (bindings_children a w)
  /\ (forall s, In s nonempty_subsets <-> perm_r s || perm_w s || perm_x s = true)
  /\ List.NoDup nonempty_subsets.
Proof.
  intros Hrun Hfit.
  split; [|split; [exact nonempty_subsets_complete|exact nonempty_subsets_NoDup]].
  destruct (state a) eqn:Hs.
  - destruct (app_Start_spec fuel a w Hs) as (r & a1 & w1 & evs & fns & Hrun1 & Hext & Hcases).
    rewrite Hrun in Hrun1. injection Hrun1 as <- <- <-.
    destruct Hcases as [(_ & H & _) | [(_ & _ & H & _) | [(_ & _ & H & _)
                       | (_ & _ & _ & _ & _ & Hrules)]]]; try discriminate H.
    destruct Hext as (Ht & _). rewrite Ht, smack_rules_set_app, (Hrules Hfit).
    reflexivity.
  - unfold app_Start, bind, enter in Hrun. rewrite Hs in Hrun. discriminate Hrun.
Qed.

(** *** Construction: user and groups *)

Lemma same_but_gids_refl (a : App_t) : same_but_gids a a.
Proof. destruct a; reflexivity. Qed.

Lemma same_but_gids_set (a a' : App_t) (gids : list Z) :
  same_but_gids a a' -> same_but_gids a (set_supplementGids gids a').
Proof. unfold same_but_gids. intros ->. reflexivity. Qed.

(** With no more groups than the array has entries, the loop stores a gid
    for each and leaves with the index of the last one. *)
Lemma groups_loop_fits (rest : list (string * cfg_node)) :
  forall (n i : nat) (parent : string) (g : string * cfg_node) (a : App_t) (w : World Ext),
    group_creation_succeeds ->
    group_names_fit (g :: rest) ->
    (n + i = LIMIT_MAX_NUM_SUPPLEMENTARY_GROUPS)%nat ->
    (length rest < n)%nat ->
    exists a' w' evs,
      groups_loop n i (mkIter parent (fst g) (snd g) rest) a w
      = Ret (inr (i + length rest)%nat, a', w')
      /\ same_but_gids a a' /\ extends w w' evs [].
Proof.
  induction rest as [|next rest IH]; intros n i parent g a w Hcreate Hfit Hn Hlen;
    (destruct n as [|n]; [cbn in Hlen; lia|]);
    apply Forall_cons in Hfit as [Hfit1 Hfit2];
    cbn [groups_loop]; unfold le_cfg_GetNodeName, copy_to_buf; cbn [it_name];
    apply Nat.ltb_lt in Hfit1; rewrite Hfit1; cbn [le_result_eqb negb];
    unfold bind;
    destruct (do_call_extends (UserCreateGroup (fst g)) w)
      as ([cres newGid] & w1 & -> & Hext1 & Hp);
    pose proof (Hcreate (ext w) (fst g)) as Hok; rewrite Hp in Hok; cbn in Hok;
    (destruct (le_result_eqb cres LE_FAULT) eqn:Hc;
       [apply le_result_eqb_eq in Hc; contradiction|]).
  - cbn. eexists (set_supplementGids (<[i:=newGid]> (supplementGids a)) a), w1, _.
    rewrite Nat.add_0_r. split; [reflexivity|].
    split; [apply same_but_gids_set, same_but_gids_refl|exact Hext1].
  - destruct next as [nn nc].
    cbn [le_cfg_GoToNextSibling it_siblings le_result_eqb negb it_parent].
    cbn [length] in Hlen.
    replace (LIMIT_MAX_NUM_SUPPLEMENTARY_GROUPS - 1 <=? i)%nat with false
      by (symmetry; apply Nat.leb_gt; lia).
    destruct (IH n (S i) parent (nn, nc)
                (set_supplementGids (<[i:=newGid]> (supplementGids a)) a) w1)
      as (a' & w' & evs & Hloop & Hsame & Hext2); try assumption; try lia.
    cbn [fst snd] in Hloop. rewrite Hloop.
    eexists a', w', _. cbn [length].
    replace (i + S (length rest))%nat with (S i + length rest)%nat by lia.
    split; [reflexivity|]. split.
    + unfold same_but_gids in *. rewrite Hsame at 1. reflexivity.
    + change (@nil string) with (@nil string ++ @nil string).
      eapply extends_trans; eassumption.
Qed.

(** With more groups than the array has entries, the loop returns
    [LE_FAULT], whatever the collaborators answer. *)
Lemma groups_loop_too_many (n : nat) :
  forall (i : nat) (parent gn : string) (gc : cfg_node) (rest : list (string * cfg_node))
         (a : App_t) (w : World Ext),
    (n + i = LIMIT_MAX_NUM_SUPPLEMENTARY_GROUPS)%nat ->
    (1 <= n <= length rest)%nat ->
    exists a' w', groups_loop n i (mkIter parent gn gc rest) a w = Ret (inl LE_FAULT, a', w').
Proof.
  induction n as [|n IH]; intros i parent gn gc rest a w Hn Hlen; [lia|].
  cbn [groups_loop].
  destruct (le_cfg_GetNodeName _ _) as [res groupName].
  destruct (negb (le_result_eqb res LE_OK)); [eexists _, _; reflexivity|].
  unfold bind.
  destruct (do_call_extends (UserCreateGroup groupName) w)
    as ([cres newGid] & w1 & -> & _ & _).
  destruct (le_result_eqb cres LE_FAULT); [eexists _, _; reflexivity|].
  destruct rest as [|[nn nc] rest]; [cbn in Hlen; lia|].
  cbn [le_cfg_GoToNextSibling it_siblings le_result_eqb negb it_parent].
  destruct (LIMIT_MAX_NUM_SUPPLEMENTARY_GROUPS - 1 <=? i)%nat eqn:Hlast;
    [eexists _, _; reflexivity|].
  apply Nat.leb_gt in Hlast. cbn [length] in Hlen.
  apply IH; lia.
Qed.

Lemma CreateSupplementaryGroups_none (a : App_t) (w : World Ext) :
  config_groups (cfgPathRoot a) w = [] ->
  CreateSupplementaryGroups a w = Ret (LE_OK, a, w).
Proof.
  unfold config_groups, CreateSupplementaryGroups, bind, le_cfg_CreateReadTxn.
  unfold le_cfg_GoToFirstChild. rewrite le_cfg_GoToNode_node. cbn [it_node].
  destruct (child_node CFG_NODE_GROUPS (cfgTree w (cfgPathRoot a)))
    as [| b | s | [|g rest]]; try reflexivity.
  intros H. discriminate H.
Qed.

Lemma CreateSupplementaryGroups_fits (a : App_t) (w : World Ext) :
  group_creation_succeeds ->
  group_names_fit (config_groups (cfgPathRoot a) w) ->
  (1 <= length (config_groups (cfgPathRoot a) w) <= LIMIT_MAX_NUM_SUPPLEMENTARY_GROUPS)%nat ->
  exists gids w' evs,
    CreateSupplementaryGroups a w
    = Ret (LE_OK,
           set_numSupplementGids (length (config_groups (cfgPathRoot a) w))
             (set_supplementGids gids a), w')
    /\ extends w w' evs [].
Proof.
  intros Hcreate Hfit Hlen.
  unfold config_groups in *. unfold CreateSupplementaryGroups, le_cfg_CreateReadTxn.
  unfold bind at 1. unfold le_cfg_GoToFirstChild. rewrite le_cfg_GoToNode_node. cbn [it_node].
  destruct (child_node CFG_NODE_GROUPS (cfgTree w (cfgPathRoot a)))
    as [| b | s | [|[gn gc] rest]]; try (cbn in Hlen; lia).
  cbn [le_result_eqb negb]. unfold bind.
  match goal with |- context [groups_loop _ _ (mkIter ?parent _ _ _)] =>
    destruct (groups_loop_fits rest LIMIT_MAX_NUM_SUPPLEMENTARY_GROUPS 0 parent (gn, gc) a w)
      as (a' & w' & evs & Hloop & Hsame & Hext); try assumption;
      [lia|cbn in Hlen; lia|] end.
  cbn [fst snd] in Hloop. rewrite Hloop.
  exists (supplementGids a'), w', evs. split; [|exact Hext].
  unfold same_but_gids in Hsame. rewrite Hsame at 1. cbn [length].
  replace (0 + length rest + 1)%nat with (S (length rest)) by lia. reflexivity.
Qed.

Lemma CreateSupplementaryGroups_too_many (a : App_t) (w : World Ext) :
  (1 <= LIMIT_MAX_NUM_SUPPLEMENTARY_GROUPS)%nat ->
  (LIMIT_MAX_NUM_SUPPLEMENTARY_GROUPS < length (config_groups (cfgPathRoot a) w))%nat ->
  exists a' w', CreateSupplementaryGroups a w = Ret (LE_FAULT, a', w').
Proof.
  intros Hcap Hlen.
  unfold config_groups in *. unfold CreateSupplementaryGroups, le_cfg_CreateReadTxn.
  unfold bind at 1. unfold le_cfg_GoToFirstChild. rewrite le_cfg_GoToNode_node. cbn [it_node].
  destruct (child_node CFG_NODE_GROUPS (cfgTree w (cfgPathRoot a)))
    as [| b | s | [|[gn gc] rest]]; try (cbn in Hlen; lia).
  cbn [le_result_eqb negb]. unfold bind.
  match goal with |- context [groups_loop _ _ (mkIter ?parent _ _ _)] =>
    destruct (groups_loop_too_many LIMIT_MAX_NUM_SUPPLEMENTARY_GROUPS 0 parent gn gc rest a w)
      as (a' & w' & Hloop); [lia|cbn in Hlen; lia|] end.
  rewrite Hloop. eexists _, _. reflexivity.
Qed.

(** *** Construction: paths and processes *)

Lemma release_then_none {A} (m : M unit) (w w' : World Ext) (a : A) :
  (_ <- m ;; ret None) w = Ret (Some a, w') -> False.
Proof.
  unfold bind, ret. destruct (m w) as [[[] w1]| |]; intros H; discriminate H.
Qed.

Lemma create_procs_fields (n : nat) :
  forall (it : le_cfg_Iterator) (a a' : App_t) (w w' : World Ext),
    create_procs n it a w = Ret (Some a', w') -> a' = set_procs (procs a') a.
Proof.
  induction n as [|n IH]; intros it a a' w w' H; [discriminate H|].
  cbn [create_procs] in H.
  destruct (le_cfg_GetPath it LIMIT_MAX_PATH_BYTES) as [pres procCfgPath].
  destruct (le_result_eqb pres LE_OVERFLOW); [exfalso; exact (release_then_none _ _ _ _ H)|].
  unfold bind at 1 in H.
  destruct (do_call_extends (ProcCreate (strip_trailing_slash procCfgPath) (name a)) w)
    as (created & w1 & Hc & _). rewrite Hc in H.
  destruct created as [procPtr|]; [|exfalso; exact (release_then_none _ _ _ _ H)].
  destruct (le_cfg_GoToNextSibling it) as [nres it'].
  destruct (le_result_eqb nres LE_OK).
  - apply IH in H. rewrite H. reflexivity.
  - injection H as <- <-. reflexivity.
Qed.

Lemma create_paths_and_procs_fields (it : le_cfg_Iterator) (a a' : App_t) (w w' : World Ext) :
  create_paths_and_procs it a w = Ret (Some a', w') ->
  uid a' = uid a /\ gid a' = gid a /\ sandboxed a' = sandboxed a
  /\ numSupplementGids a' = numSupplementGids a /\ supplementGids a' = supplementGids a.
Proof.
  unfold create_paths_and_procs.
  destruct (le_path_Concat _ _ _) as [ires ipath].
  destruct (negb (le_result_eqb ires LE_OK)); [intros H; exfalso; exact (release_then_none _ _ _ _ H)|].
  cbn [sandboxed set_installPath name].
  set (staged := if sandboxed a then _ else _).
  assert (Hst : uid (snd staged) = uid a /\ gid (snd staged) = gid a
                /\ sandboxed (snd staged) = sandboxed a
                /\ numSupplementGids (snd staged) = numSupplementGids a
                /\ supplementGids (snd staged) = supplementGids a).
  { subst staged. destruct (sandboxed a) eqn:Hsb.
    - destruct (sandbox_GetPath _ _) as [r spath]. cbn. rewrite Hsb. repeat split.
    - cbn. rewrite Hsb. repeat split. }
  destruct staged as [sres a1]. cbn [snd] in Hst.
  destruct (negb (le_result_eqb sres LE_OK)); [intros H; exfalso; exact (release_then_none _ _ _ _ H)|].
  destruct (le_cfg_GoToFirstChild _) as [fres it1].
  destruct (le_result_eqb fres LE_OK).
  - intros H. apply create_procs_fields in H. rewrite H. cbn. exact Hst.
  - intros [= <- <-]. exact Hst.
Qed.

Lemma it_path_GoToNode (it : le_cfg_Iterator) (sub : string) :
  it_path (le_cfg_GoToNode it sub) = cfg_child_path (it_path it) sub.
Proof.
  unfold le_cfg_GoToNode.
  destruct (it_node it) as [| | |children]; try reflexivity.
  destruct (find_child sub children) as [[c rest]|]; reflexivity.
Qed.

Lemma create_procs_succeeds (rest : list (string * cfg_node)) :
  forall (n : nat) (parent : string) (p : string * cfg_node) (a : App_t) (w : World Ext),
    (forall (e : Ext) (cfgPath app : string), fst (perform (ProcCreate cfgPath app) e) <> None) ->
    Forall (fun p => (String.length (cfg_child_path parent (fst p)) < LIMIT_MAX_PATH_BYTES)%nat)
           (p :: rest) ->
    (length rest < n)%nat ->
    exists a' w', create_procs n (mkIter parent (fst p) (snd p) rest) a w = Ret (Some a', w').
Proof.
  induction rest as [|next rest IH]; intros n parent p a w Hproc Hfit Hn;
    (destruct n as [|n]; [cbn in Hn; lia|]);
    apply Forall_cons in Hfit as [Hfit1 Hfit2];
    cbn [create_procs]; unfold le_cfg_GetPath, it_path, copy_to_buf; cbn [it_parent it_name];
    apply Nat.ltb_lt in Hfit1; rewrite Hfit1; cbn [le_result_eqb]; unfold bind at 1;
    match goal with |- context [do_call (ProcCreate ?cp ?an) w] =>
      destruct (do_call_extends (ProcCreate cp an) w) as (created & w1 & -> & _ & Hp);
      pose proof (Hproc (ext w) cp an) as Hsome; rewrite Hp in Hsome; cbn in Hsome end;
    (destruct created as [procPtr|]; [|contradiction]).
  - cbn. eexists _, _. reflexivity.
  - destruct next as [nn nc].
    cbn [le_cfg_GoToNextSibling it_siblings it_parent le_result_eqb].
    destruct (IH n parent (nn, nc)
                (set_procs (procs a ++ [mkProcObj procPtr None]) a) w1 Hproc Hfit2)
      as (a' & w' & Hloop); [cbn in Hn; lia|].
    cbn [fst snd] in Hloop. rewrite Hloop. eexists _, _. reflexivity.
Qed.

Lemma create_paths_and_procs_succeeds (path : string) (a : App_t) (w w0 : World Ext) :
  other_steps_succeed path w ->
  cfgTree w0 = cfgTree w ->
  name a = le_path_GetBasenamePtr path "/" ->
  exists a' w',
    create_paths_and_procs (mkIter path "" (cfgTree w path) []) a w0 = Ret (Some a', w').
Proof.
  intros (_ & Hprocs & _ & _ & Hinst & Hsand & Hproc) Hcfg Hname.
  unfold create_paths_and_procs. rewrite Hname.
  destruct (le_path_Concat _ _ _) as [ires ipath]. cbn [fst] in Hinst. subst ires.
  cbn [le_result_eqb negb sandboxed set_installPath name]. rewrite Hname.
  assert (Hstaged : exists a1,
            (if sandboxed a
             then let '(r, spath) :=
                    sandbox_GetPath (le_path_GetBasenamePtr path "/") LIMIT_MAX_PATH_BYTES in
                  (r, set_sandboxPath spath (set_installPath ipath a))
             else (LE_OK, set_sandboxPath "" (set_installPath ipath a))) = (LE_OK, a1)).
  { destruct (sandboxed a).
    - destruct (sandbox_GetPath _ _) as [r spath]. cbn [fst] in Hsand. subst r.
      eexists. reflexivity.
    - eexists. reflexivity. }
  destruct Hstaged as (a1 & ->). cbn [le_result_eqb negb].
  unfold le_cfg_GoToFirstChild. rewrite le_cfg_GoToNode_node, it_path_GoToNode.
  cbn [it_node]. unfold config_procs in Hprocs.
  destruct (child_node CFG_NODE_PROC_LIST (cfgTree w path))
    as [| b | s | [|[pn pc] rest]]; try (eexists _, _; reflexivity).
  cbn [le_result_eqb it_siblings].
  destruct (create_procs_succeeds rest (S (length rest))
              (cfg_child_path (it_path (mkIter path "" (cfgTree w path) []))
                              CFG_NODE_PROC_LIST)
              (pn, pc) a1 w0 Hproc Hprocs) as (a' & w' & Hloop); [lia|].
  cbn [fst snd] in Hloop. rewrite Hloop. eexists _, _. reflexivity.
Qed.

(** [app_Create] once the block is allocated and the path copied. *)
Lemma app_Create_eq (path : string) (w : World Ext) (block : App_t) (e0 : Ext) :
  perform LeMemForceAlloc_App (ext w) = (block, e0) ->
  (String.length path < LIMIT_MAX_PATH_BYTES)%nat ->
  app_Create path w
  = (created <- CreateUserAndGroups
                  (set_sandboxed (config_sandboxed path w) (create_init block path)) ;;
     if negb (le_result_eqb (fst created) LE_OK)
     then (_ <- do_call (LeMemRelease_App (snd created)) ;; ret None)
     else create_paths_and_procs (mkIter path "" (cfgTree w path) []) (snd created))
      (after_call LeMemForceAlloc_App e0 w).
Proof.
  intros Halloc Hlen. unfold app_Create. unfold bind at 1.
  rewrite (do_call_eq _ _ _ _ Halloc).
  unfold copy_to_buf. apply Nat.ltb_lt in Hlen. rewrite Hlen. cbn [le_result_eqb negb].
  unfold bind at 1, le_cfg_CreateReadTxn. unfold bind.
  cbn [cfgPathRoot create_init set_cfgPathRoot set_name set_procs set_state set_killTimer
       cfgTree after_call set_trace set_ext].
  unfold le_cfg_GetBool, config_sandboxed. cbn [it_node].
  destruct (CreateUserAndGroups _ _) as [[[ures a1] w1]| |]; reflexivity.
Qed.

Lemma config_groups_same (path : string) (w w' : World Ext) :
  cfgTree w' = cfgTree w -> config_groups path w' = config_groups path w.
Proof. intros H. unfold config_groups. rewrite H. reflexivity. Qed.

Lemma release_returns (block : App_t) (w : World Ext) :
  exists w', (_ <- do_call (LeMemRelease_App block) ;; ret (@None App_t)) w = Ret (None, w').
Proof.
  unfold bind. destruct (do_call_extends (LeMemRelease_App block) w) as ([] & w' & -> & _).
  exists w'. reflexivity.
Qed.

Lemma CreateUserAndGroups_too_many (a : App_t) (w : World Ext) :
  sandboxed a = true ->
  (1 <= LIMIT_MAX_NUM_SUPPLEMENTARY_GROUPS)%nat ->
  (LIMIT_MAX_NUM_SUPPLEMENTARY_GROUPS < length (config_groups (cfgPathRoot a) w))%nat ->
  exists a' w', CreateUserAndGroups a w = Ret (LE_FAULT, a', w').
Proof.
  intros Hsb Hcap Hlen. unfold CreateUserAndGroups. rewrite Hsb.
  destruct (user_AppNameToUserName _ _) as [ures username].
  destruct (negb (le_result_eqb ures LE_OK)); [eexists _, _; reflexivity|].
  unfold bind.
  destruct (do_call_extends (UserGetIDs username) w) as ([[ires u] g] & w1 & -> & Hext & _).
  destruct (negb (le_result_eqb ires LE_OK)); [eexists _, _; reflexivity|].
  apply CreateSupplementaryGroups_too_many; [exact Hcap|].
  cbn [cfgPathRoot set_gid set_uid]. rewrite (config_groups_same _ w w1); [exact Hlen|apply Hext].
Qed.

Lemma CreateUserAndGroups_fits (a : App_t) (w : World Ext) :
  sandboxed a = true ->
  fst (user_AppNameToUserName (name a) LIMIT_MAX_USER_NAME_BYTES) = LE_OK ->
  (forall (e : Ext) (username : string),
     fst (fst (fst (perform (UserGetIDs username) e))) = LE_OK) ->
  group_creation_succeeds ->
  group_names_fit (config_groups (cfgPathRoot a) w) ->
  (1 <= length (config_groups (cfgPathRoot a) w) <= LIMIT_MAX_NUM_SUPPLEMENTARY_GROUPS)%nat ->
  exists a' w',
    CreateUserAndGroups a w = Ret (LE_OK, a', w')
    /\ numSupplementGids a' = length (config_groups (cfgPathRoot a) w)
    /\ name a' = name a /\ cfgTree w' = cfgTree w.
Proof.
  intros Hsb Huser Hids Hcreate Hfit Hlen. unfold CreateUserAndGroups. rewrite Hsb.
  destruct (user_AppNameToUserName _ _) as [ures username]. cbn [fst] in Huser. subst ures.
  cbn [le_result_eqb negb]. unfold bind.
  destruct (do_call_extends (UserGetIDs username) w) as ([[ires u] g] & w1 & -> & Hext & Hp).
  pose proof (Hids (ext w) username) as Hok. rewrite Hp in Hok. cbn in Hok. subst ires.
  cbn [le_result_eqb negb].
  assert (Hcfg : cfgTree w1 = cfgTree w) by apply Hext.
  destruct (CreateSupplementaryGroups_fits (set_gid g (set_uid u a)) w1 Hcreate)
    as (gids & w' & evs & -> & Hext2).
  { cbn [cfgPathRoot set_gid set_uid]. rewrite (config_groups_same _ w w1 Hcfg). exact Hfit. }
  { cbn [cfgPathRoot set_gid set_uid]. rewrite (config_groups_same _ w w1 Hcfg). exact Hlen. }
  eexists _, w'. split; [reflexivity|].
  cbn. rewrite (config_groups_same _ w w1 Hcfg).
  repeat split. destruct Hext2 as (_ & _ & -> & _). exact Hcfg.
Qed.


(** When the application is not sandboxed, or is sandboxed and has no
    group, [app_Create] never writes [numSupplementGids]: the application it
    returns has the count, and the array, that the block it was given
    held.  (An application that is not sandboxed gets uid 0 and gid 0.) *)
Lemma app_Create_count_not_written (path : string) (w w' : World Ext) (a' : App_t) :
  app_Create path w = Ret (Some a', w') ->
  config_sandboxed path w = false \/ config_groups path w = [] ->
  let block := fst (perform LeMemForceAlloc_App (ext w)) in
  numSupplementGids a' = numSupplementGids block
  /\ supplementGids a' = supplementGids block
  /\ (config_sandboxed path w = false -> uid a' = 0%Z /\ gid a' = 0%Z).
Proof.
  intros Hrun Hno block.
  destruct (perform LeMemForceAlloc_App (ext w)) as [blk e0] eqn:Halloc.
  cbn [fst] in block. subst block.
  destruct (Nat.ltb (String.length path) LIMIT_MAX_PATH_BYTES) eqn:Hpath.
  2:{ exfalso. unfold app_Create in Hrun. unfold bind at 1 in Hrun.
      rewrite (do_call_eq _ _ _ _ Halloc) in Hrun.
      unfold copy_to_buf in Hrun. rewrite Hpath in Hrun. cbn [le_result_eqb negb] in Hrun.
      exact (release_then_none _ _ _ _ Hrun). }
  apply Nat.ltb_lt in Hpath.
  rewrite (app_Create_eq path w blk e0 Halloc Hpath) in Hrun.
  set (a1 := set_sandboxed (config_sandboxed path w) (create_init blk path)) in *.
  set (w0 := after_call LeMemForceAlloc_App e0 w) in *.
  assert (Hcug : exists a2 w2,
            CreateUserAndGroups a1 w0 = Ret (LE_OK, a2, w2)
            /\ create_paths_and_procs (mkIter path "" (cfgTree w path) []) a2 w2
               = Ret (Some a', w')).
  { unfold bind at 1 in Hrun.
    destruct (CreateUserAndGroups a1 w0) as [[[ures a2] w2]| |]; try discriminate Hrun.
    cbn [fst snd] in Hrun. destruct ures; cbn [le_result_eqb negb] in Hrun;
      try (exfalso; exact (release_then_none _ _ _ _ Hrun)).
    exists a2, w2. split; [reflexivity|exact Hrun]. }
  destruct Hcug as (a2 & w2 & Hcug & Hfin).
  apply create_paths_and_procs_fields in Hfin as (Hu & Hg & _ & Hn & Hgids).
  rewrite Hu, Hg, Hn, Hgids. clear Hu Hg Hn Hgids Hrun.
  unfold CreateUserAndGroups in Hcug.
  destruct (sandboxed a1) eqn:Hsb.
  - assert (Hgroups : config_groups path w = []).
    { destruct Hno as [Hns | Hg]; [|exact Hg]. unfold a1 in Hsb. cbn in Hsb. congruence. }
    destruct (user_AppNameToUserName _ _) as [ures username].
    destruct (negb (le_result_eqb ures LE_OK)); [discriminate Hcug|].
    unfold bind in Hcug.
    destruct (do_call_extends (UserGetIDs username) w0)
      as ([[ires u] g] & w1 & Hids & Hext & _).
    rewrite Hids in Hcug.
    destruct (negb (le_result_eqb ires LE_OK)); [discriminate Hcug|].
    rewrite CreateSupplementaryGroups_none in Hcug.
    + injection Hcug as <- _. cbn. split; [reflexivity|]. split; [reflexivity|].
      intros Hns. unfold a1 in Hsb. cbn in Hsb. congruence.
    + cbn [cfgPathRoot set_gid set_uid]. change (cfgPathRoot a1) with path.
      rewrite (config_groups_same path w w1); [exact Hgroups|].
      destruct Hext as (_ & _ & -> & _). reflexivity.
  - injection Hcug as <- _. cbn. repeat split.
Qed.

(** *** Killing the processes of an application *)

Lemma bind_Ret {A B} (m : M A) (k : A -> M B) (w w' : World Ext) (b : B) :
  bind m k w = Ret (b, w') ->
  exists a w1, m w = Ret (a, w1) /\ k a w1 = Ret (b, w').
Proof.
  unfold bind. destruct (m w) as [[a w1]| |]; intros H; try discriminate H.
  exists a, w1. split; [reflexivity|exact H].
Qed.

Lemma group_signals_app (t1 t2 : list event) :
  group_signals (t1 ++ t2) = group_signals t1 ++ group_signals t2.
Proof. apply omap_app. Qed.

Lemma wait_frozen_returns (fuel : nat) (appName : string) :
  forall w : World Ext,
    frozen_within fuel appName (ext w) ->
    exists w' evs, wait_frozen fuel appName w = Ret (tt, w')
                   /\ extends w w' evs [] /\ group_signals evs = [].
Proof.
  induction fuel as [|fuel IH]; intros w Hf; [destruct Hf|].
  cbn [wait_frozen frozen_within] in *. unfold bind.
  destruct (do_call_extends (CgrpFrzGetState appName) w) as (st & w1 & -> & Hext & Hp).
  rewrite Hp in Hf. cbn [fst snd] in Hf.
  destruct st; try (eexists w1, _; split; [reflexivity|]; split; [exact Hext|reflexivity]).
  destruct (IH w1 Hf) as (w' & evs & -> & Hext2 & Hsig).
  eexists w', _. split; [reflexivity|]. split.
  - change (@nil string) with (@nil string ++ @nil string).
    eapply extends_trans; eassumption.
  - rewrite group_signals_app, Hsig. reflexivity.
Qed.

Lemma wait_frozen_extends (fuel : nat) (appName : string) :
  forall w w' : World Ext,
    wait_frozen fuel appName w = Ret (tt, w') ->
    exists evs, extends w w' evs [] /\ group_signals evs = [].
Proof.
  induction fuel as [|fuel IH]; intros w w' H; [discriminate H|].
  cbn [wait_frozen] in H. apply bind_Ret in H as (st & w1 & Hc & H).
  destruct (do_call_extends (CgrpFrzGetState appName) w) as (st' & w1' & Hc' & Hext & _).
  rewrite Hc in Hc'. injection Hc' as <- <-.
  destruct st.
  - injection H as <-. eexists. split; [exact Hext|reflexivity].
  - apply IH in H as (evs & Hext2 & Hsig). eexists. split.
    + change (@nil string) with (@nil string ++ @nil string).
      eapply extends_trans; eassumption.
    + rewrite group_signals_app, Hsig. reflexivity.
  - injection H as <-. eexists. split; [exact Hext|reflexivity].
Qed.

(** The loop over the process objects: it always returns; it clears the
    slot of each process the launcher reports not stopped, and leaves the
    other process objects as they are. *)
Lemma notify_procs_spec (l : list ProcObj_t) :
  forall w : World Ext,
    exists l' w' evs,
      notify_procs l w = Ret (l', w')
      /\ extends w w' evs [] /\ group_signals evs = []
      /\ length l' = length l
      /\ forall i po e,
           l !! i = Some po ->
           states_when_asked (ext w) l !! i = Some e ->
           exists po', l' !! i = Some po' /\ procRef po' = procRef po
                       /\ (proc_GetState e (procRef po) = PROC_STATE_STOPPED -> po' = po)
                       /\ (proc_GetState e (procRef po) <> PROC_STATE_STOPPED ->
                           stopHandler po' = None).
Proof.
  induction l as [|po0 l IH]; intros w.
  - exists [], w, []. split; [reflexivity|]. split; [apply extends_refl|].
    split; [reflexivity|]. split; [reflexivity|]. intros i po e H. discriminate H.
  - cbn [notify_procs]. unfold bind at 1, query. unfold bind at 1.
    assert (Hhead : exists po0' w1 evs1,
              (match proc_GetState (ext w) (procRef po0) with
               | PROC_STATE_STOPPED => ret po0
               | _ => _ <- do_call (ProcStopping (procRef po0)) ;;
                      ret (mkProcObj (procRef po0) None)
               end) w = Ret (po0', w1)
              /\ extends w w1 evs1 [] /\ group_signals evs1 = []
              /\ ext w1 = match proc_GetState (ext w) (procRef po0) with
                          | PROC_STATE_STOPPED => ext w
                          | _ => snd (perform (ProcStopping (procRef po0)) (ext w))
                          end
              /\ procRef po0' = procRef po0
              /\ (proc_GetState (ext w) (procRef po0) = PROC_STATE_STOPPED -> po0' = po0)
              /\ (proc_GetState (ext w) (procRef po0) <> PROC_STATE_STOPPED ->
                  stopHandler po0' = None)).
    { destruct (proc_GetState (ext w) (procRef po0)) eqn:Hst;
        try (unfold bind;
             destruct (do_call_extends (ProcStopping (procRef po0)) w)
               as ([] & w1 & -> & Hext & Hp);
             eexists _, w1, _; split; [reflexivity|]; split; [exact Hext|];
             split; [reflexivity|]; split; [rewrite Hp; reflexivity|];
             split; [reflexivity|]; split; [discriminate|reflexivity]).
      exists po0, w, []. split; [reflexivity|]. split; [apply extends_refl|].
      split; [reflexivity|]. split; [reflexivity|]. split; [reflexivity|].
      split; [reflexivity|]. intros H; contradiction. }
    destruct Hhead as (po0' & w1 & evs1 & -> & Hext1 & Hsig1 & He1 & Href & Hstop & Hlive).
    unfold bind at 1.
    destruct (IH w1) as (l' & w' & evs & -> & Hext2 & Hsig2 & Hlen & Hall).
    exists (po0' :: l'), w', (evs1 ++ evs). split; [reflexivity|]. split.
    { change (@nil string) with (@nil string ++ @nil string).
      eapply extends_trans; eassumption. }
    split; [rewrite group_signals_app, Hsig1, Hsig2; reflexivity|].
    split; [cbn; rewrite Hlen; reflexivity|].
    intros [|i] po e Hpo He; cbn [states_when_asked] in He.
    + injection Hpo as <-. injection He as <-.
      exists po0'. split; [reflexivity|]. split; [exact Href|]. split; assumption.
    + rewrite <- He1 in He. exact (Hall i po e Hpo He).
Qed.

Lemma KillAppProcs_spec (fuel : nat) (a a' : App_t) (killType : KillType_t)
    (w w' : World Ext) (r : le_result_t) :
  KillAppProcs fuel a killType w = Ret (r, a', w') ->
  exists evs e0,
    extends w w' evs ["KillAppProcs"]
    /\ group_signals evs = [kill_signal killType]
    /\ a' = set_procs (procs a') a
    /\ (r = LE_OK \/ r = LE_NOT_FOUND)
    /\ length (procs a') = length (procs a)
    /\ forall i po e,
         procs a !! i = Some po ->
         states_when_asked e0 (procs a) !! i = Some e ->
         exists po', procs a' !! i = Some po' /\ procRef po' = procRef po
                     /\ (proc_GetState e (procRef po) = PROC_STATE_STOPPED -> po' = po)
                     /\ (proc_GetState e (procRef po) <> PROC_STATE_STOPPED ->
                         stopHandler po' = None).
Proof.
  unfold KillAppProcs. intros H.
  apply bind_Ret in H as ([] & w0 & Hen & H).
  destruct (enter_extends "KillAppProcs" w) as (w0' & Hen' & Hext0 & _).
  rewrite Hen in Hen'. injection Hen' as <-.
  apply bind_Ret in H as (fr & w1 & Hfr & H).
  destruct (do_call_extends (CgrpFrzFreeze (name a)) w0) as (fr' & w1' & Hfr' & Hext1 & _).
  rewrite Hfr in Hfr'. injection Hfr' as <- <-.
  apply bind_Ret in H as ([] & w2 & Hwait & H).
  assert (Hext2 : exists evs2, extends w1 w2 evs2 [] /\ group_signals evs2 = []).
  { destruct (le_result_eqb fr LE_OK).
    - exact (wait_frozen_extends _ _ _ _ Hwait).
    - injection Hwait as <-. exists []. split; [apply extends_refl|reflexivity]. }
  destruct Hext2 as (evs2 & Hext2 & Hsig2).
  apply bind_Ret in H as (l' & w3 & Hnot & H).
  destruct (notify_procs_spec (procs a) w2)
    as (l'' & w3' & evs3 & Hnot' & Hext3 & Hsig3 & Hlen & Hall).
  rewrite Hnot in Hnot'. injection Hnot' as <- <-.
  apply bind_Ret in H as (numProcs & w4 & Hsend & H).
  cbn [name set_procs] in Hsend, H.
  destruct (do_call_extends (CgrpSendSig (name a) (kill_signal killType)) w3)
    as (np & w4' & Hsend' & Hext4 & _).
  change (match killType with KILL_SOFT => SIGTERM | KILL_HARD => SIGKILL end)
    with (kill_signal killType) in Hsend.
  rewrite Hsend in Hsend'. injection Hsend' as <- <-.
  pose proof (extends_trans _ _ _ _ _ _ _
               (extends_trans _ _ _ _ _ _ _
                 (extends_trans _ _ _ _ _ _ _
                   (extends_trans _ _ _ _ _ _ _ Hext0 Hext1) Hext2) Hext3) Hext4) as Hext.
  match type of Hext with extends _ _ ?E _ =>
    assert (Hsigs : group_signals E = [kill_signal killType])
      by (rewrite !group_signals_app, Hsig2, Hsig3; reflexivity) end.
  assert (Hdone : forall res wf evs5,
            extends w4 wf evs5 [] -> group_signals evs5 = [] ->
            (res = LE_OK \/ res = LE_NOT_FOUND) ->
            Ret (res, set_procs l' a, wf) = Ret (r, a', w') ->
            exists evs e0,
              extends w w' evs ["KillAppProcs"]
              /\ group_signals evs = [kill_signal killType]
              /\ a' = set_procs (procs a') a
              /\ (r = LE_OK \/ r = LE_NOT_FOUND)
              /\ length (procs a') = length (procs a)
              /\ forall i po e,
                   procs a !! i = Some po ->
                   states_when_asked e0 (procs a) !! i = Some e ->
                   exists po', procs a' !! i = Some po' /\ procRef po' = procRef po
                     /\ (proc_GetState e (procRef po) = PROC_STATE_STOPPED -> po' = po)
                     /\ (proc_GetState e (procRef po) <> PROC_STATE_STOPPED ->
                         stopHandler po' = None)).
  { intros res wf evs5 Hext5 Hsig5 Hres [= <- <- <-].
    eexists _, (ext w2). split.
    - exact (extends_trans _ _ _ _ _ _ _ Hext Hext5).
    - split; [rewrite group_signals_app, Hsigs, Hsig5; reflexivity|].
      split; [reflexivity|]. split; [exact Hres|]. split; [exact Hlen|exact Hall]. }
  destruct numProcs as [|n].
  - apply (Hdone LE_NOT_FOUND w4 []); [apply extends_refl|reflexivity|right; reflexivity|exact H].
  - destruct (n =? 0)%Z.
    + apply (Hdone LE_NOT_FOUND w4 []);
        [apply extends_refl|reflexivity|right; reflexivity|exact H].
    + apply bind_Ret in H as (tr & w5 & Hthaw & H).
      destruct (do_call_extends (CgrpFrzThaw (name a)) w4) as (tr' & w5' & Hthaw' & Hext5 & _).
      cbn [name set_procs] in Hthaw.
      rewrite Hthaw in Hthaw'. injection Hthaw' as <- <-.
      apply (Hdone LE_OK w5 [Ev (CgrpFrzThaw (name a))]);
        [exact Hext5|reflexivity|left; reflexivity|exact H].
Qed.

Lemma KillAppProcs_returns (fuel : nat) (a : App_t) (killType : KillType_t)
    (w : World Ext) :
  freeze_ends fuel a w ->
  exists r a' w', KillAppProcs fuel a killType w = Ret (r, a', w').
Proof.
  intros Hfreeze. unfold KillAppProcs. unfold bind at 1.
  destruct (enter_extends "KillAppProcs" w) as (w0 & -> & _ & He0).
  unfold bind at 1.
  destruct (do_call_extends (CgrpFrzFreeze (name a)) w0) as (fr & w1 & -> & _ & Hp).
  unfold freeze_ends in Hfreeze. rewrite <- He0, Hp in Hfreeze. cbn [fst snd] in Hfreeze.
  unfold bind at 1.
  assert (Hwait : exists w2,
            (if le_result_eqb fr LE_OK then wait_frozen fuel (name a) else ret tt) w1
            = Ret (tt, w2)).
  { destruct (le_result_eqb fr LE_OK) eqn:Hfr.
    - apply le_result_eqb_eq in Hfr.
      destruct (wait_frozen_returns fuel (name a) w1 (Hfreeze Hfr)) as (w2 & _ & -> & _).
      exists w2. reflexivity.
    - exists w1. reflexivity. }
  destruct Hwait as (w2 & ->). unfold bind at 1.
  destruct (notify_procs_spec (procs a) w2) as (l' & w3 & _ & -> & _).
  unfold bind at 1.
  match goal with |- context [do_call ?c w3] =>
    destruct (do_call_extends c w3) as (np & w4 & -> & _) end.
  destruct np as [|n]; [eexists _, _, _; reflexivity|].
  destruct (n =? 0)%Z; [eexists _, _, _; reflexivity|].
  unfold bind.
  match goal with |- context [do_call ?c w4] =>
    destruct (do_call_extends c w4) as (tr & w5 & -> & _) end.
  eexists _, _, _; reflexivity.
Qed.

(** *** The [stopHandler] slots *)

Lemma states_when_asked_length (l : list ProcObj_t) :
  forall e : Ext, length (states_when_asked e l) = length l.
Proof. induction l as [|po l IH]; intros e; [reflexivity|]. cbn. rewrite IH. reflexivity. Qed.

Lemma proc_State_dec (s : proc_State_t) :
  s = PROC_STATE_STOPPED \/ s <> PROC_STATE_STOPPED.
Proof. destruct s; [left; reflexivity|right; discriminate|right; discriminate]. Qed.

(** A kill never fills a slot. *)
Lemma KillAppProcs_slots (fuel : nat) (a a' : App_t) (killType : KillType_t)
    (w w' : World Ext) (r : le_result_t) :
  KillAppProcs fuel a killType w = Ret (r, a', w') ->
  forall i h, stopHandler_at a' i = Some h -> stopHandler_at a i = Some h.
Proof.
  intros H i h Hslot.
  apply KillAppProcs_spec in H as (evs & e0 & _ & _ & _ & _ & Hlen & Hall).
  unfold stopHandler_at in *.
  destruct (procs a' !! i) as [po'|] eqn:Hpo'; [|discriminate Hslot].
  assert (Hi : (i < length (procs a))%nat).
  { rewrite <- Hlen. eapply lookup_lt_Some. exact Hpo'. }
  destruct (lookup_lt_is_Some_2 (procs a) i Hi) as [po Hpo].
  destruct (lookup_lt_is_Some_2 (states_when_asked e0 (procs a)) i) as [e He].
  { rewrite states_when_asked_length. exact Hi. }
  destruct (Hall i po e Hpo He) as (po'' & Hpo'' & _ & Hstopped & Hlive).
  rewrite Hpo' in Hpo''. injection Hpo'' as <-. rewrite Hpo.
  destruct (proc_State_dec (proc_GetState e (procRef po))) as [Hst | Hst].
  - rewrite <- (Hstopped Hst). exact Hslot.
  - rewrite (Hlive Hst) in Hslot. discriminate Hslot.
Qed.

Lemma app_Stop_procs (fuel : nat) (a a' : App_t) (w w' : World Ext) :
  app_Stop fuel a w = Ret (a', w') ->
  state a = APP_STATE_RUNNING ->
  exists r a1 w0 w1,
    KillAppProcs fuel a KILL_SOFT w0 = Ret (r, a1, w1) /\ procs a' = procs a1
    /\ ext w0 = ext w.
Proof.
  intros H Hs. unfold app_Stop in H. rewrite Hs in H.
  apply bind_Ret in H as ([] & w0 & Hen & H).
  injection Hen as <-.
  apply bind_Ret in H as ([r a1] & w1 & Hkill & H).
  eexists r, a1, _, w1. split; [exact Hkill|]. split; [|reflexivity].
  destruct (le_result_eqb r LE_NOT_FOUND).
  - apply bind_Ret in H as ([] & w2 & _ & H). injection H as <- _. reflexivity.
  - apply bind_Ret in H as (a2 & w2 & Htimer & H).
    assert (Hp2 : procs a2 = procs a1).
    { destruct (killTimer a1) as [t|].
      - injection Htimer as <- _. reflexivity.
      - apply bind_Ret in Htimer as (t & ? & _ & Htimer).
        apply bind_Ret in Htimer as (? & ? & _ & Htimer).
        apply bind_Ret in Htimer as (? & ? & _ & Htimer).
        apply bind_Ret in Htimer as (? & ? & _ & Htimer).
        apply bind_Ret in Htimer as (? & ? & _ & Htimer).
        apply bind_Ret in Htimer as (? & ? & _ & Htimer).
        apply bind_Ret in Htimer as (? & ? & _ & Htimer).
        injection Htimer as <- _. reflexivity. }
    destruct (killTimer a2) as [t|].
    + apply bind_Ret in H as (? & ? & _ & H). injection H as <- _. exact Hp2.
    + injection H as <- _. exact Hp2.
Qed.

Lemma check_stopped_procs (a a' : App_t) (w w' : World Ext) :
  check_stopped a w = Ret (a', w') -> procs a' = procs a.
Proof.
  unfold check_stopped. intros H.
  apply bind_Ret in H as (running & w1 & _ & H).
  destruct (negb running).
  - apply bind_Ret in H as (? & ? & _ & H). apply bind_Ret in H as (? & ? & _ & H).
    injection H as <- _. reflexivity.
  - injection H as <- _. reflexivity.
Qed.

Lemma app_SigChildHandler_procs (a a' : App_t) (w w' : World Ext) (procPid st : Z)
    (fa : app_FaultAction_t) :
  app_SigChildHandler a procPid st w = Ret (fa, a', w') -> procs a' = procs a.
Proof.
  unfold app_SigChildHandler. intros H.
  apply bind_Ret in H as (? & ? & _ & H). apply bind_Ret in H as (? & ? & _ & H).
  apply bind_Ret in H as (a1 & ? & Hcs & H). injection H as _ <- _.
  exact (check_stopped_procs _ _ _ _ Hcs).
Qed.

Lemma app_Start_procs (fuel : nat) (a a' : App_t) (w w' : World Ext) (r : le_result_t) :
  app_Start fuel a w = Ret (r, a', w') -> procs a' = procs a.
Proof.
  intros H. destruct (state a) eqn:Hs.
  - destruct (app_Start_spec fuel a w Hs) as (r1 & a1 & w1 & evs & fns & Hrun & _ & Hcases).
    rewrite H in Hrun. injection Hrun as <- <- <-.
    destruct Hcases as [(_ & _ & -> & _) | [(_ & _ & _ & -> & _)
                       | [(_ & _ & _ & -> & _) | (_ & _ & _ & -> & _)]]]; reflexivity.
  - unfold app_Start, bind, enter in H. rewrite Hs in H. injection H as _ <- _. reflexivity.
Qed.

Lemma groups_loop_fields (n : nat) :
  forall (i : nat) (it : le_cfg_Iterator) (a a' : App_t) (w w' : World Ext) res,
    groups_loop n i it a w = Ret (res, a', w') -> same_but_gids a a'.
Proof.
  induction n as [|n IH]; intros i it a a' w w' res H.
  - injection H as _ <- _. apply same_but_gids_refl.
  - cbn [groups_loop] in H.
    destruct (le_cfg_GetNodeName it LIMIT_MAX_USER_NAME_BYTES) as [gres groupName].
    destruct (negb (le_result_eqb gres LE_OK));
      [injection H as _ <- _; apply same_but_gids_refl|].
    apply bind_Ret in H as ([cres newGid] & w1 & _ & H).
    destruct (le_result_eqb cres LE_FAULT);
      [injection H as _ <- _; apply same_but_gids_refl|].
    destruct (le_cfg_GoToNextSibling it) as [nres it'].
    destruct (negb (le_result_eqb nres LE_OK));
      [injection H as _ <- _; apply same_but_gids_set, same_but_gids_refl|].
    destruct (_ <=? _)%nat;
      [injection H as _ <- _; apply same_but_gids_set, same_but_gids_refl|].
    apply IH in H. unfold same_but_gids in *. rewrite H at 1. reflexivity.
Qed.

Lemma CreateUserAndGroups_procs (a a' : App_t) (w w' : World Ext) (r : le_result_t) :
  CreateUserAndGroups a w = Ret (r, a', w') -> procs a' = procs a.
Proof.
  unfold CreateUserAndGroups. destruct (sandboxed a).
  - destruct (user_AppNameToUserName _ _) as [ures username].
    destruct (negb (le_result_eqb ures LE_OK)); [intros [= _ <- _]; reflexivity|].
    intros H. apply bind_Ret in H as ([[ires u] g] & w1 & _ & H).
    destruct (negb (le_result_eqb ires LE_OK)); [injection H as _ <- _; reflexivity|].
    unfold CreateSupplementaryGroups in H.
    apply bind_Ret in H as (it & w2 & _ & H).
    destruct (le_cfg_GoToFirstChild _) as [fres it1].
    destruct (negb (le_result_eqb fres LE_OK)); [injection H as _ <- _; reflexivity|].
    apply bind_Ret in H as ([res a2] & w3 & Hloop & H).
    apply groups_loop_fields in Hloop. unfold same_but_gids in Hloop.
    destruct res; injection H as _ <- _; rewrite Hloop; reflexivity.
  - intros [= _ <- _]. reflexivity.
Qed.

Lemma create_procs_slots (n : nat) :
  forall (it : le_cfg_Iterator) (a a' : App_t) (w w' : World Ext),
    create_procs n it a w = Ret (Some a', w') ->
    Forall (fun po => stopHandler po = None) (procs a) ->
    Forall (fun po => stopHandler po = None) (procs a').
Proof.
  induction n as [|n IH]; intros it a a' w w' H Hall; [discriminate H|].
  cbn [create_procs] in H.
  destruct (le_cfg_GetPath it LIMIT_MAX_PATH_BYTES) as [pres procCfgPath].
  destruct (le_result_eqb pres LE_OVERFLOW); [exfalso; exact (release_then_none _ _ _ _ H)|].
  apply bind_Ret in H as (created & w1 & _ & H).
  destruct created as [procPtr|]; [|exfalso; exact (release_then_none _ _ _ _ H)].
  assert (Hall' : Forall (fun po => stopHandler po = None)
                         (procs (set_procs (procs a ++ [mkProcObj procPtr None]) a))).
  { cbn. apply Forall_app. split; [exact Hall|]. constructor; [reflexivity|constructor]. }
  destruct (le_cfg_GoToNextSibling it) as [nres it'].
  destruct (le_result_eqb nres LE_OK).
  - exact (IH _ _ _ _ _ H Hall').
  - injection H as <- _. exact Hall'.
Qed.

(** A new application has no stop handler. *)
Lemma app_Create_slots (path : string) (w w' : World Ext) (a' : App_t) :
  app_Create path w = Ret (Some a', w') -> forall i, stopHandler_at a' i = None.
Proof.
  intros H.
  assert (Hall : Forall (fun po => stopHandler po = None) (procs a')).
  { unfold app_Create in H.
    apply bind_Ret in H as (block & w0 & _ & H).
    destruct (copy_to_buf path LIMIT_MAX_PATH_BYTES) as [cres copied].
    destruct (negb (le_result_eqb cres LE_OK)); [exfalso; exact (release_then_none _ _ _ _ H)|].
    apply bind_Ret in H as (it & w1 & _ & H).
    apply bind_Ret in H as ([ures a2] & w2 & Hcug & H).
    apply CreateUserAndGroups_procs in Hcug. cbn in Hcug.
    destruct (negb (le_result_eqb ures LE_OK)); [exfalso; exact (release_then_none _ _ _ _ H)|].
    unfold create_paths_and_procs in H.
    destruct (le_path_Concat _ _ _) as [ires ipath].
    destruct (negb (le_result_eqb ires LE_OK)); [exfalso; exact (release_then_none _ _ _ _ H)|].
    set (staged := if sandboxed _ then _ else _) in H.
    assert (Hst : procs (snd staged) = []).
    { subst staged. cbn [sandboxed set_installPath].
      destruct (sandboxed a2); [destruct (sandbox_GetPath _ _)|]; cbn; exact Hcug. }
    destruct staged as [sres a3]. cbn [snd] in Hst.
    destruct (negb (le_result_eqb sres LE_OK)); [exfalso; exact (release_then_none _ _ _ _ H)|].
    destruct (le_cfg_GoToFirstChild _) as [fres it1].
    destruct (le_result_eqb fres LE_OK).
    - apply create_procs_slots in H; [exact H|]. rewrite Hst. constructor.
    - injection H as <- _. rewrite Hst. constructor. }
  intros i. unfold stopHandler_at.
  destruct (procs a' !! i) as [po|] eqn:Hpo; [|reflexivity].
  rewrite Forall_forall in Hall. apply Hall.
  apply list_elem_of_lookup. exists i. exact Hpo.
Qed.

Lemma check_stopped_total (a : App_t) (w : World Ext) :
  kill_timer_valid a w ->
  exists a' w' fns, check_stopped a w = Ret (a', w')
                    /\ entered w' = entered w ++ fns /\ procs a' = procs a.
Proof.
  intros Hk. destruct (cgrp_IsEmpty (ext w) (name a)) eqn:He.
  - destruct (check_stopped_empty a w Hk He) as (w' & Hcs & _ & Hen & _).
    exists (set_state APP_STATE_STOPPED a), w', ["CleanupApp"].
    split; [exact Hcs|]. split; [exact Hen|reflexivity].
  - exists a, w, []. split; [exact (check_stopped_running a w He)|].
    split; [rewrite app_nil_r; reflexivity|reflexivity].
Qed.

(** An exit classified as no fault, of a process whose slot is set: the
    handler in the slot is called, and the slot keeps it. *)
Lemma exit_no_fault_keeps_handler (a : App_t) (w : World Ext) (procPid st : Z)
    (i : nat) (po : ProcObj_t) (h : ProcStopHandler_t) (e1 : Ext) :
  find_pid (ext w) (procs a) procPid 0 = Some i ->
  procs a !! i = Some po ->
  stopHandler po = Some h ->
  perform (ProcSigChildHandler (procRef po) st) (ext w) = (PROC_FAULT_ACTION_NO_FAULT, e1) ->
  kill_timer_valid a w ->
  exists fa a' w' fns,
    app_SigChildHandler a procPid st w = Ret (fa, a', w')
    /\ entered w' = entered w ++ fns /\ In "StartProc" fns
    /\ stopHandler_at a' i = Some h.
Proof.
  intros Hfind Hpo Hslot Hact Hk.
  unfold app_SigChildHandler. unfold bind at 1.
  destruct (enter_extends "app_SigChildHandler" w) as (w0 & -> & Hext0 & He0).
  unfold bind at 1. unfold exit_dispatch, FindProcObjectRef, query. unfold bind at 1.
  rewrite He0, Hfind, Hpo. unfold handle_exit, query. unfold bind at 1 2.
  rewrite <- He0 in Hact. rewrite (do_call_eq _ _ _ _ Hact).
  cbn [ReachedFaultLimit]. unfold bind at 1. unfold ret at 1.
  rewrite Hslot. destruct h. cbn [call_stopHandler]. unfold bind at 1.
  set (w1 := after_call _ e1 w0).
  assert (Hext1 : extends w0 w1 [Ev (ProcSigChildHandler (procRef po) st)] []).
  { unfold extends, w1. cbn. rewrite app_nil_r. repeat split. }
  destruct (StartProc_returns a (procRef po) w1) as (r & w2 & ev & -> & Hext2 & _).
  pose proof (extends_trans _ _ _ _ _ _ _
                (extends_trans _ _ _ _ _ _ _ Hext0 Hext1) Hext2) as Hext.
  assert (Hk2 : kill_timer_valid a w2).
  { unfold kill_timer_valid in *. destruct Hext as (_ & _ & _ & _ & _ & -> & _). exact Hk. }
  destruct (check_stopped_total a w2 Hk2) as (a' & w' & fns & Hcs & Hen & Hprocs).
  assert (Hgoal : forall fa : app_FaultAction_t, exists fa' a'' w'' fns',
            (appRef <- check_stopped a ;; ret (fa, appRef)) w2 = Ret (fa', a'', w'')
            /\ entered w'' = entered w ++ fns' /\ In "StartProc" fns'
            /\ stopHandler_at a'' i = Some Handler_StartProc).
  { intros fa. exists fa, a', w', (["app_SigChildHandler"; "StartProc"] ++ fns).
    unfold bind. rewrite Hcs. split; [reflexivity|]. split.
    - rewrite Hen. destruct Hext as (_ & -> & _). cbn. rewrite <- !app_assoc. reflexivity.
    - split; [cbn; right; left; reflexivity|].
      unfold stopHandler_at. rewrite Hprocs, Hpo. exact Hslot. }
  destruct (negb (le_result_eqb r LE_OK)); unfold ret at 1; apply Hgoal.
Qed.

(** *** Stopping an application *)

Lemma group_signals_cleanup (a : App_t) : group_signals (cleanup_calls a) = [].
Proof. unfold cleanup_calls. destruct (sandboxed a); reflexivity. Qed.

Lemma app_Stop_pending (fuel : nat) (a : App_t) (w : World Ext)
    (t : le_timer_Ref_t) (tm : le_timer) :
  state a = APP_STATE_RUNNING ->
  killTimer a = Some t ->
  timers w !! t = Some tm ->
  tm_running tm = true ->
  freeze_ends fuel a w ->
  exists a' w' evs,
    app_Stop fuel a w = Ret (a', w')
    /\ trace w' = trace w ++ evs
    /\ group_signals evs = [SIGTERM]
    /\ timers w' = timers w
    /\ killTimer a' = Some t.
Proof.
  intros Hs Hkt Htm Hrun Hfreeze.
  unfold app_Stop. rewrite Hs. unfold bind at 1.
  destruct (enter_extends "app_Stop" w) as (w0 & -> & Hext0 & He0).
  assert (Hfreeze0 : freeze_ends fuel a w0).
  { unfold freeze_ends in *. rewrite He0. exact Hfreeze. }
  destruct (KillAppProcs_returns fuel a KILL_SOFT w0 Hfreeze0) as (r & a1 & w1 & Hkill).
  unfold bind at 1. rewrite Hkill.
  apply KillAppProcs_spec in Hkill as (evs & e0 & Hext1 & Hsig & Ha1 & _).
  pose proof (extends_trans _ _ _ _ _ _ _ Hext0 Hext1) as Hext.
  assert (Hkt1 : killTimer a1 = Some t). { rewrite Ha1. exact Hkt. }
  destruct (le_result_eqb r LE_NOT_FOUND).
  - unfold bind.
    destruct (CleanupApp_returns a1 w1) as (w2 & -> & Htr & _ & Hst).
    exists (set_state APP_STATE_STOPPED a1), w2, (([] ++ evs) ++ cleanup_calls a1).
    split; [reflexivity|]. split.
    { rewrite Htr. destruct Hext as (-> & _). rewrite <- app_assoc. reflexivity. }
    split.
    { rewrite !group_signals_app, Hsig, group_signals_cleanup. reflexivity. }
    split; [|exact Hkt1].
    destruct Hst as (_ & _ & _ & -> & _). apply Hext.
  - rewrite Hkt1. unfold bind at 1. unfold ret at 1. rewrite Hkt1.
    assert (Htm1 : timers w1 !! t = Some tm).
    { destruct Hext as (_ & _ & _ & _ & _ & -> & _). exact Htm. }
    unfold bind, le_timer_Start, with_stopped_timer. rewrite Htm1, Hrun.
    exists a1, w1, ([] ++ evs). split; [reflexivity|].
    split; [apply Hext|]. split; [exact Hsig|]. split; [apply Hext|exact Hkt1].
Qed.


(** *** The reboot fault record and its timer *)

Lemma app_Init_arms_timer (w : World Ext) :
  exists w',
    app_Init w = Ret (tt, w')
    /\ reboot_timer_pending (timerCount w) (clock w + reboot_grace_usecs) w'
    /\ rebootFaultRecord w' = rebootFaultRecord w
    /\ os_faults w' = os_faults w
    /\ clock w' = clock w
    /\ timerCount w' = S (timerCount w).
Proof.
  unfold app_Init, bind, le_timer_Create, le_timer_SetHandler, le_timer_SetInterval,
    le_timer_Start, with_stopped_timer.
  cbn [timers set_timers set_timerCount clock].
  rewrite lookup_insert_eq. cbn [tm_running tm_expiry le_result_eqb].
  cbn [timers set_timers set_timerCount clock].
  rewrite lookup_insert_eq. cbn [tm_running tm_expiry le_result_eqb].
  cbn [timers set_timers set_timerCount clock].
  rewrite lookup_insert_eq. cbn [tm_running tm_expiry le_result_eqb ret].
  match goal with |- context [do_call ProcInit ?w0] =>
    destruct (do_call_extends ProcInit w0) as ([] & w' & -> & Hext & _) end.
  exists w'. split; [reflexivity|].
  destruct Hext as (_ & _ & _ & Hrec & Hos & Htm & Hcnt & Hclk).
  split.
  - unfold reboot_timer_pending. rewrite Htm. cbn [timers set_timers set_timerCount].
    rewrite lookup_insert_eq. eexists. split; [reflexivity|]. split; reflexivity.
  - repeat split; assumption.
Qed.

Lemma HardKillApp_store (fuel : nat) (a a' : App_t) (w w' : World Ext) :
  HardKillApp fuel a w = Ret (a', w') -> same_store w w'.
Proof.
  unfold HardKillApp. intros H.
  apply bind_Ret in H as ([] & w0 & Hen & H). injection Hen as <-.
  apply bind_Ret in H as ([r a1] & w1 & Hkill & H). injection H as _ <-.
  apply KillAppProcs_spec in Hkill as (evs & e0 & (_ & _ & Hst) & _). exact Hst.
Qed.

(** Serving a timer keeps the clock and the fault plan; it leaves every
    other timer alone and never creates the record. *)
Lemma le_timer_Expire_frame (fuel : nat) (r' : le_timer_Ref_t) (a a' : App_t)
    (w w' : World Ext) :
  le_timer_Expire fuel r' a w = Ret (a', w') ->
  clock w' = clock w /\ os_faults w' = os_faults w
  /\ (forall r, r <> r' -> timers w' !! r = timers w !! r)
  /\ (timers w !! r' = None -> timers w' !! r' = None)
  /\ (rebootFaultRecord w = None -> rebootFaultRecord w' = None).
Proof.
  unfold le_timer_Expire.
  destruct (timers w !! r') as [t'|] eqn:Ht'; [|intros [= _ <-]; repeat split; auto].
  destruct (tm_expiry t') as [expiry|]; [|intros [= _ <-]; repeat split; congruence].
  destruct (expiry <=? clock w)%Z; [|intros [= _ <-]; repeat split; congruence].
  destruct (tm_handler t') as [[|]|].
  - unfold RebootFaultTimerHandler, bind, sys_unlink, le_timer_Delete, ret.
    cbn [os_faults set_timers rebootFaultRecord].
    destruct (os_faults w OS_unlink); [|destruct (rebootFaultRecord w) eqn:Hrec];
      intros [= _ <-]; cbn; (repeat split; try congruence);
      try (intros r Hr; rewrite lookup_delete_ne by congruence;
           rewrite lookup_insert_ne by congruence; reflexivity).
  - intros H. apply HardKillApp_store in H as (_ & Hrec & Hos & Htm & _ & Hclk).
    cbn in *. repeat split; try congruence.
    intros r Hr. rewrite Htm. rewrite lookup_insert_ne by congruence. reflexivity.
  - intros [= _ <-]. cbn. repeat split; try congruence.
    intros r Hr. rewrite lookup_insert_ne by congruence. reflexivity.
Qed.

(** Serving the pending reboot fault timer once it is due: the handler
    unlinks the record and deletes the timer. *)
Lemma le_timer_Expire_reboot (fuel : nat) (r : le_timer_Ref_t) (a : App_t)
    (w : World Ext) (expiry : Z) :
  reboot_timer_pending r expiry w ->
  (expiry <= clock w)%Z ->
  exists w',
    le_timer_Expire fuel r a w = Ret (a, w')
    /\ timers w' !! r = None
    /\ (os_faults w OS_unlink = false -> rebootFaultRecord w' = None).
Proof.
  intros (tm & Htm & Hh & He) Hdue. unfold le_timer_Expire. rewrite Htm, He, Hh.
  apply Z.leb_le in Hdue. rewrite Hdue.
  unfold RebootFaultTimerHandler, bind, sys_unlink, le_timer_Delete, ret.
  cbn [os_faults set_timers rebootFaultRecord].
  destruct (os_faults w OS_unlink); [|destruct (rebootFaultRecord w) eqn:Hrec];
    eexists; (split; [reflexivity|]); cbn; (split; [apply lookup_delete_eq|]);
    congruence.
Qed.

Lemma expire_timers_done (fuel : nat) (r : le_timer_Ref_t) (refs : list le_timer_Ref_t) :
  forall (a a' : App_t) (w w' : World Ext),
    expire_timers fuel refs a w = Ret (a', w') ->
    reboot_timer_done r w -> reboot_timer_done r w'.
Proof.
  induction refs as [|r' refs IH]; intros a a' w w' H Hdone.
  - injection H as _ <-. exact Hdone.
  - cbn [expire_timers] in H. apply bind_Ret in H as (a1 & w1 & Hstep & H).
    apply (IH _ _ _ _ H).
    apply le_timer_Expire_frame in Hstep as (_ & _ & Hother & Hsame & Hrec).
    destruct Hdone as [Hnone Hgone]. split; [exact (Hrec Hnone)|].
    destruct (decide (r = r')) as [-> | Hne]; [exact (Hsame Hgone)|].
    rewrite (Hother r Hne). exact Hgone.
Qed.

Lemma expire_timers_reboot (fuel : nat) (r : le_timer_Ref_t) (expiry : Z)
    (refs : list le_timer_Ref_t) :
  forall (a a' : App_t) (w w' : World Ext),
    expire_timers fuel refs a w = Ret (a', w') ->
    In r refs ->
    reboot_timer_pending r expiry w ->
    (expiry <= clock w)%Z ->
    os_faults w OS_unlink = false ->
    reboot_timer_done r w'.
Proof.
  induction refs as [|r' refs IH]; intros a a' w w' H Hin Hpend Hdue Hos; [destruct Hin|].
  cbn [expire_timers] in H. apply bind_Ret in H as (a1 & w1 & Hstep & H).
  destruct (decide (r' = r)) as [-> | Hne].
  - destruct (le_timer_Expire_reboot fuel r a w expiry Hpend Hdue) as (w1' & Hfire & Hgone & Hrec).
    rewrite Hstep in Hfire. injection Hfire as -> <-.
    apply (expire_timers_done fuel r refs _ _ _ _ H). split; [exact (Hrec Hos)|exact Hgone].
  - destruct Hin as [Heq | Hin]; [congruence|].
    apply le_timer_Expire_frame in Hstep as (Hclk & Hos1 & Hother & _ & _).
    apply (IH _ _ _ _ H Hin).
    + unfold reboot_timer_pending in *. rewrite (Hother r) by congruence. exact Hpend.
    + rewrite Hclk. exact Hdue.
    + rewrite Hos1. exact Hos.
Qed.



(** *** Looking up a process *)

Lemma find_pid_spec (e : Ext) (pid : pid_t) (l : list ProcObj_t) :
  forall k : nat,
    match find_pid e l pid k with
    | Some i =>
        (k <= i)%nat
        /\ (exists po, l !! (i - k)%nat = Some po /\ proc_has_pid e pid po)
        /\ (forall j po, (j < i - k)%nat -> l !! j = Some po -> ~ proc_has_pid e pid po)
    | None => forall j po, l !! j = Some po -> ~ proc_has_pid e pid po
    end.
Proof.
  induction l as [|po0 rest IH]; intros k; cbn [find_pid].
  - intros j po H. discriminate H.
  - destruct (proc_GetPID e (procRef po0) =? pid)%Z eqn:Hpid.
    + apply Z.eqb_eq in Hpid. split; [lia|]. rewrite Nat.sub_diag. split.
      * exists po0. split; [reflexivity|exact Hpid].
      * intros j po Hj. lia.
    + apply Z.eqb_neq in Hpid. specialize (IH (S k)).
      destruct (find_pid e rest pid (S k)) as [i|].
      * destruct IH as (Hle & (po & Hpo & Hhas) & Hfirst).
        split; [lia|]. replace (i - k)%nat with (S (i - S k)) by lia. split.
        -- exists po. split; [exact Hpo|exact Hhas].
        -- intros [|j] po' Hj Hpo'.
           ++ injection Hpo' as <-. exact Hpid.
           ++ apply (Hfirst j po'); [lia|exact Hpo'].
      * intros [|j] po' Hpo'.
        -- injection Hpo' as <-. exact Hpid.
        -- exact (IH j po' Hpo').
Qed.

(** [FindProcObjectRef] reads the launcher and changes nothing.  It finds
    the first process object of the application whose process has the pid:
    the object at the position it returns has the pid and none before it
    has; it returns [NULL] exactly when no process object of the
    application has the pid. *)
Theorem FindProcObjectRef_first_match (a : App_t) (pid : pid_t) (w : World Ext) :
  exists found,
    FindProcObjectRef a pid w = Ret (found, w)
    /\ (forall i, found = Some i ->
          (exists po, procs a !! i = Some po /\ proc_has_pid (ext w) pid po)
          /\ (forall j po, (j < i)%nat -> procs a !! j = Some po ->
                           ~ proc_has_pid (ext w) pid po))
    /\ (found = None <->
        forall j po, procs a !! j = Some po -> ~ proc_has_pid (ext w) pid po).
Proof.
  exists (find_pid (ext w) (procs a) pid 0). split; [reflexivity|].
  pose proof (find_pid_spec (ext w) pid (procs a) 0) as H.
  destruct (find_pid (ext w) (procs a) pid 0) as [i|].
  - destruct H as (_ & Hat & Hfirst). rewrite Nat.sub_0_r in Hat, Hfirst. split.
    + intros i' [= <-]. split; assumption.
    + split; [discriminate|]. intros Hnone. exfalso.
      destruct Hat as (po & Hpo & Hhas). exact (Hnone i po Hpo Hhas).
  - split; [discriminate|]. split; [intros _; exact H|reflexivity].
Qed.

(** *** The state of a process *)

Lemma find_proc_state_spec (e : Ext) (procName : string) (l : list ProcObj_t) :
  (forall j po, l !! j = Some po -> ~ proc_named e procName po)
  /\ find_proc_state e l procName = APP_PROC_STATE_STOPPED
  \/ exists i po,
       l !! i = Some po /\ proc_named e procName po
       /\ (forall j po', (j < i)%nat -> l !! j = Some po' -> ~ proc_named e procName po')
       /\ find_proc_state e l procName = app_ProcState_of (proc_GetState e (procRef po)).
Proof.
  induction l as [|po0 rest IH]; cbn [find_proc_state].
  - left. split; [|reflexivity]. intros j po H. discriminate H.
  - destruct (strcmp_eq procName (proc_GetName e (procRef po0))) eqn:Hcmp.
    + right. exists 0%nat, po0. split; [reflexivity|].
      split; [apply strcmp_eq_true; exact Hcmp|]. split; [intros j po' Hj; lia|].
      destruct (proc_GetState e (procRef po0)); reflexivity.
    + assert (Hne : ~ proc_named e procName po0).
      { intros Hn. apply strcmp_eq_true in Hn. congruence. }
      destruct IH as [(Hnone & ->) | (i & po & Hpo & Hn & Hfirst & ->)].
      * left. split; [|reflexivity]. intros [|j] po Hpo.
        -- injection Hpo as <-. exact Hne.
        -- exact (Hnone j po Hpo).
      * right. exists (S i), po. split; [exact Hpo|]. split; [exact Hn|].
        split; [|reflexivity]. intros [|j] po' Hj Hpo'.
        -- injection Hpo' as <-. exact Hne.
        -- apply (Hfirst j po'); [lia|exact Hpo'].
Qed.

(** [app_GetProcState] reads the launcher and changes nothing.  For an
    application that is not running it answers Stopped whatever the
    launcher says.  For a running application it answers with the
    launcher's state of the first process object whose process has the
    name, and Stopped when there is none. *)
Theorem app_GetProcState_lookup (a : App_t) (procName : string) (w : World Ext) :
  exists st,
    app_GetProcState a procName w = Ret (st, w)
    /\ (app_GetState a = APP_STATE_STOPPED -> st = APP_PROC_STATE_STOPPED)
    /\ (app_GetState a = APP_STATE_RUNNING ->
        (forall j po, procs a !! j = Some po -> ~ proc_named (ext w) procName po) ->
        st = APP_PROC_STATE_STOPPED)
    /\ (app_GetState a = APP_STATE_RUNNING ->
        forall i po,
          procs a !! i = Some po ->
          proc_named (ext w) procName po ->
          (forall j po', (j < i)%nat -> procs a !! j = Some po' ->
                         ~ proc_named (ext w) procName po') ->
          st = app_ProcState_of (proc_GetState (ext w) (procRef po))).
Proof.
  unfold app_GetProcState, app_GetState. destruct (state a) eqn:Hs.
  - exists APP_PROC_STATE_STOPPED. split; [reflexivity|].
    split; [reflexivity|]. split; discriminate.
  - exists (find_proc_state (ext w) (procs a) procName). split; [reflexivity|].
    split; [discriminate|].
    destruct (find_proc_state_spec (ext w) procName (procs a))
      as [(Hnone & ->) | (i & po & Hpo & Hn & Hfirst & ->)].
    + split; [reflexivity|]. intros _ i po Hpo Hn _. exfalso. exact (Hnone i po Hpo Hn).
    + split.
      * intros _ Hnone. exfalso. exact (Hnone i po Hpo Hn).
      * intros _ i' po' Hpo' Hn' Hfirst'.
        destruct (Nat.lt_trichotomy i i') as [Hlt | [-> | Hgt]].
        -- exfalso. exact (Hfirst' i po Hlt Hpo Hn).
        -- rewrite Hpo in Hpo'. injection Hpo' as <-. reflexivity.
        -- exfalso. exact (Hfirst i' po' Hgt Hpo' Hn').
Qed.


(** *** The reboot fault record: writing and reading back *)

Lemma cstr_app_NUL (s t : string) : cstr (s ++ String NUL t) = cstr s.
Proof.
  induction s as [|c s IH]; simpl.
  - reflexivity.
  - destruct (Ascii.eqb c NUL); [reflexivity|]. rewrite IH. reflexivity.
Qed.

Lemma length_append (s t : string) :
  String.length (s ++ t) = (String.length s + String.length t)%nat.
Proof. induction s as [|c s IH]; simpl; [reflexivity|]. rewrite IH. reflexivity. Qed.

Lemma WriteRebootFaultRec_writes (a : App_t) (p : proc_Ref_t) (w : World Ext) :
  os_faults w OS_flock_Create = false ->
  os_faults w OS_write = false ->
  (String.length (fault_record_text a p (ext w)) + 1 <= LIMIT_MAX_PATH_BYTES)%nat ->
  WriteRebootFaultRec a p w
  = Ret (tt, set_rebootFaultRecord (Some (fault_record_bytes a p (ext w))) w).
Proof.
  intros Hc Hw Hfit.
  unfold WriteRebootFaultRec, bind, le_flock_Create, query. rewrite Hc. cbn.
  fold (fault_record_text a p (ext w)).
  apply Nat.leb_le in Hfit. rewrite Hfit. cbn. unfold sys_write. cbn. rewrite Hw.
  reflexivity.
Qed.

Lemma isRebootFaultRecFor_too_long (a : App_t) (p : proc_Ref_t) (w : World Ext) (c : string) :
  os_faults w OS_flock_Open = false ->
  os_faults w OS_read = false ->
  rebootFaultRecord w = Some c ->
  (LIMIT_MAX_PATH_BYTES <= String.length c)%nat ->
  isRebootFaultRecFor a p w = Ret (false, w).
Proof.
  intros Ho Hr Hc Hlen.
  unfold isRebootFaultRecFor, bind, le_flock_Open, sys_read. rewrite Ho, Hc.
  cbv beta iota. rewrite Hr, Hc. unfold take_bytes.
  assert (Hcount : String.length (substring 0 LIMIT_MAX_PATH_BYTES c) = LIMIT_MAX_PATH_BYTES).
  { clear -Hlen. revert c Hlen. induction LIMIT_MAX_PATH_BYTES as [|n IH]; intros c Hlen.
    - destruct c; reflexivity.
    - destruct c as [|ch c]; cbn in Hlen; [lia|]. cbn. rewrite IH by lia. reflexivity. }
  rewrite Hcount.
  destruct (Z.of_nat LIMIT_MAX_PATH_BYTES =? -1)%Z eqn:H1; [apply Z.eqb_eq in H1; lia|].
  rewrite Z.leb_refl. reflexivity.
Qed.

(** The reboot fault record read back.  When the record file can be
    created, written, opened and read, and the text "app/process" with its
    NUL is shorter than a path buffer, [WriteRebootFaultRec] replaces
    whatever the file held by that text, and changes nothing else; after it
    [isRebootFaultRecFor] is true for the same application and process, so
    the fault limit of a Reboot fault is reached, and it is false for any
    application and process whose text is another one. *)
Theorem reboot_record_round_trip (a : App_t) (p : proc_Ref_t) (w : World Ext) :
  os_faults w OS_flock_Create = false ->
  os_faults w OS_write = false ->
  os_faults w OS_flock_Open = false ->
  os_faults w OS_read = false ->
  (String.length (fault_record_text a p (ext w)) + 1 < LIMIT_MAX_PATH_BYTES)%nat ->
  let w' := set_rebootFaultRecord (Some (fault_record_bytes a p (ext w))) w in
  WriteRebootFaultRec a p w = Ret (tt, w')
  /\ isRebootFaultRecFor a p w' = Ret (true, w')
  /\ (forall prevFaultTime,
        ReachedFaultLimit a p PROC_FAULT_ACTION_REBOOT prevFaultTime w' = Ret (true, w'))
  /\ (forall a2 p2,
        (String.length (fault_record_text a2 p2 (ext w)) < LIMIT_MAX_PATH_BYTES)%nat ->
        cstr (fault_record_text a2 p2 (ext w)) <> cstr (fault_record_text a p (ext w)) ->
        isRebootFaultRecFor a2 p2 w' = Ret (false, w')).
Proof.
  intros Hc Hw Ho Hr Hfit w'.
  assert (Hread : forall a2 p2,
            (String.length (fault_record_text a2 p2 (ext w)) < LIMIT_MAX_PATH_BYTES)%nat ->
            isRebootFaultRecFor a2 p2 w'
            = Ret (strcmp_eq (fault_record_bytes a p (ext w))
                             (fault_record_text a2 p2 (ext w)), w')).
  { intros a2 p2 Hfit2.
    apply (isRebootFaultRecFor_present a2 p2 w' (fault_record_bytes a p (ext w)));
      try assumption; try reflexivity.
    unfold fault_record_bytes. rewrite length_append. cbn. lia. }
  assert (Hsame : isRebootFaultRecFor a p w' = Ret (true, w')).
  { rewrite Hread by lia. f_equal. f_equal. apply strcmp_eq_true.
    unfold fault_record_bytes. apply cstr_app_NUL. }
  split; [apply WriteRebootFaultRec_writes; try assumption; lia|].
  split; [exact Hsame|]. split; [intros prev; exact Hsame|].
  intros a2 p2 Hfit2 Hne. rewrite Hread by exact Hfit2. f_equal. f_equal.
  destruct (strcmp_eq _ _) eqn:Hcmp; [|reflexivity].
  apply strcmp_eq_true in Hcmp. unfold fault_record_bytes in Hcmp.
  rewrite cstr_app_NUL in Hcmp. congruence.
Qed.

(** The reboot fault record at the bounds of the path buffer.  A text
    "app/process" that fills the buffer exactly with its NUL is written,
    but is never recognised when read back: [isRebootFaultRecFor] rejects a
    file of [LIMIT_MAX_PATH_BYTES] bytes or more.  A longer text makes
    [WriteRebootFaultRec] end the Supervisor on its [LE_ASSERT], after the
    file has been created. *)
Theorem reboot_record_bounds (a : App_t) (p : proc_Ref_t) (w : World Ext) :
  os_faults w OS_flock_Create = false ->
  ((String.length (fault_record_text a p (ext w)) + 1 = LIMIT_MAX_PATH_BYTES)%nat ->
   os_faults w OS_write = false ->
   os_faults w OS_flock_Open = false ->
   os_faults w OS_read = false ->
   let w' := set_rebootFaultRecord (Some (fault_record_bytes a p (ext w))) w in
   WriteRebootFaultRec a p w = Ret (tt, w')
   /\ forall a2 p2, isRebootFaultRecFor a2 p2 w' = Ret (false, w'))
  /\ ((LIMIT_MAX_PATH_BYTES < String.length (fault_record_text a p (ext w)) + 1)%nat ->
      WriteRebootFaultRec a p w = Fatal).
Proof.
  intros Hc. split.
  - intros Hlen Hw Ho Hr w'.
    split; [apply WriteRebootFaultRec_writes; try assumption; lia|].
    intros a2 p2.
    apply (isRebootFaultRecFor_too_long a2 p2 w' (fault_record_bytes a p (ext w)));
      try assumption; try reflexivity.
    unfold fault_record_bytes. rewrite length_append. cbn. lia.
  - intros Hlen.
    unfold WriteRebootFaultRec, bind, le_flock_Create, query. rewrite Hc. cbn.
    fold (fault_record_text a p (ext w)).
    destruct (String.length (fault_record_text a p (ext w)) + 1 <=? LIMIT_MAX_PATH_BYTES)%nat
      eqn:Hle; [apply Nat.leb_le in Hle; lia|reflexivity].
Qed.

(** The reboot fault record when the file system fails.  When the file
    cannot be created [WriteRebootFaultRec] changes nothing: a record that
    existed stays.  When the file is created but cannot be written, the
    record that existed is lost and the file is left empty, and then
    [isRebootFaultRecFor] is false for every process (whose text is not
    empty).  When the file cannot be opened or read [isRebootFaultRecFor]
    is false whatever the file holds: the fault limit of Reboot faults is
    not enforced. *)
Theorem reboot_record_io_failures (a : App_t) (p : proc_Ref_t) (w : World Ext) :
  (os_faults w OS_flock_Create = true -> WriteRebootFaultRec a p w = Ret (tt, w))
  /\ (os_faults w OS_flock_Create = false ->
      os_faults w OS_write = true ->
      (String.length (fault_record_text a p (ext w)) + 1 <= LIMIT_MAX_PATH_BYTES)%nat ->
      let w' := set_rebootFaultRecord (Some "") w in
      WriteRebootFaultRec a p w = Ret (tt, w')
      /\ (os_faults w OS_flock_Open = false -> os_faults w OS_read = false ->
          forall a2 p2,
            (String.length (fault_record_text a2 p2 (ext w)) < LIMIT_MAX_PATH_BYTES)%nat ->
            cstr (fault_record_text a2 p2 (ext w)) <> "" ->
            isRebootFaultRecFor a2 p2 w' = Ret (false, w')))
  /\ (os_faults w OS_flock_Open = true \/ os_faults w OS_read = true ->
      isRebootFaultRecFor a p w = Ret (false, w)).
Proof.
  split; [|split].
  - intros Hc. unfold WriteRebootFaultRec, bind, le_flock_Create. rewrite Hc. reflexivity.
  - intros Hc Hw Hfit w'. split.
    + unfold WriteRebootFaultRec, bind, le_flock_Create, query. rewrite Hc. cbn.
      fold (fault_record_text a p (ext w)).
      apply Nat.leb_le in Hfit. rewrite Hfit. cbn. unfold sys_write. cbn. rewrite Hw.
      reflexivity.
    + intros Ho Hr a2 p2 Hfit2 Hne.
      rewrite (isRebootFaultRecFor_present a2 p2 w' "");
        try assumption; try reflexivity; [|cbn; lia].
      f_equal. f_equal.
      destruct (strcmp_eq _ _) eqn:Hcmp; [|reflexivity].
      apply strcmp_eq_true in Hcmp. cbn in Hcmp. exfalso. apply Hne. symmetry. exact Hcmp.
  - intros Hfail. unfold isRebootFaultRecFor, bind, le_flock_Open, sys_read.
    destruct (os_faults w OS_flock_Open) eqn:Ho; [reflexivity|].
    destruct Hfail as [Hfail | Hr]; [discriminate|].
    destruct (rebootFaultRecord w); [|reflexivity].
    cbv beta iota. rewrite Hr. reflexivity.
Qed.


(** *** The fault action of an exit *)

Lemma StartProc_launch (a : App_t) (p : proc_Ref_t) (w : World Ext) :
  StartProc a p w
  = Ret (fst (perform (launch_call a p) (ext w)),
         after_call (launch_call a p) (snd (perform (launch_call a p) (ext w)))
                    (set_entered (entered w ++ ["StartProc"]) w)).
Proof.
  unfold StartProc, bind, enter, launch_call, do_call, after_call.
  destruct (sandboxed a); cbn [ext set_entered];
    match goal with |- context [perform ?c ?e] => destruct (perform c e) end; reflexivity.
Qed.

Lemma launches_app (t1 t2 : list event) : launches (t1 ++ t2) = launches t1 ++ launches t2.
Proof. apply List.filter_app. Qed.

Lemma launches_cleanup (a : App_t) : launches (cleanup_calls a) = [].
Proof. unfold cleanup_calls. destruct (sandboxed a); reflexivity. Qed.

Lemma launches_launch (a : App_t) (p : proc_Ref_t) :
  launches [Ev (launch_call a p)] = [Ev (launch_call a p)].
Proof. unfold launch_call. destruct (sandboxed a); reflexivity. Qed.

(** The last part of [app_SigChildHandler] starts no process, sends no
    signal and leaves the record file alone. *)
Lemma check_stopped_frame (a : App_t) (w : World Ext) :
  kill_timer_valid a w ->
  exists a' w' evs,
    check_stopped a w = Ret (a', w')
    /\ trace w' = trace w ++ evs
    /\ launches evs = []
    /\ rebootFaultRecord w' = rebootFaultRecord w.
Proof.
  intros Hk. destruct (cgrp_IsEmpty (ext w) (name a)) eqn:He.
  - unfold check_stopped, bind, HasRunningProc, query. rewrite He.
    cbn [negb]. unfold kill_timer_valid in Hk.
    destruct (killTimer a) as [t|] eqn:Hkt.
    + destruct Hk as [tm Htm]. unfold le_timer_Stop. rewrite Htm.
      destruct (tm_running tm) eqn:Hrun; unfold ret; cbv beta iota;
        match goal with |- context [CleanupApp a ?w0] =>
          destruct (CleanupApp_returns a w0) as (w' & -> & Htr & Hen & Hst) end;
        exists (set_state APP_STATE_STOPPED a), w', (cleanup_calls a);
        (split; [reflexivity|]); (split; [exact Htr|]);
        (split; [apply launches_cleanup|]);
        destruct Hst as (_ & -> & _); reflexivity.
    + unfold ret; cbv beta iota.
      match goal with |- context [CleanupApp a ?w0] =>
        destruct (CleanupApp_returns a w0) as (w' & -> & Htr & Hen & Hst) end.
      exists (set_state APP_STATE_STOPPED a), w', (cleanup_calls a).
      split; [reflexivity|]. split; [exact Htr|]. split; [apply launches_cleanup|].
      destruct Hst as (_ & -> & _). reflexivity.
  - rewrite (check_stopped_running a w He). exists a, w, [].
    split; [reflexivity|]. split; [rewrite app_nil_r; reflexivity|]. split; reflexivity.
Qed.

Lemma sigchild_after_dispatch (a : App_t) (w wd : World Ext) (procPid st : Z)
    (fa : app_FaultAction_t) :
  exit_dispatch a procPid st (set_entered (entered w ++ ["app_SigChildHandler"]) w)
  = Ret (fa, wd) ->
  kill_timer_valid a wd ->
  exists a' w' evs,
    app_SigChildHandler a procPid st w = Ret (fa, a', w')
    /\ trace w' = trace wd ++ evs
    /\ launches evs = []
    /\ rebootFaultRecord w' = rebootFaultRecord wd.
Proof.
  intros Hd Hk.
  destruct (check_stopped_frame a wd Hk) as (a' & w' & evs & Hcs & Ht & Hl & Hr).
  exists a', w', evs. split; [|split; [exact Ht|split; [exact Hl|exact Hr]]].
  unfold app_SigChildHandler, bind, enter. rewrite Hd, Hcs. reflexivity.
Qed.

Lemma exit_dispatch_found (a : App_t) (w : World Ext) (procPid st : Z) (i : nat)
    (po : ProcObj_t) (act : proc_FaultAction_t) (e1 : Ext) :
  find_pid (ext w) (procs a) procPid 0 = Some i ->
  procs a !! i = Some po ->
  perform (ProcSigChildHandler (procRef po) st) (ext w) = (act, e1) ->
  let w0 := set_entered (entered w ++ ["app_SigChildHandler"]) w in
  let w1 := after_call (ProcSigChildHandler (procRef po) st) e1 w0 in
  ReachedFaultLimit a (procRef po) act (proc_GetFaultTime (ext w) (procRef po)) w1
  = Ret (false, w1) ->
  exit_dispatch a procPid st w0
  = (match act with
     | PROC_FAULT_ACTION_NO_FAULT =>
         match stopHandler po with
         | Some h =>
             r <- call_stopHandler h a (procRef po) ;;
             if negb (le_result_eqb r LE_OK) then ret APP_FAULT_ACTION_STOP_APP
             else ret APP_FAULT_ACTION_IGNORE
         | None => ret APP_FAULT_ACTION_IGNORE
         end
     | PROC_FAULT_ACTION_IGNORE => ret APP_FAULT_ACTION_IGNORE
     | PROC_FAULT_ACTION_RESTART =>
         r <- StartProc a (procRef po) ;;
         if negb (le_result_eqb r LE_OK) then ret APP_FAULT_ACTION_STOP_APP
         else ret APP_FAULT_ACTION_IGNORE
     | PROC_FAULT_ACTION_RESTART_APP => ret APP_FAULT_ACTION_RESTART_APP
     | PROC_FAULT_ACTION_STOP_APP => ret APP_FAULT_ACTION_STOP_APP
     | PROC_FAULT_ACTION_REBOOT =>
         _ <- WriteRebootFaultRec a (procRef po) ;;
         ret APP_FAULT_ACTION_REBOOT
     end) w1.
Proof.
  intros Hfind Hpo Hact w0 w1 Hlim.
  unfold exit_dispatch, bind, FindProcObjectRef, query.
  change (ext w0) with (ext w). rewrite Hfind, Hpo.
  unfold handle_exit, bind, query. change (ext w0) with (ext w).
  rewrite (do_call_eq _ w0 act e1) by exact Hact.
  fold w1. rewrite Hlim. reflexivity.
Qed.

Lemma exit_not_reached (a : App_t) (w : World Ext) (procPid procExitStatus : Z)
    (i : nat) (po : ProcObj_t) (act : proc_FaultAction_t) (e1 : Ext) :
  find_pid (ext w) (procs a) procPid 0 = Some i ->
  procs a !! i = Some po ->
  perform (ProcSigChildHandler (procRef po) procExitStatus) (ext w) = (act, e1) ->
  kill_timer_valid a w ->
  let p := procRef po in
  let w1 := after_call (ProcSigChildHandler p procExitStatus) e1
              (set_entered (entered w ++ ["app_SigChildHandler"]) w) in
  ReachedFaultLimit a p act (proc_GetFaultTime (ext w) p) w1 = Ret (false, w1) ->
  (act = PROC_FAULT_ACTION_REBOOT ->
   (String.length (fault_record_text a p e1) + 1 <= LIMIT_MAX_PATH_BYTES)%nat) ->
  let restarted := restart_outcome (fst (perform (launch_call a p) e1)) in
  exists fa a' w' evs,
    app_SigChildHandler a procPid procExitStatus w = Ret (fa, a', w')
    /\ trace w' = trace w1 ++ evs
    /\ match act with
       | PROC_FAULT_ACTION_NO_FAULT =>
           match stopHandler po with
           | None => fa = APP_FAULT_ACTION_IGNORE /\ launches evs = []
           | Some _ => fa = restarted /\ launches evs = [Ev (launch_call a p)]
           end
       | PROC_FAULT_ACTION_IGNORE => fa = APP_FAULT_ACTION_IGNORE /\ launches evs = []
       | PROC_FAULT_ACTION_RESTART => fa = restarted /\ launches evs = [Ev (launch_call a p)]
       | PROC_FAULT_ACTION_RESTART_APP =>
           fa = APP_FAULT_ACTION_RESTART_APP /\ launches evs = []
       | PROC_FAULT_ACTION_STOP_APP => fa = APP_FAULT_ACTION_STOP_APP /\ launches evs = []
       | PROC_FAULT_ACTION_REBOOT =>
           fa = APP_FAULT_ACTION_REBOOT /\ launches evs = []
           /\ (os_faults w OS_flock_Create = false -> os_faults w OS_write = false ->
               rebootFaultRecord w' = Some (fault_record_bytes a p e1))
       end.
Proof.
  intros Hfind Hpo Hact Hk p w1 Hlim Hfit restarted.
  pose proof (exit_dispatch_found a w procPid procExitStatus i po act e1 Hfind Hpo Hact Hlim)
    as Hd. cbv zeta in Hd. fold p in Hd. fold w1 in Hd.
  assert (Hk1 : forall wd : World Ext, timers wd = timers w -> kill_timer_valid a wd).
  { intros wd Ht. unfold kill_timer_valid in *. rewrite Ht. exact Hk. }
  assert (Hplain : forall fa,
            exit_dispatch a procPid procExitStatus
              (set_entered (entered w ++ ["app_SigChildHandler"]) w) = Ret (fa, w1) ->
            exists a' w' evs,
              app_SigChildHandler a procPid procExitStatus w = Ret (fa, a', w')
              /\ trace w' = trace w1 ++ evs /\ launches evs = []).
  { intros fa Hfa.
    destruct (sigchild_after_dispatch a w w1 procPid procExitStatus fa Hfa (Hk1 w1 eq_refl))
      as (a' & w' & evs & Hrun & Ht & Hl & _).
    exists a', w', evs. split; [exact Hrun|]. split; [exact Ht|exact Hl]. }
  assert (Hrestart :
            exit_dispatch a procPid procExitStatus
              (set_entered (entered w ++ ["app_SigChildHandler"]) w)
            = (r <- StartProc a p ;;
               if negb (le_result_eqb r LE_OK) then ret APP_FAULT_ACTION_STOP_APP
               else ret APP_FAULT_ACTION_IGNORE) w1 ->
            exists a' w' evs,
              app_SigChildHandler a procPid procExitStatus w = Ret (restarted, a', w')
              /\ trace w' = trace w1 ++ evs /\ launches evs = [Ev (launch_call a p)]).
  { intros Hfa. unfold bind in Hfa. rewrite StartProc_launch in Hfa.
    change (ext w1) with e1 in Hfa.
    set (ws := after_call (launch_call a p) (snd (perform (launch_call a p) e1))
                 (set_entered (entered w1 ++ ["StartProc"]) w1)) in Hfa.
    assert (Hfa' : exit_dispatch a procPid procExitStatus
                     (set_entered (entered w ++ ["app_SigChildHandler"]) w)
                   = Ret (restarted, ws)).
    { rewrite Hfa. unfold restarted, restart_outcome.
      destruct (le_result_eqb (fst (perform (launch_call a p) e1)) LE_OK); reflexivity. }
    destruct (sigchild_after_dispatch a w ws procPid procExitStatus restarted Hfa'
                (Hk1 ws eq_refl)) as (a' & w' & evs & Hrun & Ht & Hl & _).
    exists a', w', ([Ev (launch_call a p)] ++ evs). split; [exact Hrun|].
    split; [rewrite Ht; unfold ws; cbn; rewrite <- app_assoc; reflexivity|].
    rewrite launches_app, Hl, launches_launch. reflexivity. }
  destruct act.
  - destruct (stopHandler po) as [h|].
    + destruct h. destruct (Hrestart Hd) as (a' & w' & evs & Hrun & Ht & Hl).
      exists restarted, a', w', evs. split; [exact Hrun|]. split; [exact Ht|].
      split; [reflexivity|exact Hl].
    + destruct (Hplain _ Hd) as (a' & w' & evs & Hrun & Ht & Hl).
      eexists _, a', w', evs. split; [exact Hrun|]. split; [exact Ht|].
      split; [reflexivity|exact Hl].
  - destruct (Hplain _ Hd) as (a' & w' & evs & Hrun & Ht & Hl).
    eexists _, a', w', evs. split; [exact Hrun|]. split; [exact Ht|].
    split; [reflexivity|exact Hl].
  - destruct (Hrestart Hd) as (a' & w' & evs & Hrun & Ht & Hl).
    exists restarted, a', w', evs. split; [exact Hrun|]. split; [exact Ht|].
    split; [reflexivity|exact Hl].
  - destruct (Hplain _ Hd) as (a' & w' & evs & Hrun & Ht & Hl).
    eexists _, a', w', evs. split; [exact Hrun|]. split; [exact Ht|].
    split; [reflexivity|exact Hl].
  - destruct (Hplain _ Hd) as (a' & w' & evs & Hrun & Ht & Hl).
    eexists _, a', w', evs. split; [exact Hrun|]. split; [exact Ht|].
    split; [reflexivity|exact Hl].
  - specialize (Hfit eq_refl).
    assert (Hwr : exists wr,
              WriteRebootFaultRec a p w1 = Ret (tt, wr)
              /\ trace wr = trace w1 /\ timers wr = timers w
              /\ (os_faults w OS_flock_Create = false -> os_faults w OS_write = false ->
                  rebootFaultRecord wr = Some (fault_record_bytes a p e1))).
    { destruct (os_faults w OS_flock_Create) eqn:Hc.
      - exists w1. split.
        + unfold WriteRebootFaultRec, bind, le_flock_Create.
          change (os_faults w1 OS_flock_Create) with (os_faults w OS_flock_Create).
          rewrite Hc. reflexivity.
        + split; [reflexivity|]. split; [reflexivity|discriminate].
      - destruct (os_faults w OS_write) eqn:Hw.
        + exists (set_rebootFaultRecord (Some "") w1). split.
          * unfold WriteRebootFaultRec, bind, le_flock_Create, query.
            change (os_faults w1 OS_flock_Create) with (os_faults w OS_flock_Create).
            rewrite Hc. cbn. fold (fault_record_text a p e1).
            apply Nat.leb_le in Hfit. rewrite Hfit. cbn. unfold sys_write. cbn.
            rewrite Hw. reflexivity.
          * split; [reflexivity|]. split; [reflexivity|]. intros _ H. discriminate H.
        + exists (set_rebootFaultRecord (Some (fault_record_bytes a p e1)) w1). split.
          * apply (WriteRebootFaultRec_writes a p w1); assumption.
          * split; [reflexivity|]. split; [reflexivity|]. intros _ _. reflexivity. }
    destruct Hwr as (wr & Hwrite & Htr & Htm & Hrec).
    unfold bind in Hd. rewrite Hwrite in Hd.
    destruct (sigchild_after_dispatch a w wr procPid procExitStatus _ Hd (Hk1 wr Htm))
      as (a' & w' & evs & Hrun & Ht & Hl & Hr).
    eexists _, a', w', evs. split; [exact Hrun|]. split; [rewrite Ht, Htr; reflexivity|].
    split; [reflexivity|]. split; [exact Hl|].
    intros Hc Hw. rewrite Hr. exact (Hrec Hc Hw).
Qed.

(** The fault action [app_SigChildHandler] reports for the exit of one of
    the application's processes, when the fault limit is not reached.  An
    exit the launcher classifies as Ignore, and one without fault of a
    process whose [stopHandler] is null, are reported as Ignore and start
    nothing.  For Restart, and for an exit without fault of a process whose
    [stopHandler] is set, the process is started again, once, and the
    report is Ignore when the launcher starts it and StopApp when it does
    not.  RestartApp and StopApp are reported as such and start nothing.
    For Reboot the reboot fault record is written (when the file system
    lets it) and Reboot is reported.  (For Reboot, the text of the record
    fits its buffer, or the Supervisor ends.) *)
Theorem sigchild_fault_actions (a : App_t) (w : World Ext) (procPid procExitStatus : Z)
    (i : nat) (po : ProcObj_t) (act : proc_FaultAction_t) (e1 : Ext) :
  find_pid (ext w) (procs a) procPid 0 = Some i ->
  procs a !! i = Some po ->
  perform (ProcSigChildHandler (procRef po) procExitStatus) (ext w) = (act, e1) ->
  kill_timer_valid a w ->
  let p := procRef po in
  let w1 := after_call (ProcSigChildHandler p procExitStatus) e1
              (set_entered (entered w ++ ["app_SigChildHandler"]) w) in
  ReachedFaultLimit a p act (proc_GetFaultTime (ext w) p) w1 = Ret (false, w1) ->
  (act = PROC_FAULT_ACTION_REBOOT ->
   (String.length (fault_record_text a p e1) + 1 <= LIMIT_MAX_PATH_BYTES)%nat) ->
  let restarted := restart_outcome (fst (perform (launch_call a p) e1)) in
  exists fa a' w' evs,
    app_SigChildHandler a procPid procExitStatus w = Ret (fa, a', w')
    /\ trace w' = trace w1 ++ evs
    /\ match act with
       | PROC_FAULT_ACTION_NO_FAULT =>
           match stopHandler po with
           | None => fa = APP_FAULT_ACTION_IGNORE /\ launches evs = []
           | Some _ => fa = restarted /\ launches evs = [Ev (launch_call a p)]
           end
       | PROC_FAULT_ACTION_IGNORE => fa = APP_FAULT_ACTION_IGNORE /\ launches evs = []
       | PROC_FAULT_ACTION_RESTART => fa = restarted /\ launches evs = [Ev (launch_call a p)]
       | PROC_FAULT_ACTION_RESTART_APP =>
           fa = APP_FAULT_ACTION_RESTART_APP /\ launches evs = []
       | PROC_FAULT_ACTION_STOP_APP => fa = APP_FAULT_ACTION_STOP_APP /\ launches evs = []
       | PROC_FAULT_ACTION_REBOOT =>
           fa = APP_FAULT_ACTION_REBOOT /\ launches evs = []
           /\ (os_faults w OS_flock_Create = false -> os_faults w OS_write = false ->
               rebootFaultRecord w' = Some (fault_record_bytes a p e1))
       end.
Proof. exact (exit_not_reached a w procPid procExitStatus i po act e1). Qed.

Lemma isRebootFaultRecFor_unreadable (a : App_t) (p : proc_Ref_t) (w : World Ext) :
  os_faults w OS_flock_Open = true \/ os_faults w OS_read = true
  \/ (exists c, rebootFaultRecord w = Some c
                /\ (LIMIT_MAX_PATH_BYTES <= String.length c)%nat) ->
  isRebootFaultRecFor a p w = Ret (false, w).
Proof.
  intros Hbad.
  destruct (os_faults w OS_flock_Open) eqn:Ho.
  { unfold isRebootFaultRecFor, bind, le_flock_Open. rewrite Ho. reflexivity. }
  destruct (os_faults w OS_read) eqn:Hr.
  { unfold isRebootFaultRecFor, bind, le_flock_Open, sys_read. rewrite Ho.
    destruct (rebootFaultRecord w); [|reflexivity].
    cbv beta iota. rewrite Hr. reflexivity. }
  destruct Hbad as [H | [H | (c & Hc & Hlen)]]; [discriminate H..|].
  exact (isRebootFaultRecFor_too_long a p w c Ho Hr Hc Hlen).
Qed.

Lemma exit_dispatch_reached (a : App_t) (w : World Ext) (procPid st : Z) (i : nat)
    (po : ProcObj_t) (act : proc_FaultAction_t) (e1 : Ext) :
  find_pid (ext w) (procs a) procPid 0 = Some i ->
  procs a !! i = Some po ->
  perform (ProcSigChildHandler (procRef po) st) (ext w) = (act, e1) ->
  let w0 := set_entered (entered w ++ ["app_SigChildHandler"]) w in
  let w1 := after_call (ProcSigChildHandler (procRef po) st) e1 w0 in
  ReachedFaultLimit a (procRef po) act (proc_GetFaultTime (ext w) (procRef po)) w1
  = Ret (true, w1) ->
  exit_dispatch a procPid st w0 = Ret (APP_FAULT_ACTION_STOP_APP, w1).
Proof.
  intros Hfind Hpo Hact w0 w1 Hlim.
  unfold exit_dispatch, bind, FindProcObjectRef, query.
  change (ext w0) with (ext w). rewrite Hfind, Hpo.
  unfold handle_exit, bind, query. change (ext w0) with (ext w).
  rewrite (do_call_eq _ w0 act e1) by exact Hact.
  fold w1. rewrite Hlim. reflexivity.
Qed.

(** C1 (amended).  When [app_SigChildHandler] handles the exit of one of
    the application's processes, it asks the launcher to classify the exit,
    and the classification [act] decides whether the fault limit is
    reached.  For Restart and RestartApp it is reached exactly when the new
    fault time is not zero and lies at most 10 seconds after the previous
    one (the fault times are clock readings that fit [time_t]).  For Reboot,
    when the record file can be opened and read and is shorter than a path
    buffer (and the text "<app name>/<process name>" fits one), it is
    reached exactly when the reboot fault record exists and holds that
    text; when the file cannot be opened or read, or holds
    [LIMIT_MAX_PATH_BYTES] bytes or more, it is not reached, whatever the
    record holds.  For every other classification it is not reached.
    Whenever the limit is reached the handler reports StopApp and the
    configured action is not carried out: after the launcher's
    classification no process is started and the record file is left as it
    was.  When it is not reached the configured action is carried out: the
    report and the processes started are those of the classification (for
    Reboot the record is written, its text fitting the buffer). *)
Theorem C1_fault_limit (a : App_t) (w : World Ext) (procPid procExitStatus : Z)
    (i : nat) (po : ProcObj_t) (act : proc_FaultAction_t) (e1 : Ext) :
  find_pid (ext w) (procs a) procPid 0 = Some i ->
  procs a !! i = Some po ->
  perform (ProcSigChildHandler (procRef po) procExitStatus) (ext w) = (act, e1) ->
  kill_timer_valid a w ->
  let p := procRef po in
  let prev := proc_GetFaultTime (ext w) p in
  let now := proc_GetFaultTime e1 p in
  let asked := Ev (ProcSigChildHandler p procExitStatus) in
  let w1 := after_call (ProcSigChildHandler p procExitStatus) e1
              (set_entered (entered w ++ ["app_SigChildHandler"]) w) in
  (act = PROC_FAULT_ACTION_RESTART \/ act = PROC_FAULT_ACTION_RESTART_APP ->
   (0 < TIME_T_BITS)%Z -> fits_time_t prev -> fits_time_t now ->
   exists reached,
     ReachedFaultLimit a p act prev w1 = Ret (reached, w1)
     /\ (reached = true <-> now <> 0%Z /\ (now - prev <= 10)%Z))
  /\ (act = PROC_FAULT_ACTION_REBOOT ->
      os_faults w OS_flock_Open = false -> os_faults w OS_read = false ->
      (forall c, rebootFaultRecord w = Some c ->
                 (String.length c < LIMIT_MAX_PATH_BYTES)%nat) ->
      (String.length (fmt_slash (name a) (proc_GetName e1 p)) < LIMIT_MAX_PATH_BYTES)%nat ->
      exists reached,
        ReachedFaultLimit a p act prev w1 = Ret (reached, w1)
        /\ (reached = true <->
            exists c, rebootFaultRecord w = Some c
                      /\ cstr c = cstr (fmt_slash (name a) (proc_GetName e1 p))))
  /\ (act = PROC_FAULT_ACTION_REBOOT ->
      os_faults w OS_flock_Open = true \/ os_faults w OS_read = true
      \/ (exists c, rebootFaultRecord w = Some c
                    /\ (LIMIT_MAX_PATH_BYTES <= String.length c)%nat) ->
      ReachedFaultLimit a p act prev w1 = Ret (false, w1))
  /\ (act = PROC_FAULT_ACTION_NO_FAULT \/ act = PROC_FAULT_ACTION_IGNORE
      \/ act = PROC_FAULT_ACTION_STOP_APP ->
      ReachedFaultLimit a p act prev w1 = Ret (false, w1))
  /\ (forall w2, ReachedFaultLimit a p act prev w1 = Ret (true, w2) ->
      exists a' w' evs,
        app_SigChildHandler a procPid procExitStatus w
        = Ret (APP_FAULT_ACTION_STOP_APP, a', w')
        /\ trace w' = trace w ++ [asked] ++ evs
        /\ launches evs = []
        /\ rebootFaultRecord w' = rebootFaultRecord w)
  /\ (ReachedFaultLimit a p act prev w1 = Ret (false, w1) ->
      (act = PROC_FAULT_ACTION_REBOOT ->
       (String.length (fault_record_text a p e1) + 1 <= LIMIT_MAX_PATH_BYTES)%nat) ->
      let restarted := restart_outcome (fst (perform (launch_call a p) e1)) in
      exists fa a' w' evs,
        app_SigChildHandler a procPid procExitStatus w = Ret (fa, a', w')
        /\ trace w' = trace w ++ [asked] ++ evs
        /\ match act with
           | PROC_FAULT_ACTION_NO_FAULT =>
               match stopHandler po with
               | None => fa = APP_FAULT_ACTION_IGNORE /\ launches evs = []
               | Some _ => fa = restarted /\ launches evs = [Ev (launch_call a p)]
               end
           | PROC_FAULT_ACTION_IGNORE => fa = APP_FAULT_ACTION_IGNORE /\ launches evs = []
           | PROC_FAULT_ACTION_RESTART =>
               fa = restarted /\ launches evs = [Ev (launch_call a p)]
           | PROC_FAULT_ACTION_RESTART_APP =>
               fa = APP_FAULT_ACTION_RESTART_APP /\ launches evs = []
           | PROC_FAULT_ACTION_STOP_APP =>
               fa = APP_FAULT_ACTION_STOP_APP /\ launches evs = []
           | PROC_FAULT_ACTION_REBOOT =>
               fa = APP_FAULT_ACTION_REBOOT /\ launches evs = []
               /\ (os_faults w OS_flock_Create = false -> os_faults w OS_write = false ->
                   rebootFaultRecord w' = Some (fault_record_bytes a p e1))
           end).
Proof.
  intros Hfind Hpo Hact Hk p prev now asked w1.
  split; [|split; [|split; [|split; [|split]]]].
  - intros Hr Hbits Hprev Hnow.
    rewrite (ReachedFaultLimit_restart _ _ _ _ _ Hr).
    eexists; split; [reflexivity|].
    change (proc_GetFaultTime (ext w1) p) with now.
    rewrite (time_t_sub_exact _ _ Hbits Hnow Hprev).
    rewrite andb_true_iff, negb_true_iff, Z.eqb_neq, Z.leb_le. reflexivity.
  - intros -> Ho Hrd Hlen Hfmt. simpl ReachedFaultLimit.
    destruct (rebootFaultRecord w) as [c|] eqn:Hrec.
    + rewrite (isRebootFaultRecFor_present a p w1 c Ho Hrd Hrec (Hlen c eq_refl) Hfmt).
      eexists; split; [reflexivity|].
      rewrite strcmp_eq_true. split.
      * intros H. exists c. split; [reflexivity|exact H].
      * intros (c' & [= <-] & H). exact H.
    + rewrite (isRebootFaultRecFor_absent a p w1 Ho Hrec).
      eexists; split; [reflexivity|].
      split; [discriminate|]. intros (c & Hc & _). discriminate Hc.
  - intros -> Hbad. simpl ReachedFaultLimit.
    apply isRebootFaultRecFor_unreadable. exact Hbad.
  - intros Hother. apply ReachedFaultLimit_other. exact Hother.
  - intros w2 Hreached.
    pose proof (ReachedFaultLimit_world _ _ _ _ _ _ _ Hreached) as ->.
    pose proof (exit_dispatch_reached a w procPid procExitStatus i po act e1
                  Hfind Hpo Hact Hreached) as Hd.
    destruct (sigchild_after_dispatch a w w1 procPid procExitStatus _ Hd Hk)
      as (a' & w' & evs & Hrun & Ht & Hl & Hrec).
    exists a', w', evs. split; [exact Hrun|].
    split; [rewrite Ht; unfold w1, after_call; cbn; rewrite <- app_assoc; reflexivity|].
    split; [exact Hl|exact Hrec].
  - intros Hnot Hfit restarted.
    destruct (exit_not_reached a w procPid procExitStatus i po act e1
                Hfind Hpo Hact Hk Hnot Hfit)
      as (fa & a' & w' & evs & Hrun & Ht & Htable).
    exists fa, a', w', evs. split; [exact Hrun|].
    split; [rewrite Ht; unfold w1, after_call; cbn; rewrite <- app_assoc; reflexivity|].
    exact Htable.
Qed.


(** *** Every arm of the watchdog handler *)

Lemma resolve_watchdog_action_too_long (a : App_t) (p : proc_Ref_t) (w : World Ext)
    (s : string) :
  proc_GetWatchdogAction (ext w) p = WATCHDOG_ACTION_NOT_FOUND
  \/ proc_GetWatchdogAction (ext w) p = WATCHDOG_ACTION_ERROR ->
  app_watchdog_key a w = Some s ->
  (LIMIT_MAX_FAULT_ACTION_NAME_BYTES <= String.length s)%nat ->
  resolve_watchdog_action a p w = Ret (WATCHDOG_ACTION_ERROR, w).
Proof.
  intros Hpa Hkey Hlen.
  assert (Hfallback :
    (appCfg <- le_cfg_CreateReadTxn (cfgPathRoot a) ;;
     let '(result, watchdogActionStr) :=
       le_cfg_GetString appCfg wdog_action_GetConfigNode
                        LIMIT_MAX_FAULT_ACTION_NAME_BYTES "" in
     if le_result_eqb result LE_OK
     then ret (wdog_action_EnumFromString watchdogActionStr)
     else ret WATCHDOG_ACTION_ERROR) w = Ret (WATCHDOG_ACTION_ERROR, w)).
  { unfold bind, le_cfg_CreateReadTxn, le_cfg_GetString. cbn [it_node].
    unfold app_watchdog_key in Hkey.
    destruct (child_node _ _) as [| b | s' | ch]; try discriminate Hkey.
    injection Hkey as ->. unfold copy_to_buf.
    destruct (_ <? _)%nat eqn:Hfit; [apply Nat.ltb_lt in Hfit; lia|]. reflexivity. }
  unfold resolve_watchdog_action, bind, query.
  destruct Hpa as [-> | ->]; exact Hfallback.
Qed.

Lemma watchdog_outcome_resolved (a : App_t) (w : World Ext) (procPid : Z)
    (actionOut : wdog_action_WatchdogAction_t) (i : nat) (po : ProcObj_t)
    (resolved : wdog_action_WatchdogAction_t) :
  let w0 := set_entered (entered w ++ ["app_WatchdogTimeoutHandler"]) w in
  find_pid (ext w) (procs a) procPid 0 = Some i ->
  procs a !! i = Some po ->
  resolve_watchdog_action a (procRef po) w0 = Ret (resolved, w0) ->
  watchdog_outcome a procPid actionOut i (procRef po) w resolved.
Proof.
  intros w0 Hfind Hpo Hres.
  pose proof (watchdog_handler_found a w procPid actionOut i po resolved Hfind Hpo Hres) as Hh.
  cbv zeta in Hh. fold w0 in Hh.
  destruct resolved; unfold watchdog_outcome; fold w0;
    try (rewrite Hh; reflexivity).
  - apply (watchdog_restart_arm a w procPid actionOut i po _ Hfind Hpo Hres). right. reflexivity.
  - apply (watchdog_restart_arm a w procPid actionOut i po _ Hfind Hpo Hres). left. reflexivity.
  - rewrite Hh. cbn [watchdog_switch]. unfold bind.
    destruct (StopProc_spec (procRef po) w0) as (w' & -> & Htr & _).
    exists w'. split; [reflexivity|exact Htr].
Qed.

(** Every arm of [app_WatchdogTimeoutHandler], for a pid of the
    application.  The watchdog action of the process decides, unless it is
    NotFound or Error; then the string under the application's key decides,
    as the watchdog module reads it, and a string too long for its buffer
    counts as Error; without a key the empty string is read.  The action so
    resolved is handled as [watchdog_outcome] says: only Stop, Restart and
    NotFound kill the process, only Restart and NotFound set its
    [stopHandler], and RestartApp, StopApp and Reboot are left to the
    caller. *)
Theorem watchdog_every_action (a : App_t) (w : World Ext) (procPid : Z)
    (actionOut : wdog_action_WatchdogAction_t) (i : nat) (po : ProcObj_t) :
  (0 < LIMIT_MAX_FAULT_ACTION_NAME_BYTES)%nat ->
  find_pid (ext w) (procs a) procPid 0 = Some i ->
  procs a !! i = Some po ->
  let p := procRef po in
  let procAction := proc_GetWatchdogAction (ext w) p in
  let outcome := watchdog_outcome a procPid actionOut i p w in
  (procAction <> WATCHDOG_ACTION_NOT_FOUND -> procAction <> WATCHDOG_ACTION_ERROR ->
   outcome procAction)
  /\ (procAction = WATCHDOG_ACTION_NOT_FOUND \/ procAction = WATCHDOG_ACTION_ERROR ->
      (forall s, app_watchdog_key a w = Some s ->
                 (String.length s < LIMIT_MAX_FAULT_ACTION_NAME_BYTES)%nat ->
                 outcome (wdog_action_EnumFromString s))
      /\ (forall s, app_watchdog_key a w = Some s ->
                    (LIMIT_MAX_FAULT_ACTION_NAME_BYTES <= String.length s)%nat ->
                    outcome WATCHDOG_ACTION_ERROR)
      /\ (app_watchdog_key a w = None -> outcome (wdog_action_EnumFromString ""))).
Proof.
  intros Hlim Hfind Hpo p procAction outcome.
  set (w0 := set_entered (entered w ++ ["app_WatchdogTimeoutHandler"]) w).
  destruct (resolve_watchdog_action_spec a p w0 Hlim) as (resolved & Hres & Hown & Hfall).
  change (proc_GetWatchdogAction (ext w0) p) with procAction in Hown, Hfall.
  change (app_watchdog_key a w0) with (app_watchdog_key a w) in Hfall.
  pose proof (watchdog_outcome_resolved a w procPid actionOut i po resolved Hfind Hpo Hres)
    as Hout. cbv zeta in Hout. fold p in Hout.
  split.
  - intros H1 H2. unfold outcome. rewrite <- (Hown H1 H2). exact Hout.
  - intros Hpa. destruct (Hfall Hpa) as (Hkey & Hnone). split; [|split].
    + intros s Hs Hfit. unfold outcome. rewrite <- (Hkey s Hs Hfit). exact Hout.
    + intros s Hs Hlong. unfold outcome.
      apply (watchdog_outcome_resolved a w procPid actionOut i po _ Hfind Hpo).
      apply (resolve_watchdog_action_too_long a p w0 s); assumption.
    + intros Hk. unfold outcome. rewrite <- (Hnone Hk). exact Hout.
Qed.


(** *** The processes [app_Start] starts *)

Lemma launches_rule_events (rules : list (string * string * string)) :
  launches (rule_events rules) = [] /\ group_signals (rule_events rules) = [].
Proof.
  induction rules as [|[[s p] o] rules [IH1 IH2]]; [split; reflexivity|].
  split; [exact IH1|exact IH2].
Qed.

Lemma launches_of_launches (a : App_t) (l : list ProcObj_t) :
  launches (map (fun po => Ev (launch_call a (procRef po))) l)
  = map (fun po => Ev (launch_call a (procRef po))) l
  /\ group_signals (map (fun po => Ev (launch_call a (procRef po))) l) = [].
Proof.
  induction l as [|po l [IH1 IH2]]; [split; reflexivity|]. split.
  - change (launches ([Ev (launch_call a (procRef po))]
                      ++ map (fun po => Ev (launch_call a (procRef po))) l)
            = [Ev (launch_call a (procRef po))]
              ++ map (fun po => Ev (launch_call a (procRef po))) l).
    rewrite launches_app, launches_launch, IH1. reflexivity.
  - cbn [map]. change (group_signals ([Ev (launch_call a (procRef po))]
                      ++ map (fun po => Ev (launch_call a (procRef po))) l) = []).
    rewrite group_signals_app, IH2. unfold launch_call. destruct (sandboxed a); reflexivity.
Qed.

Lemma start_procs_launches (fuel : nat) (a : App_t) (l : list ProcObj_t) :
  state a = APP_STATE_STOPPED ->
  forall w : World Ext,
    exists res w' k fns,
      start_procs fuel a l w = Ret (res, w')
      /\ extends w w' (map (fun po => Ev (launch_call a (procRef po))) (firstn k l)) fns
      /\ (k <= length l)%nat
      /\ (res = None /\ k = length l \/ res = Some a /\ (1 <= k)%nat)
      /\ Forall (fun fn => fn = "StartProc" \/ fn = "app_Stop") fns.
Proof.
  intros Hs. induction l as [|po l IH]; intros w.
  - exists None, w, 0%nat, []. split; [reflexivity|]. split; [apply extends_refl|].
    split; [reflexivity|]. split; [left; split; reflexivity|constructor].
  - cbn [start_procs]. unfold bind at 1. rewrite StartProc_launch.
    set (w1 := after_call (launch_call a (procRef po))
                 (snd (perform (launch_call a (procRef po)) (ext w)))
                 (set_entered (entered w ++ ["StartProc"]) w)).
    assert (Hext1 : extends w w1 [Ev (launch_call a (procRef po))] ["StartProc"]).
    { unfold extends, same_store. cbn. repeat split. }
    destruct (le_result_eqb _ LE_OK); cbn [negb].
    + destruct (IH w1) as (res & w' & k & fns & -> & Hext2 & Hk & Hres & Hfns).
      exists res, w', (S k), (["StartProc"] ++ fns).
      split; [reflexivity|]. split; [exact (extends_trans _ _ _ _ _ _ _ Hext1 Hext2)|].
      split; [cbn; lia|]. split.
      * destruct Hres as [[-> ->] | [-> Hk1]]; [left; split; reflexivity|right; split; [reflexivity|lia]].
      * constructor; [left; reflexivity|exact Hfns].
    + unfold bind. rewrite (app_Stop_stopped fuel a w1 Hs).
      exists (Some a), (set_entered (entered w1 ++ ["app_Stop"]) w1), 1%nat,
             ["StartProc"; "app_Stop"].
      split; [reflexivity|]. split.
      { unfold extends, same_store. cbn. rewrite <- app_assoc. repeat split. }
      split; [cbn; lia|]. split; [right; split; [reflexivity|lia]|].
      constructor; [left; reflexivity|]. constructor; [right; reflexivity|constructor].
Qed.

(** The processes [app_Start] starts.  On an application that is not
    running, [app_Start] returns, and the calls it made to start a process
    are one for each process object of a front part of the application's
    list, in the order of the list, each as [StartProc] makes it (in the
    sandbox, with the application's ids, groups and sandbox path, or from
    the install path); on success the front part is the whole list: every
    process is started exactly once.  Whatever the result, no signal was
    sent to the application's cgroup and neither [KillAppProcs] nor
    [CleanupApp] was entered: when a process cannot be started, those
    started before it are left as they are.  On failure the application
    object is unchanged. *)
Theorem app_Start_launches (fuel : nat) (a : App_t) (w : World Ext) :
  state a = APP_STATE_STOPPED ->
  exists r a' w' evs fns k,
    app_Start fuel a w = Ret (r, a', w')
    /\ trace w' = trace w ++ evs
    /\ entered w' = entered w ++ fns
    /\ launches evs = map (fun po => Ev (launch_call a (procRef po))) (firstn k (procs a))
    /\ (r = LE_OK ->
        launches evs = map (fun po => Ev (launch_call a (procRef po))) (procs a))
    /\ group_signals evs = []
    /\ ~ In "KillAppProcs" fns /\ ~ In "CleanupApp" fns
    /\ (r <> LE_OK -> a' = a).
Proof.
  intros Hs. unfold app_Start. unfold bind at 1.
  destruct (enter_extends "app_Start" w) as (w0 & -> & Hext0 & He0).
  rewrite Hs. unfold bind at 1.
  assert (Hsand : exists sres wa evsa,
            (if sandboxed a then do_call (SandboxSetup (name a)) else ret LE_OK) w0
            = Ret (sres, wa)
            /\ extends w0 wa evsa [] /\ launches evsa = [] /\ group_signals evsa = []).
  { destruct (sandboxed a).
    - destruct (do_call_extends (SandboxSetup (name a)) w0) as (r & wa & -> & Hext & Hp).
      exists r, wa, [Ev (SandboxSetup (name a))]. repeat split; apply Hext.
    - exists LE_OK, w0, []. split; [reflexivity|]. split; [apply extends_refl|].
      split; reflexivity. }
  destruct Hsand as (sres & wa & evsa & -> & Hexta & Hla & Hga).
  pose proof (extends_trans _ _ _ _ _ _ _ Hext0 Hexta) as Hext_a. cbn [app] in Hext_a.
  assert (Hnone : ~ In "KillAppProcs" ["app_Start"] /\ ~ In "CleanupApp" ["app_Start"]).
  { split; intros [H | []]; discriminate H. }
  destruct (le_result_eqb sres LE_OK) eqn:Hsres; cbn [negb].
  2:{ exists LE_FAULT, a, wa, evsa, ["app_Start"], 0%nat. split; [reflexivity|].
      split; [apply Hext_a|]. split; [apply Hext_a|]. split; [exact Hla|].
      split; [discriminate|]. split; [exact Hga|]. split; [apply Hnone|].
      split; [apply Hnone|reflexivity]. }
  unfold bind at 1.
  destruct (do_call_extends (ResLimSetAppLimits (name a)) wa) as (lres & wb & -> & Hextb & Hpb).
  pose proof (extends_trans _ _ _ _ _ _ _ Hext_a Hextb) as Hext_b. cbn [app] in Hext_b.
  destruct (le_result_eqb lres LE_OK) eqn:Hlr; cbn [negb].
  2:{ exists LE_FAULT, a, wb, (evsa ++ [Ev (ResLimSetAppLimits (name a))]), ["app_Start"],
             0%nat.
      split; [reflexivity|]. split; [apply Hext_b|]. split; [apply Hext_b|].
      split; [rewrite launches_app, Hla; reflexivity|]. split; [discriminate|].
      split; [rewrite group_signals_app, Hga; reflexivity|].
      split; [apply Hnone|]. split; [apply Hnone|reflexivity]. }
  unfold bind at 1.
  destruct (SetSmackRules_returns a wb) as (wc & rules & Hsmack & Hextc).
  rewrite Hsmack. cbn [le_result_eqb negb]. unfold bind at 1.
  destruct (launches_rule_events rules) as (Hlr1 & Hlr2).
  destruct (start_procs_launches fuel a (procs a) Hs wc)
    as (res & wd & k & fnsd & -> & Hextd & Hk & Hres & Hfns).
  pose proof (extends_trans _ _ _ _ _ _ _
                (extends_trans _ _ _ _ _ _ _ Hext_b Hextc) Hextd) as Hext_d.
  cbn [app] in Hext_d.
  destruct (launches_of_launches a (firstn k (procs a))) as (Hll & Hlg).
  assert (Hl : launches (((evsa ++ [Ev (ResLimSetAppLimits (name a))]) ++ rule_events rules)
                         ++ map (fun po => Ev (launch_call a (procRef po)))
                                (firstn k (procs a)))
               = map (fun po => Ev (launch_call a (procRef po))) (firstn k (procs a))).
  { rewrite !launches_app, Hla, Hlr1, Hll. reflexivity. }
  assert (Hg : group_signals (((evsa ++ [Ev (ResLimSetAppLimits (name a))])
                               ++ rule_events rules)
                              ++ map (fun po => Ev (launch_call a (procRef po)))
                                     (firstn k (procs a))) = []).
  { rewrite !group_signals_app, Hga, Hlr2, Hlg. reflexivity. }
  assert (Hfn : ~ In "KillAppProcs" ("app_Start" :: fnsd)
                /\ ~ In "CleanupApp" ("app_Start" :: fnsd)).
  { rewrite Forall_forall in Hfns. split; intros [H | H]; try discriminate H;
      apply list_elem_of_In in H; destruct (Hfns _ H) as [H' | H']; discriminate H'. }
  destruct Hres as [[-> ->] | [-> Hk1]].
  - eexists LE_OK, (set_state APP_STATE_RUNNING a), wd, _, _, (length (procs a)).
    split; [reflexivity|]. split; [apply Hext_d|]. split; [apply Hext_d|].
    split; [exact Hl|]. split; [intros _; rewrite Hl, firstn_all; reflexivity|].
    split; [exact Hg|]. split; [apply Hfn|]. split; [apply Hfn|]. intros H. congruence.
  - eexists LE_FAULT, a, wd, _, _, k.
    split; [reflexivity|]. split; [apply Hext_d|]. split; [apply Hext_d|].
    split; [exact Hl|]. split; [discriminate|].
    split; [exact Hg|]. split; [apply Hfn|]. split; [apply Hfn|reflexivity].
Qed.

(** A second [app_Start] is refused.  After [app_Start] has succeeded,
    another [app_Start] returns [LE_FAULT] and does nothing: the
    application object is unchanged and no call is made. *)
Theorem app_Start_twice (fuel fuel' : nat) (a a' : App_t) (w w' : World Ext) :
  app_Start fuel a w = Ret (LE_OK, a', w') ->
  app_Start fuel' a' w'
  = Ret (LE_FAULT, a', set_entered (entered w' ++ ["app_Start"]) w').
Proof.
  intros Hrun.
  assert (Hst : state a' = APP_STATE_RUNNING).
  { destruct (state a) eqn:Hs.
    - destruct (app_Start_spec fuel a w Hs) as (r & a1 & w1 & evs & fns & Hrun1 & _ & Hcases).
      rewrite Hrun in Hrun1. injection Hrun1 as <- <- <-.
      destruct Hcases as [(_ & H & _) | [(_ & _ & H & _) | [(_ & _ & H & _)
                         | (_ & _ & _ & -> & _)]]]; try discriminate H.
      reflexivity.
    - unfold app_Start, bind, enter in Hrun. rewrite Hs in Hrun. discriminate Hrun. }
  unfold app_Start, bind, enter. rewrite Hst. reflexivity.
Qed.


(** *** The order of the calls of [KillAppProcs] *)

Lemma ext_after_app (e : Ext) (evs1 evs2 : list event) :
  ext_after e (evs1 ++ evs2) = ext_after (ext_after e evs1) evs2.
Proof.
  revert e. induction evs1 as [|[R c] evs1 IH]; intros e; [reflexivity|]. cbn. apply IH.
Qed.

Lemma do_call_ext {R} (c : call R) (w : World Ext) :
  exists r w', do_call c w = Ret (r, w') /\ extends w w' [Ev c] []
               /\ r = fst (perform c (ext w)) /\ ext w' = ext_after (ext w) [Ev c].
Proof.
  destruct (do_call_extends c w) as (r & w' & Hrun & Hext & Hp).
  exists r, w'. split; [exact Hrun|]. split; [exact Hext|].
  cbn [ext_after]. rewrite Hp. split; reflexivity.
Qed.

Lemma wait_frozen_polls (fuel : nat) (appName : string) :
  forall w : World Ext,
    frozen_within fuel appName (ext w) ->
    exists w' polls,
      wait_frozen fuel appName w = Ret (tt, w')
      /\ extends w w' polls []
      /\ Forall (is_freeze_poll appName) polls
      /\ ext w' = ext_after (ext w) polls.
Proof.
  induction fuel as [|fuel IH]; intros w Hf; [destruct Hf|].
  cbn [wait_frozen frozen_within] in *. unfold bind.
  destruct (do_call_ext (CgrpFrzGetState appName) w) as (st & w1 & -> & Hext & Hst & He).
  rewrite <- Hst in Hf.
  assert (Hone : Forall (is_freeze_poll appName) [Ev (CgrpFrzGetState appName)])
    by (constructor; [reflexivity|constructor]).
  destruct st;
    try (exists w1, [Ev (CgrpFrzGetState appName)]; split; [reflexivity|];
         split; [exact Hext|]; split; [exact Hone|exact He]).
  assert (Hf1 : frozen_within fuel appName (ext w1)).
  { rewrite He. exact Hf. }
  destruct (IH w1 Hf1) as (w' & polls & -> & Hext2 & Hall & He2).
  exists w', ([Ev (CgrpFrzGetState appName)] ++ polls). split; [reflexivity|]. split.
  - change (@nil string) with (@nil string ++ @nil string).
    eapply extends_trans; eassumption.
  - split; [constructor; [reflexivity|exact Hall]|].
    rewrite ext_after_app, <- He. exact He2.
Qed.

Lemma notify_procs_events (l : list ProcObj_t) :
  forall w : World Ext,
    exists l' w',
      notify_procs l w = Ret (l', w')
      /\ extends w w' (notify_events (ext w) l) []
      /\ ext w' = ext_after (ext w) (notify_events (ext w) l).
Proof.
  induction l as [|po0 l IH]; intros w.
  - exists [], w. split; [reflexivity|]. split; [apply extends_refl|reflexivity].
  - cbn [notify_procs notify_events]. unfold bind at 1, query. unfold bind at 1.
    destruct (proc_GetState (ext w) (procRef po0)) eqn:Hst.
    + unfold ret at 1. unfold bind at 1.
      destruct (IH w) as (l' & w' & -> & Hext & He).
      eexists _, w'. split; [reflexivity|]. split; [exact Hext|exact He].
    + unfold bind at 1.
      destruct (do_call_ext (ProcStopping (procRef po0)) w) as ([] & w1 & -> & Hext1 & _ & He1).
      unfold ret at 1. unfold bind at 1.
      destruct (IH w1) as (l' & w' & -> & Hext & He).
      cbn [ext_after] in He1. rewrite He1 in Hext, He.
      eexists _, w'. split; [reflexivity|]. split.
      * change (@nil string) with (@nil string ++ @nil string).
        exact (extends_trans _ _ _ _ _ _ _ Hext1 Hext).
      * exact He.
    + unfold bind at 1.
      destruct (do_call_ext (ProcStopping (procRef po0)) w) as ([] & w1 & -> & Hext1 & _ & He1).
      unfold ret at 1. unfold bind at 1.
      destruct (IH w1) as (l' & w' & -> & Hext & He).
      cbn [ext_after] in He1. rewrite He1 in Hext, He.
      eexists _, w'. split; [reflexivity|]. split.
      * change (@nil string) with (@nil string ++ @nil string).
        exact (extends_trans _ _ _ _ _ _ _ Hext1 Hext).
      * exact He.
Qed.

(** The order of the calls of [KillAppProcs].  When the wait for the
    freezer ends, [KillAppProcs] returns, and the calls it made are, in this
    order: the request to freeze the cgroup; the polls of the freezer (none
    when the request was refused); for each process object whose process
    the launcher reports not stopped when its turn comes, the notice that
    the process is stopping; the signal, SIGTERM for a soft kill and SIGKILL
    for a hard one, sent once to the cgroup; and, only when the signal
    reached at least one process, the request to thaw the cgroup.  The
    result is [LE_OK] exactly when the signal reached a process, and
    [LE_NOT_FOUND] otherwise; then the cgroup is not thawed. *)
Theorem KillAppProcs_protocol (fuel : nat) (a : App_t) (killType : KillType_t)
    (w : World Ext) :
  freeze_ends fuel a w ->
  exists r a' w' polls,
    KillAppProcs fuel a killType w = Ret (r, a', w')
    /\ Forall (is_freeze_poll (name a)) polls
    /\ (fst (perform (CgrpFrzFreeze (name a)) (ext w)) <> LE_OK -> polls = [])
    /\ let frozen := [Ev (CgrpFrzFreeze (name a))] ++ polls in
       let notices := notify_events (ext_after (ext w) frozen) (procs a) in
       let signal := CgrpSendSig (name a) (kill_signal killType) in
       let reached := fst (perform signal (ext_after (ext w) (frozen ++ notices))) in
       trace w' = trace w ++ frozen ++ notices ++ [Ev signal]
                  ++ (if le_result_eqb r LE_OK then [Ev (CgrpFrzThaw (name a))] else [])
       /\ (r = LE_OK \/ r = LE_NOT_FOUND)
       /\ (r = LE_OK <-> exists n, reached = SENDSIG_COUNT n /\ n <> 0%Z).
Proof.
  intros Hfreeze. unfold KillAppProcs. unfold bind at 1.
  destruct (enter_extends "KillAppProcs" w) as (w0 & -> & Hext0 & He0).
  unfold bind at 1.
  destruct (do_call_ext (CgrpFrzFreeze (name a)) w0) as (fr & w1 & -> & Hext1 & Hfr & He1).
  rewrite He0 in Hfr, He1.
  unfold freeze_ends in Hfreeze. rewrite <- Hfr in Hfreeze.
  unfold bind at 1.
  assert (Hwait : exists w2 polls,
            (if le_result_eqb fr LE_OK then wait_frozen fuel (name a) else ret tt) w1
            = Ret (tt, w2)
            /\ extends w1 w2 polls []
            /\ Forall (is_freeze_poll (name a)) polls
            /\ ext w2 = ext_after (ext w1) polls
            /\ (fr <> LE_OK -> polls = [])).
  { destruct (le_result_eqb fr LE_OK) eqn:Hfrb.
    - apply le_result_eqb_eq in Hfrb.
      assert (Hf : frozen_within fuel (name a) (ext w1)).
      { rewrite He1. exact (Hfreeze Hfrb). }
      destruct (wait_frozen_polls fuel (name a) w1 Hf) as (w2 & polls & -> & Hext & Hall & He).
      exists w2, polls. split; [reflexivity|]. split; [exact Hext|]. split; [exact Hall|].
      split; [exact He|]. intros H. contradiction.
    - exists w1, []. split; [reflexivity|]. split; [apply extends_refl|].
      split; [constructor|]. split; reflexivity. }
  destruct Hwait as (w2 & polls & -> & Hext2 & Hpolls & He2 & Hnone). unfold bind at 1.
  rewrite Hfr in Hnone.
  destruct (notify_procs_events (procs a) w2) as (l' & w3 & -> & Hext3 & He3).
  unfold bind at 1. cbn [name set_procs].
  change (match killType with KILL_SOFT => SIGTERM | KILL_HARD => SIGKILL end)
    with (kill_signal killType).
  destruct (do_call_ext (CgrpSendSig (name a) (kill_signal killType)) w3)
    as (np & w4 & -> & Hext4 & Hnp & He4).
  assert (He2' : ext w2 = ext_after (ext w) ([Ev (CgrpFrzFreeze (name a))] ++ polls)).
  { rewrite ext_after_app, <- He1. exact He2. }
  assert (He3' : ext w3 = ext_after (ext w)
                   (([Ev (CgrpFrzFreeze (name a))] ++ polls)
                    ++ notify_events
                         (ext_after (ext w) ([Ev (CgrpFrzFreeze (name a))] ++ polls))
                         (procs a))).
  { rewrite ext_after_app, <- He2'. exact He3. }
  rewrite He2' in Hext3. rewrite He3' in Hnp.
  pose proof (extends_trans _ _ _ _ _ _ _
               (extends_trans _ _ _ _ _ _ _
                 (extends_trans _ _ _ _ _ _ _
                   (extends_trans _ _ _ _ _ _ _ Hext0 Hext1) Hext2) Hext3) Hext4) as Hext.
  destruct Hext as (Htr & _).
  assert (Htr' : trace w4
                 = trace w ++ ([Ev (CgrpFrzFreeze (name a))] ++ polls)
                   ++ notify_events
                        (ext_after (ext w) ([Ev (CgrpFrzFreeze (name a))] ++ polls))
                        (procs a)
                   ++ [Ev (CgrpSendSig (name a) (kill_signal killType))]).
  { rewrite Htr. cbn [app]. rewrite <- !app_assoc. reflexivity. }
  destruct np as [|n].
  - eexists LE_NOT_FOUND, _, w4, polls. split; [reflexivity|]. split; [exact Hpolls|].
    split; [exact Hnone|]. cbv zeta. cbn [le_result_eqb]. split.
    + rewrite Htr', app_nil_r. reflexivity.
    + split; [right; reflexivity|]. split; [discriminate|].
      intros (n & Hn & _). rewrite <- Hnp in Hn. discriminate Hn.
  - destruct (n =? 0)%Z eqn:Hn0.
    + eexists LE_NOT_FOUND, _, w4, polls. split; [reflexivity|]. split; [exact Hpolls|].
      split; [exact Hnone|]. cbv zeta. cbn [le_result_eqb]. split.
      * rewrite Htr', app_nil_r. reflexivity.
      * split; [right; reflexivity|]. split; [discriminate|].
        intros (n' & Hn & Hne). rewrite <- Hnp in Hn. injection Hn as <-.
        apply Z.eqb_eq in Hn0. contradiction.
    + unfold bind.
      destruct (do_call_ext (CgrpFrzThaw (name a)) w4) as (tr & w5 & -> & Hext5 & _).
      eexists LE_OK, _, w5, polls. split; [reflexivity|]. split; [exact Hpolls|].
      split; [exact Hnone|]. cbv zeta. cbn [le_result_eqb]. split.
      * destruct Hext5 as (-> & _). rewrite Htr', <- !app_assoc. reflexivity.
      * split; [left; reflexivity|]. split; [|reflexivity].
        intros _. exists n. split; [symmetry; exact Hnp|]. apply Z.eqb_neq. exact Hn0.
Qed.


(** *** The slots after a kill *)

Lemma notify_procs_cleared (l : list ProcObj_t) (w : World Ext) :
  exists l' w',
    notify_procs l w = Ret (l', w')
    /\ extends w w' (notify_events (ext w) l) []
    /\ length l' = length l
    /\ forall i po e,
         l !! i = Some po ->
         states_when_asked (ext w) l !! i = Some e ->
         exists po', l' !! i = Some po'
                     /\ (proc_GetState e (procRef po) = PROC_STATE_STOPPED -> po' = po)
                     /\ (proc_GetState e (procRef po) <> PROC_STATE_STOPPED ->
                         stopHandler po' = None).
Proof.
  destruct (notify_procs_events l w) as (l' & w' & Hrun & Hext & _).
  destruct (notify_procs_spec l w) as (l2 & w2 & evs & Hrun2 & _ & _ & Hlen & Hall).
  rewrite Hrun in Hrun2. injection Hrun2 as <- <-.
  exists l', w'. split; [exact Hrun|]. split; [exact Hext|]. split; [exact Hlen|].
  intros i po e Hpo He. destruct (Hall i po e Hpo He) as (po' & Hpo' & _ & Hkeep & Hclear).
  exists po'. split; [exact Hpo'|]. split; assumption.
Qed.

(** [KillAppProcs] returns when the wait for the freezer ends, and has then
    cleared the slot of every process that was not stopped when the
    launcher was asked, in the state the freeze and its polls left. *)
Lemma KillAppProcs_clears (fuel : nat) (a : App_t) (killType : KillType_t) (w : World Ext) :
  freeze_ends fuel a w ->
  exists r a' w',
    KillAppProcs fuel a killType w = Ret (r, a', w')
    /\ (r = LE_OK \/ r = LE_NOT_FOUND)
    /\ a' = set_procs (procs a') a
    /\ same_store w w'
    /\ entered w' = entered w ++ ["KillAppProcs"]
    /\ kill_clears_slots a w killType a' w'.
Proof.
  intros Hfreeze. unfold KillAppProcs. unfold bind at 1.
  destruct (enter_extends "KillAppProcs" w) as (w0 & -> & Hext0 & He0).
  unfold bind at 1.
  destruct (do_call_ext (CgrpFrzFreeze (name a)) w0) as (fr & w1 & -> & Hext1 & Hfr & He1).
  rewrite He0 in Hfr, He1.
  unfold freeze_ends in Hfreeze. rewrite <- Hfr in Hfreeze.
  unfold bind at 1.
  assert (Hwait : exists w2 polls,
            (if le_result_eqb fr LE_OK then wait_frozen fuel (name a) else ret tt) w1
            = Ret (tt, w2)
            /\ extends w1 w2 polls []
            /\ Forall (is_freeze_poll (name a)) polls
            /\ ext w2 = ext_after (ext w1) polls).
  { destruct (le_result_eqb fr LE_OK) eqn:Hfrb.
    - apply le_result_eqb_eq in Hfrb.
      assert (Hf : frozen_within fuel (name a) (ext w1)).
      { rewrite He1. exact (Hfreeze Hfrb). }
      destruct (wait_frozen_polls fuel (name a) w1 Hf) as (w2 & polls & -> & Hext & Hall & He).
      exists w2, polls. split; [reflexivity|]. split; [exact Hext|]. split; [exact Hall|exact He].
    - exists w1, []. split; [reflexivity|]. split; [apply extends_refl|].
      split; [constructor|reflexivity]. }
  destruct Hwait as (w2 & polls & -> & Hext2 & Hpolls & He2). unfold bind at 1.
  destruct (notify_procs_cleared (procs a) w2) as (l' & w3 & -> & Hext3 & Hlen & Hall).
  unfold bind at 1. cbn [name set_procs].
  change (match killType with KILL_SOFT => SIGTERM | KILL_HARD => SIGKILL end)
    with (kill_signal killType).
  destruct (do_call_ext (CgrpSendSig (name a) (kill_signal killType)) w3)
    as (np & w4 & -> & Hext4 & _ & _).
  assert (He2' : ext w2 = ext_after (ext w) ([Ev (CgrpFrzFreeze (name a))] ++ polls)).
  { rewrite ext_after_app, <- He1. exact He2. }
  rewrite He2' in Hext3, Hall.
  pose proof (extends_trans _ _ _ _ _ _ _
               (extends_trans _ _ _ _ _ _ _
                 (extends_trans _ _ _ _ _ _ _
                   (extends_trans _ _ _ _ _ _ _ Hext0 Hext1) Hext2) Hext3) Hext4) as Hext.
  destruct Hext as (Htr & Hen & Hst).
  assert (Htr' : trace w4
                 = trace w ++ ([Ev (CgrpFrzFreeze (name a))] ++ polls)
                   ++ notify_events
                        (ext_after (ext w) ([Ev (CgrpFrzFreeze (name a))] ++ polls))
                        (procs a)
                   ++ [Ev (CgrpSendSig (name a) (kill_signal killType))]).
  { rewrite Htr. cbn [app]. rewrite <- !app_assoc. reflexivity. }
  assert (Hslots : forall i po e,
            procs a !! i = Some po ->
            states_when_asked (ext_after (ext w) ([Ev (CgrpFrzFreeze (name a))] ++ polls))
              (procs a) !! i = Some e ->
            (proc_GetState e (procRef po) <> PROC_STATE_STOPPED ->
             stopHandler_at (set_procs l' a) i = None)
            /\ (proc_GetState e (procRef po) = PROC_STATE_STOPPED ->
                stopHandler_at (set_procs l' a) i = stopHandler po)).
  { intros i po e Hpo He. destruct (Hall i po e Hpo He) as (po' & Hpo' & Hkeep & Hclear).
    unfold stopHandler_at. cbn [procs set_procs]. rewrite Hpo'. split.
    - exact Hclear.
    - intros Hs. rewrite (Hkeep Hs). reflexivity. }
  assert (Hen' : entered w4 = entered w ++ ["KillAppProcs"]).
  { rewrite Hen. reflexivity. }
  assert (Hdone : forall rest (w5 : World Ext),
            trace w5 = trace w4 ++ rest ->
            kill_clears_slots a w killType (set_procs l' a) w5).
  { intros rest w5 H5. exists polls, rest. split; [exact Hpolls|]. cbv zeta.
    split; [rewrite H5, Htr', <- !app_assoc; reflexivity|].
    split; [exact Hlen|exact Hslots]. }
  destruct np as [|n].
  - exists LE_NOT_FOUND, (set_procs l' a), w4. split; [reflexivity|].
    split; [right; reflexivity|]. split; [reflexivity|]. split; [exact Hst|].
    split; [exact Hen'|]. apply (Hdone []). rewrite app_nil_r. reflexivity.
  - destruct (n =? 0)%Z.
    + exists LE_NOT_FOUND, (set_procs l' a), w4. split; [reflexivity|].
      split; [right; reflexivity|]. split; [reflexivity|]. split; [exact Hst|].
      split; [exact Hen'|]. apply (Hdone []). rewrite app_nil_r. reflexivity.
    + unfold bind.
      destruct (do_call_ext (CgrpFrzThaw (name a)) w4) as (tr & w5 & -> & Hext5 & _).
      destruct Hext5 as (Htr5 & Hen5 & Hst5).
      exists LE_OK, (set_procs l' a), w5. split; [reflexivity|].
      split; [left; reflexivity|]. split; [reflexivity|].
      split; [exact (same_store_trans _ _ _ Hst Hst5)|].
      split; [rewrite Hen5, Hen', app_nil_r; reflexivity|].
      exact (Hdone _ w5 Htr5).
Qed.

Lemma kill_clears_slots_later (a a1 a' : App_t) (w w1 w' : World Ext)
    (killType : KillType_t) (rest : list event) :
  kill_clears_slots a w killType a1 w1 ->
  procs a' = procs a1 ->
  trace w' = trace w1 ++ rest ->
  kill_clears_slots a w killType a' w'.
Proof.
  intros (polls & rest1 & Hpolls & Htr & Hlen & Hall) Hp Ht.
  exists polls, (rest1 ++ rest). split; [exact Hpolls|]. cbv zeta in *.
  split; [rewrite Ht, Htr, <- !app_assoc; reflexivity|].
  split; [rewrite Hp; exact Hlen|].
  unfold stopHandler_at in *. rewrite Hp. exact Hall.
Qed.

(** A soft kill by [app_Stop] on a running application, and a hard kill,
    return when the wait for the freezer ends, and clear the slots. *)
Lemma app_Stop_clears (fuel : nat) (a : App_t) (w : World Ext) :
  freeze_ends fuel a w ->
  state a = APP_STATE_RUNNING ->
  kill_timer_valid a w ->
  exists a' w', app_Stop fuel a w = Ret (a', w') /\ kill_clears_slots a w KILL_SOFT a' w'.
Proof.
  intros Hfreeze Hs Hk.
  set (w0 := set_entered (entered w ++ ["app_Stop"]) w).
  assert (Hfreeze0 : freeze_ends fuel a w0) by exact Hfreeze.
  destruct (KillAppProcs_clears fuel a KILL_SOFT w0 Hfreeze0)
    as (r & a1 & w1 & Hkill & Hr & Ha1 & Hst & _ & Hclr).
  assert (Hclr0 : kill_clears_slots a w KILL_SOFT a1 w1) by exact Hclr.
  unfold app_Stop. rewrite Hs. unfold bind at 1, enter. fold w0.
  unfold bind at 1. rewrite Hkill.
  assert (Hkt1 : killTimer a1 = killTimer a) by (rewrite Ha1; reflexivity).
  destruct Hst as (_ & _ & _ & Htm & _).
  destruct Hr as [-> | ->]; cbn [le_result_eqb].
  - rewrite Hkt1. unfold kill_timer_valid in Hk.
    destruct (killTimer a) as [t0|] eqn:Hkt.
    + destruct Hk as [tm0 Htm0]. change (timers w0) with (timers w) in Htm.
      rewrite <- Htm in Htm0.
      unfold bind at 1. unfold ret at 1. rewrite Hkt1.
      unfold bind, le_timer_Start, with_stopped_timer. rewrite Htm0.
      destruct (tm_running tm0); eexists a1, _; (split; [reflexivity|]);
        apply (kill_clears_slots_later a a1 a1 w w1 _ KILL_SOFT [] Hclr0 eq_refl);
        rewrite app_nil_r; reflexivity.
    + unfold bind, le_timer_Create, le_timer_SetInterval, le_timer_SetContextPtr,
        le_timer_SetHandler, le_timer_Start, with_stopped_timer, LE_ASSERT, ret.
      cbn [timers set_timers set_timerCount killTimer set_killTimer tm_running tm_expiry
           le_result_eqb tm_name tm_handler tm_interval tm_context].
      repeat (rewrite lookup_insert_eq;
              cbn [timers set_timers set_timerCount killTimer set_killTimer tm_running
                   tm_expiry le_result_eqb tm_name tm_handler tm_interval tm_context]).
      eexists _, _. split; [reflexivity|].
      apply (kill_clears_slots_later a a1 _ w w1 _ KILL_SOFT [] Hclr0); [reflexivity|].
      rewrite app_nil_r. reflexivity.
  - unfold bind.
    destruct (CleanupApp_returns a1 w1) as (w2 & -> & Htr & _).
    eexists _, w2. split; [reflexivity|].
    apply (kill_clears_slots_later a a1 _ w w1 w2 KILL_SOFT (cleanup_calls a1) Hclr0);
      [reflexivity|exact Htr].
Qed.

Lemma HardKillApp_clears (fuel : nat) (a : App_t) (w : World Ext) :
  freeze_ends fuel a w ->
  exists a' w', HardKillApp fuel a w = Ret (a', w') /\ kill_clears_slots a w KILL_HARD a' w'.
Proof.
  intros Hfreeze.
  set (w0 := set_entered (entered w ++ ["HardKillApp"]) w).
  assert (Hfreeze0 : freeze_ends fuel a w0) by exact Hfreeze.
  destruct (KillAppProcs_clears fuel a KILL_HARD w0 Hfreeze0)
    as (r & a1 & w1 & Hkill & _ & _ & _ & _ & Hclr).
  exists a1, w1. split; [|exact Hclr].
  unfold HardKillApp. unfold bind at 1, enter. fold w0. unfold bind. rewrite Hkill.
  reflexivity.
Qed.



(** *** What [app_Stop] does to a running application *)

(** [app_Stop] on a running application.  When the wait for the freezer
    ends and the kill timer the application refers to exists, [app_Stop]
    returns after one soft kill.  When the soft kill found no process
    ([LE_NOT_FOUND]), the application is cleaned up at once and its state
    is Stopped; no timer is touched.  When it signalled a process
    ([LE_OK]), the state stays Running and nothing is cleaned up; the
    application has a kill timer, which is running; a timer that had to be
    created is the one for [HardKillApp] on this application, due 300
    milliseconds later; a timer the application had is used again. *)
Theorem app_Stop_running (fuel : nat) (a : App_t) (w : World Ext) :
  state a = APP_STATE_RUNNING ->
  kill_timer_valid a w ->
  freeze_ends fuel a w ->
  exists r a1 w1 a' w',
    KillAppProcs fuel a KILL_SOFT (set_entered (entered w ++ ["app_Stop"]) w)
    = Ret (r, a1, w1)
    /\ app_Stop fuel a w = Ret (a', w')
    /\ (r = LE_NOT_FOUND ->
        a' = set_state APP_STATE_STOPPED a1
        /\ trace w' = trace w1 ++ cleanup_calls a
        /\ timers w' = timers w)
    /\ (r = LE_OK ->
        state a' = APP_STATE_RUNNING
        /\ trace w' = trace w1
        /\ exists t tm,
             killTimer a' = Some t /\ timers w' !! t = Some tm /\ tm_running tm = true
             /\ (killTimer a = None ->
                 t = timerCount w
                 /\ tm_handler tm = Some Timer_HardKillApp
                 /\ tm_context tm = Some (name a)
                 /\ tm_expiry tm = Some (clock w + 300000)%Z)
             /\ (forall t0, killTimer a = Some t0 -> t = t0)).
Proof.
  intros Hs Hk Hfreeze.
  set (w0 := set_entered (entered w ++ ["app_Stop"]) w).
  assert (Hfreeze0 : freeze_ends fuel a w0) by exact Hfreeze.
  destruct (KillAppProcs_returns fuel a KILL_SOFT w0 Hfreeze0) as (r & a1 & w1 & Hkill).
  exists r, a1, w1.
  unfold app_Stop. rewrite Hs. unfold bind at 1, enter. fold w0.
  unfold bind at 1. rewrite Hkill.
  pose proof Hkill as Hspec.
  apply KillAppProcs_spec in Hspec as (evs & e0 & Hext1 & _ & Ha1 & Hr & _).
  assert (Hst : same_store w w1) by apply Hext1.
  assert (Hkt1 : killTimer a1 = killTimer a) by (rewrite Ha1; reflexivity).
  assert (Hn1 : name a1 = name a) by (rewrite Ha1; reflexivity).
  assert (Hs1 : state a1 = APP_STATE_RUNNING) by (rewrite Ha1; exact Hs).
  assert (Hcl : cleanup_calls a1 = cleanup_calls a) by (rewrite Ha1; reflexivity).
  destruct Hst as (_ & _ & _ & Htm & Hcount & Hclock).
  destruct Hr as [-> | ->]; cbn [le_result_eqb].
  - (* the signal reached a process *)
    rewrite Hkt1. unfold kill_timer_valid in Hk.
    destruct (killTimer a) as [t0|] eqn:Hkt.
    + destruct Hk as [tm0 Htm0]. rewrite <- Htm in Htm0.
      unfold bind at 1. unfold ret at 1. rewrite Hkt1.
      unfold bind, le_timer_Start, with_stopped_timer. rewrite Htm0.
      destruct (tm_running tm0) eqn:Hrun0.
      * eexists a1, w1. split; [reflexivity|]. split; [reflexivity|].
        split; [discriminate|]. intros _. split; [exact Hs1|]. split; [reflexivity|].
        exists t0, tm0. split; [exact Hkt1|]. split; [exact Htm0|]. split; [exact Hrun0|].
        split; [discriminate|]. intros t [= <-]. reflexivity.
      * eexists a1, _. split; [reflexivity|]. split; [reflexivity|].
        split; [discriminate|]. intros _. split; [exact Hs1|]. split; [reflexivity|].
        eexists t0, _. split; [exact Hkt1|]. cbn [timers set_timers].
        split; [apply lookup_insert_eq|]. split; [reflexivity|].
        split; [discriminate|]. intros t [= <-]. reflexivity.
    + unfold bind, le_timer_Create, le_timer_SetInterval, le_timer_SetContextPtr,
        le_timer_SetHandler, le_timer_Start, with_stopped_timer, LE_ASSERT, ret.
      cbn [timers set_timers set_timerCount killTimer set_killTimer tm_running tm_expiry
           le_result_eqb tm_name tm_handler tm_interval tm_context].
      repeat (rewrite lookup_insert_eq;
              cbn [timers set_timers set_timerCount killTimer set_killTimer tm_running
                   tm_expiry le_result_eqb tm_name tm_handler tm_interval tm_context]).
      eexists _, _. split; [reflexivity|]. split; [reflexivity|].
      split; [discriminate|]. intros _. split; [exact Hs1|]. split; [reflexivity|].
      eexists _, _. split; [reflexivity|]. cbn [timers set_timers].
      split; [apply lookup_insert_eq|]. split; [reflexivity|].
      split; [|discriminate]. intros _. split; [exact Hcount|].
      split; [reflexivity|]. split; [rewrite Hn1; reflexivity|].
      cbn [tm_expiry clock set_timers set_timerCount]. rewrite Hclock. reflexivity.
  - (* no process was found *)
    unfold bind.
    destruct (CleanupApp_returns a1 w1) as (w2 & -> & Htr & _ & Hst2).
    eexists _, w2. split; [reflexivity|]. split; [reflexivity|]. split.
    + intros _. split; [reflexivity|]. split; [rewrite Htr, Hcl; reflexivity|].
      destruct Hst2 as (_ & _ & _ & -> & _). exact Htm.
    + discriminate.
Qed.


(** *** What [app_Create] builds *)

Lemma create_procs_count (n : nat) :
  forall (it : le_cfg_Iterator) (a a' : App_t) (w w' : World Ext),
    create_procs n it a w = Ret (Some a', w') ->
    length (procs a') = (length (procs a) + S (length (it_siblings it)))%nat.
Proof.
  induction n as [|n IH]; intros it a a' w w' H; [discriminate H|].
  cbn [create_procs] in H.
  destruct (le_cfg_GetPath it LIMIT_MAX_PATH_BYTES) as [pres procCfgPath].
  destruct (le_result_eqb pres LE_OVERFLOW); [exfalso; exact (release_then_none _ _ _ _ H)|].
  apply bind_Ret in H as (created & w1 & _ & H).
  destruct created as [procPtr|]; [|exfalso; exact (release_then_none _ _ _ _ H)].
  unfold le_cfg_GoToNextSibling in H.
  destruct (it_siblings it) as [|[nn nc] rest] eqn:Hsib; cbn [le_result_eqb] in H.
  - injection H as <- _. cbn. rewrite length_app. reflexivity.
  - apply IH in H. rewrite H. cbn. rewrite length_app. cbn. lia.
Qed.

Lemma create_paths_and_procs_result (path : string) (a a' : App_t) (w0 w w' : World Ext) :
  create_paths_and_procs (mkIter path "" (cfgTree w0 path) []) a w = Ret (Some a', w') ->
  a' = set_procs (procs a')
         (set_sandboxPath
            (if sandboxed a then snd (sandbox_GetPath (name a) LIMIT_MAX_PATH_BYTES) else "")
            (set_installPath
               (snd (le_path_Concat "/" LIMIT_MAX_PATH_BYTES [APPS_INSTALL_DIR; name a])) a))
  /\ length (procs a') = (length (procs a) + length (config_procs path w0))%nat.
Proof.
  unfold create_paths_and_procs.
  destruct (le_path_Concat _ _ _) as [ires ipath]. cbn [snd].
  destruct (negb (le_result_eqb ires LE_OK));
    [intros H; exfalso; exact (release_then_none _ _ _ _ H)|].
  cbn [sandboxed set_installPath name].
  destruct (sandboxed a) eqn:Hsb.
  - destruct (sandbox_GetPath _ _) as [sres spath]. cbn [snd].
    destruct (negb (le_result_eqb sres LE_OK));
      [intros H; exfalso; exact (release_then_none _ _ _ _ H)|].
    unfold le_cfg_GoToFirstChild. rewrite le_cfg_GoToNode_node. cbn [it_node].
    unfold config_procs.
    destruct (child_node CFG_NODE_PROC_LIST (cfgTree w0 path))
      as [| b | s | [|[pn pc] rest]]; cbn [le_result_eqb];
      try (intros [= <- _]; cbn; split; [reflexivity|lia]).
    intros H. split.
    + apply create_procs_fields in H. rewrite H at 1. reflexivity.
    + apply create_procs_count in H. rewrite H. cbn. lia.
  - cbn [le_result_eqb negb].
    unfold le_cfg_GoToFirstChild. rewrite le_cfg_GoToNode_node. cbn [it_node].
    unfold config_procs.
    destruct (child_node CFG_NODE_PROC_LIST (cfgTree w0 path))
      as [| b | s | [|[pn pc] rest]]; cbn [le_result_eqb];
      try (intros [= <- _]; cbn; split; [reflexivity|lia]).
    intros H. split.
    + apply create_procs_fields in H. rewrite H at 1. reflexivity.
    + apply create_procs_count in H. rewrite H. cbn. lia.
Qed.

Lemma CreateSupplementaryGroups_fields (a a' : App_t) (w w' : World Ext) (r : le_result_t) :
  CreateSupplementaryGroups a w = Ret (r, a', w') ->
  a' = set_numSupplementGids (numSupplementGids a') (set_supplementGids (supplementGids a') a).
Proof.
  unfold CreateSupplementaryGroups. intros H.
  apply bind_Ret in H as (it & w2 & _ & H).
  destruct (le_cfg_GoToFirstChild _) as [fres it1].
  destruct (negb (le_result_eqb fres LE_OK)); [injection H as _ <- _; destruct a; reflexivity|].
  apply bind_Ret in H as ([res a2] & w3 & Hloop & H).
  apply groups_loop_fields in Hloop. unfold same_but_gids in Hloop.
  destruct res; injection H as _ <- _; rewrite Hloop; destruct a; reflexivity.
Qed.

Lemma CreateUserAndGroups_fields (a a' : App_t) (w w' : World Ext) :
  CreateUserAndGroups a w = Ret (LE_OK, a', w') ->
  let ids := fst (perform (UserGetIDs (snd (user_AppNameToUserName
                                              (name a) LIMIT_MAX_USER_NAME_BYTES))) (ext w)) in
  a' = set_numSupplementGids (numSupplementGids a')
         (set_supplementGids (supplementGids a')
            (set_gid (gid a') (set_uid (uid a') a)))
  /\ (sandboxed a = true -> uid a' = snd (fst ids) /\ gid a' = snd ids)
  /\ (sandboxed a = false -> uid a' = 0%Z /\ gid a' = 0%Z).
Proof.
  unfold CreateUserAndGroups. destruct (sandboxed a).
  - destruct (user_AppNameToUserName _ _) as [ures username]. cbn [snd].
    destruct (negb (le_result_eqb ures LE_OK)); [intros H; discriminate H|].
    intros H. apply bind_Ret in H as ([[ires u] g] & w1 & Hids & H).
    destruct (do_call_extends (UserGetIDs username) w) as (ids' & w1' & Hids' & _ & Hp).
    rewrite Hids in Hids'. injection Hids' as <- <-. rewrite Hp. cbn [fst snd].
    destruct (negb (le_result_eqb ires LE_OK)); [discriminate H|].
    apply CreateSupplementaryGroups_fields in H.
    assert (Hu : uid a' = u) by (rewrite H; reflexivity).
    assert (Hg : gid a' = g) by (rewrite H; reflexivity).
    split.
    + rewrite Hu, Hg. exact H.
    + split; [|discriminate]. intros _. split; assumption.
  - intros [= <- _]. split; [destruct a; reflexivity|].
    split; [discriminate|]. intros _. split; reflexivity.
Qed.

(** What [app_Create] builds.  The application object it returns has the
    config path it was given, the last part of that path as its name, the
    state Stopped, no kill timer, the sandboxed flag of the configuration
    (true when there is none), the install path and the sandbox path as the
    path helpers form them from the name (the empty sandbox path when it is
    not sandboxed), the ids the user module gave for the user of the
    application (0 and 0 when it is not sandboxed), and one process object
    for each child of the [procs] node of the configuration. *)
Theorem app_Create_fields (path : string) (w w' : World Ext) (a' : App_t) :
  app_Create path w = Ret (Some a', w') ->
  let appName := le_path_GetBasenamePtr path "/" in
  let username := snd (user_AppNameToUserName appName LIMIT_MAX_USER_NAME_BYTES) in
  let ids := fst (perform (UserGetIDs username)
                          (snd (perform LeMemForceAlloc_App (ext w)))) in
  app_GetConfigPath a' = path
  /\ app_GetName a' = appName
  /\ app_GetState a' = APP_STATE_STOPPED
  /\ killTimer a' = None
  /\ app_GetIsSandboxed a' = config_sandboxed path w
  /\ app_GetInstallDirPath a'
     = snd (le_path_Concat "/" LIMIT_MAX_PATH_BYTES [APPS_INSTALL_DIR; appName])
  /\ (config_sandboxed path w = true ->
      app_GetSandboxPath a' = snd (sandbox_GetPath appName LIMIT_MAX_PATH_BYTES)
      /\ app_GetUid a' = snd (fst ids) /\ app_GetGid a' = snd ids)
  /\ (config_sandboxed path w = false ->
      app_GetSandboxPath a' = "" /\ app_GetUid a' = 0%Z /\ app_GetGid a' = 0%Z)
  /\ length (procs a') = length (config_procs path w).
Proof.
  intros Hrun appName username ids.
  destruct (perform LeMemForceAlloc_App (ext w)) as [blk e0] eqn:Halloc.
  cbn [snd] in ids.
  destruct (Nat.ltb (String.length path) LIMIT_MAX_PATH_BYTES) eqn:Hpath.
  2:{ exfalso. unfold app_Create in Hrun. unfold bind at 1 in Hrun.
      rewrite (do_call_eq _ _ _ _ Halloc) in Hrun.
      unfold copy_to_buf in Hrun. rewrite Hpath in Hrun. cbn [le_result_eqb negb] in Hrun.
      exact (release_then_none _ _ _ _ Hrun). }
  apply Nat.ltb_lt in Hpath.
  rewrite (app_Create_eq path w blk e0 Halloc Hpath) in Hrun.
  set (a1 := set_sandboxed (config_sandboxed path w) (create_init blk path)) in *.
  set (w0 := after_call LeMemForceAlloc_App e0 w) in *.
  apply bind_Ret in Hrun as ([ures a2] & w2 & Hcug & Hfin). cbn [fst snd] in Hfin.
  destruct ures; cbn [le_result_eqb negb] in Hfin;
    try (exfalso; exact (release_then_none _ _ _ _ Hfin)).
  apply CreateUserAndGroups_fields in Hcug as (Ha2 & Hsb & Hns).
  change (ext w0) with e0 in Hsb. change (name a1) with appName in Hsb.
  fold username in Hsb. fold ids in Hsb.
  apply create_paths_and_procs_result in Hfin as (Hfin & Hlen).
  assert (Hname2 : name a2 = appName) by (rewrite Ha2; reflexivity).
  assert (Hsb2 : sandboxed a2 = config_sandboxed path w) by (rewrite Ha2; reflexivity).
  assert (Hp2 : procs a2 = []) by (rewrite Ha2; reflexivity).
  rewrite Hname2, Hsb2 in Hfin. rewrite Hp2 in Hlen.
  unfold app_GetConfigPath, app_GetName, app_GetState, app_GetIsSandboxed,
    app_GetInstallDirPath, app_GetSandboxPath, app_GetUid, app_GetGid.
  rewrite Hfin. cbn [cfgPathRoot name state killTimer sandboxed installPath sandboxPath uid gid
                     procs set_procs set_sandboxPath set_installPath].
  rewrite Ha2. cbn.
  split; [reflexivity|]. split; [reflexivity|]. split; [reflexivity|].
  split; [reflexivity|]. split; [reflexivity|]. split; [reflexivity|]. split; [|split].
  - intros Htrue. rewrite Htrue. split; [reflexivity|]. apply Hsb. exact Htrue.
  - intros Hfalse. rewrite Hfalse. split; [reflexivity|]. apply Hns. exact Hfalse.
  - rewrite Hlen. reflexivity.
Qed.


(** *** The processes and the block of [app_Create] and [app_Delete] *)

Lemma created_refs_app (e : Ext) (evs1 evs2 : list event) :
  created_refs e (evs1 ++ evs2)
  = created_refs e evs1 ++ created_refs (ext_after e evs1) evs2.
Proof.
  revert e. induction evs1 as [|[R c] evs1 IH]; intros e; [reflexivity|].
  cbn. rewrite IH, app_assoc. reflexivity.
Qed.

Lemma accounts_refl (w : World Ext) : accounts w w [] [] [] [].
Proof. unfold accounts. rewrite app_nil_r. repeat split. Qed.

Lemma accounts_trans (w1 w2 w3 : World Ext) evs1 evs2 c1 c2 d1 d2 r1 r2 :
  accounts w1 w2 evs1 c1 d1 r1 -> accounts w2 w3 evs2 c2 d2 r2 ->
  accounts w1 w3 (evs1 ++ evs2) (c1 ++ c2) (d1 ++ d2) (r1 ++ r2).
Proof.
  intros (Ht1 & He1 & Hc1 & Hd1 & Hr1) (Ht2 & He2 & Hc2 & Hd2 & Hr2).
  unfold accounts. rewrite Ht2, Ht1, He2, He1, app_assoc, ext_after_app, created_refs_app.
  rewrite Hc1, <- He1, Hc2. unfold proc_deletes, releases in *.
  rewrite !omap_app, Hd1, Hd2, Hr1, Hr2. repeat split.
Qed.

Lemma do_call_accounts {R} (c : call R) (w : World Ext) :
  exists r w',
    do_call c w = Ret (r, w')
    /\ r = fst (perform c (ext w))
    /\ accounts w w' [Ev c] (created_by c r) (proc_deletes [Ev c]) (releases [Ev c])
    /\ same_store w w'.
Proof.
  destruct (do_call_ext c w) as (r & w' & Hrun & Hext & Hr & He).
  exists r, w'. split; [exact Hrun|]. split; [exact Hr|]. split; [|apply Hext].
  unfold accounts. split; [apply Hext|]. split; [exact He|].
  cbn [created_refs]. rewrite <- Hr, app_nil_r. repeat split.
Qed.

Lemma groups_loop_accounts (n : nat) :
  forall (i : nat) (it : le_cfg_Iterator) (a : App_t) (w : World Ext),
    exists res a' w' evs,
      groups_loop n i it a w = Ret (res, a', w') /\ accounts w w' evs [] [] [].
Proof.
  induction n as [|n IH]; intros i it a w.
  - eexists _, _, w, []. split; [reflexivity|apply accounts_refl].
  - cbn [groups_loop].
    destruct (le_cfg_GetNodeName it LIMIT_MAX_USER_NAME_BYTES) as [gres groupName].
    destruct (negb (le_result_eqb gres LE_OK)).
    { eexists _, _, w, []. split; [reflexivity|apply accounts_refl]. }
    unfold bind at 1.
    destruct (do_call_accounts (UserCreateGroup groupName) w)
      as ([cres newGid] & w1 & -> & _ & Hacc & _).
    cbn [created_by] in Hacc.
    destruct (le_result_eqb cres LE_FAULT).
    { eexists _, _, w1, _. split; [reflexivity|exact Hacc]. }
    destruct (le_cfg_GoToNextSibling it) as [nres it'].
    destruct (negb (le_result_eqb nres LE_OK)).
    { eexists _, _, w1, _. split; [reflexivity|exact Hacc]. }
    destruct (_ <=? _)%nat.
    { eexists _, _, w1, _. split; [reflexivity|exact Hacc]. }
    destruct (IH (S i) it' (set_supplementGids (<[i:=newGid]> (supplementGids a)) a) w1)
      as (res & a' & w' & evs & -> & Hacc2).
    eexists res, a', w', _. split; [reflexivity|].
    exact (accounts_trans _ _ _ _ _ _ _ _ _ _ _ Hacc Hacc2).
Qed.

Lemma CreateUserAndGroups_accounts (a : App_t) (w : World Ext) :
  exists r a' w' evs,
    CreateUserAndGroups a w = Ret (r, a', w')
    /\ accounts w w' evs [] [] []
    /\ procs a' = procs a /\ killTimer a' = killTimer a.
Proof.
  assert (Hfields : forall r a' w', CreateUserAndGroups a w = Ret (r, a', w') ->
                                    procs a' = procs a /\ killTimer a' = killTimer a).
  { intros r a' w' H. unfold CreateUserAndGroups in H. destruct (sandboxed a).
    - destruct (user_AppNameToUserName _ _) as [ures username].
      destruct (negb (le_result_eqb ures LE_OK)); [injection H as _ <- _; split; reflexivity|].
      apply bind_Ret in H as ([[ires u] g] & w1 & _ & H).
      destruct (negb (le_result_eqb ires LE_OK)); [injection H as _ <- _; split; reflexivity|].
      apply CreateSupplementaryGroups_fields in H. rewrite H. split; reflexivity.
    - injection H as _ <- _. split; reflexivity. }
  assert (Hrun : exists r a' w' evs,
            CreateUserAndGroups a w = Ret (r, a', w') /\ accounts w w' evs [] [] []).
  { unfold CreateUserAndGroups. destruct (sandboxed a).
    - destruct (user_AppNameToUserName _ _) as [ures username].
      destruct (negb (le_result_eqb ures LE_OK)).
      { eexists _, _, w, []. split; [reflexivity|apply accounts_refl]. }
      unfold bind at 1.
      destruct (do_call_accounts (UserGetIDs username) w)
        as ([[ires u] g] & w1 & -> & _ & Hacc & _).
      cbn [created_by] in Hacc.
      destruct (negb (le_result_eqb ires LE_OK)).
      { eexists _, _, w1, _. split; [reflexivity|exact Hacc]. }
      unfold CreateSupplementaryGroups, bind, le_cfg_CreateReadTxn.
      destruct (le_cfg_GoToFirstChild _) as [fres it1].
      destruct (negb (le_result_eqb fres LE_OK)).
      { eexists _, _, w1, _. split; [reflexivity|exact Hacc]. }
      destruct (groups_loop_accounts LIMIT_MAX_NUM_SUPPLEMENTARY_GROUPS 0 it1
                  (set_gid g (set_uid u a)) w1) as (res & a' & w' & evs & -> & Hacc2).
      pose proof (accounts_trans _ _ _ _ _ _ _ _ _ _ _ Hacc Hacc2) as Hacc3.
      destruct res; eexists _, _, w', _; (split; [reflexivity|exact Hacc3]).
    - eexists _, _, w, []. split; [reflexivity|apply accounts_refl]. }
  destruct Hrun as (r & a' & w' & evs & Hrun & Hacc).
  exists r, a', w', evs. split; [exact Hrun|]. split; [exact Hacc|].
  exact (Hfields r a' w' Hrun).
Qed.

Lemma delete_procs_accounts (l : list ProcObj_t) :
  forall w : World Ext,
    exists w',
      delete_procs l w = Ret (tt, w')
      /\ accounts w w' (map (fun po => Ev (ProcDelete (procRef po))) l) []
                  (map procRef l) []
      /\ timers w' = timers w.
Proof.
  induction l as [|po l IH]; intros w.
  - exists w. split; [reflexivity|]. split; [apply accounts_refl|reflexivity].
  - cbn [delete_procs]. unfold bind at 1.
    destruct (do_call_accounts (ProcDelete (procRef po)) w) as ([] & w1 & -> & _ & Hacc & Hst).
    destruct (IH w1) as (w' & -> & Hacc2 & Htm).
    exists w'. split; [reflexivity|]. split.
    + exact (accounts_trans _ _ _ _ _ _ _ _ _ _ _ Hacc Hacc2).
    + rewrite Htm. apply Hst.
Qed.

Lemma app_Delete_accounts (a : App_t) (w : World Ext) :
  exists w',
    app_Delete a w = Ret (tt, w')
    /\ accounts w w'
         (map (fun po => Ev (ProcDelete (procRef po))) (procs a)
          ++ [Ev (LeMemRelease_App (set_procs [] a))])
         [] (map procRef (procs a)) [set_procs [] a]
    /\ (forall t, killTimer a = Some t -> timers w' !! t = None)
    /\ (forall t, killTimer a <> Some t -> timers w' !! t = timers w !! t).
Proof.
  unfold app_Delete. unfold bind at 1.
  destruct (delete_procs_accounts (procs a) w) as (w1 & -> & Hacc1 & Htm1).
  unfold bind at 1.
  assert (Htimer : exists w2,
            (match killTimer a with
             | Some t => le_timer_Delete t
             | None => ret tt
             end) w1 = Ret (tt, w2)
            /\ trace w2 = trace w1 /\ ext w2 = ext w1
            /\ (forall t, killTimer a = Some t -> timers w2 !! t = None)
            /\ (forall t, killTimer a <> Some t -> timers w2 !! t = timers w !! t)).
  { destruct (killTimer a) as [t0|].
    - eexists. split; [reflexivity|]. split; [reflexivity|]. split; [reflexivity|].
      cbn [timers set_timers]. rewrite Htm1. split.
      + intros t [= <-]. apply lookup_delete_eq.
      + intros t Hne. apply lookup_delete_ne. congruence.
    - exists w1. split; [reflexivity|]. split; [reflexivity|]. split; [reflexivity|].
      split; [discriminate|]. intros t _. rewrite Htm1. reflexivity. }
  destruct Htimer as (w2 & -> & Ht2 & He2 & Hgone & Hkept).
  destruct (do_call_accounts (LeMemRelease_App (set_procs [] a)) w2)
    as ([] & w3 & -> & _ & Hacc3 & Hst3).
  assert (Hacc2 : accounts w1 w2 [] [] [] []).
  { unfold accounts. rewrite Ht2, He2, app_nil_r. repeat split. }
  pose proof (accounts_trans _ _ _ _ _ _ _ _ _ _ _
                (accounts_trans _ _ _ _ _ _ _ _ _ _ _ Hacc1 Hacc2) Hacc3) as Hacc.
  rewrite !app_nil_r in Hacc. cbn [app created_by] in Hacc.
  exists w3. split; [reflexivity|]. split; [exact Hacc|].
  destruct Hst3 as (_ & _ & _ & Htm3 & _). rewrite Htm3. split; assumption.
Qed.

Lemma deletes_of_deletes (l : list ProcObj_t) :
  proc_deletes (map (fun po => Ev (ProcDelete (procRef po))) l) = map procRef l
  /\ releases (map (fun po => Ev (ProcDelete (procRef po))) l) = [].
Proof.
  induction l as [|po l [IH1 IH2]]; [split; reflexivity|]. split.
  - unfold proc_deletes in *. cbn. rewrite IH1. reflexivity.
  - exact IH2.
Qed.


Lemma create_procs_accounts (n : nat) :
  forall (it : le_cfg_Iterator) (a : App_t) (w : World Ext),
    (length (it_siblings it) < n)%nat ->
    exists res w' evs cre,
      create_procs n it a w = Ret (res, w')
      /\ match res with
         | Some a' =>
             accounts w w' evs cre [] []
             /\ map procRef (procs a') = map procRef (procs a) ++ cre
         | None =>
             exists evs0 block,
               evs = evs0 ++ [Ev (LeMemRelease_App block)]
               /\ accounts w w' evs cre (map procRef (procs a) ++ cre) [block]
         end.
Proof.
  induction n as [|n IH]; intros it a w Hn; [lia|].
  cbn [create_procs].
  destruct (le_cfg_GetPath it LIMIT_MAX_PATH_BYTES) as [pres procCfgPath].
  destruct (le_result_eqb pres LE_OVERFLOW).
  { unfold bind. destruct (app_Delete_accounts a w) as (w' & -> & Hacc & _).
    eexists None, w', _, []. split; [reflexivity|].
    eexists _, _. split; [reflexivity|]. rewrite app_nil_r. exact Hacc. }
  unfold bind at 1.
  destruct (do_call_accounts (ProcCreate (strip_trailing_slash procCfgPath) (name a)) w)
    as (created & w1 & -> & _ & Hacc1 & _).
  destruct created as [procPtr|]; cbn [created_by] in Hacc1.
  - unfold le_cfg_GoToNextSibling.
    destruct (it_siblings it) as [|[nn nc] rest] eqn:Hsib; cbn [le_result_eqb].
    + eexists (Some _), w1, _, [procPtr]. split; [reflexivity|].
      split; [exact Hacc1|]. cbn [procs set_procs]. rewrite map_app. reflexivity.
    + destruct (IH (mkIter (it_parent it) nn nc rest)
                   (set_procs (procs a ++ [mkProcObj procPtr None]) a) w1)
        as (res & w' & evs & cre & -> & Hres); [cbn in Hn |- *; lia|].
      destruct res as [a'|].
      * destruct Hres as (Hacc2 & Hprocs).
        eexists (Some a'), w', _, ([procPtr] ++ cre). split; [reflexivity|]. split.
        -- exact (accounts_trans _ _ _ _ _ _ _ _ _ _ _ Hacc1 Hacc2).
        -- rewrite Hprocs. cbn [procs set_procs]. rewrite map_app, <- app_assoc. reflexivity.
      * destruct Hres as (evs0 & block & -> & Hacc2).
        eexists None, w', _, ([procPtr] ++ cre). split; [reflexivity|].
        exists ([Ev (ProcCreate (strip_trailing_slash procCfgPath) (name a))] ++ evs0), block.
        split; [reflexivity|].
        pose proof (accounts_trans _ _ _ _ _ _ _ _ _ _ _ Hacc1 Hacc2) as Hacc.
        cbn [procs set_procs] in Hacc. rewrite map_app, <- app_assoc in Hacc.
        rewrite <- app_assoc. exact Hacc.
  - unfold bind. destruct (app_Delete_accounts a w1) as (w' & -> & Hacc2 & _).
    eexists None, w', _, []. split; [reflexivity|].
    exists ([Ev (ProcCreate (strip_trailing_slash procCfgPath) (name a))]
            ++ map (fun po => Ev (ProcDelete (procRef po))) (procs a)),
           (set_procs [] a).
    split; [reflexivity|].
    pose proof (accounts_trans _ _ _ _ _ _ _ _ _ _ _ Hacc1 Hacc2) as Hacc.
    rewrite app_nil_r. rewrite <- app_assoc. exact Hacc.
Qed.

Lemma release_accounts (block : App_t) (w : World Ext) :
  exists w',
    (_ <- do_call (LeMemRelease_App block) ;; ret (@None App_t)) w = Ret (None, w')
    /\ accounts w w' [Ev (LeMemRelease_App block)] [] [] [block].
Proof.
  unfold bind.
  destruct (do_call_accounts (LeMemRelease_App block) w) as ([] & w' & -> & _ & Hacc & _).
  exists w'. split; [reflexivity|exact Hacc].
Qed.

Lemma app_Create_accounts_all (path : string) (w : World Ext) :
  exists created w' evs,
    app_Create path w = Ret (created, w')
    /\ trace w' = trace w ++ evs
    /\ match created with
       | Some a' =>
           map procRef (procs a') = created_refs (ext w) evs
           /\ proc_deletes evs = [] /\ releases evs = []
       | None =>
           proc_deletes evs = created_refs (ext w) evs
           /\ exists evs0 block,
                evs = evs0 ++ [Ev (LeMemRelease_App block)] /\ releases evs0 = []
       end.
Proof.
  assert (Hfail : forall (w1 w' : World Ext) evs1 evs0 block cre,
            accounts w w1 evs1 [] [] [] ->
            accounts w1 w' (evs0 ++ [Ev (LeMemRelease_App block)]) cre cre [block] ->
            trace w' = trace w ++ evs1 ++ evs0 ++ [Ev (LeMemRelease_App block)]
            /\ proc_deletes (evs1 ++ evs0 ++ [Ev (LeMemRelease_App block)])
               = created_refs (ext w) (evs1 ++ evs0 ++ [Ev (LeMemRelease_App block)])
            /\ exists evs0' block',
                 evs1 ++ evs0 ++ [Ev (LeMemRelease_App block)]
                 = evs0' ++ [Ev (LeMemRelease_App block')]
                 /\ releases evs0' = []).
  { intros w1 w' evs1 evs0 block cre Hacc1 Hacc2.
    pose proof (accounts_trans _ _ _ _ _ _ _ _ _ _ _ Hacc1 Hacc2)
      as (Htr & _ & Hcre & Hdel & Hrel).
    cbn [app] in Hcre, Hdel, Hrel.
    split; [exact Htr|]. split; [rewrite Hcre, Hdel; reflexivity|].
    exists (evs1 ++ evs0), block. split; [rewrite app_assoc; reflexivity|].
    rewrite app_assoc in Hrel. unfold releases in *. rewrite omap_app in Hrel.
    cbn in Hrel. destruct (omap release_of (evs1 ++ evs0)); [reflexivity|].
    cbn in Hrel. injection Hrel as _ Hrel. destruct l; discriminate Hrel. }
  unfold app_Create. unfold bind at 1.
  destruct (do_call_accounts LeMemForceAlloc_App w) as (blk & w0 & -> & _ & Hacc0 & _).
  cbn [created_by] in Hacc0.
  destruct (copy_to_buf path LIMIT_MAX_PATH_BYTES) as [cres copied].
  destruct (negb (le_result_eqb cres LE_OK)).
  { destruct (release_accounts (set_cfgPathRoot copied blk) w0) as (w' & -> & Hacc).
    eexists None, w', _. split; [reflexivity|].
    exact (Hfail w0 w' _ [] _ [] Hacc0 Hacc). }
  unfold bind at 1, le_cfg_CreateReadTxn. unfold bind at 1.
  match goal with |- context [CreateUserAndGroups ?a1 w0] =>
    destruct (CreateUserAndGroups_accounts a1 w0)
      as (ures & a2 & w2 & evs2 & -> & Hacc2 & Hp2 & _) end.
  cbn [procs set_sandboxed create_init set_cfgPathRoot set_name set_procs set_state
       set_killTimer] in Hp2.
  pose proof (accounts_trans _ _ _ _ _ _ _ _ _ _ _ Hacc0 Hacc2) as Hacc02.
  cbn [app] in Hacc02.
  destruct (negb (le_result_eqb ures LE_OK)).
  { destruct (release_accounts a2 w2) as (w' & -> & Hacc).
    eexists None, w', _. split; [reflexivity|].
    exact (Hfail w2 w' _ [] _ [] Hacc02 Hacc). }
  unfold create_paths_and_procs.
  destruct (le_path_Concat _ _ _) as [ires ipath].
  destruct (negb (le_result_eqb ires LE_OK)).
  { destruct (release_accounts (set_installPath ipath a2) w2) as (w' & -> & Hacc).
    eexists None, w', _. split; [reflexivity|].
    exact (Hfail w2 w' _ [] _ [] Hacc02 Hacc). }
  set (staged := if sandboxed _ then _ else _).
  assert (Hst : procs (snd staged) = []).
  { subst staged. cbn [sandboxed set_installPath].
    destruct (sandboxed a2); [destruct (sandbox_GetPath _ _)|]; cbn; exact Hp2. }
  destruct staged as [sres a3]. cbn [snd] in Hst.
  destruct (negb (le_result_eqb sres LE_OK)).
  { destruct (release_accounts a3 w2) as (w' & -> & Hacc).
    eexists None, w', _. split; [reflexivity|].
    exact (Hfail w2 w' _ [] _ [] Hacc02 Hacc). }
  destruct (le_cfg_GoToFirstChild _) as [fres it1].
  destruct (le_result_eqb fres LE_OK).
  - destruct (create_procs_accounts (S (length (it_siblings it1))) it1 a3 w2)
      as (res & w' & evs & cre & -> & Hres); [lia|].
    rewrite Hst in Hres. cbn [map app] in Hres.
    destruct res as [a'|].
    + destruct Hres as (Hacc & Hprocs).
      pose proof (accounts_trans _ _ _ _ _ _ _ _ _ _ _ Hacc02 Hacc)
        as (Htr & _ & Hcre & Hdel & Hrel).
      eexists (Some a'), w', _. split; [reflexivity|]. split; [exact Htr|].
      split; [rewrite Hcre; exact Hprocs|]. split; [exact Hdel|exact Hrel].
    + destruct Hres as (evs0 & block & -> & Hacc).
      eexists None, w', _. split; [reflexivity|].
      exact (Hfail w2 w' _ evs0 _ cre Hacc02 Hacc).
  - destruct Hacc02 as (Htr & _ & Hcre & Hdel & Hrel).
    eexists (Some a3), w2, _. split; [reflexivity|]. split; [exact Htr|].
    rewrite Hst, Hcre. split; [reflexivity|]. split; [exact Hdel|exact Hrel].
Qed.



(** *** The supplementary groups [app_Create] stores *)

Lemma groups_loop_created (n : nat) :
  forall (i : nat) (it : le_cfg_Iterator) (a a' : App_t) (w w' : World Ext) (j : nat),
    groups_loop n i it a w = Ret (inr j, a', w') ->
    (1 <= n)%nat ->
    (n + i = LIMIT_MAX_NUM_SUPPLEMENTARY_GROUPS)%nat ->
    j = (i + length (it_siblings it))%nat
    /\ (j < LIMIT_MAX_NUM_SUPPLEMENTARY_GROUPS)%nat
    /\ groups_created (ext w) (it_name it :: map fst (it_siblings it))
    /\ length (supplementGids a') = length (supplementGids a)
    /\ (length (supplementGids a) = LIMIT_MAX_NUM_SUPPLEMENTARY_GROUPS ->
        firstn (S j) (supplementGids a')
        = firstn i (supplementGids a)
          ++ created_gids (ext w) (it_name it :: map fst (it_siblings it))).
Proof.
  induction n as [|n IH]; intros i it a a' w w' j H Hn Hsum; [lia|].
  cbn [groups_loop] in H. unfold le_cfg_GetNodeName, copy_to_buf in H.
  destruct (String.length (it_name it) <? LIMIT_MAX_USER_NAME_BYTES)%nat eqn:Hfit;
    cbn [le_result_eqb negb] in H; [|discriminate H].
  apply Nat.ltb_lt in Hfit.
  apply bind_Ret in H as ([cres newGid] & w1 & Hc & H).
  destruct (do_call_extends (UserCreateGroup (it_name it)) w) as (cr & w1' & Hc' & _ & Hp).
  rewrite Hc in Hc'. injection Hc' as <- <-.
  destruct (le_result_eqb cres LE_FAULT) eqn:Hcres; [discriminate H|].
  assert (Hok : fst (fst (perform (UserCreateGroup (it_name it)) (ext w))) <> LE_FAULT).
  { rewrite Hp. cbn. intros Heq. apply le_result_eqb_eq in Heq. congruence. }
  assert (Hstep : length (supplementGids a) = LIMIT_MAX_NUM_SUPPLEMENTARY_GROUPS ->
                  firstn (S i) (<[i:=newGid]> (supplementGids a))
                  = firstn i (supplementGids a) ++ [newGid]).
  { intros Hlen. rewrite (take_S_r _ _ newGid).
    - rewrite take_insert_ge by lia. reflexivity.
    - apply list_lookup_insert_eq. lia. }
  unfold le_cfg_GoToNextSibling in H.
  destruct (it_siblings it) as [|[nn nc] rest] eqn:Hsib; cbn [le_result_eqb negb] in H.
  - injection H as <- <- <-. cbn [length map groups_created created_gids].
    rewrite Hp. cbn [fst snd]. rewrite Nat.add_0_r.
    split; [reflexivity|]. split; [lia|].
    split; [split; [exact Hfit|]; split; [rewrite Hp in Hok; exact Hok|exact I]|].
    split; [cbn; apply length_insert|]. exact Hstep.
  - destruct (LIMIT_MAX_NUM_SUPPLEMENTARY_GROUPS - 1 <=? i)%nat eqn:Hcap; [discriminate H|].
    apply Nat.leb_gt in Hcap.
    apply IH in H as (Hj & Hlt & Hall & Hlen & Hgids); [|lia|lia].
    cbn [it_siblings it_name supplementGids set_supplementGids] in Hj, Hall, Hlen, Hgids.
    cbn [length map groups_created created_gids]. rewrite Hp in *. cbn [fst snd] in *.
    split; [lia|]. split; [exact Hlt|].
    split; [split; [exact Hfit|]; split; [exact Hok|exact Hall]|].
    split; [rewrite Hlen; apply length_insert|].
    intros Hlen0. rewrite Hgids by (rewrite length_insert; exact Hlen0).
    rewrite (Hstep Hlen0), <- app_assoc. reflexivity.
Qed.

Lemma CreateSupplementaryGroups_created (a a' : App_t) (w w' : World Ext) :
  CreateSupplementaryGroups a w = Ret (LE_OK, a', w') ->
  (1 <= LIMIT_MAX_NUM_SUPPLEMENTARY_GROUPS)%nat ->
  config_groups (cfgPathRoot a) w <> [] ->
  let names := map fst (config_groups (cfgPathRoot a) w) in
  numSupplementGids a' = length names
  /\ (length names <= LIMIT_MAX_NUM_SUPPLEMENTARY_GROUPS)%nat
  /\ groups_created (ext w) names
  /\ (length (supplementGids a) = LIMIT_MAX_NUM_SUPPLEMENTARY_GROUPS ->
      supplementary_gids a' = created_gids (ext w) names).
Proof.
  intros H Hcap Hne names. subst names. unfold config_groups in *.
  unfold CreateSupplementaryGroups, le_cfg_CreateReadTxn in H.
  unfold bind at 1 in H. unfold le_cfg_GoToFirstChild in H.
  rewrite le_cfg_GoToNode_node in H. cbn [it_node] in H.
  destruct (child_node CFG_NODE_GROUPS (cfgTree w (cfgPathRoot a)))
    as [| b | s | [|[gn gc] rest]]; try contradiction.
  cbn [le_result_eqb negb] in H.
  apply bind_Ret in H as ([res a2] & w2 & Hloop & H).
  destruct res as [r|j]; [injection H as -> _ _|].
  { exfalso. clear -Hloop Hcap.
    assert (Hgen : forall n i it a0 w0 a2 w2,
              groups_loop n i it a0 w0 = Ret (inl LE_OK, a2, w2) -> False).
    { induction n as [|n IH]; intros i it a0 w0 a3 w3 H; [discriminate H|].
      cbn [groups_loop] in H.
      destruct (le_cfg_GetNodeName it LIMIT_MAX_USER_NAME_BYTES) as [gres groupName].
      destruct (negb (le_result_eqb gres LE_OK)); [discriminate H|].
      apply bind_Ret in H as ([cres newGid] & w1 & _ & H).
      destruct (le_result_eqb cres LE_FAULT); [discriminate H|].
      destruct (le_cfg_GoToNextSibling it) as [nres it'].
      destruct (negb (le_result_eqb nres LE_OK)); [discriminate H|].
      destruct (_ <=? _)%nat; [discriminate H|]. exact (IH _ _ _ _ _ _ H). }
    exact (Hgen _ _ _ _ _ _ _ Hloop). }
  injection H as <- _.
  apply groups_loop_created in Hloop as (Hj & Hlt & Hall & Hlen & Hgids); [|lia|lia].
  cbn [it_siblings it_name] in Hj, Hall, Hgids. cbn [map fst length] in *.
  unfold supplementary_gids.
  cbn [numSupplementGids set_numSupplementGids supplementGids].
  split; [rewrite length_map; lia|]. split; [rewrite length_map; lia|].
  split; [exact Hall|]. intros Hlen0.
  replace (j + 1)%nat with (S j) by lia. rewrite (Hgids Hlen0). reflexivity.
Qed.

Lemma app_Create_groups_inv (path : string) (w w' : World Ext) (a' : App_t) :
  app_Create path w = Ret (Some a', w') ->
  config_sandboxed path w = true ->
  (1 <= LIMIT_MAX_NUM_SUPPLEMENTARY_GROUPS)%nat ->
  config_groups path w <> [] ->
  let block := fst (perform LeMemForceAlloc_App (ext w)) in
  let appName := le_path_GetBasenamePtr path "/" in
  let username := snd (user_AppNameToUserName appName LIMIT_MAX_USER_NAME_BYTES) in
  let e1 := snd (perform (UserGetIDs username) (snd (perform LeMemForceAlloc_App (ext w)))) in
  let names := map fst (config_groups path w) in
  numSupplementGids a' = length names
  /\ (length names <= LIMIT_MAX_NUM_SUPPLEMENTARY_GROUPS)%nat
  /\ groups_created e1 names
  /\ (length (supplementGids block) = LIMIT_MAX_NUM_SUPPLEMENTARY_GROUPS ->
      supplementary_gids a' = created_gids e1 names).
Proof.
  intros Hrun Hsb Hcap Hne block appName username e1 names.
  destruct (perform LeMemForceAlloc_App (ext w)) as [blk e0] eqn:Halloc.
  cbn [fst snd] in block, e1.
  destruct (Nat.ltb (String.length path) LIMIT_MAX_PATH_BYTES) eqn:Hpath.
  2:{ exfalso. unfold app_Create in Hrun. unfold bind at 1 in Hrun.
      rewrite (do_call_eq _ _ _ _ Halloc) in Hrun.
      unfold copy_to_buf in Hrun. rewrite Hpath in Hrun. cbn [le_result_eqb negb] in Hrun.
      exact (release_then_none _ _ _ _ Hrun). }
  apply Nat.ltb_lt in Hpath.
  rewrite (app_Create_eq path w blk e0 Halloc Hpath) in Hrun.
  set (a1 := set_sandboxed (config_sandboxed path w) (create_init blk path)) in *.
  set (w0 := after_call LeMemForceAlloc_App e0 w) in *.
  apply bind_Ret in Hrun as ([ures a2] & w2 & Hcug & Hfin). cbn [fst snd] in Hfin.
  destruct ures; cbn [le_result_eqb negb] in Hfin;
    try (exfalso; exact (release_then_none _ _ _ _ Hfin)).
  apply create_paths_and_procs_fields in Hfin as (_ & _ & _ & Hn & Hg).
  unfold supplementary_gids. rewrite Hn, Hg.
  unfold CreateUserAndGroups in Hcug.
  assert (Hsb1 : sandboxed a1 = true) by exact Hsb. rewrite Hsb1 in Hcug.
  change (name a1) with appName in Hcug.
  assert (Hun : exists ures, user_AppNameToUserName appName LIMIT_MAX_USER_NAME_BYTES
                             = (ures, username)).
  { unfold username. destruct (user_AppNameToUserName _ _). eexists. reflexivity. }
  destruct Hun as (ures & Huser). rewrite Huser in Hcug. clearbody username.
  destruct (negb (le_result_eqb ures LE_OK)); [discriminate Hcug|].
  apply bind_Ret in Hcug as ([[ires u] g] & w1 & Hids & Hcsg).
  destruct (do_call_extends (UserGetIDs username) w0) as (ids' & w1' & Hids' & Hext1 & Hp).
  rewrite Hids in Hids'. injection Hids' as <- <-.
  destruct (negb (le_result_eqb ires LE_OK)); [discriminate Hcsg|].
  assert (He1 : ext w1 = e1).
  { unfold e1. change (ext w0) with e0 in Hp. rewrite Hp. reflexivity. }
  assert (Hcfg : config_groups path w1 = config_groups path w).
  { apply config_groups_same. destruct Hext1 as (_ & _ & -> & _). reflexivity. }
  apply CreateSupplementaryGroups_created in Hcsg; [|exact Hcap|].
  2:{ cbn [cfgPathRoot set_gid set_uid]. change (cfgPathRoot a1) with path.
      rewrite Hcfg. exact Hne. }
  cbv zeta in Hcsg. cbn [cfgPathRoot set_gid set_uid supplementGids] in Hcsg.
  change (cfgPathRoot a1) with path in Hcsg. change (supplementGids a1) with (supplementGids blk) in Hcsg.
  rewrite Hcfg, He1 in Hcsg. exact Hcsg.
Qed.

(** The supplementary groups [app_Create] stores.  When [app_Create]
    returns a sandboxed application whose configuration lists groups (and
    the array has at least one entry), there are at most
    [LIMIT_MAX_NUM_SUPPLEMENTARY_GROUPS] of them, the name of each fits a
    user-name buffer, and [user_CreateGroup] was called for each, in the
    order of the configuration, without a fault (a group that exists
    already is accepted); the count stored is the number of groups, and the
    supplementary gids of the application are the gids that
    [user_CreateGroup] answered, in this order.  (The array of the block
    has [LIMIT_MAX_NUM_SUPPLEMENTARY_GROUPS] entries.) *)
Theorem app_Create_group_ids (path : string) (w w' : World Ext) (a' : App_t) :
  app_Create path w = Ret (Some a', w') ->
  config_sandboxed path w = true ->
  (1 <= LIMIT_MAX_NUM_SUPPLEMENTARY_GROUPS)%nat ->
  config_groups path w <> [] ->
  length (supplementGids (fst (perform LeMemForceAlloc_App (ext w))))
  = LIMIT_MAX_NUM_SUPPLEMENTARY_GROUPS ->
  let appName := le_path_GetBasenamePtr path "/" in
  let username := snd (user_AppNameToUserName appName LIMIT_MAX_USER_NAME_BYTES) in
  let e1 := snd (perform (UserGetIDs username) (snd (perform LeMemForceAlloc_App (ext w)))) in
  let names := map fst (config_groups path w) in
  numSupplementGids a' = length names
  /\ (length names <= LIMIT_MAX_NUM_SUPPLEMENTARY_GROUPS)%nat
  /\ groups_created e1 names
  /\ supplementary_gids a' = created_gids e1 names.
Proof.
  intros Hrun Hsb Hcap Hne Hlen appName username e1 names.
  destruct (app_Create_groups_inv path w w' a' Hrun Hsb Hcap Hne) as (Hn & Hle & Hall & Hg).
  split; [exact Hn|]. split; [exact Hle|]. split; [exact Hall|exact (Hg Hlen)].
Qed.

Lemma groups_created_not_refused (names : list string) :
  forall e : Ext, groups_created e names -> forall g, In g names -> ~ group_refused g.
Proof.
  induction names as [|nm rest IH]; intros e Hall g Hin; [destruct Hin|].
  destruct Hall as (Hfit & Hok & Hrest). destruct Hin as [<- | Hin].
  - intros [Hlong | Hfault]; [lia|]. exact (Hok (Hfault e)).
  - exact (IH _ Hrest g Hin).
Qed.

(** A group that cannot be created fails the construction.  For a
    sandboxed application (the array has at least one entry), when the
    name of one of the groups of the configuration does not fit a user-name
    buffer, or [user_CreateGroup] answers [LE_FAULT] for it, [app_Create]
    returns [NULL]. *)
Theorem app_Create_group_refused (path : string) (w : World Ext) (g : string * cfg_node) :
  config_sandboxed path w = true ->
  (1 <= LIMIT_MAX_NUM_SUPPLEMENTARY_GROUPS)%nat ->
  In g (config_groups path w) ->
  group_refused (fst g) ->
  exists w', app_Create path w = Ret (None, w').
Proof.
  intros Hsb Hcap Hin Hbad.
  destruct (app_Create_accounts_all path w) as ([a'|] & w' & evs & Hrun & _);
    [|exists w'; exact Hrun].
  exfalso.
  assert (Hne : config_groups path w <> []) by (intros Heq; rewrite Heq in Hin; destruct Hin).
  destruct (app_Create_groups_inv path w w' a' Hrun Hsb Hcap Hne) as (_ & _ & Hall & _).
  apply (groups_created_not_refused _ _ Hall (fst g)); [|exact Hbad].
  apply in_map. exact Hin.
Qed.


(** *** The state of an application *)

Lemma check_stopped_inv (a a' : App_t) (w w' : World Ext) :
  check_stopped a w = Ret (a', w') ->
  a' = a /\ w' = w
  \/ a' = set_state APP_STATE_STOPPED a
     /\ exists tr, trace w' = tr ++ cleanup_calls a.
Proof.
  unfold check_stopped, bind, HasRunningProc, query.
  destruct (negb (cgrp_IsEmpty (ext w) (name a))); cbn [negb].
  - intros [= <- <-]. left. split; reflexivity.
  - intros H. right.
    assert (Hgen : forall w1 : World Ext,
              match CleanupApp a w1 with
              | Ret (_, w'0) => ret (set_state APP_STATE_STOPPED a) w'0
              | Fatal => Fatal
              | OutOfFuel => OutOfFuel
              end = Ret (a', w') ->
              a' = set_state APP_STATE_STOPPED a
              /\ exists tr, trace w' = tr ++ cleanup_calls a).
    { intros w1 H1. destruct (CleanupApp_returns a w1) as (w2 & Hc & Htr & _).
      rewrite Hc in H1. injection H1 as <- <-. split; [reflexivity|].
      exists (trace w1). exact Htr. }
    destruct (killTimer a) as [t|].
    + destruct (le_timer_Stop t w) as [[r w1]| |]; try discriminate H.
      exact (Hgen w1 H).
    + exact (Hgen w H).
Qed.

Lemma app_Stop_inv (fuel : nat) (a a' : App_t) (w w' : World Ext) :
  app_Stop fuel a w = Ret (a', w') ->
  state a = APP_STATE_RUNNING ->
  exists a1,
    a1 = set_procs (procs a1) a
    /\ (a' = set_state APP_STATE_STOPPED a1
        /\ (exists tr, trace w' = tr ++ cleanup_calls a)
        \/ state a' = APP_STATE_RUNNING).
Proof.
  intros H Hs. unfold app_Stop in H. rewrite Hs in H.
  apply bind_Ret in H as ([] & w0 & _ & H).
  apply bind_Ret in H as ([r a1] & w1 & Hkill & H).
  apply KillAppProcs_spec in Hkill as (evs & e0 & _ & _ & Ha1 & _).
  exists a1. split; [exact Ha1|].
  destruct (le_result_eqb r LE_NOT_FOUND).
  - apply bind_Ret in H as ([] & w2 & Hc & H). injection H as <- <-. left.
    split; [reflexivity|].
    destruct (CleanupApp_returns a1 w1) as (w2' & Hc' & Htr & _).
    rewrite Hc in Hc'. injection Hc' as <-. exists (trace w1).
    rewrite Htr, Ha1. reflexivity.
  - right. apply bind_Ret in H as (a2 & w2 & Htimer & H).
    assert (Hs1 : state a1 = APP_STATE_RUNNING) by (rewrite Ha1; exact Hs).
    assert (Hs2 : state a2 = APP_STATE_RUNNING).
    { destruct (killTimer a1) as [t|].
      - injection Htimer as <- _. exact Hs1.
      - apply bind_Ret in Htimer as (t & ? & _ & Htimer).
        apply bind_Ret in Htimer as (? & ? & _ & Htimer).
        apply bind_Ret in Htimer as (? & ? & _ & Htimer).
        apply bind_Ret in Htimer as (? & ? & _ & Htimer).
        apply bind_Ret in Htimer as (? & ? & _ & Htimer).
        apply bind_Ret in Htimer as (? & ? & _ & Htimer).
        apply bind_Ret in Htimer as (? & ? & _ & Htimer).
        injection Htimer as <- _. exact Hs1. }
    destruct (killTimer a2) as [t|].
    + apply bind_Ret in H as (? & ? & _ & H). injection H as <- _. exact Hs2.
    + injection H as <- _. exact Hs2.
Qed.

(** The state of an application changes in two ways only.  [app_Stop],
    [HardKillApp], [app_SigChildHandler] and [app_WatchdogTimeoutHandler]
    never make an application Running: only [app_Start] does.  The hard
    kill and the watchdog handler never change the state.  And whenever
    [app_Stop] or [app_SigChildHandler] takes a running application to
    Stopped, the last calls it made are those of [CleanupApp]: the SMACK
    subject is revoked, the sandbox removed and the resource limits cleaned
    up before the application is seen as Stopped. *)
Theorem state_transitions (fuel : nat) (a a' : App_t) (w w' : World Ext) :
  (app_Stop fuel a w = Ret (a', w')
   \/ (exists procPid st fa, app_SigChildHandler a procPid st w = Ret (fa, a', w')) ->
   (state a' = APP_STATE_RUNNING -> state a = APP_STATE_RUNNING)
   /\ (state a = APP_STATE_RUNNING -> state a' = APP_STATE_STOPPED ->
       exists tr, trace w' = tr ++ cleanup_calls a))
  /\ (HardKillApp fuel a w = Ret (a', w')
      \/ (exists procPid actionOut r act,
            app_WatchdogTimeoutHandler a procPid actionOut w = Ret (r, act, a', w')) ->
      state a' = state a).
Proof.
  split.
  - intros [H | (procPid & st & fa & H)].
    + destruct (state a) eqn:Hs.
      * rewrite (app_Stop_stopped fuel a w Hs) in H. injection H as <- _.
        split; [intros H; congruence|discriminate].
      * split; [reflexivity|]. intros _ Hs'.
        destruct (app_Stop_inv fuel a a' w w' H Hs) as (a1 & Ha1 & [(_ & Htr) | Hrun]);
          [exact Htr|congruence].
    + unfold app_SigChildHandler in H.
      apply bind_Ret in H as ([] & w0 & _ & H).
      apply bind_Ret in H as (fa' & wd & _ & H).
      apply bind_Ret in H as (a2 & w2 & Hcs & H). injection H as _ <- <-.
      apply check_stopped_inv in Hcs as [(-> & _) | (-> & Htr)].
      * split; [tauto|]. intros H1 H2. congruence.
      * split; [discriminate|]. intros _ _. exact Htr.
  - intros [H | (procPid & actionOut & r & act & H)].
    + unfold HardKillApp in H.
      apply bind_Ret in H as ([] & w0 & _ & H).
      apply bind_Ret in H as ([r a1] & w1 & Hkill & H). injection H as <- _.
      apply KillAppProcs_spec in Hkill as (_ & _ & _ & _ & Ha1 & _).
      cbn [snd]. rewrite Ha1. reflexivity.
    + unfold app_WatchdogTimeoutHandler in H.
      apply bind_Ret in H as ([] & w0 & _ & H).
      apply bind_Ret in H as (found & w1 & _ & H).
      destruct found as [i|]; [|injection H as _ _ <- _; reflexivity].
      destruct (procs a !! i) as [po|] eqn:Hpo; [|discriminate H].
      apply bind_Ret in H as (wa & w2 & _ & H).
      apply bind_Ret in H as ([act' a2] & w3 & Hsw & H). injection H as _ _ <- _.
      cbn [snd].
      assert (Hset : state (set_stopHandler i (Some Handler_StartProc) a) = state a).
      { unfold set_stopHandler. rewrite Hpo. reflexivity. }
      destruct wa; cbn [watchdog_switch] in Hsw;
        try (injection Hsw as _ <- _; reflexivity);
        apply bind_Ret in Hsw as ([] & w4 & _ & Hsw); injection Hsw as _ <- _;
        first [exact Hset | reflexivity].
Qed.


(** *** The kill timer of an application *)

Lemma kill_timers_kept_refl (w : World Ext) : kill_timers_kept w w.
Proof. intros t tm Ht Hh. exists tm. split; assumption. Qed.

Lemma kill_timers_kept_trans (w1 w2 w3 : World Ext) :
  kill_timers_kept w1 w2 -> kill_timers_kept w2 w3 -> kill_timers_kept w1 w3.
Proof.
  intros H12 H23 t tm Ht Hh. destruct (H12 t tm Ht Hh) as (tm2 & Ht2 & Hh2).
  exact (H23 t tm2 Ht2 Hh2).
Qed.

Lemma same_timers_kept (w w' : World Ext) : timers w' = timers w -> kill_timers_kept w w'.
Proof. intros Heq t tm Ht Hh. exists tm. rewrite Heq. split; assumption. Qed.

Lemma kill_timer_ok_kept (a a' : App_t) (w w' : World Ext) :
  kill_timer_ok a w -> kill_timers_kept w w' -> killTimer a' = killTimer a ->
  kill_timer_ok a' w'.
Proof.
  unfold kill_timer_ok. intros Hok Hkept ->. destruct (killTimer a) as [t|]; [|exact I].
  destruct Hok as (tm & Ht & Hh). exact (Hkept t tm Ht Hh).
Qed.

Lemma insert_kept (w : World Ext) (r : le_timer_Ref_t) (tm0 tm1 : le_timer) :
  timers w !! r = Some tm0 -> tm_handler tm1 = tm_handler tm0 ->
  kill_timers_kept w (set_timers (<[r := tm1]> (timers w)) w).
Proof.
  intros H0 Hh t tm Ht Hk. cbn [timers set_timers].
  destruct (decide (t = r)) as [-> | Hne].
  - exists tm1. rewrite lookup_insert_eq. split; [reflexivity|].
    rewrite Hh. rewrite H0 in Ht. injection Ht as ->. exact Hk.
  - exists tm. rewrite lookup_insert_ne by congruence. split; assumption.
Qed.

Lemma WriteRebootFaultRec_timers (a : App_t) (p : proc_Ref_t) (w w' : World Ext) :
  WriteRebootFaultRec a p w = Ret (tt, w') -> timers w' = timers w.
Proof.
  unfold WriteRebootFaultRec, bind, le_flock_Create, query, LE_ASSERT, sys_write, ret, fatal.
  destruct (os_faults w OS_flock_Create); cbn; [intros [= <-]; reflexivity|].
  destruct (_ <=? _)%nat; [|discriminate].
  cbn. destruct (os_faults w OS_write); intros [= <-]; reflexivity.
Qed.

Lemma exit_dispatch_timers (a : App_t) (procPid st : Z) (w w' : World Ext)
    (fa : app_FaultAction_t) :
  exit_dispatch a procPid st w = Ret (fa, w') -> timers w' = timers w.
Proof.
  unfold exit_dispatch. intros H.
  apply bind_Ret in H as (found & w0 & Hq & H). injection Hq as _ <-.
  destruct found as [i|]; [|injection H as _ <-; reflexivity].
  destruct (procs a !! i) as [po|]; [|discriminate H].
  unfold handle_exit in H.
  apply bind_Ret in H as (prev & w1 & Hq & H). injection Hq as _ <-.
  apply bind_Ret in H as (act & w2 & Hc & H).
  destruct (do_call_extends (ProcSigChildHandler (procRef po) st) w)
    as (act' & w2' & Hc' & (_ & _ & Hst) & _).
  rewrite Hc in Hc'. injection Hc' as <- <-.
  assert (Ht2 : timers w2 = timers w) by apply Hst.
  apply bind_Ret in H as (reached & w3 & Hr & H).
  apply ReachedFaultLimit_world in Hr. subst w3.
  assert (Hstart : forall (k : le_result_t -> M app_FaultAction_t) w4 fa',
            (r <- StartProc a (procRef po) ;; k r) w2 = Ret (fa', w4) ->
            (forall r w5 w6, k r w5 = Ret (fa', w6) -> w6 = w5) ->
            timers w4 = timers w).
  { intros k w4 fa' H1 Hk. apply bind_Ret in H1 as (r & w5 & Hs & H1).
    rewrite StartProc_launch in Hs. injection Hs as _ <-.
    apply Hk in H1. subst w4. exact Ht2. }
  destruct reached; [injection H as _ <-; exact Ht2|].
  destruct act.
  - destruct (stopHandler po) as [[]|]; [|injection H as _ <-; exact Ht2].
    apply (Hstart _ _ _ H). intros r w5 w6.
    destruct (negb (le_result_eqb r LE_OK)); intros [= _ ->]; reflexivity.
  - injection H as _ <-. exact Ht2.
  - apply (Hstart _ _ _ H). intros r w5 w6.
    destruct (negb (le_result_eqb r LE_OK)); intros [= _ ->]; reflexivity.
  - injection H as _ <-. exact Ht2.
  - injection H as _ <-. exact Ht2.
  - apply bind_Ret in H as ([] & w4 & Hw & H). injection H as _ <-.
    apply WriteRebootFaultRec_timers in Hw. congruence.
Qed.

Lemma check_stopped_kept (a a' : App_t) (w w' : World Ext) :
  check_stopped a w = Ret (a', w') ->
  kill_timers_kept w w' /\ killTimer a' = killTimer a.
Proof.
  unfold check_stopped, bind, HasRunningProc, query.
  destruct (negb (cgrp_IsEmpty (ext w) (name a))); cbn [negb].
  - intros [= <- <-]. split; [apply kill_timers_kept_refl|reflexivity].
  - intros H.
    assert (Hgen : forall w1 : World Ext,
              kill_timers_kept w w1 ->
              match CleanupApp a w1 with
              | Ret (_, w'0) => ret (set_state APP_STATE_STOPPED a) w'0
              | Fatal => Fatal
              | OutOfFuel => OutOfFuel
              end = Ret (a', w') ->
              kill_timers_kept w w' /\ killTimer a' = killTimer a).
    { intros w1 Hk H1. destruct (CleanupApp_returns a w1) as (w2 & Hc & _ & _ & Hst).
      rewrite Hc in H1. injection H1 as <- <-. split; [|reflexivity].
      apply (kill_timers_kept_trans _ _ _ Hk). apply same_timers_kept. apply Hst. }
    destruct (killTimer a) as [t|].
    + unfold le_timer_Stop in H. destruct (timers w !! t) as [tm|] eqn:Htm; [|discriminate H].
      destruct (tm_running tm).
      * apply (Hgen _ (insert_kept w t tm (mkTimer (tm_name tm) (tm_handler tm)
                                   (tm_interval tm) (tm_context tm) None) Htm eq_refl) H).
      * apply (Hgen _ (kill_timers_kept_refl w) H).
    + apply (Hgen _ (kill_timers_kept_refl w) H).
Qed.

Lemma app_Stop_kept (fuel : nat) (a a' : App_t) (w w' : World Ext) :
  app_Stop fuel a w = Ret (a', w') ->
  kill_timer_ok a w -> kill_timer_ok a' w' /\ kill_timers_kept w w'.
Proof.
  intros H Hok. destruct (state a) eqn:Hs.
  - rewrite (app_Stop_stopped fuel a w Hs) in H. injection H as <- <-.
    split; [exact Hok|apply same_timers_kept; reflexivity].
  - unfold app_Stop in H. rewrite Hs in H.
    apply bind_Ret in H as ([] & w0 & Hen & H). injection Hen as <-.
    apply bind_Ret in H as ([r a1] & w1 & Hkill & H).
    apply KillAppProcs_spec in Hkill as (evs & e0 & (_ & _ & Hst) & _ & Ha1 & _).
    assert (Htm1 : timers w1 = timers w) by apply Hst.
    assert (Hkt1 : killTimer a1 = killTimer a) by (rewrite Ha1; reflexivity).
    assert (Hk1 : kill_timers_kept w w1) by (apply same_timers_kept; exact Htm1).
    destruct (le_result_eqb r LE_NOT_FOUND).
    + apply bind_Ret in H as ([] & w2 & Hc & H). injection H as <- <-.
      destruct (CleanupApp_returns a1 w1) as (w2' & Hc' & _ & _ & Hst2).
      rewrite Hc in Hc'. injection Hc' as <-.
      assert (Hk2 : kill_timers_kept w w2).
      { apply (kill_timers_kept_trans _ _ _ Hk1). apply same_timers_kept. apply Hst2. }
      split; [|exact Hk2]. apply (kill_timer_ok_kept a _ w w2 Hok Hk2). exact Hkt1.
    + apply bind_Ret in H as (a2 & w2 & Htimer & H).
      unfold kill_timer_ok in Hok. rewrite <- Hkt1 in Hok.
      destruct (killTimer a1) as [t|] eqn:Hkt.
      * injection Htimer as <- <-. rewrite Hkt in H.
        destruct Hok as (tm & Htm & Hh). rewrite <- Htm1 in Htm.
        apply bind_Ret in H as (sr & w3 & Hstart & H). injection H as <- <-.
        unfold le_timer_Start, with_stopped_timer in Hstart. rewrite Htm in Hstart.
        assert (Hk3 : kill_timers_kept w w3).
        { apply (kill_timers_kept_trans _ _ _ Hk1).
          destruct (tm_running tm); injection Hstart as _ <-;
            [apply kill_timers_kept_refl|apply (insert_kept w1 t tm); [exact Htm|reflexivity]]. }
        split; [|exact Hk3].
        unfold kill_timer_ok. rewrite Hkt.
        apply (Hk3 t tm); [rewrite <- Htm1; exact Htm|exact Hh].
      * unfold bind, le_timer_Create, le_timer_SetInterval, le_timer_SetContextPtr,
          le_timer_SetHandler, with_stopped_timer, LE_ASSERT, ret in Htimer.
        cbn [timers set_timers set_timerCount tm_running tm_expiry le_result_eqb
             tm_name tm_handler tm_interval tm_context] in Htimer.
        repeat (rewrite lookup_insert_eq in Htimer;
                cbn [timers set_timers set_timerCount tm_running tm_expiry le_result_eqb
                     tm_name tm_handler tm_interval tm_context] in Htimer).
        injection Htimer as <- <-. cbn [killTimer set_killTimer] in H.
        unfold bind, le_timer_Start, with_stopped_timer in H.
        cbn [timers set_timers set_timerCount] in H.
        rewrite lookup_insert_eq in H. cbn [tm_running tm_expiry] in H.
        injection H as <- <-.
        split.
        -- unfold kill_timer_ok. cbn [killTimer set_killTimer timers set_timers].
           eexists. rewrite lookup_insert_eq. split; reflexivity.
        -- intros t tm Ht Hh. cbn [timers set_timers set_timerCount].
           destruct (decide (t = timerCount w1)) as [-> | Hne].
           ++ eexists. rewrite lookup_insert_eq. split; reflexivity.
           ++ exists tm. rewrite !lookup_insert_ne by congruence. rewrite Htm1.
              split; assumption.
Qed.

Lemma app_SigChildHandler_kept (a a' : App_t) (w w' : World Ext) (procPid st : Z)
    (fa : app_FaultAction_t) :
  app_SigChildHandler a procPid st w = Ret (fa, a', w') ->
  kill_timers_kept w w' /\ killTimer a' = killTimer a.
Proof.
  unfold app_SigChildHandler. intros H.
  apply bind_Ret in H as ([] & w0 & Hen & H). injection Hen as <-.
  apply bind_Ret in H as (fa' & wd & Hd & H).
  apply exit_dispatch_timers in Hd.
  apply bind_Ret in H as (a2 & w2 & Hcs & H). injection H as _ <- <-.
  apply check_stopped_kept in Hcs as (Hk & Hkt). split; [|exact Hkt].
  apply (kill_timers_kept_trans _ wd); [apply same_timers_kept; exact Hd|exact Hk].
Qed.

Lemma app_WatchdogTimeoutHandler_timers (a a' : App_t) (w w' : World Ext) (procPid : Z)
    (actionOut act : wdog_action_WatchdogAction_t) (r : le_result_t) :
  app_WatchdogTimeoutHandler a procPid actionOut w = Ret (r, act, a', w') ->
  timers w' = timers w /\ killTimer a' = killTimer a.
Proof.
  unfold app_WatchdogTimeoutHandler. intros H.
  apply bind_Ret in H as ([] & w0 & Hen & H). injection Hen as <-.
  apply bind_Ret in H as (found & w1 & Hq & H). injection Hq as _ <-.
  destruct found as [i|]; [|injection H as _ _ <- <-; split; reflexivity].
  destruct (procs a !! i) as [po|] eqn:Hpo; [|discriminate H].
  apply bind_Ret in H as (wa & w2 & Hres & H).
  assert (Hw2 : timers w2 = timers w).
  { unfold resolve_watchdog_action, bind, query, le_cfg_CreateReadTxn, ret in Hres.
    cbn [ext set_entered] in Hres.
    destruct (proc_GetWatchdogAction (ext w) (procRef po));
      try (injection Hres as _ <-; reflexivity);
      destruct (le_cfg_GetString _ _ _ _) as [gr gs];
      destruct (le_result_eqb gr LE_OK); injection Hres as _ <-; reflexivity. }
  apply bind_Ret in H as ([act' a2] & w3 & Hsw & H). injection H as _ _ <- <-.
  cbn [snd].
  assert (Hset : killTimer (set_stopHandler i (Some Handler_StartProc) a) = killTimer a).
  { unfold set_stopHandler. rewrite Hpo. reflexivity. }
  assert (Hstop : forall w4, StopProc (procRef po) w2 = Ret (tt, w4) -> timers w4 = timers w).
  { intros w4 Hsp. destruct (StopProc_spec (procRef po) w2) as (w4' & Hsp' & _ & _ & Hst).
    rewrite Hsp in Hsp'. injection Hsp' as <-. rewrite <- Hw2. apply Hst. }
  destruct wa; cbn [watchdog_switch] in Hsw;
    try (injection Hsw as _ <- <-; split; [exact Hw2|reflexivity]);
    apply bind_Ret in Hsw as ([] & w4 & Hsp & Hsw); injection Hsw as _ <- <-;
    (split; [exact (Hstop _ Hsp)|first [exact Hset | reflexivity]]).
Qed.

Lemma app_Start_timers (fuel : nat) (a a' : App_t) (w w' : World Ext) (r : le_result_t) :
  app_Start fuel a w = Ret (r, a', w') ->
  timers w' = timers w /\ killTimer a' = killTimer a.
Proof.
  intros H. destruct (state a) eqn:Hs.
  - destruct (app_Start_spec fuel a w Hs)
      as (r1 & a1 & w1 & evs & fns & Hrun & (_ & _ & Hst) & Hcases).
    rewrite H in Hrun. injection Hrun as <- <- <-. split; [apply Hst|].
    destruct Hcases as [(_ & _ & -> & _) | [(_ & _ & _ & -> & _)
                       | [(_ & _ & _ & -> & _) | (_ & _ & _ & -> & _)]]]; reflexivity.
  - unfold app_Start, bind, enter in H. rewrite Hs in H. injection H as _ <- <-.
    split; reflexivity.
Qed.

Lemma HardKillApp_kept (fuel : nat) (a a' : App_t) (w w' : World Ext) :
  HardKillApp fuel a w = Ret (a', w') ->
  timers w' = timers w /\ killTimer a' = killTimer a.
Proof.
  intros H. split; [apply (HardKillApp_store fuel a a' w w' H)|].
  unfold HardKillApp in H.
  apply bind_Ret in H as ([] & w0 & _ & H).
  apply bind_Ret in H as ([r a1] & w1 & Hkill & H). injection H as <- _.
  apply KillAppProcs_spec in Hkill as (_ & _ & _ & _ & Ha1 & _).
  cbn [snd]. rewrite Ha1. reflexivity.
Qed.

Lemma le_timer_Expire_kept (fuel : nat) (r : le_timer_Ref_t) (a a' : App_t)
    (w w' : World Ext) :
  le_timer_Expire fuel r a w = Ret (a', w') ->
  kill_timers_kept w w' /\ killTimer a' = killTimer a.
Proof.
  unfold le_timer_Expire.
  destruct (timers w !! r) as [tr|] eqn:Hr;
    [|intros [= <- <-]; split; [apply kill_timers_kept_refl|reflexivity]].
  destruct (tm_expiry tr) as [expiry|];
    [|intros [= <- <-]; split; [apply kill_timers_kept_refl|reflexivity]].
  destruct (expiry <=? clock w)%Z;
    [|intros [= <- <-]; split; [apply kill_timers_kept_refl|reflexivity]].
  assert (Hins : kill_timers_kept w
                   (set_timers (<[r := mkTimer (tm_name tr) (tm_handler tr) (tm_interval tr)
                                                (tm_context tr) None]> (timers w)) w)).
  { apply (insert_kept w r tr); [exact Hr|reflexivity]. }
  destruct (tm_handler tr) as [[|]|] eqn:Hh.
  - unfold RebootFaultTimerHandler, bind, sys_unlink, le_timer_Delete, ret.
    cbn [os_faults set_timers rebootFaultRecord timers].
    intros H.
    assert (Hw' : forall t, t <> r -> timers w' !! t = timers w !! t).
    { intros t Hne.
      destruct (os_faults w OS_unlink); [|destruct (rebootFaultRecord w)];
        injection H as _ <-; cbn [timers set_timers set_rebootFaultRecord];
        rewrite lookup_delete_ne by congruence;
        rewrite lookup_insert_ne by congruence; reflexivity. }
    split.
    + intros t tm Ht Hk. assert (Hne : t <> r) by (intros ->; congruence).
      exists tm. rewrite (Hw' t Hne). split; assumption.
    + destruct (os_faults w OS_unlink); [|destruct (rebootFaultRecord w)];
        injection H as <- _; reflexivity.
  - intros H. apply HardKillApp_kept in H as (Htm & Hkt). split; [|exact Hkt].
    apply (kill_timers_kept_trans _ _ _ Hins). apply same_timers_kept. exact Htm.
  - intros [= <- <-]. split; [exact Hins|reflexivity].
Qed.

Lemma expire_timers_kept (fuel : nat) (refs : list le_timer_Ref_t) :
  forall (a a' : App_t) (w w' : World Ext),
    expire_timers fuel refs a w = Ret (a', w') ->
    kill_timers_kept w w' /\ killTimer a' = killTimer a.
Proof.
  induction refs as [|r refs IH]; intros a a' w w' H.
  - injection H as <- <-. split; [apply kill_timers_kept_refl|reflexivity].
  - cbn [expire_timers] in H. apply bind_Ret in H as (a1 & w1 & Hstep & H).
    apply le_timer_Expire_kept in Hstep as (Hk1 & Hkt1).
    apply IH in H as (Hk2 & Hkt2). split; [|congruence].
    exact (kill_timers_kept_trans _ _ _ Hk1 Hk2).
Qed.

Lemma kill_timer_ok_valid (a : App_t) (w : World Ext) :
  kill_timer_ok a w -> kill_timer_valid a w.
Proof.
  unfold kill_timer_ok, kill_timer_valid. destruct (killTimer a) as [t|]; [|auto].
  intros (tm & Htm & _). exists tm. exact Htm.
Qed.


End Properties.

(** * The properties on the simulated platform *)

Import Scenario.

(** C1 (amended) at two concrete exits.  Process [P] of [A], configured
    to be restarted, faulted at time 995 and faults again at time 1000: the
    limit is reached, the handler reports StopApp and [P] is not started
    again.  Configured to reboot, with the record "A/P" of an earlier reboot
    present: the limit is reached too, and the record is left as it was. *)
Lemma C1_fault_limit_witness :
  find_pid (ext (running_world PROC_FAULT_ACTION_RESTART 995)) (procs running_A) 100 0 = Some 0
  /\ procs running_A !! 0 = Some (mkProcObj 0 None)
  /\ kill_timer_valid running_A (running_world PROC_FAULT_ACTION_RESTART 995)
  /\ (0 < TIME_T_BITS)%Z /\ fits_time_t 995 /\ fits_time_t 1000
  /\ (exists a' w' evs,
        app_SigChildHandler running_A 100 1 (running_world PROC_FAULT_ACTION_RESTART 995)
        = Ret (APP_FAULT_ACTION_STOP_APP, a', w')
        /\ trace w' = trace (running_world PROC_FAULT_ACTION_RESTART 995)
                      ++ [Ev (ProcSigChildHandler 0 1)] ++ evs
        /\ launches evs = [])
  /\ os_faults recorded_world OS_flock_Open = false
  /\ os_faults recorded_world OS_read = false
  /\ (exists a' w',
        app_SigChildHandler running_A 100 1 recorded_world
        = Ret (APP_FAULT_ACTION_STOP_APP, a', w')
        /\ rebootFaultRecord w' = Some record_A_P).
Proof.
  split; [reflexivity|]. split; [reflexivity|]. split; [exact I|].
  split; [reflexivity|]. split; [unfold fits_time_t; cbn; lia|].
  split; [unfold fits_time_t; cbn; lia|].
  split.
  - pose proof (C1_fault_limit running_A (running_world PROC_FAULT_ACTION_RESTART 995)
                  100 1 0 (mkProcObj 0 None) PROC_FAULT_ACTION_RESTART
                  (snd (perform (ProcSigChildHandler 0 1)
                          (ext (running_world PROC_FAULT_ACTION_RESTART 995))))
                  eq_refl eq_refl eq_refl I) as H.
    destruct H as (_ & _ & _ & _ & Hstop & _).
    destruct (Hstop _ eq_refl) as (a' & w' & evs & Hrun & Htr & Hl & _).
    exists a', w', evs. split; [exact Hrun|]. split; [exact Htr|exact Hl].
  - split; [reflexivity|]. split; [reflexivity|].
    pose proof (C1_fault_limit running_A recorded_world
                  100 1 0 (mkProcObj 0 None) PROC_FAULT_ACTION_REBOOT
                  (snd (perform (ProcSigChildHandler 0 1) (ext recorded_world)))
                  eq_refl eq_refl eq_refl I) as H.
    destruct H as (_ & Hreboot & _ & _ & Hstop & _).
    destruct (Hreboot eq_refl eq_refl eq_refl) as (reached & Hrun & Hiff).
    + intros c [= <-]. apply Nat.ltb_lt. reflexivity.
    + apply Nat.ltb_lt. reflexivity.
    + assert (Hreached : reached = true).
      { apply Hiff. exists record_A_P. split; reflexivity. }
      subst reached.
      destruct (Hstop _ Hrun) as (a' & w' & evs & Hrun' & _ & _ & Hrec).
      exists a', w'. split; [exact Hrun'|exact Hrec].
Defined.

(** C1 as stated fails.  The record "A/P" of an earlier reboot fault of
    process [P] of [A] exists, and [P] faults again with the Reboot action,
    but the record file cannot be read: the fault limit is not reached, and
    the handler reports Reboot, not StopApp. *)
Lemma C1_counterexample :
  rebootFaultRecord no_read_world = Some record_A_P
  /\ cstr record_A_P = cstr (fmt_slash (name running_A) (proc_GetName (ext no_read_world) 0))
  /\ fst (perform (ProcSigChildHandler 0 1) (ext no_read_world)) = PROC_FAULT_ACTION_REBOOT
  /\ returned (ReachedFaultLimit running_A 0 PROC_FAULT_ACTION_REBOOT 0 no_read_world)
     = Some false
  /\ option_map fst (returned (app_SigChildHandler running_A 100 1 no_read_world))
     = Some APP_FAULT_ACTION_REBOOT.
Proof. vm_compute. repeat split. Qed.



(** C3 (amended) at a concrete start: the launcher cannot start the process
    of the stopped application [B]; [app_Start] calls [app_Stop] and
    fails, and [B] is left stopped. *)
Lemma C3_start_failure_witness :
  state app_B = APP_STATE_STOPPED
  /\ (exists w' fns,
        app_Start 1 app_B no_launch_world = Ret (LE_FAULT, app_B, w')
        /\ entered w' = entered no_launch_world ++ fns
        /\ In "app_Stop" fns).
Proof.
  split; [reflexivity|].
  destruct (C3_start_failure 1 app_B no_launch_world eq_refl)
    as (r & a' & w' & fns & Hrun & Hen & _ & _ & Hfault & _ & _ & Hlaunch).
  assert (Hr : r = LE_FAULT).
  { assert (H : returned (app_Start 1 app_B no_launch_world) = Some (LE_FAULT, app_B))
      by reflexivity.
    rewrite Hrun in H. cbn in H. congruence. }
  subst r. destruct (Hfault eq_refl) as (-> & _).
  exists w', fns. split; [exact Hrun|]. split; [exact Hen|].
  apply Hlaunch; reflexivity.
Defined.

(** C3 as stated fails.  The sandbox of the stopped application [B] cannot
    be set up: [app_Start] returns [LE_FAULT], and the only function it
    entered is itself; [app_Stop] was not called. *)
Lemma C3_counterexample :
  state app_B = APP_STATE_STOPPED
  /\ returned (app_Start 1 app_B no_sandbox_world) = Some (LE_FAULT, app_B)
  /\ option_map entered (world_after (app_Start 1 app_B no_sandbox_world))
     = Some ["app_Start"].
Proof. vm_compute. repeat split. Qed.

(** On the simulated platform the polls of the freezer leave the
    launcher's process records as they are. *)
Lemma polls_keep_sprocs (appName : string) (polls : list event) :
  forall e : Sim.t,
    Forall (is_freeze_poll appName) polls ->
    Sim.sprocs (ext_after e polls) = Sim.sprocs e.
Proof.
  induction polls as [|ev polls IH]; intros e Hall; [reflexivity|].
  inversion Hall as [|ev' polls' Hev Hrest]; subst ev' polls'.
  unfold is_freeze_poll in Hev. subst ev. cbn [ext_after].
  rewrite (IH _ Hrest). cbn. destruct (Sim.thawedPolls e); reflexivity.
Qed.



(** C5.  The pool hands out the block of a deleted application that had
    eight supplementary groups.  The sandboxed application [B], whose
    configuration has no group, and the application [A], which is not
    sandboxed, are both constructed with [numSupplementGids] equal to 8 and
    the eight stale gids as supplementary groups: [app_Create] never writes
    the count on these paths.  ([A] does get uid 0 and gid 0.) *)
Lemma C5_count_left_unwritten :
  config_groups "/apps/B" fresh_world = []
  /\ config_sandboxed "/apps/B" fresh_world = true
  /\ config_sandboxed "/apps/A" fresh_world = false
  /\ option_map (option_map (fun b => (numSupplementGids b, supplementary_gids b)))
                (returned (create_after_G8 "/apps/B"))
     = Some (Some (8, [2000; 2001; 2002; 2003; 2004; 2005; 2006; 2007]%Z))
  /\ option_map (option_map (fun a => (uid a, gid a, numSupplementGids a,
                                       supplementary_gids a)))
                (returned (create_after_G8 "/apps/A"))
     = Some (Some (0%Z, 0%Z, 8, [2000; 2001; 2002; 2003; 2004; 2005; 2006; 2007]%Z)).
Proof. vm_compute. repeat split. Qed.



(** C7 at a concrete expiry: the watchdog of process [P] of [A] expires;
    neither [P] nor [A] has a watchdog action; the handler restarts [P] by
    default. *)
Lemma C7_watchdog_timeout_witness :
  (0 < LIMIT_MAX_FAULT_ACTION_NAME_BYTES)%nat
  /\ find_pid (ext (running_world PROC_FAULT_ACTION_RESTART 0)) (procs running_A) 100 0
     = Some 0
  /\ procs running_A !! 0 = Some (mkProcObj 0 None)
  /\ proc_GetWatchdogAction (ext (running_world PROC_FAULT_ACTION_RESTART 0)) 0
     = WATCHDOG_ACTION_NOT_FOUND
  /\ app_watchdog_key running_A (running_world PROC_FAULT_ACTION_RESTART 0) = None
  /\ wdog_action_EnumFromString "" = WATCHDOG_ACTION_NOT_FOUND
  /\ restart_on_stop running_A 100 WATCHDOG_ACTION_ERROR 0 0
       (running_world PROC_FAULT_ACTION_RESTART 0).
Proof.
  assert (Hlim : (0 < LIMIT_MAX_FAULT_ACTION_NAME_BYTES)%nat)
    by (apply Nat.ltb_lt; reflexivity).
  split; [exact Hlim|]. do 5 (split; [reflexivity|]).
  pose proof (C7_watchdog_timeout running_A (running_world PROC_FAULT_ACTION_RESTART 0)
                100 WATCHDOG_ACTION_ERROR Hlim) as H.
  cbv zeta in H. destruct H as (_ & Hfound).
  destruct (Hfound 0%nat (mkProcObj 0 None) eq_refl eq_refl) as (_ & _ & _ & Hdefault).
  apply Hdefault; [left; reflexivity|reflexivity|reflexivity].
Defined.

(** C8 at a concrete start: [A], which is bound to a service of [B], is
    started; the rules set are the seven rules of [A] with itself, the two
    with the framework and the two with [B]. *)
Lemma C8_smack_rules_witness :
  servers_are_app_names (bindings_children app_A stopped_world)
  /\ (exists a' w',
        app_Start 1 app_A stopped_world = Ret (LE_OK, a', w')
        /\ smack_rules_set (trace w')
           = [ ("app.A", "x", "app.Ax"); ("app.A", "w", "app.Aw");
               ("app.A", "wx", "app.Awx"); ("app.A", "r", "app.Ar");
               ("app.A", "rx", "app.Arx"); ("app.A", "rw", "app.Arw");
               ("app.A", "rwx", "app.Arwx");
               ("framework", "w", "app.A"); ("app.A", "rw", "framework");
               ("app.A", "rw", "app.B"); ("app.B", "rw", "app.A") ]).
Proof.
  assert (Hfit : servers_are_app_names (bindings_children app_A stopped_world)).
  { unfold servers_are_app_names.
    set (bs := bindings_children app_A stopped_world). vm_compute in bs. subst bs.
    apply List.Forall_cons; [|apply List.Forall_nil].
    intros s [= <-]. apply Nat.ltb_lt. reflexivity. }
  split; [exact Hfit|].
  assert (Hok : option_map (fun started => fst started)
                  (returned (app_Start 1 app_A stopped_world)) = Some LE_OK)
    by (vm_compute; reflexivity).
  destruct (app_Start 1 app_A stopped_world) as [[[r a'] w']| |] eqn:Hrun;
    [|discriminate Hok..].
  cbn in Hok. injection Hok as ->.
  exists a', w'. split; [reflexivity|].
  destruct (C8_smack_rules 1 app_A a' stopped_world w' Hrun Hfit) as (-> & _).
  reflexivity.
Defined.



(** C10 at two concrete exits.  The last process of the running
    application [A] exits: the final check finds the cgroup empty, cleans
    up and sets the state to Stopped.  A pid that is not of [A] is reported
    while the cgroup of [A] is empty: the action is Ignore and the same
    check sets the state to Stopped. *)
Lemma C10_sigchild_final_check_witness :
  (exists wd w',
     exit_dispatch running_A 100 0
       (set_entered (entered (running_world PROC_FAULT_ACTION_RESTART 0)
                     ++ ["app_SigChildHandler"])
                    (running_world PROC_FAULT_ACTION_RESTART 0))
     = Ret (APP_FAULT_ACTION_IGNORE, wd)
     /\ kill_timer_valid running_A wd
     /\ cgrp_IsEmpty (ext wd) (name running_A) = true
     /\ app_SigChildHandler running_A 100 0 (running_world PROC_FAULT_ACTION_RESTART 0)
        = Ret (APP_FAULT_ACTION_IGNORE, set_state APP_STATE_STOPPED running_A, w')
     /\ trace w' = trace wd ++ cleanup_calls running_A)
  /\ find_pid (ext stopped_world) (procs running_A) 999 0 = None
  /\ kill_timer_valid running_A stopped_world
  /\ cgrp_IsEmpty (ext stopped_world) (name running_A) = true
  /\ (exists w',
        app_SigChildHandler running_A 999 0 stopped_world
        = Ret (APP_FAULT_ACTION_IGNORE, set_state APP_STATE_STOPPED running_A, w')
        /\ trace w' = trace stopped_world ++ cleanup_calls running_A).
Proof.
  split.
  - pose proof (C10_sigchild_final_check running_A
                  (running_world PROC_FAULT_ACTION_RESTART 0) 100 0) as H.
    cbv zeta in H. destruct H as (Hany & _).
    set (wd := snd (run (exit_dispatch running_A 100 0
                           (set_entered (entered (running_world PROC_FAULT_ACTION_RESTART 0)
                                         ++ ["app_SigChildHandler"])
                                        (running_world PROC_FAULT_ACTION_RESTART 0)))
                        APP_FAULT_ACTION_IGNORE)).
    assert (Hd : exit_dispatch running_A 100 0
                   (set_entered (entered (running_world PROC_FAULT_ACTION_RESTART 0)
                                 ++ ["app_SigChildHandler"])
                                (running_world PROC_FAULT_ACTION_RESTART 0))
                 = Ret (APP_FAULT_ACTION_IGNORE, wd)) by reflexivity.
    destruct (Hany APP_FAULT_ACTION_IGNORE wd Hd I) as (Hempty & _).
    destruct (Hempty eq_refl) as (w' & Hrun & Htr & _).
    exists wd, w'. split; [exact Hd|]. split; [exact I|]. split; [reflexivity|].
    split; [exact Hrun|exact Htr].
  - split; [reflexivity|]. split; [exact I|]. split; [reflexivity|].
    pose proof (C10_sigchild_final_check running_A stopped_world 999 0) as H.
    cbv zeta in H. destruct H as (_ & Hstray).
    destruct (Hstray eq_refl I eq_refl) as (w' & Hrun & Htr & _).
    exists w'. split; [exact Hrun|exact Htr].
Defined.

(** The count that [app_Create] does not write, at a concrete
    construction: the pool hands out a block that held three supplementary
    groups; the sandboxed application [B], which has no group, is
    constructed with a count of three. *)
Lemma app_Create_count_not_written_witness :
  config_groups "/apps/B" world = []
  /\ numSupplementGids (fst (perform LeMemForceAlloc_App (ext world))) = 3
  /\ (exists b w', app_Create "/apps/B" world = Ret (Some b, w')
                   /\ numSupplementGids b = 3).
Proof.
  split; [reflexivity|]. split; [reflexivity|].
  assert (Hsome : option_map (fun created => match created with Some _ => true | None => false end)
                    (returned (app_Create "/apps/B" world)) = Some true)
    by (vm_compute; reflexivity).
  destruct (app_Create "/apps/B" world) as [[[b|] w']| |] eqn:Hrun;
    try discriminate Hsome.
  exists b, w'. split; [reflexivity|].
  destruct (app_Create_count_not_written "/apps/B" world w' b Hrun (or_intror eq_refl))
    as (Hcount & _).
  rewrite Hcount. reflexivity.
Defined.

(** The record read back, at a concrete record: [WriteRebootFaultRec] for
    process [P] of [A] writes "A/P" and its NUL; the record is then
    recognised for [P] of [A] and not for the process of [B]. *)
Lemma reboot_record_round_trip_witness :
  os_faults (running_world PROC_FAULT_ACTION_REBOOT 0) OS_flock_Create = false
  /\ os_faults (running_world PROC_FAULT_ACTION_REBOOT 0) OS_write = false
  /\ os_faults (running_world PROC_FAULT_ACTION_REBOOT 0) OS_flock_Open = false
  /\ os_faults (running_world PROC_FAULT_ACTION_REBOOT 0) OS_read = false
  /\ (String.length (fault_record_text running_A 0
                       (ext (running_world PROC_FAULT_ACTION_REBOOT 0))) + 1
      < LIMIT_MAX_PATH_BYTES)%nat
  /\ WriteRebootFaultRec running_A 0 (running_world PROC_FAULT_ACTION_REBOOT 0)
     = Ret (tt, recorded_world)
  /\ isRebootFaultRecFor running_A 0 recorded_world = Ret (true, recorded_world)
  /\ isRebootFaultRecFor app_B 0 recorded_world = Ret (false, recorded_world).
Proof.
  set (w := running_world PROC_FAULT_ACTION_REBOOT 0).
  assert (Hfit : (String.length (fault_record_text running_A 0 (ext w)) + 1
                  < LIMIT_MAX_PATH_BYTES)%nat) by (apply Nat.ltb_lt; reflexivity).
  destruct (reboot_record_round_trip running_A 0 w eq_refl eq_refl eq_refl eq_refl Hfit)
    as (Hwrite & Hread & _ & Hother).
  split; [reflexivity|]. split; [reflexivity|]. split; [reflexivity|].
  split; [reflexivity|]. split; [exact Hfit|].
  split; [exact Hwrite|]. split; [exact Hread|].
  apply (Hother app_B 0).
  - apply Nat.ltb_lt. reflexivity.
  - vm_compute. discriminate.
Defined.

(** The record at the bounds of a path buffer of 512 bytes.  Under a name
    of 509 characters the text of [A] and [P] fills the buffer with its
    NUL: it is written, and is not recognised when read back.  Under a name
    of 510 characters [WriteRebootFaultRec] ends the Supervisor. *)
Lemma reboot_record_bounds_witness :
  os_faults (running_world PROC_FAULT_ACTION_REBOOT 0) OS_flock_Create = false
  /\ (String.length (fault_record_text (long_A 509) 0
                       (ext (running_world PROC_FAULT_ACTION_REBOOT 0))) + 1
      = LIMIT_MAX_PATH_BYTES)%nat
  /\ (exists w', WriteRebootFaultRec (long_A 509) 0 (running_world PROC_FAULT_ACTION_REBOOT 0)
                 = Ret (tt, w')
                 /\ isRebootFaultRecFor (long_A 509) 0 w' = Ret (false, w'))
  /\ (LIMIT_MAX_PATH_BYTES
      < String.length (fault_record_text (long_A 510) 0
                         (ext (running_world PROC_FAULT_ACTION_REBOOT 0))) + 1)%nat
  /\ WriteRebootFaultRec (long_A 510) 0 (running_world PROC_FAULT_ACTION_REBOOT 0) = Fatal.
Proof.
  set (w := running_world PROC_FAULT_ACTION_REBOOT 0).
  assert (Hexact : (String.length (fault_record_text (long_A 509) 0 (ext w)) + 1
                    = LIMIT_MAX_PATH_BYTES)%nat) by (vm_compute; reflexivity).
  assert (Hover : (LIMIT_MAX_PATH_BYTES
                   < String.length (fault_record_text (long_A 510) 0 (ext w)) + 1)%nat)
    by (apply Nat.ltb_lt; vm_compute; reflexivity).
  split; [reflexivity|]. split; [exact Hexact|]. split.
  - destruct (reboot_record_bounds (long_A 509) 0 w eq_refl) as (Hat & _).
    destruct (Hat Hexact eq_refl eq_refl eq_refl) as (Hwrite & Hread).
    eexists. split; [exact Hwrite|]. apply Hread.
  - split; [exact Hover|].
    destruct (reboot_record_bounds (long_A 510) 0 w eq_refl) as (_ & Hfatal).
    exact (Hfatal Hover).
Defined.

(** The record on a failing file system.  While the record "A/P" exists
    and the file cannot be written, [WriteRebootFaultRec] leaves an empty
    file, which is recognised for no process; while the file cannot be
    read, the record "A/P" is not recognised for [P] of [A]. *)
Lemma reboot_record_io_failures_witness :
  os_faults no_write_world OS_flock_Create = false
  /\ os_faults no_write_world OS_write = true
  /\ rebootFaultRecord no_write_world = Some record_A_P
  /\ (exists w', WriteRebootFaultRec running_A 0 no_write_world = Ret (tt, w')
                 /\ rebootFaultRecord w' = Some ""
                 /\ isRebootFaultRecFor running_A 0 w' = Ret (false, w'))
  /\ os_faults no_read_world OS_read = true
  /\ rebootFaultRecord no_read_world = Some record_A_P
  /\ isRebootFaultRecFor running_A 0 no_read_world = Ret (false, no_read_world).
Proof.
  split; [reflexivity|]. split; [reflexivity|]. split; [reflexivity|]. split.
  - destruct (reboot_record_io_failures running_A 0 no_write_world) as (_ & Hw & _).
    assert (Hfit : (String.length (fault_record_text running_A 0 (ext no_write_world)) + 1
                    <= LIMIT_MAX_PATH_BYTES)%nat) by (apply Nat.leb_le; reflexivity).
    destruct (Hw eq_refl eq_refl Hfit) as (Hwrite & Hread).
    eexists. split; [exact Hwrite|]. split; [reflexivity|].
    apply (Hread eq_refl eq_refl running_A 0).
    + apply Nat.ltb_lt. reflexivity.
    + vm_compute. discriminate.
  - split; [reflexivity|]. split; [reflexivity|].
    destruct (reboot_record_io_failures running_A 0 no_read_world) as (_ & _ & Hr).
    apply Hr. right. reflexivity.
Defined.

(** The fault action of a concrete exit: process [P] of [A], configured to
    be restarted, exits with status 1, the fault limit is not reached; the
    launcher is asked once to start [P] again, from the install path of
    [A], and the fault action reported is Ignore. *)
Lemma sigchild_fault_actions_witness :
  find_pid (ext (running_world PROC_FAULT_ACTION_RESTART 0)) (procs running_A) 100 0 = Some 0
  /\ procs running_A !! 0 = Some (mkProcObj 0 None)
  /\ fst (perform (ProcSigChildHandler 0 1) (ext (running_world PROC_FAULT_ACTION_RESTART 0)))
     = PROC_FAULT_ACTION_RESTART
  /\ kill_timer_valid running_A (running_world PROC_FAULT_ACTION_RESTART 0)
  /\ (exists a' w' evs,
        app_SigChildHandler running_A 100 1 (running_world PROC_FAULT_ACTION_RESTART 0)
        = Ret (APP_FAULT_ACTION_IGNORE, a', w')
        /\ launches (trace w')
           = launches (trace (running_world PROC_FAULT_ACTION_RESTART 0)
                       ++ [Ev (ProcSigChildHandler 0 1)]) ++ evs
        /\ evs = [Ev (ProcStart 0 "/opt/legato/apps/A")]).
Proof.
  split; [reflexivity|]. split; [reflexivity|]. split; [reflexivity|]. split; [exact I|].
  pose proof (sigchild_fault_actions running_A (running_world PROC_FAULT_ACTION_RESTART 0)
                100 1 0 (mkProcObj 0 None) PROC_FAULT_ACTION_RESTART
                (snd (perform (ProcSigChildHandler 0 1)
                        (ext (running_world PROC_FAULT_ACTION_RESTART 0))))
                eq_refl eq_refl eq_refl I) as H.
  destruct H as (fa & a' & w' & evs & Hrun & Htr & Hfa & Hl).
  - vm_compute. reflexivity.
  - discriminate.
  - exists a', w', (launches evs). split.
    + rewrite Hrun, Hfa. reflexivity.
    + split; [|exact Hl]. rewrite Htr. unfold launches.
      rewrite List.filter_app. reflexivity.
Defined.

(** A concrete watchdog expiry: process [P] of [A] has no watchdog action
    and [A] has no key for one; the empty string is read, the watchdog
    module answers NotFound for it, and [P] is killed to be restarted. *)
Lemma watchdog_every_action_witness :
  (0 < LIMIT_MAX_FAULT_ACTION_NAME_BYTES)%nat
  /\ find_pid (ext (running_world PROC_FAULT_ACTION_RESTART 0)) (procs running_A) 100 0 = Some 0
  /\ procs running_A !! 0 = Some (mkProcObj 0 None)
  /\ proc_GetWatchdogAction (ext (running_world PROC_FAULT_ACTION_RESTART 0)) 0
     = WATCHDOG_ACTION_NOT_FOUND
  /\ app_watchdog_key running_A (running_world PROC_FAULT_ACTION_RESTART 0) = None
  /\ wdog_action_EnumFromString "" = WATCHDOG_ACTION_NOT_FOUND
  /\ restart_on_stop running_A 100 WATCHDOG_ACTION_ERROR 0 0
       (running_world PROC_FAULT_ACTION_RESTART 0).
Proof.
  assert (Hlim : (0 < LIMIT_MAX_FAULT_ACTION_NAME_BYTES)%nat) by (apply Nat.ltb_lt; reflexivity).
  split; [exact Hlim|]. split; [reflexivity|]. split; [reflexivity|].
  split; [reflexivity|]. split; [reflexivity|]. split; [reflexivity|].
  pose proof (watchdog_every_action running_A (running_world PROC_FAULT_ACTION_RESTART 0)
                100 WATCHDOG_ACTION_ERROR 0 (mkProcObj 0 None) Hlim eq_refl eq_refl) as H.
  destruct H as (_ & Hfall).
  destruct (Hfall (or_introl eq_refl)) as (_ & _ & Hnone).
  exact (Hnone eq_refl).
Defined.

(** A concrete start: [app_Start] on the stopped application [B] succeeds
    and starts its one process, once, in the sandbox of [B] with the ids of
    [B]; no signal is sent. *)
Lemma app_Start_launches_witness :
  state app_B = APP_STATE_STOPPED
  /\ (exists a' w' evs,
        app_Start 1 app_B stopped_world = Ret (LE_OK, a', w')
        /\ trace w' = trace stopped_world ++ evs
        /\ launches evs
           = [Ev (ProcStartInSandbox 0 "/" 1001 1001 [0; 0; 0; 0; 0; 0; 0; 0]%Z 0
                                     "/tmp/legato/sandboxes/B")]
        /\ group_signals evs = []).
Proof.
  split; [reflexivity|].
  destruct (app_Start_launches 1 app_B stopped_world eq_refl)
    as (r & a' & w' & evs & fns & k & Hrun & Htr & _ & _ & Hall & Hsig & _).
  assert (Hr : r = LE_OK).
  { assert (H : option_map fst (returned (app_Start 1 app_B stopped_world)) = Some LE_OK)
      by (vm_compute; reflexivity).
    rewrite Hrun in H. cbn in H. congruence. }
  subst r. exists a', w', evs. split; [exact Hrun|]. split; [exact Htr|].
  split; [exact (Hall eq_refl)|exact Hsig].
Defined.

(** A concrete second start: [app_Start] on [B] succeeds, and
    [app_Start] on the application it returned is refused and does
    nothing. *)
Lemma app_Start_twice_witness :
  app_Start 1 app_B stopped_world = Ret (LE_OK, started_B, started_world)
  /\ app_Start 1 started_B started_world
     = Ret (LE_FAULT, started_B,
            set_entered (entered started_world ++ ["app_Start"]) started_world).
Proof.
  assert (Hrun : app_Start 1 app_B stopped_world = Ret (LE_OK, started_B, started_world))
    by (vm_compute; reflexivity).
  split; [exact Hrun|].
  exact (app_Start_twice 1 1 app_B started_B stopped_world started_world Hrun).
Defined.

(** The calls of a concrete hard kill of the running application [A]:
    freeze, one poll, the notice for [P], SIGKILL, thaw. *)
Lemma KillAppProcs_protocol_witness :
  freeze_ends 1 running_A (running_world PROC_FAULT_ACTION_RESTART 0)
  /\ (exists a' w',
        KillAppProcs 1 running_A KILL_HARD (running_world PROC_FAULT_ACTION_RESTART 0)
        = Ret (LE_OK, a', w')
        /\ trace w' = [Ev (CgrpFrzFreeze "A"); Ev (CgrpFrzGetState "A"); Ev (ProcStopping 0);
                       Ev (CgrpSendSig "A" SIGKILL); Ev (CgrpFrzThaw "A")]).
Proof.
  assert (Hfreeze : freeze_ends 1 running_A (running_world PROC_FAULT_ACTION_RESTART 0)).
  { intros _. vm_compute. exact I. }
  split; [exact Hfreeze|].
  destruct (KillAppProcs_protocol 1 running_A KILL_HARD
              (running_world PROC_FAULT_ACTION_RESTART 0) Hfreeze)
    as (r & a' & w' & polls & Hrun & Hpolls & _ & Htr & _ & Hok).
  assert (Hr : option_map (fun x => fst (fst x))
                 (Some (r, a', w')) = Some LE_OK).
  { assert (H : option_map fst (returned (KillAppProcs 1 running_A KILL_HARD
                                   (running_world PROC_FAULT_ACTION_RESTART 0))) = Some LE_OK)
      by (vm_compute; reflexivity).
    rewrite Hrun in H. exact H. }
  cbn in Hr. injection Hr as ->.
  assert (Ht : option_map trace (world_after (KillAppProcs 1 running_A KILL_HARD
                                   (running_world PROC_FAULT_ACTION_RESTART 0)))
               = Some [Ev (CgrpFrzFreeze "A"); Ev (CgrpFrzGetState "A"); Ev (ProcStopping 0);
                       Ev (CgrpSendSig "A" SIGKILL); Ev (CgrpFrzThaw "A")])
    by (vm_compute; reflexivity).
  rewrite Hrun in Ht. cbn in Ht. injection Ht as Ht.
  exists a', w'. split; [exact Hrun|exact Ht].
Defined.

(** A concrete stop: [app_Stop] on the running application [A], at time
    0, signals process [P]; [A] stays Running and gets the kill timer 0, a
    running timer for [HardKillApp] due at 300 milliseconds. *)
Lemma app_Stop_running_witness :
  state running_A = APP_STATE_RUNNING
  /\ kill_timer_valid running_A (running_world PROC_FAULT_ACTION_RESTART 0)
  /\ freeze_ends 1 running_A (running_world PROC_FAULT_ACTION_RESTART 0)
  /\ (exists a' w' tm,
        app_Stop 1 running_A (running_world PROC_FAULT_ACTION_RESTART 0) = Ret (a', w')
        /\ state a' = APP_STATE_RUNNING
        /\ killTimer a' = Some 0 /\ timers w' !! 0 = Some tm /\ tm_running tm = true
        /\ tm_handler tm = Some Timer_HardKillApp
        /\ tm_expiry tm = Some 300000%Z).
Proof.
  assert (Hfreeze : freeze_ends 1 running_A (running_world PROC_FAULT_ACTION_RESTART 0)).
  { intros _. vm_compute. exact I. }
  split; [reflexivity|]. split; [exact I|]. split; [exact Hfreeze|].
  destruct (app_Stop_running 1 running_A (running_world PROC_FAULT_ACTION_RESTART 0)
              eq_refl I Hfreeze)
    as (r & a1 & w1 & a' & w' & Hkill & Hrun & _ & Hok).
  assert (Hr : r = LE_OK).
  { assert (H : option_map fst (returned (KillAppProcs 1 running_A KILL_SOFT
                  (set_entered (entered (running_world PROC_FAULT_ACTION_RESTART 0)
                                ++ ["app_Stop"])
                     (running_world PROC_FAULT_ACTION_RESTART 0)))) = Some LE_OK)
      by (vm_compute; reflexivity).
    rewrite Hkill in H. cbn in H. congruence. }
  destruct (Hok Hr) as (Hst & _ & t & tm & Hkt & Htm & Hrunning & Hnew & _).
  destruct (Hnew eq_refl) as (-> & Hh & _ & Hexp).
  exists a', w', tm. split; [exact Hrun|]. split; [exact Hst|]. split; [exact Hkt|].
  split; [exact Htm|]. split; [exact Hrunning|]. split; [exact Hh|exact Hexp].
Defined.

(** A concrete construction: the application built for "/apps/B" is named
    "B", is sandboxed and Stopped, has the install path and the sandbox
    path of "B", the uid of its user, and one process. *)
Lemma app_Create_fields_witness :
  app_Create "/apps/B" fresh_world = Ret (Some (created_app "/apps/B"), created_world "/apps/B")
  /\ app_GetName (created_app "/apps/B") = "B"
  /\ app_GetIsSandboxed (created_app "/apps/B") = true
  /\ app_GetState (created_app "/apps/B") = APP_STATE_STOPPED
  /\ app_GetInstallDirPath (created_app "/apps/B") = "/opt/legato/apps/B"
  /\ app_GetSandboxPath (created_app "/apps/B") = "/tmp/legato/sandboxes/B"
  /\ app_GetUid (created_app "/apps/B") = 1001%Z
  /\ length (procs (created_app "/apps/B")) = 1%nat.
Proof.
  assert (Hrun : app_Create "/apps/B" fresh_world
                 = Ret (Some (created_app "/apps/B"), created_world "/apps/B"))
    by (vm_compute; reflexivity).
  split; [exact Hrun|].
  pose proof (app_Create_fields "/apps/B" fresh_world (created_world "/apps/B")
                (created_app "/apps/B") Hrun) as H.
  destruct H as (_ & Hname & Hstate & _ & Hsb & Hinst & Hsand & _ & Hprocs).
  destruct (Hsand eq_refl) as (Hpath & Huid & _).
  split; [exact Hname|]. split; [exact Hsb|]. split; [exact Hstate|].
  split; [exact Hinst|]. split; [exact Hpath|]. split; [exact Huid|exact Hprocs].
Defined.

(** A concrete construction with groups: the application built for
    "/apps/G8", which lists eight groups, stores the count 8 and the eight
    gids the user module answered, in their order. *)
Lemma app_Create_group_ids_witness :
  app_Create "/apps/G8" fresh_world
  = Ret (Some (created_app "/apps/G8"), created_world "/apps/G8")
  /\ config_sandboxed "/apps/G8" fresh_world = true
  /\ (1 <= LIMIT_MAX_NUM_SUPPLEMENTARY_GROUPS)%nat
  /\ config_groups "/apps/G8" fresh_world <> []
  /\ length (supplementGids (fst (perform LeMemForceAlloc_App (ext fresh_world))))
     = LIMIT_MAX_NUM_SUPPLEMENTARY_GROUPS
  /\ numSupplementGids (created_app "/apps/G8") = 8%nat
  /\ supplementary_gids (created_app "/apps/G8")
     = [2000; 2001; 2002; 2003; 2004; 2005; 2006; 2007]%Z.
Proof.
  assert (Hrun : app_Create "/apps/G8" fresh_world
                 = Ret (Some (created_app "/apps/G8"), created_world "/apps/G8"))
    by (vm_compute; reflexivity).
  assert (Hcap : (1 <= LIMIT_MAX_NUM_SUPPLEMENTARY_GROUPS)%nat)
    by (apply Nat.leb_le; reflexivity).
  assert (Hne : config_groups "/apps/G8" fresh_world <> []) by (vm_compute; discriminate).
  split; [exact Hrun|]. split; [reflexivity|]. split; [exact Hcap|]. split; [exact Hne|].
  split; [reflexivity|].
  pose proof (app_Create_group_ids "/apps/G8" fresh_world (created_world "/apps/G8")
                (created_app "/apps/G8") Hrun eq_refl Hcap Hne eq_refl) as H.
  destruct H as (Hcount & _ & _ & Hgids).
  split; [rewrite Hcount; reflexivity|]. rewrite Hgids. vm_compute. reflexivity.
Defined.

(** A concrete refusal: the second group of "/apps/L" has a name of 32
    characters, which does not fit a user-name buffer of 32 bytes, and
    [app_Create] returns [NULL]. *)
Lemma app_Create_group_refused_witness :
  config_sandboxed "/apps/L" long_group_world = true
  /\ (1 <= LIMIT_MAX_NUM_SUPPLEMENTARY_GROUPS)%nat
  /\ In (long_name 32, CfgEmpty) (config_groups "/apps/L" long_group_world)
  /\ group_refused (long_name 32)
  /\ (exists w', app_Create "/apps/L" long_group_world = Ret (None, w')).
Proof.
  assert (Hcap : (1 <= LIMIT_MAX_NUM_SUPPLEMENTARY_GROUPS)%nat)
    by (apply Nat.leb_le; reflexivity).
  assert (Hin : In (long_name 32, CfgEmpty) (config_groups "/apps/L" long_group_world)).
  { right. left. reflexivity. }
  assert (Hlong : group_refused (long_name 32)).
  { left. apply Nat.leb_le. reflexivity. }
  split; [reflexivity|]. split; [exact Hcap|]. split; [exact Hin|]. split; [exact Hlong|].
  exact (app_Create_group_refused "/apps/L" long_group_world (long_name 32, CfgEmpty)
           eq_refl Hcap Hin Hlong).
Defined.

(** A concrete transition to Stopped: the last process of the running
    application [A] exits; the handler leaves [A] Stopped and its last
    calls are those of [CleanupApp]. *)
Lemma state_transitions_witness :
  state running_A = APP_STATE_RUNNING
  /\ (exists a' w' tr,
        app_SigChildHandler running_A 100 0 (running_world PROC_FAULT_ACTION_RESTART 0)
        = Ret (APP_FAULT_ACTION_IGNORE, a', w')
        /\ state a' = APP_STATE_STOPPED
        /\ trace w' = tr ++ cleanup_calls running_A).
Proof.
  split; [reflexivity|].
  destruct (app_SigChildHandler running_A 100 0 (running_world PROC_FAULT_ACTION_RESTART 0))
    as [[[fa a'] w']| |] eqn:Hrun; [|vm_compute in Hrun; discriminate Hrun..].
  assert (Hfa : option_map (fun x => (fst x, state (snd x)))
                  (returned (app_SigChildHandler running_A 100 0
                               (running_world PROC_FAULT_ACTION_RESTART 0)))
                = Some (APP_FAULT_ACTION_IGNORE, APP_STATE_STOPPED))
    by (vm_compute; reflexivity).
  rewrite Hrun in Hfa. cbn in Hfa. injection Hfa as -> Hst.
  destruct (state_transitions 1 running_A a' (running_world PROC_FAULT_ACTION_RESTART 0) w')
    as (Hstop & _).
  destruct Hstop as (_ & Hclean).
  { right. exists 100%Z, 0%Z, APP_FAULT_ACTION_IGNORE. exact Hrun. }
  destruct (Hclean eq_refl Hst) as (tr & Htr).
  exists a', w', tr. split; [reflexivity|]. split; [exact Hst|exact Htr].
Defined.

